(* ===== verification/_CoqProject ===== *)
-Q . S2P
Prelude.v
State.v
Partial.v
ReplayWindow.v
LinkedQueue.v
OutQueue.v
TaskHeap.v
RateLimiter.v
Metrics.v
Crypto.v
ServerKey.v
Wire.v
Text.v
Logging.v
Fragment.v
Clock.v
Report.v
EpollHandler.v
Server.v
Handshake.v
PacketProcessor.v
Scheduler.v
ThreadPool.v
EventLoop.v
Pacing.v
ServerLogic.v
HandshakeProofs.v
DataPath.v
Refused.v
Reassembly.v
SchedulerProofs.v
Safety.v
Shutdown.v
ServerMain.v
ServerRun.v
ServerStart.v
Numbers.v
NumbersRun.v
Once.v
ClientOptions.v
Client.v
ClientHandshake.v
Sender.v
ClientLoop.v
ClientLogic.v
ClientData.v
ClientHandshakeProofs.v
SenderProofs.v
ClientSafety.v
EndToEnd.v
ClientDemo.v
Demo.v
ServerDemo.v
NumbersDemo.v
EndToEndDemo.v
Findings.v
ClientFindings.v
