(* ===== verification/Prelude.v ===== *)
(** * Chamlon: a verification of the VPN's server and client

    Chamlon is a VPN over UDP.  A client authenticates the server by its Ed25519 key,
    agrees on a session with two Diffie-Hellman exchanges (MSG1, MSG2), and from then
    on both ends carry IP packets between their TUN devices: cut into fragments, sealed
    with ChaCha20-Poly1305, numbered, and optionally padded and paced so that an
    observer sees a constant stream.  Sessions are re-keyed at intervals.

    This library models both programs, chamlon_server/src and chamlon_client/src,
    definition by definition, and proves what each part promises and that they work
    together.

    ** Files

    Foundations.
    - Prelude (this file): undefined behaviour as the error monad [outcome], machine
      integers, bytes and their encodings, C buffers, record updates, shared lemmas.
    - State: programs on an explicit state, [ST], and the rules of [runs m w Q]: from
      [w], [m] is defined and ends in [Q].  A proof of [runs] is a proof that the code
      returns and never reaches undefined behaviour.
    - Partial: triples for the runs that are defined, [holds P m Q], and invariants,
      [preserves I m], which the tactic [preserves] proves along the structure of [m].
    - Clock: instants, and binary64 arithmetic by the Standard Library's specification
      of floating point.
    - Text: the C library's scanning and printing of numbers and strings.  Logging:
      vpn_log.c, the file of connections, and the line of vpn_log.h.

    Components that both programs share (the client's vpn_replay_window.c, vpn_queue.c,
    vpn_crypto.c and vpn_reassembly.c repeat the server's code; the definitions name
    the server's files).
    - ReplayWindow: replay_window.c, the bitmap word by word.
    - LinkedQueue, OutQueue: the linked queue of scheduler.c on a heap of nodes, the
      two-lane send queue built from it and classify_packet, refined to [aqueue], which
      sessions and the client hold.
    - Crypto: vpn_crypto.c over libsodium, whose functions are the class [Sodium] and
      whose documented behaviour is the class [SodiumLaws].
    - Wire: the packed headers, data packets, padding; the events a program emits.
    - Fragment: reassembly entries and the pieces of a packet.

    Server.
    - TaskHeap: the priority queue of scheduler.c, an array heap that grows.
    - RateLimiter: rate_limiter.c.  Metrics: metrics.c.  Report: the text its reports
      print.
    - EpollHandler: epoll_handler.c, over the class [Epoll] of what the kernel does.
    - ServerKey: load_or_create_server_key of handshake.c, on a key file written through
      a buffered stream.
    - Server: session.c, packet.c, fragment.c on the state [world]: the session table,
      the limiter, the metrics and whether their mutex still exists, the scheduler's
      shards, the clocks, the results of allocations and sends to come, and the trace of datagrams and TUN writes.
    - Handshake: handle_msg1 and handle_rehandshake_msg1 of handshake.c.
    - PacketProcessor: packet_processor.c.  Scheduler: scheduler.c.
    - ThreadPool: thread_pool.c.  EventLoop: what the loop of vpn_server.c does with one
      datagram, one packet, one job.  Shutdown: graceful_shutdown.c.
    - ServerMain: main of vpn_server.c from its arguments to its return, and vpn_tun.c.
      Start-up runs on [host], whose system calls' results are the record [replies];
      the running program is [program]: the [world], the pool with its heap of nodes,
      and main's phase.  Its steps ([act]) are an iteration of main's event loop or
      drain loop, a worker's turn, and a scheduler's turn, in any order.
    - Pacing, ServerLogic, HandshakeProofs, DataPath, Refused, Reassembly,
      SchedulerProofs, Safety: the server's invariant [world_ok] and the properties of
      its handlers.  ServerRun, ServerStart: the invariant [program_ok] of the whole
      program, its runs, and its start-up.
    - Numbers, NumbersRun: no sequence number is used twice, by the server's operations
      and by the program.  Once: no data datagram takes effect twice.

    Client.
    - ClientOptions: parse_arguments of vpn_client.c and hex2bin of vpn_utils.c.
    - Client: the globals as the record [client]; vpn_packet_handler.c,
      vpn_reassembly.c, send_disconnect of vpn_client.c, packet_padding of vpn_utils.c.
    - ClientHandshake: vpn_handshake.c.  Sender: vpn_sender_thread.c.
    - ClientLoop: vpn_event_loop.c, the rest of vpn_client.c, vpn_utils.c, vpn_tun.c.
    - ClientLogic, ClientData, ClientHandshakeProofs, SenderProofs, ClientSafety: the
      client's invariant [client_ok] and its properties.

    Both.
    - EndToEnd: command lines and keys, the key exchange, the rehandshake, and the data
      path across the two programs.
    - Demo, ServerDemo, NumbersDemo, ClientDemo, EndToEndDemo: a concrete server launched
      by its own [server_main], a concrete client started by its own [main_start], and
      the theorems applied to them, on a concrete model of libsodium, [toy_sodium].
    - Findings, ClientFindings: surprising behaviours, each computed or proved.

    ** What the theorems show

    - Safety (C1, C2): from the command line on, after any sequence of permitted steps of
      any of its threads, neither program reaches undefined behaviour and its invariant
      holds.  What is not permitted is where the code does have undefined behaviour, or is
      not shown to be free of it: for the server, datagrams of 6 to 29 bytes, payloads
      that open to a length no honest peer states, a turn of the scheduler while a session
      has lost its queue in a failed rotation, and the end of main with a session in use;
      for the client, such payloads, and packet counts near the end of an int.
    - Two programs (C3 to C7): they agree on keys, id, address and parameters, whatever
      arrives meanwhile but datagrams of the handshake type or without a header; a packet
      read from one TUN device is written to the other, in both directions; a
      rehandshake renews the keys of both; the client reaches the address and key that
      the server was started with.
    - Nonces and replay (C8, C9): in every run of the server the data datagrams sent and
      queued carry distinct pairs of session id and number, through handshakes,
      rotations, expiry and shutdown.  It assumes that the ids drawn (16-byte hashes of
      fresh random keys) do not repeat and that no counter has run past 64 bits, and its
      steps are whole handlers; Findings and ClientFindings show that a rotation inside
      a handler breaks it, in both programs.  In every run a data datagram that has
      taken effect never does again, as long as its session's id is not drawn again
      and main has not returned.
    - What is refused (C10 to C14): a datagram that is malformed, stray, replayed or
      forged changes nothing on either side, the server's limiter, metrics and the
      activity time of the session named aside (the server's packets of 6 to 29 bytes for
      a session in use are excepted: they are read past their end); no number is accepted twice; the bitmap
      implements the set of numbers received; a rehandshake of the client is
      authenticated or changes nothing.
    - The server's handlers (C15 to C17, C21, C22): what each handshake installs; every
      datagram of at least 30 bytes, or less than 6, is handled without undefined
      behaviour; a packet is cut, sealed, numbered, and put together again, with the whole
      state that results.
    - The server's program (C18 to C20, C23): queue and worker do to a datagram what the
      handler alone would; a shutdown runs every accepted job and, if no session is in
      use by then, completes, in every schedule that gives the workers their turns, and
      otherwise ends on a destroyed mutex; start-up succeeds exactly when it can; the pool
      is a FIFO per worker.
    - Pacing (C24 to C28): a turn of the server's scheduler and of the client's sender
      thread, with its deadlines; a paced slot always sends one datagram of one size, an
      unpaced one the whole queue, and the client's thread its whole queue in both modes;
      the interval matches the rate to one nanosecond in binary64.
    - The components (C29 to C36): the server's identity across starts, failed writes and
      a file that loses buffered bytes; the heap is that of a multiset of tasks; the linked queue is the abstract
      two-lane queue; the limiter is a map from addresses, a token bucket admits at most
      its burst plus its rate, a blacklisted address stays out.
    - Sessions (C37, C38): expiry and the drain are exact.  The client's rehandshake
      backs off and gives up (C39); its options are well-typed (C40).

    Besides these, theorems without a number: distinct numbers give distinct nonces,
    in-order traffic is never refused,
    destruction frees every node of a queue, backpressure is bounded, the health verdict
    and the latency statistics are exact, the lookup by VPN address, one worker per
    session, the clean-up, the text of the report can be read back, the log of
    connections is complete, the epoll wrapper keeps a watch list, and what the client
    runs and closes at its end.

    ** Conventions and bounds

    - An operation of the code is a definition of the same name.  Loops are Fixpoints on
      the data, or on fuel: the fragment loops take the packet's length, the drain loops
      the queue's size, and the theorems prove the result from that fuel, so that
      [NoFuel] never occurs.
    - Integers are [Z] with their wrap-around written out ([u16], [u32], [u64]);
      overflow of [int] is [SignedOverflow].
    - Results of malloc, sendto and write are lists in the state, so that every failure
      path is a run of the model; an empty list means that all succeed.
    - A handler runs to completion and reads one clock: the mutexes that make this so
      are not part of the state, but for the existence of that of the metrics, which main
      destroys before its last use.  The server's steps are an iteration of main, a turn of
      a worker and a turn of a scheduler's thread; the client's are an iteration of its
      loop, a turn of its sender thread and a signal.  The wait for MSG2 is a script of
      what [select] and [recvfrom] return, with the time of each turn.
    - Fresh memory and uninitialised fields hold arbitrary bytes ([junk]) where the code
      reads or sends them.
    - Hypotheses on the environment: datagrams that open under the keys of a session in
      use ([honest_packet]), or under the keys the client holds or gains in that iteration
      ([honest_datagram], [honest_iteration]), state a total length of at most 2500;
      without it the code reads past its buffer, as Findings shows.

    ** Not modelled

    - The system: what epoll, sockets, /dev/net/tun and the commands run by the programs
      do.  Their results are inputs; the commands, what is closed and what is printed
      are events.  Socket options, CPU pinning and the
      messages that handlers log have no effect on the model.
      inet_aton and the local time are parameters; the script of a rehandshake begins
      after flush_socket_buffer.  A signal to the server calls exit(0) and
      ends its run.  The graphical front end is left out.
    - libsodium, a parameter.
    - The condition variable of a worker: a schedule may give any worker a turn, and
      what is proved of a shutdown is proved of schedules that do; Findings shows the
      wake-up that the code can miss.
    - Interleavings inside a handler: the data races the code has (a session marked
      active before its lock is taken, a slot rotated while a packet is being sent) are
      outside the model; the findings name those that were seen, and show
      the two that use a nonce twice. *)

From Stdlib Require Import ZArith Lia Bool.
From Stdlib Require Strings.Byte.
From stdpp Require Import base numbers list option.

#[export] Set Default Goal Selector "!".

Declare Scope vpn_scope.
Delimit Scope vpn_scope with vpn.
Open Scope Z_scope.

(** ** Undefined behaviour

    A C operation either yields a value or is undefined.  [Err] records which
    rule of the language the source broke; theorems about the program show that
    an operation never reaches it, or exhibit the input that does. *)
Inductive ub :=
  | OutOfBounds      (* access outside an array object *)
  | NullDeref        (* dereference of a null pointer *)
  | UseAfterFree     (* access to an object after free *)
  | Uninit           (* read of an object that was never written *)
  | SignedOverflow   (* int arithmetic past INT_MAX *)
  | DivByZero        (* integer division or remainder by zero *)
  | DestroyedMutex   (* locking a mutex after pthread_mutex_destroy *)
  | NoFuel.          (* the model's loop bound was reached; never the program's fault *)

Inductive outcome (A : Type) :=
  | Ok (a : A)
  | Err (e : ub).
Arguments Ok {A} a.
Arguments Err {A} e.

#[global] Instance outcome_ret : MRet outcome := fun A a => Ok a.
#[global] Instance outcome_bind : MBind outcome := fun A B f m =>
  match m with Ok a => f a | Err e => Err e end.
#[global] Instance outcome_fmap : FMap outcome := fun A B f m =>
  match m with Ok a => Ok (f a) | Err e => Err e end.

Lemma bind_Ok {A B} (m : outcome A) (f : A -> outcome B) b :
  m ≫= f = Ok b <-> exists a, m = Ok a /\ f a = Ok b.
Proof.
  destruct m as [a|e]; cbn; split.
  - eauto.
  - intros (a' & [= ->] & ?); done.
  - done.
  - intros (? & ? & ?); done.
Qed.

Definition is_ok {A} (m : outcome A) : bool :=
  match m with Ok _ => true | Err _ => false end.

(** Reading slot [i] of an array whose initialised part is [l]. *)
Definition slot_read {A} (l : list A) (i : nat) : outcome A :=
  match l !! i with Some a => Ok a | None => Err OutOfBounds end.

(** Writing slot [i]: overwrite an initialised slot, or initialise the next
    one.  A write past the next slot is outside the part of the array that the
    program has handed out. *)
Definition slot_write {A} (l : list A) (i : nat) (x : A) : outcome (list A) :=
  if decide (i < length l)%nat then Ok (<[i := x]> l)
  else if decide (i = length l) then Ok (l ++ [x])
  else Err OutOfBounds.

Lemma slot_read_Ok {A} (l : list A) i a : slot_read l i = Ok a <-> l !! i = Some a.
Proof. unfold slot_read. destruct (l !! i); split; congruence. Qed.

Lemma slot_read_lt {A} (l : list A) i :
  (i < length l)%nat -> exists a, slot_read l i = Ok a /\ l !! i = Some a.
Proof.
  intros H. destruct (lookup_lt_is_Some_2 l i H) as [a Ha].
  exists a. by rewrite slot_read_Ok.
Qed.

Lemma slot_write_lt {A} (l : list A) i x :
  (i < length l)%nat -> slot_write l i x = Ok (<[i := x]> l).
Proof. intros. unfold slot_write. by rewrite decide_True. Qed.

Lemma slot_write_last {A} (l : list A) x :
  slot_write l (length l) x = Ok (l ++ [x]).
Proof. unfold slot_write. rewrite decide_False by lia. by rewrite decide_True. Qed.

(** ** Machine-width integers *)

Definition u8 (z : Z) : Z := z mod 2 ^ 8.
Definition u16 (z : Z) : Z := z mod 2 ^ 16.
Definition u32 (z : Z) : Z := z mod 2 ^ 32.
Definition u64 (z : Z) : Z := z mod 2 ^ 64.

(** [uint64_t] shifts; the shift count is below 64 wherever the source shifts. *)
Definition shl64 (a n : Z) : Z := u64 (Z.shiftl a n).
Definition shr64 (a n : Z) : Z := Z.shiftr a n.
Definition not64 (a : Z) : Z := Z.lxor a (2 ^ 64 - 1).

(** [int] arithmetic: undefined outside the 32-bit range. *)
Definition INT_MAX : Z := 2 ^ 31 - 1.
Definition INT_MIN : Z := - 2 ^ 31.
Definition in_int (z : Z) : Prop := INT_MIN <= z <= INT_MAX.
Definition int_of (z : Z) : outcome Z :=
  if (INT_MIN <=? z) && (z <=? INT_MAX) then Ok z else Err SignedOverflow.

Lemma int_of_Ok z : in_int z -> int_of z = Ok z.
Proof.
  intros [? ?]. unfold int_of. by rewrite (proj2 (Z.leb_le _ _)), (proj2 (Z.leb_le _ _)).
Qed.

Definition in_u64 (z : Z) : Prop := 0 <= z < 2 ^ 64.
Definition in_u16 (z : Z) : Prop := 0 <= z < 2 ^ 16.

#[global] Instance in_u64_dec z : Decision (in_u64 z).
Proof. unfold in_u64. apply _. Defined.
#[global] Instance in_u16_dec z : Decision (in_u16 z).
Proof. unfold in_u16. apply _. Defined.

Lemma u64_small z : in_u64 z -> u64 z = z.
Proof. apply Z.mod_small. Qed.
Lemma u16_small z : in_u16 z -> u16 z = z.
Proof. apply Z.mod_small. Qed.
Lemma u64_range z : in_u64 (u64 z).
Proof. apply Z.mod_pos_bound. lia. Qed.
Lemma u16_range z : in_u16 (u16 z).
Proof. apply Z.mod_pos_bound. lia. Qed.
Lemma u8_range z : 0 <= u8 z < 256.
Proof. apply Z.mod_pos_bound. lia. Qed.

Lemma u64_add_l a b : u64 (u64 a + b) = u64 (a + b).
Proof. unfold u64. by rewrite Z.add_mod_idemp_l. Qed.

Create HintDb vpn.
#[export] Hint Resolve u64_range u16_range u8_range : vpn.
Create Rewrite HintDb testbit.

Lemma u64_testbit a i :
  0 <= i -> Z.testbit (u64 a) i = (i <? 64) && Z.testbit a i.
Proof.
  intros. unfold u64. destruct (Z.ltb_spec i 64).
  - by rewrite Z.mod_pow2_bits_low.
  - by rewrite Z.mod_pow2_bits_high by lia.
Qed.

Lemma testbit_in_u64 a i : in_u64 a -> 64 <= i -> Z.testbit a i = false.
Proof.
  intros Ha Hi. rewrite <- (u64_small a Ha), u64_testbit by lia.
  by destruct (Z.ltb_spec i 64); [lia|].
Qed.

Lemma shl64_testbit a n i :
  0 <= i -> Z.testbit (shl64 a n) i = (i <? 64) && Z.testbit a (i - n).
Proof.
  intros. unfold shl64. rewrite u64_testbit by lia. by rewrite Z.shiftl_spec.
Qed.

Lemma not64_testbit a i :
  0 <= i < 64 -> Z.testbit (not64 a) i = negb (Z.testbit a i).
Proof.
  intros. unfold not64. rewrite Z.lxor_spec.
  change (2 ^ 64 - 1) with (Z.ones 64). rewrite Z.ones_spec_low by lia.
  by rewrite xorb_true_r.
Qed.

Lemma lor_in_u64 a b : in_u64 a -> in_u64 b -> in_u64 (Z.lor a b).
Proof.
  intros Ha Hb. assert (H : Z.lor a b = u64 (Z.lor a b)); [|rewrite H; auto with vpn].
  apply Z.bits_inj'. intros i Hi. rewrite u64_testbit, Z.lor_spec by lia.
  destruct (Z.ltb_spec i 64); [done|]. by rewrite !testbit_in_u64 by done.
Qed.

Lemma land_in_u64 a b : in_u64 a -> in_u64 (Z.land a b).
Proof.
  intros Ha. assert (H : Z.land a b = u64 (Z.land a b)); [|rewrite H; auto with vpn].
  apply Z.bits_inj'. intros i Hi. rewrite u64_testbit, Z.land_spec by lia.
  destruct (Z.ltb_spec i 64); [done|]. by rewrite testbit_in_u64 by done.
Qed.

Lemma shl64_in_u64 a n : in_u64 (shl64 a n).
Proof. apply u64_range. Qed.
#[export] Hint Resolve lor_in_u64 land_in_u64 shl64_in_u64 : vpn.
#[export] Hint Rewrite Z.lor_spec Z.land_spec Z.testbit_0_l : testbit.
#[export] Hint Rewrite shl64_testbit not64_testbit u64_testbit using lia : testbit.

(** ** Bytes *)

Abbreviation byte := Byte.byte.

#[global] Instance byte_eq_dec : EqDecision byte := Byte.byte_eq_dec.
#[global] Instance byte_inhabited : Inhabited byte := populate Byte.x00.

Definition b2z (b : byte) : Z := Z.of_N (Byte.to_N b).
Definition z2b (z : Z) : byte := default Byte.x00 (Byte.of_N (Z.to_N (u8 z))).

Lemma b2z_range b : 0 <= b2z b < 256.
Proof. unfold b2z. pose proof (Byte.to_N_bounded b). lia. Qed.
#[export] Hint Resolve b2z_range : vpn.

Lemma b2z_z2b z : b2z (z2b z) = u8 z.
Proof.
  unfold b2z, z2b. pose proof (u8_range z) as Hr.
  destruct (Byte.of_N (Z.to_N (u8 z))) as [b|] eqn:E; cbn.
  - apply Byte.to_of_N in E. lia.
  - apply Byte.of_N_None_iff in E. lia.
Qed.

Lemma z2b_b2z b : z2b (b2z b) = b.
Proof.
  unfold z2b, b2z, u8. pose proof (Byte.to_N_bounded b).
  rewrite Z.mod_small by lia. rewrite N2Z.id. by rewrite Byte.of_to_N.
Qed.

Lemma b2z_inj a b : b2z a = b2z b -> a = b.
Proof. intros H. by rewrite <- (z2b_b2z a), H, z2b_b2z. Qed.

(** Little-endian encoding, the layout of the packed structs on the machines the
    program is built for. *)
Fixpoint le_bytes (n : nat) (z : Z) : list byte :=
  match n with
  | O => []
  | S n => z2b z :: le_bytes n (z / 256)
  end.

Fixpoint le_value (bs : list byte) : Z :=
  match bs with
  | [] => 0
  | b :: bs => b2z b + 256 * le_value bs
  end.

(** Big-endian encoding: [htobe64] and the byte loops of [vpn_crypto.c]. *)
Definition be_bytes (n : nat) (z : Z) : list byte := reverse (le_bytes n z).
Definition be_value (bs : list byte) : Z := le_value (reverse bs).

Lemma length_le_bytes n z : length (le_bytes n z) = n.
Proof. revert z; induction n; intros; cbn; auto. Qed.
Lemma length_be_bytes n z : length (be_bytes n z) = n.
Proof. unfold be_bytes. by rewrite length_reverse, length_le_bytes. Qed.

Lemma le_value_bytes n z : le_value (le_bytes n z) = z mod 256 ^ Z.of_nat n.
Proof.
  revert z; induction n as [|n IH]; intros z.
  - cbn. by rewrite Z.mod_1_r.
  - cbn [le_bytes le_value]. rewrite IH, b2z_z2b. unfold u8. change (2 ^ 8) with 256.
    rewrite Nat2Z.inj_succ, Z.pow_succ_r by lia.
    by rewrite Z.rem_mul_r by lia.
Qed.

Lemma le_value_range bs : 0 <= le_value bs < 256 ^ Z.of_nat (length bs).
Proof.
  induction bs as [|b bs IH]; cbn [le_value length]; [lia|].
  rewrite Nat2Z.inj_succ, Z.pow_succ_r by lia. pose proof (b2z_range b). lia.
Qed.

Lemma le_bytes_value bs : le_bytes (length bs) (le_value bs) = bs.
Proof.
  induction bs as [|b bs IH]; cbn [le_value le_bytes length]; [done|].
  pose proof (b2z_range b) as Hb. f_equal.
  - apply b2z_inj. rewrite b2z_z2b. unfold u8. change (2 ^ 8) with 256.
    rewrite Z.mul_comm, Z_mod_plus_full. by apply Z.mod_small.
  - rewrite Z.mul_comm, Z.div_add by lia. rewrite Z.div_small by lia. apply IH.
Qed.

Lemma be_value_bytes n z : be_value (be_bytes n z) = z mod 256 ^ Z.of_nat n.
Proof. unfold be_value, be_bytes. by rewrite reverse_involutive, le_value_bytes. Qed.

Lemma be_value_u64 z : in_u64 z -> be_value (be_bytes 8 z) = z.
Proof. intros. rewrite be_value_bytes. by apply Z.mod_small. Qed.

Lemma be_value_range bs : 0 <= be_value bs < 256 ^ Z.of_nat (length bs).
Proof. unfold be_value. rewrite <- (length_reverse bs). apply le_value_range. Qed.

(** ** C buffers *)

(** [memcpy (dst + off) src (length src)], undefined when it runs past [dst]. *)
Definition memcpy (dst : list byte) (off : nat) (src : list byte) : outcome (list byte) :=
  if decide (off + length src <= length dst)%nat
  then Ok (take off dst ++ src ++ drop (off + length src) dst)
  else Err OutOfBounds.

(** Reading [n] bytes at [off]. *)
Definition buf_read (l : list byte) (off n : nat) : outcome (list byte) :=
  if decide (off + n <= length l)%nat then Ok (take n (drop off l)) else Err OutOfBounds.

Definition byte_at (l : list byte) (off : nat) : outcome Z :=
  match l !! off with Some b => Ok (b2z b) | None => Err OutOfBounds end.

Lemma length_memcpy dst off src dst' :
  memcpy dst off src = Ok dst' -> length dst' = length dst.
Proof.
  unfold memcpy. case_decide; intros; simplify_eq.
  rewrite !length_app, length_take, length_drop. lia.
Qed.

Lemma memcpy_Ok dst off src :
  (off + length src <= length dst)%nat ->
  memcpy dst off src = Ok (take off dst ++ src ++ drop (off + length src) dst).
Proof. intros. unfold memcpy. by rewrite decide_True. Qed.

Lemma byte_at_lt l off :
  (off < length l)%nat -> exists b, l !! off = Some b /\ byte_at l off = Ok (b2z b).
Proof.
  intros H. destruct (lookup_lt_is_Some_2 l off H) as [b Hb].
  exists b. unfold byte_at. by rewrite Hb.
Qed.

(** ** Record updates

    [r <| field := v |>] and [r <| field ::= f |>].  A record opts in by naming
    its eta expansion as a [Settable] instance. *)
Class Settable (R : Type) := eta_of : R -> R.
Class Setter {R E : Type} (getter : R -> E) := set : (E -> E) -> R -> R.
Arguments set {R E} getter {_} _ _ /.

Ltac solve_setter :=
  lazymatch goal with
  | |- @Setter ?R ?E ?getter =>
      exact (fun (f : E -> E) (r : R) => ltac:(
        let b := eval hnf in (@eta_of R _ r) in
        match b with
        | context C [getter r] => let t := context C [f (getter r)] in exact t
        end))
  end.
#[export] Hint Extern 1 (Setter _) => solve_setter : typeclass_instances.

#[warnings="-postfix-notation-not-level-1"]
Notation "r <| g ::= f |>" := (set g f r)
  (at level 12, f at next level, left associativity) : vpn_scope.
#[warnings="-postfix-notation-not-level-1"]
Notation "r <| g := v |>" := (set g (fun _ => v) r)
  (at level 12, left associativity) : vpn_scope.
Open Scope vpn_scope.

(** ** Tactics *)

(** Case analysis on the innermost [if], [match] or [let] of a definition. *)
Ltac step_match :=
  match goal with
  | |- context [match ?x with _ => _ end] =>
      lazymatch x with context [match _ with _ => _ end] => fail | _ => idtac end;
      destruct x eqn:?
  end.

Ltac step_match_in H :=
  match type of H with
  | context [match ?x with _ => _ end] =>
      lazymatch x with context [match _ with _ => _ end] => fail | _ => idtac end;
      destruct x eqn:?
  end.

(** Lengths of compound lists. *)
Ltac simpl_len :=
  repeat first [rewrite length_app | rewrite length_take | rewrite length_drop
               | rewrite length_replicate | rewrite length_insert | rewrite length_fmap].

(** Boolean comparisons to propositions. *)
Ltac bprop :=
  repeat match goal with
  | H : (_ && _) = true |- _ => apply andb_true_iff in H as [? ?]
  | H : (_ || _) = false |- _ => apply orb_false_iff in H as [? ?]
  | H : negb _ = true |- _ => apply negb_true_iff in H
  | H : negb _ = false |- _ => apply negb_false_iff in H
  | H : (_ <? _) = true |- _ => apply Z.ltb_lt in H
  | H : (_ <? _) = false |- _ => apply Z.ltb_ge in H
  | H : (_ <=? _) = true |- _ => apply Z.leb_le in H
  | H : (_ <=? _) = false |- _ => apply Z.leb_gt in H
  | H : (_ =? _) = true |- _ => apply Z.eqb_eq in H
  | H : (_ =? _) = false |- _ => apply Z.eqb_neq in H
  end.

(** ** Lists *)

Lemma take_insert_in {A} (l : list A) n i x :
  (i < n)%nat -> take n (<[i := x]> l) = <[i := x]> (take n l).
Proof. intros. by rewrite take_insert_lt. Qed.

Lemma alter_insert {A} (f : A -> A) (l : list A) i x : l !! i = Some x -> alter f i l = <[i := f x]> l.
Proof.
  intros H. apply list_eq. intros j. destruct (decide (i = j)) as [<-|Hne].
  - rewrite list_lookup_alter_eq, H, list_lookup_insert_eq by (by eapply lookup_lt_Some). done.
  - by rewrite list_lookup_alter_ne, list_lookup_insert_ne.
Qed.

Lemma take_len_take {A} n (l : list A) : take (length (take n l)) l = take n l.
Proof.
  rewrite length_take. destruct (Nat.le_ge_cases n (length l)).
  - by rewrite Nat.min_l.
  - by rewrite Nat.min_r, !take_ge.
Qed.

(** Exchanging two entries permutes a list. *)
Lemma insert_swap_Permutation {A} (l : list A) i j x y :
  i <> j -> l !! i = Some x -> l !! j = Some y -> <[i := y]> (<[j := x]> l) ≡ₚ l.
Proof.
  intros Hij Hi Hj.
  revert i j x y Hij Hi Hj. induction l as [|a l IH]; intros i j x y Hij Hi Hj; [done|].
  destruct i as [|i], j as [|j]; simplify_eq/=.
  - clear IH. revert j y Hij Hj. induction l as [|b l IH]; intros j y Hij Hj; [done|].
    destruct j as [|j]; simplify_eq/=; [apply Permutation_swap|].
    rewrite Permutation_swap. rewrite (IH j y) by done. apply Permutation_swap.
  - clear IH. revert i x Hij Hi. induction l as [|b l IH]; intros i x Hij Hi; [done|].
    destruct i as [|i]; simplify_eq/=; [apply Permutation_swap|].
    rewrite Permutation_swap. rewrite (IH i x) by done. apply Permutation_swap.
  - apply Permutation_skip. eapply IH; eauto.
Qed.


(** The index of the first entry satisfying [p], scanning in order. *)
Fixpoint first_index {A} (p : A -> bool) (l : list A) : option nat :=
  match l with
  | [] => None
  | x :: l => if p x then Some O else S <$> first_index p l
  end.

Lemma first_index_Some {A} (p : A -> bool) l i :
  first_index p l = Some i <-> exists x, l !! i = Some x /\ p x = true /\ forall j y, (j < i)%nat -> l !! j = Some y -> p y = false.
Proof.
  revert i. induction l as [|x l IH]; intros i; cbn [first_index]; [naive_solver|].
  destruct (p x) eqn:Hp.
  - split.
    + intros [= <-]. exists x. repeat split; try done. intros j y Hj. lia.
    + intros (y & Hy & Hpy & Hlt). destruct i as [|i]; [done|].
      specialize (Hlt 0%nat x ltac:(lia) eq_refl). congruence.
  - rewrite fmap_Some. setoid_rewrite IH. split.
    + intros (k & (y & Hy & Hpy & Hlt) & ->). exists y. repeat split; try done.
      intros [|j] z Hj Hz; [by simplify_eq/=|]. eapply (Hlt j); [lia|done].
    + intros (y & Hy & Hpy & Hlt). destruct i as [|i]; [by simplify_eq/=; congruence|].
      exists i. split; [|done]. exists y. repeat split; try done. intros j z Hj Hz.
      eapply (Hlt (S j)); [lia|done].
Qed.

Lemma first_index_None {A} (p : A -> bool) l : first_index p l = None <-> Forall (fun x => p x = false) l.
Proof.
  induction l as [|x l IH]; cbn [first_index]; [by split|]. destruct (p x) eqn:Hp.
  - split; [done|]. intros H. inversion H. congruence.
  - destruct IH as [IH1 IH2]. split.
    + intros H. constructor; [done|]. apply IH1. by destruct (first_index p l).
    + intros H. inversion H as [|? ? _ Hl]. by rewrite IH2.
Qed.

(** Cleared memory. *)
Definition zeros (n : nat) : list byte := replicate n (z2b 0).

(** Filling a cleared buffer from the front. *)
Lemma memcpy_zeros l n off src :
  length l = off -> (length src <= n)%nat ->
  memcpy (l ++ zeros n) off src = Ok ((l ++ src) ++ zeros (n - length src)).
Proof.
  intros <- H. unfold zeros. rewrite memcpy_Ok by (rewrite length_app, length_replicate; lia).
  rewrite take_app_length, drop_app_ge by lia. rewrite drop_replicate, <- app_assoc.
  by replace (n - (length l + length src - length l))%nat with (n - length src)%nat by lia.
Qed.

Lemma buf_read_all l n : n = length l -> buf_read l 0 n = Ok l.
Proof. intros ->. unfold buf_read. rewrite decide_True by lia. by rewrite drop_0, firstn_all. Qed.

Lemma buf_read_front l1 l2 n : n = length l1 -> buf_read (l1 ++ l2) 0 n = Ok l1.
Proof.
  intros ->. unfold buf_read. rewrite decide_True by (rewrite length_app; lia). by rewrite drop_0, take_app_length.
Qed.
