(* ===== verification/State.v ===== *)
(** State transformers that may be undefined, and total-correctness rules for them.
    The server and the client each instantiate the state. *)

From stdpp Require Import list gmap.
From S2P Require Import Prelude.
Local Open Scope Z_scope.

(** ** State transformers *)

Definition ST (St A : Type) : Type := St -> outcome (A * St).

#[global] Instance ST_ret St : MRet (ST St) := fun A a w => Ok (a, w).
#[global] Instance ST_bind St : MBind (ST St) := fun A B f m w =>
  match m w with Ok (a, w) => f a w | Err e => Err e end.
#[global] Instance ST_fmap St : FMap (ST St) := fun A B f m w =>
  match m w with Ok (a, w) => Ok (f a, w) | Err e => Err e end.

Section transformers.
Context {St : Type}.

Definition get {A} (f : St -> A) : ST St A := fun w => Ok (f w, w).
Definition state : ST St St := fun w => Ok (w, w).
Definition modify (f : St -> St) : ST St unit := fun w => Ok (tt, f w).
Definition lift {A} (o : outcome A) : ST St A := fun w =>
  match o with Ok a => Ok (a, w) | Err e => Err e end.
Definition when (b : bool) (m : ST St unit) : ST St unit := if b then m else mret tt.

(** Runs [body] for the [n] indices from [i] on, in order. *)
Fixpoint for_from (i n : nat) (body : nat -> ST St unit) : ST St unit :=
  match n with O => mret tt | S n => _ ← body i; for_from (S i) n body end.

(** Runs [f] on the elements of a list, in order. *)
Fixpoint run_all {A} (f : A -> ST St unit) (l : list A) : ST St unit :=
  match l with [] => mret tt | a :: l => _ ← f a; run_all f l end.

(** ** Rules

    [runs m w Q]: from [w], [m] is defined and ends in a result and state of [Q]. *)
Definition runs {A} (m : ST St A) (w : St) (Q : A -> St -> Prop) : Prop :=
  exists a w', m w = Ok (a, w') /\ Q a w'.

Section rules.
Context {A B : Type}.
Implicit Types (w : St) (m : ST St A) (Q : A -> St -> Prop).

Lemma runs_conseq m w Q Q' : runs m w Q -> (forall a w', Q a w' -> Q' a w') -> runs m w Q'.
Proof. intros (a & w' & E & H) HQ. exists a, w'. auto. Qed.

(** A run has one outcome. *)
Lemma runs_and m w Q Q' : runs m w Q -> runs m w Q' -> runs m w (fun a w' => Q a w' /\ Q' a w').
Proof. intros (a & w' & E & H) (a' & w'' & E' & H'). exists a, w'. rewrite E in E'. by simplify_eq. Qed.

Lemma runs_ret w (a : A) Q : Q a w -> runs (mret a) w Q.
Proof. intros H. by exists a, w. Qed.

Lemma runs_bind m (k : A -> ST St B) w (Q : B -> St -> Prop) :
  runs m w (fun a w' => runs (k a) w' Q) -> runs (m ≫= k) w Q.
Proof.
  intros (a & w' & E & b & w'' & E' & H). exists b, w''. split; [|done].
  unfold mbind, ST_bind. by rewrite E.
Qed.

Lemma runs_get (f : St -> A) w Q : Q (f w) w -> runs (get f) w Q.
Proof. intros H. by exists (f w), w. Qed.

Lemma runs_lift (o : outcome A) w a Q : o = Ok a -> Q a w -> runs (lift o) w Q.
Proof. intros -> H. by exists a, w. Qed.

End rules.

Lemma runs_modify f w (Q : unit -> St -> Prop) : Q tt (f w) -> runs (modify f) w Q.
Proof. intros H. by exists tt, (f w). Qed.

(** A step that keeps an invariant, then the rest. *)
Lemma runs_seq {A B} (m : ST St A) (k : ST St B) w (I : St -> Prop) Q :
  runs m w (fun _ => I) -> (forall w', I w' -> runs k w' Q) -> runs (m ≫= fun _ => k) w Q.
Proof. intros Hm Hk. apply runs_bind. eapply runs_conseq; [exact Hm|]. intros ? w' Hw'. by apply Hk. Qed.

Lemma runs_when b (m : ST St unit) w (I : St -> Prop) :
  I w -> runs m w (fun _ => I) -> runs (when b m) w (fun _ => I).
Proof. intros Hw Hm. destruct b; [done|]. by apply runs_ret. Qed.

Lemma runs_state w (Q : St -> St -> Prop) : Q w w -> runs state w Q.
Proof. intros H. by exists w, w. Qed.

Lemma runs_for n i body w (I : St -> Prop) :
  I w -> (forall j w, (i <= j < i + n)%nat -> I w -> runs (body j) w (fun _ w' => I w')) ->
  runs (for_from i n body) w (fun _ w' => I w').
Proof.
  revert i w. induction n as [|n IH]; intros i w Hw Hb; cbn [for_from].
  - by apply runs_ret.
  - apply runs_bind. eapply runs_conseq; [apply Hb; [lia|done]|]. intros ? w' Hw'.
    apply IH; [done|]. intros. apply Hb; [lia|done].
Qed.

(** The same with the counter in the invariant. *)
Lemma runs_for_upto n i body w (I : nat -> St -> Prop) :
  I i w -> (forall j w, (i <= j < i + n)%nat -> I j w -> runs (body j) w (fun _ w' => I (Datatypes.S j) w')) ->
  runs (for_from i n body) w (fun _ w' => I (i + n)%nat w').
Proof.
  revert i w. induction n as [|n IH]; intros i w Hw Hb; cbn [for_from].
  - apply runs_ret. by rewrite Nat.add_0_r.
  - apply runs_bind. eapply runs_conseq; [apply Hb; [lia|done]|]. intros ? w' Hw'.
    replace (i + Datatypes.S n)%nat with (Datatypes.S i + n)%nat by lia. apply IH; [done|]. intros. apply Hb; [lia|done].
Qed.

End transformers.
