(* ===== verification/Partial.v ===== *)
(** Partial-correctness triples for the state transformers of State: what a run that
    is defined leaves behind.  They serve invariants that every operation keeps
    whether or not its input is one it is defined on; [runs] serves the others. *)

From stdpp Require Import list.
From S2P Require Import Prelude State.

(** From a state of [P], a run of [m] that is defined ends in [Q]. *)
Definition holds {St A} (P : St -> Prop) (m : ST St A) (Q : A -> St -> Prop) : Prop :=
  forall w a w', P w -> m w = Ok (a, w') -> Q a w'.

Section rules.
Context {St : Type}.
Implicit Types (P : St -> Prop).

(** The two kinds of triple agree on a defined run. *)
Lemma holds_runs {A} P (m : ST St A) Q w : holds P m Q -> P w -> runs m w (fun _ _ => True) -> runs m w Q.
Proof. intros Hm Hw (a & w' & E & _). exists a, w'. split; [done|]. exact (Hm _ _ _ Hw E). Qed.

Lemma runs_holds {A} P (m : ST St A) Q : (forall w, P w -> runs m w Q) -> holds P m Q.
Proof. intros H w a w' Hw E. destruct (H w Hw) as (b & w1 & E1 & HQ). rewrite E in E1. by injection E1 as <- <-. Qed.

Lemma holds_conseq {A} P P' (m : ST St A) Q Q' :
  holds P' m Q' -> (forall w, P w -> P' w) -> (forall a w, Q' a w -> Q a w) -> holds P m Q.
Proof. intros H HP HQ w a w' Hw E. eapply HQ, H; [by apply HP|done]. Qed.

Lemma holds_pre {A} P P' (m : ST St A) Q : holds P' m Q -> (forall w, P w -> P' w) -> holds P m Q.
Proof. intros H HP w a w' Hw E. by eapply H; [apply HP|]. Qed.

Lemma holds_and {A} P P' (m : ST St A) Q Q' :
  holds P m Q -> holds P' m Q' -> holds (fun w => P w /\ P' w) m (fun a w => Q a w /\ Q' a w).
Proof. intros H H' w a w' [Hw Hw'] E. split; [by eapply H|by eapply H']. Qed.

(** A fact about the initial state may be assumed. *)
Lemma holds_fact {A} (H : Prop) P (m : ST St A) Q : (forall w, P w -> H) -> (H -> holds P m Q) -> holds P m Q.
Proof. intros HP Hm w a w' Hw E. exact (Hm (HP w Hw) w a w' Hw E). Qed.

(** A value found in the initial state may be named. *)
Lemma holds_ex {A B} (P : B -> St -> Prop) (m : ST St A) Q :
  (forall b, holds (P b) m Q) -> holds (fun w => exists b, P b w) m Q.
Proof. intros H w a w' [b Hw] E. by eapply H. Qed.

Lemma holds_ret {A} P (a : A) (Q : A -> St -> Prop) : (forall w, P w -> Q a w) -> holds P (mret a) Q.
Proof. intros H w b w' Hw [= <- <-]. auto. Qed.

Lemma holds_bind {A B} P (m : ST St A) (k : A -> ST St B) R Q :
  holds P m R -> (forall a, holds (R a) (k a) Q) -> holds P (m ≫= k) Q.
Proof.
  intros Hm Hk w b w2 Hw E. unfold mbind, ST_bind in E. destruct (m w) as [[a w1]|] eqn:E1; [|done].
  by eapply Hk; [eapply Hm|].
Qed.

(** The same when the value is not used. *)
Lemma holds_seq {A B} P (m : ST St A) (k : ST St B) R Q :
  holds P m (fun _ => R) -> holds R k Q -> holds P (m ≫= fun _ => k) Q.
Proof. intros Hm Hk. eapply holds_bind; [exact Hm|]. by intros a. Qed.

Lemma holds_get {A} P (f : St -> A) Q : (forall w, P w -> Q (f w) w) -> holds P (get f) Q.
Proof. intros H w a w' Hw [= <- <-]. auto. Qed.

Lemma holds_state P Q : (forall w, P w -> Q w w) -> holds P state Q.
Proof. intros H w a w' Hw [= <- <-]. auto. Qed.

Lemma holds_modify P f (Q : unit -> St -> Prop) : (forall w, P w -> Q tt (f w)) -> holds P (modify f) Q.
Proof. intros H w [] w' Hw [= <-]. auto. Qed.

Lemma holds_lift {A} P (o : outcome A) (Q : A -> St -> Prop) :
  (forall a w, o = Ok a -> P w -> Q a w) -> holds P (lift o) Q.
Proof. intros H w a w' Hw E. unfold lift in E. destruct o; [|done]. injection E as <- <-. auto. Qed.

(** The equation of a pure step is known in what follows. *)
Lemma holds_lifted {A B} P (o : outcome A) (k : A -> ST St B) Q :
  (forall a, o = Ok a -> holds P (k a) Q) -> holds P (lift o ≫= k) Q.
Proof. intros H. eapply holds_bind with (R := fun a w => o = Ok a /\ P w); [by apply holds_lift|]. intros a w b w' [Ho Hw]. by apply (H a Ho). Qed.

Lemma holds_when P b (m : ST St unit) Q :
  holds P m Q -> (forall w, P w -> Q tt w) -> holds P (when b m) Q.
Proof. intros Hm Hr. destruct b; [done|by apply holds_ret]. Qed.

(** The loop rule, with the indices still to come in the invariant. *)
Lemma holds_for (I : nat -> St -> Prop) body n : forall i,
  (forall j m, holds (I (S m)) (body j) (fun _ => I m)) -> holds (I n) (for_from i n body) (fun _ => I 0%nat).
Proof.
  induction n as [|n IH]; intros i Hb; cbn [for_from]; [by apply holds_ret|].
  eapply holds_seq; [apply Hb|]. by apply IH.
Qed.

Lemma holds_run_all {A} P (f : A -> ST St unit) l :
  (forall a, holds P (f a) (fun _ => P)) -> holds P (run_all f l) (fun _ => P).
Proof.
  intros Hf. induction l as [|a l IH]; cbn [run_all]; [by apply holds_ret|].
  by eapply holds_seq.
Qed.

End rules.

(** ** Invariants *)

(** Every defined run of [m] keeps [I]. *)
Definition preserves {St A} (I : St -> Prop) (m : ST St A) : Prop := holds I m (fun _ => I).

Section invariants.
Context {St : Type} (I : St -> Prop).

Lemma preserves_ret {A} (a : A) : preserves I (mret a).
Proof. by apply holds_ret. Qed.
Lemma preserves_bind {A B} (m : ST St A) (k : A -> ST St B) : preserves I m -> (forall a, preserves I (k a)) -> preserves I (m ≫= k).
Proof. intros Hm Hk. by eapply holds_bind. Qed.
Lemma preserves_get {A} (f : St -> A) : preserves I (get f).
Proof. by apply holds_get. Qed.
Lemma preserves_state : preserves I state.
Proof. by apply holds_state. Qed.
Lemma preserves_lift {A} (o : outcome A) : preserves I (lift o).
Proof. by apply holds_lift. Qed.
Lemma preserves_when b m : preserves I m -> preserves I (when b m).
Proof. intros Hm. by apply holds_when. Qed.
Lemma preserves_for i n body : (forall j, preserves I (body j)) -> preserves I (for_from i n body).
Proof. intros Hb. apply (holds_for (fun _ => I)). intros j _. apply Hb. Qed.
Lemma preserves_run_all {A} (f : A -> ST St unit) l : (forall a, preserves I (f a)) -> preserves I (run_all f l).
Proof. apply holds_run_all. Qed.

(** An invariant kept, then the rest. *)
Lemma holds_after {A B} (m : ST St A) (k : A -> ST St B) Q :
  preserves I m -> (forall a, holds I (k a) Q) -> holds I (m ≫= k) Q.
Proof. intros Hm Hk. by eapply holds_bind. Qed.

End invariants.

(** [preserves] goes through the structure of an operation; what remains is found in
    the database, to which each invariant adds its own operations. *)
Create HintDb preserves.
#[export] Hint Resolve preserves_ret preserves_get preserves_state preserves_lift : preserves.
Ltac preserves_step :=
  lazymatch goal with
  | |- preserves _ (_ ≫= _) => apply preserves_bind; [|intros ?]
  | |- preserves _ (when _ _) => apply preserves_when
  | |- preserves _ (for_from _ _ _) => apply preserves_for; intros ?
  | |- preserves _ (run_all _ _) => apply preserves_run_all; intros ?
  | |- preserves _ (match ?x with _ => _ end) => destruct x
  | |- preserves _ _ => solve [eauto 3 with preserves]
  end.
Ltac preserves :=
  intros; cbv beta; try (lazymatch goal with |- holds ?I ?m (fun _ => ?I) => change (preserves I m) end); repeat preserves_step.
