(* ===== verification/ReplayWindow.v ===== *)
(** The anti-replay sliding window: chamlon_server/src/replay_window.c.

    [check_replay] and [update_window] work on a 64-bit bitmap whose bit [d]
    stands for sequence number [recv_max - d].  The abstract view is the set of
    sequence numbers accepted so far; [window_rep] relates the two. *)

From S2P Require Import Prelude.
From stdpp Require Import gmap.
Local Open Scope Z_scope.

Definition WINDOW_SIZE : Z := 64.
Definition WORD_SIZE : Z := 64.
Definition BITMAP_WORDS : nat := 1.

Record replay_window_t := {
  recv_max : Z;
  bitmap : list Z;
}.
#[global] Instance eta_replay_window : Settable replay_window_t :=
  fun w => {| recv_max := recv_max w; bitmap := bitmap w |}.

(** [memset(&rw, 0, sizeof rw)]: the window of a fresh session. *)
Definition window_zero : replay_window_t :=
  {| recv_max := 0; bitmap := replicate BITMAP_WORDS 0 |}.

Definition check_replay (seq : Z) (w : replay_window_t) : outcome bool :=
  if seq =? 0 then Ok true
  else if recv_max w <? seq then Ok false
  else if u64 (seq + WINDOW_SIZE) <=? recv_max w then Ok true
  else
    let diff := u64 (recv_max w - seq) in
    let word := diff / WORD_SIZE in
    let bit := diff mod WORD_SIZE in
    v ← slot_read (bitmap w) (Z.to_nat word);
    Ok (negb (Z.land v (shl64 1 bit) =? 0)).

(** [for (i = BITMAP_WORDS - 1; i >= 0; i--)]: move whole words up. *)
Fixpoint word_shift_loop (n : nat) (word_shift : Z) (bm : list Z) : list Z :=
  match n with
  | O => bm
  | S i =>
      let val := if word_shift <=? Z.of_nat i
                 then bm !!! (i - Z.to_nat word_shift)%nat else 0 in
      word_shift_loop i word_shift (<[i := val]> bm)
  end.

(** The same loop shifting bits, with the carry from the word below. *)
Fixpoint bit_shift_loop (n : nat) (bit_shift : Z) (bm : list Z) : list Z :=
  match n with
  | O => bm
  | S i =>
      let high := shl64 (bm !!! i) bit_shift in
      let carry := if decide (0 < i)%nat
                   then shr64 (bm !!! (i - 1)%nat) (WORD_SIZE - bit_shift) else 0 in
      bit_shift_loop i bit_shift (<[i := Z.lor high carry]> bm)
  end.

Definition shift_bitmap (shift : Z) (bm : list Z) : list Z :=
  if WORD_SIZE <=? shift then
    let word_shift := shift / WORD_SIZE in
    let bit_shift := shift mod WORD_SIZE in
    let bm := word_shift_loop BITMAP_WORDS word_shift bm in
    if negb (bit_shift =? 0) then bit_shift_loop BITMAP_WORDS bit_shift bm else bm
  else bit_shift_loop BITMAP_WORDS shift bm.

(** Case 1 of [update_window]: slide the window so that [seq] is its right edge. *)
Definition advance_window (seq : Z) (w : replay_window_t) : replay_window_t :=
  let diff := u64 (seq - recv_max w) in
  let bm :=
    if WINDOW_SIZE <=? diff then replicate BITMAP_WORDS 0
    else
      let bm := shift_bitmap diff (bitmap w) in
      let mask := if 64 <=? diff then 0 else u64 (shl64 1 diff - 1) in
      <[0%nat := Z.land (bm !!! 0%nat) (not64 mask)]> bm in
  {| recv_max := seq; bitmap := bm |}.

Definition update_window (seq : Z) (w : replay_window_t) : outcome replay_window_t :=
  if seq =? 0 then Ok w
  else
    let w := if recv_max w <? seq then advance_window seq w else w in
    let diff := u64 (recv_max w - seq) in
    let word := Z.to_nat (diff / WORD_SIZE) in
    let bit := diff mod WORD_SIZE in
    v ← slot_read (bitmap w) word;
    Ok (w <| bitmap := <[word := Z.lor v (shl64 1 bit)]> (bitmap w) |>).

(** What the receive path does with one authenticated packet: drop it when
    [check_replay] says so, otherwise record it. *)
Definition receive (seq : Z) (w : replay_window_t) : outcome (bool * replay_window_t) :=
  r ← check_replay seq w;
  if (r : bool) then Ok (false, w)
  else (w' ← update_window seq w; Ok (true, w')).

Fixpoint receive_all (seqs : list Z) (w : replay_window_t)
    : outcome (list Z * replay_window_t) :=
  match seqs with
  | [] => Ok ([], w)
  | seq :: seqs =>
      a ← receive seq w;
      b ← receive_all seqs a.2;
      Ok (if (a.1 : bool) then (seq :: b.1, b.2) else b)
  end.

(** ** Abstract specification *)

(** Whether a receiver that remembers the set [S] of accepted numbers and the
    largest of them accepts [seq].  The last disjunct is the sliding window; its
    second bound is where [seq + WINDOW_SIZE] leaves the 64-bit range. *)
Definition fresh (S : gset Z) (max seq : Z) : Prop :=
  seq <> 0 /\ (seq ∉ S) /\
  (max < seq \/ (max - seq < WINDOW_SIZE /\ seq + WINDOW_SIZE < 2 ^ 64)).

#[global] Instance fresh_dec S max seq : Decision (fresh S max seq).
Proof. unfold fresh. apply _. Defined.

Record window_rep (w : replay_window_t) (S : gset Z) : Prop := {
  rep_max : in_u64 (recv_max w);
  rep_word : exists v, bitmap w = [v] /\ in_u64 v /\
    forall d, 0 <= d < WINDOW_SIZE -> Z.testbit v d = bool_decide (recv_max w - d ∈ S);
  rep_bound : forall s, s ∈ S -> 0 < s <= recv_max w;
}.

Lemma window_zero_rep : window_rep window_zero ∅.
Proof.
  split; cbn.
  - split; lia.
  - exists 0. split; [done|]. split; [split; lia|]. intros d _.
    rewrite Z.testbit_0_l. symmetry. apply bool_decide_eq_false. set_solver.
  - set_solver.
Qed.

Lemma land_bit v d : 0 <= d < 64 -> negb (Z.land v (shl64 1 d) =? 0) = Z.testbit v d.
Proof.
  intros Hd. assert (Hb : forall i, 0 <= i ->
    Z.testbit (Z.land v (shl64 1 d)) i = (i =? d) && Z.testbit v d).
  { intros i Hi. rewrite Z.land_spec, shl64_testbit by lia.
    destruct (Z.eqb_spec i d) as [->|Hne].
    - rewrite Z.sub_diag. destruct (Z.ltb_spec d 64); [|lia].
      change (Z.testbit 1 0) with true. by rewrite andb_true_r.
    - replace (Z.testbit 1 (i - d)) with false; [by rewrite !andb_false_r|].
      symmetry. destruct (decide (i < d)) as [Hlt|Hge].
      + apply Z.testbit_neg_r. lia.
      + apply Z.bits_above_log2; [lia|]. change (Z.log2 1) with 0. lia. }
  destruct (Z.eqb_spec (Z.land v (shl64 1 d)) 0) as [E|E]; cbn.
  - specialize (Hb d). rewrite E, Z.testbit_0_l, Z.eqb_refl in Hb. by apply Hb; lia.
  - destruct (Z.testbit v d) eqn:Ev; [done|]. exfalso. apply E.
    apply Z.bits_inj'. intros i Hi. rewrite Hb, andb_false_r, Z.testbit_0_l by lia. done.
Qed.

Lemma check_replay_rep w S seq :
  window_rep w S -> in_u64 seq ->
  check_replay seq w = Ok (negb (bool_decide (fresh S (recv_max w) seq))).
Proof.
  intros [Hm (v & Hbm & Hv & Hbits) Hbd] Hseq. unfold check_replay, fresh, in_u64 in *.
  destruct (Z.eqb_spec seq 0) as [->|Hnz].
  { rewrite bool_decide_eq_false_2; [done|]. by intros [? _]. }
  destruct (Z.ltb_spec (recv_max w) seq) as [Hgt|Hle].
  { rewrite bool_decide_eq_true_2; [done|]. split; [done|]. split; [|auto].
    intros Hin. apply Hbd in Hin. lia. }
  unfold WINDOW_SIZE, WORD_SIZE in *.
  destruct (decide (seq + 64 < 2 ^ 64)) as [Hov|Hov].
  - rewrite u64_small by (unfold in_u64; lia).
    destruct (Z.leb_spec (seq + 64) (recv_max w)) as [Hold|Hin].
    { rewrite bool_decide_eq_false_2; [done|]. intros (_ & _ & H). lia. }
    rewrite u64_small by (unfold in_u64; lia).
    rewrite (Z.div_small (recv_max w - seq)), (Z.mod_small (recv_max w - seq)) by lia.
    rewrite Hbm. change (slot_read [v] (Z.to_nat 0)) with (Ok v). cbn [mbind outcome_bind].
    rewrite land_bit, Hbits by lia.
    replace (recv_max w - (recv_max w - seq)) with seq by lia.
    f_equal. destruct (decide (seq ∈ S)) as [Hi|Hi].
    + rewrite bool_decide_eq_true_2, bool_decide_eq_false_2; [done|by intros (_ & ? & _)|done].
    + rewrite bool_decide_eq_false_2, bool_decide_eq_true_2; [done| |done].
      split; [done|]. split; [done|]. right. lia.
  - rewrite bool_decide_eq_false_2 by (intros (_ & _ & H); lia).
    assert (u64 (seq + 64) = seq + 64 - 2 ^ 64) as ->.
    { unfold u64. symmetry. apply (Z.mod_unique _ _ 1); lia. }
    destruct (Z.leb_spec (seq + 64 - 2 ^ 64) (recv_max w)); [done|lia].
Qed.

(** Every bit of the slid window: the history moved up by the distance, with
    zeros where the new numbers come in. *)
Lemma advance_window_bits w S seq :
  window_rep w S -> in_u64 seq -> recv_max w < seq ->
  exists v, bitmap (advance_window seq w) = [v] /\ in_u64 v /\
    forall d, 0 <= d < WINDOW_SIZE -> Z.testbit v d = bool_decide (seq - d ∈ S).
Proof.
  intros [Hm (v & Hbm & Hv & Hbits) Hbd] Hseq Hlt.
  unfold advance_window, WINDOW_SIZE, shift_bitmap, WORD_SIZE, in_u64 in *. cbn [bitmap].
  rewrite (u64_small (seq - recv_max w)) by (unfold in_u64; lia).
  destruct (Z.leb_spec 64 (seq - recv_max w)) as [Hfar|Hnear].
  - exists 0. split; [done|]. split; [lia|]. intros d Hd.
    rewrite Z.testbit_0_l, bool_decide_eq_false_2; [done|]. intros Hin. apply Hbd in Hin. lia.
  - rewrite Hbm. cbn -[Z.land Z.lor shl64 not64 u64 decide].
    rewrite decide_False by lia.
    eexists. split; [reflexivity|]. split; [apply land_in_u64, lor_in_u64; [apply u64_range|split; lia]|].
    intros d Hd. set (k := seq - recv_max w) in *.
    rewrite Z.land_spec, not64_testbit, Z.lor_0_r by lia.
    assert (Hmask : Z.testbit (u64 (shl64 1 k - 1)) d = (d <? k)).
    { unfold shl64. rewrite Z.shiftl_1_l, (u64_small (2 ^ k)), (u64_small (2 ^ k - 1)).
      - replace (2 ^ k - 1) with (Z.ones k) by (rewrite Z.ones_equiv; lia).
        destruct (Z.ltb_spec d k); [by rewrite Z.ones_spec_low by lia|by rewrite Z.ones_spec_high by lia].
      - pose proof (Z.pow_lt_mono_r 2 k 64). unfold in_u64. lia.
      - pose proof (Z.pow_lt_mono_r 2 k 64). unfold in_u64. lia. }
    rewrite Hmask, shl64_testbit by lia. destruct (Z.ltb_spec d 64); [|lia]. cbn [andb].
    destruct (Z.ltb_spec d k); cbn [negb].
    + rewrite andb_false_r, bool_decide_eq_false_2; [done|]. intros Hin. apply Hbd in Hin. lia.
    + rewrite andb_true_r, Hbits by lia. f_equal. by replace (recv_max w - (d - k)) with (seq - d) by lia.
Qed.

Lemma update_window_rep w S seq :
  window_rep w S -> in_u64 seq -> fresh S (recv_max w) seq ->
  exists w', update_window seq w = Ok w' /\ window_rep w' ({[seq]} ∪ S) /\
             recv_max w' = Z.max (recv_max w) seq.
Proof.
  intros Hw Hseq (Hnz & Hnew & Hpos). unfold update_window.
  destruct (Z.eqb_spec seq 0) as [|_]; [done|].
  set (w1 := if recv_max w <? seq then advance_window seq w else w).
  assert (H1 : in_u64 (recv_max w1) /\ recv_max w1 = Z.max (recv_max w) seq /\
               0 <= recv_max w1 - seq < 64 /\ exists v, bitmap w1 = [v] /\ in_u64 v /\
    forall d, 0 <= d < WINDOW_SIZE -> Z.testbit v d = bool_decide (recv_max w1 - d ∈ S)).
  { subst w1. unfold WINDOW_SIZE in Hpos. destruct (Z.ltb_spec (recv_max w) seq).
    - split; [done|]. split; [cbn; lia|]. split; [cbn; lia|].
      by eapply (advance_window_bits w S).
    - split; [apply Hw|]. split; [lia|]. split; [lia|]. by apply rep_word. }
  destruct H1 as (Hmax & Heq & Hdiff & v & Hbm & Hv & Hbits).
  pose proof (rep_bound _ _ Hw) as Hbd. clearbody w1. unfold WORD_SIZE, in_u64 in *.
  rewrite u64_small by (split; lia).
  rewrite (Z.div_small (recv_max w1 - seq)), (Z.mod_small (recv_max w1 - seq)) by lia.
  rewrite Hbm. change (slot_read [v] (Z.to_nat 0)) with (Ok v).
  cbn [mbind outcome_bind]. eexists. split; [reflexivity|]. cbn -[Z.lor shl64].
  split; [|done]. split; cbn -[Z.lor shl64].
  - done.
  - eexists. split; [reflexivity|]. split; [apply lor_in_u64; [done|apply u64_range]|].
    intros d Hd. unfold WINDOW_SIZE in *. rewrite Z.lor_spec, Hbits, shl64_testbit by lia.
    destruct (Z.ltb_spec d 64); [|lia]. cbn [andb]. set (e := recv_max w1 - seq) in *.
    assert (Hone : Z.testbit 1 (d - e) = bool_decide (recv_max w1 - d = seq)).
    { destruct (decide (d = e)) as [->|Hne].
      - rewrite Z.sub_diag, bool_decide_eq_true_2; [done|lia].
      - rewrite bool_decide_eq_false_2 by lia. destruct (decide (d < e)).
        + apply Z.testbit_neg_r; lia.
        + apply Z.bits_above_log2; [lia|]. change (Z.log2 1) with 0. lia. }
    rewrite Hone. apply eq_bool_prop_intro. rewrite orb_True, !bool_decide_spec. set_solver.
  - intros s. rewrite elem_of_union, elem_of_singleton. intros [->|Hs]; [lia|].
    apply Hbd in Hs. lia.
Qed.

(** ** The receive path *)

Lemma receive_step w S seq :
  window_rep w S -> in_u64 seq ->
  if decide (fresh S (recv_max w) seq)
  then exists w', receive seq w = Ok (true, w') /\ window_rep w' ({[seq]} ∪ S) /\
                  recv_max w' = Z.max (recv_max w) seq
  else receive seq w = Ok (false, w).
Proof.
  intros Hw Hseq. unfold receive. rewrite (check_replay_rep w S) by done. cbn.
  case_decide as Hf.
  - rewrite bool_decide_eq_true_2 by done. cbn.
    destruct (update_window_rep w S seq) as (w' & -> & ? & ?); [done..|]. cbn. eauto.
  - by rewrite bool_decide_eq_false_2.
Qed.

(** C13: one authenticated packet: [receive] never leaves the bitmap, accepts the
    sequence number exactly when the specification does (new, non-zero, inside or
    ahead of the window), and an accepted number joins the remembered set. *)
Theorem receive_refines w S seq :
  window_rep w S -> in_u64 seq ->
  if decide (fresh S (recv_max w) seq)
  then exists w', receive seq w = Ok (true, w') /\ window_rep w' ({[seq]} ∪ S) /\
                  recv_max w' = Z.max (recv_max w) seq
  else receive seq w = Ok (false, w).
Proof. apply receive_step. Qed.

Lemma receive_all_spec seqs w S :
  window_rep w S -> Forall in_u64 seqs ->
  exists acc w', receive_all seqs w = Ok (acc, w') /\
    window_rep w' (list_to_set acc ∪ S) /\ NoDup acc /\ acc ⊆ seqs /\
    (forall s, s ∈ acc -> (s ∉ S) /\ s <> 0).
Proof.
  intros Hw Hall. revert w S Hw. induction Hall as [|seq seqs Hseq _ IH]; intros w S Hw; cbn.
  { exists [], w. split; [done|]. split; [by rewrite list_to_set_nil, union_empty_l_L|].
    split; [constructor|]. set_solver. }
  pose proof (receive_step w S seq Hw Hseq) as H. case_decide as Hf.
  - destruct H as (w1 & -> & Hw1 & _). cbn.
    destruct (IH _ _ Hw1) as (acc & w' & -> & Hw' & Hnd & Hsub & Hacc). cbn.
    exists (seq :: acc), w'. split; [done|]. split; [|split; [|split]].
    + rewrite list_to_set_cons. by replace ({[seq]} ∪ list_to_set acc ∪ S)
        with (list_to_set acc ∪ ({[seq]} ∪ S) : gset Z) by set_solver.
    + constructor; [|done]. intros Hin. apply Hacc in Hin. set_solver.
    + set_solver.
    + intros s [->|Hin]%elem_of_cons; [by destruct Hf as (? & ? & _)|].
      apply Hacc in Hin. set_solver.
  - rewrite H. cbn. destruct (IH _ _ Hw) as (acc & w' & -> & Hw' & Hnd & Hsub & Hacc).
    exists acc, w'. split; [done|]. split; [done|]. split; [done|]. set_solver.
Qed.

(** C12: anti-replay over a whole session: from the zeroed window of a new
    session, whatever order, repetitions and losses the network produces, no
    sequence number is accepted twice and no memory access is undefined. *)
Theorem no_replay seqs :
  Forall in_u64 seqs ->
  exists acc w', receive_all seqs window_zero = Ok (acc, w') /\ NoDup acc /\ acc ⊆ seqs.
Proof.
  intros H. destruct (receive_all_spec seqs window_zero ∅ window_zero_rep H)
    as (acc & w' & ? & _ & ? & ? & _). eauto 10.
Qed.

(** In-order traffic is never lost: numbers [n, n+1, ..., n+k-1] with [n >= 1]
    are all accepted on a window that has seen only smaller numbers. *)
Theorem in_order_accepted k n w S :
  window_rep w S -> recv_max w < n -> n + Z.of_nat k <= 2 ^ 64 ->
  exists w', receive_all (seqZ n (Z.of_nat k)) w = Ok (seqZ n (Z.of_nat k), w').
Proof.
  revert n w S. induction k as [|k IH]; intros n w S Hw Hlt Hub.
  { cbn. eauto. }
  rewrite seqZ_cons by lia. cbn [receive_all].
  pose proof (rep_max _ _ Hw) as Hm. unfold in_u64 in Hm.
  pose proof (receive_step w S n Hw ltac:(split; lia)) as H.
  rewrite decide_True in H.
  2:{ split; [lia|]. split; [|lia]. intros Hin. apply (rep_bound _ _ Hw) in Hin. lia. }
  destruct H as (w1 & -> & Hw1 & Hm1). cbn.
  replace (Z.pred (Z.of_nat (Datatypes.S k))) with (Z.of_nat k) by lia.
  destruct (IH (Z.succ n) w1 _ Hw1) as (w' & ->); [lia..|]. cbn. eauto.
Qed.

Lemma receive_refines_witness :
  exists w', receive 7 window_zero = Ok (true, w') /\ recv_max w' = 7.
Proof.
  pose proof (receive_refines window_zero ∅ 7 window_zero_rep ltac:(split; lia)) as H.
  rewrite decide_True in H by (split; [lia|]; split; [set_solver|left; cbn; lia]).
  destruct H as (w' & E & _ & M). exists w'. by rewrite E, M.
Defined.

Lemma no_replay_witness :
  exists acc w', receive_all [5; 3; 5; 3; 80; 3; 17; 17] window_zero = Ok (acc, w') /\
                 NoDup acc /\ acc ⊆ [5; 3; 5; 3; 80; 3; 17; 17].
Proof. apply no_replay. repeat constructor; lia. Defined.

Example no_replay_run :
  fst <$> receive_all [5; 3; 5; 3; 80; 3; 17; 17] window_zero = Ok [5; 3; 80; 17].
Proof. vm_compute. reflexivity. Qed.

Lemma in_order_accepted_witness :
  exists w', receive_all (seqZ 1 (Z.of_nat 200)) window_zero = Ok (seqZ 1 (Z.of_nat 200), w').
Proof. apply (in_order_accepted 200 1 window_zero ∅ window_zero_rep); cbn; lia. Defined.
