(* ===== verification/LinkedQueue.v ===== *)
(** The intrusive singly-linked FIFO that the C code spells out twice: the lanes
    of [out_queue_t] (scheduler.c, vpn_queue.c) and the shards of the thread pool
    (thread_pool.c).  Nodes live in a heap of allocated blocks; [fifo_rep] says
    that a head/tail/size triple represents a list of values. *)

From S2P Require Import Prelude.
From stdpp Require Import gmap.
Local Open Scope Z_scope.

Abbreviation loc := positive.

Record node (A : Type) := { next : option loc; data : A }.
Arguments next {A} _.
Arguments data {A} _.
#[global] Instance eta_node A : Settable (node A) :=
  fun n => {| next := next n; data := data n |}.

Record fifo := { head : option loc; tail : option loc; size : Z }.
#[global] Instance eta_fifo : Settable fifo :=
  fun q => {| head := head q; tail := tail q; size := size q |}.

Definition fifo_empty : fifo := {| head := None; tail := None; size := 0 |}.

Section LinkedQueue.
Context {A : Type}.
Implicit Types (h : gmap loc (node A)) (q : fifo) (ls : list loc) (xs : list A).

Definition deref h (p : option loc) : outcome (node A) :=
  match p with
  | None => Err NullDeref
  | Some l => match h !! l with Some n => Ok n | None => Err OutOfBounds end
  end.

(** [if (!q->tail) { q->head = q->tail = n; } else { q->tail->next = n; q->tail = n; }
    q->size++;] for a node [l] that has just been filled with [x]. *)
Definition append h q (l : loc) (x : A) : outcome (gmap loc (node A) * fifo) :=
  let h := <[l := {| next := None; data := x |}]> h in
  match tail q with
  | None => Ok (h, {| head := Some l; tail := Some l; size := size q + 1 |})
  | Some t =>
      n ← deref h (Some t);
      Ok (<[t := n <| next := Some l |>]> h,
          {| head := head q; tail := Some l; size := size q + 1 |})
  end.

(** [n = q->head; q->head = n->next; if (!q->head) q->tail = NULL; q->size--;] *)
Definition unlink h q : outcome (node A * fifo) :=
  n ← deref h (head q);
  Ok (n, {| head := next n;
            tail := match next n with None => None | Some _ => tail q end;
            size := size q - 1 |}).

(** [while (n) { t = n->next; free(n); n = t; }]; [fuel] bounds the walk. *)
Fixpoint free_chain (fuel : nat) h (p : option loc) : outcome (gmap loc (node A)) :=
  match p with
  | None => Ok h
  | Some l =>
      match fuel with
      | O => Err NoFuel
      | S fuel => n ← deref h (Some l); free_chain fuel (delete l h) (next n)
      end
  end.

(** The nodes [ls], in order, carry [xs]; [head], [tail] and [size] agree with them. *)
Record fifo_rep h q ls xs : Prop := {
  rep_head : head q = ls !! 0%nat;
  rep_tail : tail q = last ls;
  rep_size : size q = Z.of_nat (length ls);
  rep_length : length xs = length ls;
  rep_nodup : NoDup ls;
  rep_nodes : forall i l, ls !! i = Some l ->
    exists x, xs !! i = Some x /\ h !! l = Some {| next := ls !! S i; data := x |};
}.

Lemma fifo_rep_empty h : fifo_rep h fifo_empty [] [].
Proof. split; try done; constructor. Qed.

(** The representation only depends on the nodes of the queue. *)
Lemma fifo_rep_frame h h' q ls xs :
  fifo_rep h q ls xs -> (forall l, l ∈ ls -> h' !! l = h !! l) -> fifo_rep h' q ls xs.
Proof.
  intros [? ? ? ? ? Hn] Hf. split; try done.
  intros i l Hi. rewrite Hf by (by eapply list_elem_of_lookup_2). auto.
Qed.

Lemma append_rep h q ls xs l x :
  fifo_rep h q ls xs -> (l ∉ ls) ->
  exists h' q', append h q l x = Ok (h', q') /\ fifo_rep h' q' (ls ++ [l]) (xs ++ [x]) /\
    forall l', l' <> l -> (l' ∉ ls) -> h' !! l' = h !! l'.
Proof.
  intros [Hh Ht Hs Hlen Hnd Hn] Hfresh. unfold append. rewrite Ht.
  assert (Hnd' : NoDup (ls ++ [l])).
  { apply NoDup_app. split; [done|]. split; [set_solver|]. apply NoDup_singleton. }
  destruct (last ls) as [t|] eqn:Hlast.
  - apply last_Some in Hlast as [ls' ->].
    assert (Hi : (ls' ++ [t]) !! length ls' = Some t) by (by apply list_lookup_middle).
    destruct (Hn _ _ Hi) as (y & Hy & Hhy).
    assert (Htl : t <> l) by set_solver.
    cbn [deref]. rewrite lookup_insert_ne by done. rewrite Hhy. cbn.
    do 2 eexists. split; [reflexivity|]. split.
    + split; cbn.
      * rewrite Hh. by destruct ls'.
      * by rewrite last_snoc.
      * rewrite Hs, !length_app. cbn. lia.
      * rewrite !length_app in *. cbn in *. lia.
      * done.
      * intros i k Hk. destruct (decide (i = length (ls' ++ [t]))) as [->|Hne].
        { rewrite list_lookup_middle in Hk by done. simplify_eq.
          exists x. rewrite <- Hlen. rewrite list_lookup_middle by done. split; [done|].
          rewrite lookup_insert_ne by done. rewrite lookup_insert_eq.
          rewrite (lookup_ge_None_2 _ (S _)); [done|]. rewrite !length_app in *. cbn in *. lia. }
        assert (i < length (ls' ++ [t]))%nat.
        { apply lookup_lt_Some in Hk. rewrite length_app in Hk. cbn in Hk. lia. }
        rewrite lookup_app_l in Hk by done. destruct (Hn _ _ Hk) as (z & Hz & Hhz).
        exists z. split; [by apply lookup_app_l_Some|].
        destruct (decide (i = length ls')) as [->|Hnl].
        { rewrite list_lookup_middle in Hk by done. simplify_eq.
          rewrite lookup_insert_eq. cbn. do 2 f_equal.
          symmetry. apply list_lookup_middle. rewrite length_app. cbn. lia. }
        assert (k <> t).
        { intros ->. apply Hnl. eapply NoDup_lookup; eauto. }
        rewrite lookup_insert_ne by done.
        rewrite lookup_insert_ne by (intros ->; apply Hfresh; by eapply list_elem_of_lookup_2).
        rewrite Hhz. do 2 f_equal. rewrite length_app in *. cbn in *.
        rewrite (lookup_app_l (ls' ++ [t])); [done|]. rewrite length_app. cbn. lia.
    + intros l' Hl' Hnin. rewrite lookup_insert_ne by set_solver. by rewrite lookup_insert_ne.
  - apply last_None in Hlast as ->. destruct xs; [|done]. cbn.
    do 2 eexists. split; [reflexivity|]. split.
    + split; cbn; try done.
      * rewrite Hs. done.
      * intros [|i] k Hk; simplify_eq/=. exists x. by rewrite lookup_insert_eq.
    + intros l' Hl' _. by rewrite lookup_insert_ne.
Qed.

Lemma unlink_rep h q l ls x xs :
  fifo_rep h q (l :: ls) (x :: xs) ->
  exists q', head q = Some l /\ unlink h q = Ok ({| next := head q'; data := x |}, q') /\
             fifo_rep h q' ls xs.
Proof.
  intros [Hh Ht Hs Hlen Hnd Hn]. unfold unlink. rewrite Hh. cbn in *.
  destruct (Hn 0%nat l eq_refl) as (y & Hy & Hhl). cbn in Hy. simplify_eq.
  rewrite Hhl. cbn.
  exists {| head := ls !! 0%nat; tail := last ls; size := size q - 1 |}.
  split; [done|]. split; [cbn; rewrite Ht; by destruct ls|].
  apply NoDup_cons in Hnd as [_ Hnd]. split; cbn; try done.
  - rewrite Hs. lia.
  - intros i k Hk. exact (Hn (S i) k Hk).
Qed.

(** Nodes in use are no more than the heap holds, which bounds the walk. *)
Lemma length_le_size (h : gmap loc (node A)) (ns : list loc) :
  NoDup ns -> (forall l, l ∈ ns -> is_Some (h !! l)) -> (length ns <= base.size h)%nat.
Proof.
  intros Hnd Hin. rewrite <- size_dom, <- (size_list_to_set (C := gset loc) ns Hnd).
  apply subseteq_size. intros l Hl. apply elem_of_list_to_set in Hl.
  apply elem_of_dom. auto.
Qed.

Lemma free_chain_rep h q ls xs fuel :
  fifo_rep h q ls xs -> (length ls <= fuel)%nat ->
  exists h', free_chain fuel h (head q) = Ok h' /\
    (forall l, l ∈ ls -> h' !! l = None) /\ (forall l, l ∉ ls -> h' !! l = h !! l).
Proof.
  revert h q xs fuel. induction ls as [|l ls IH]; intros h q xs fuel Hrep Hfuel.
  { rewrite (rep_head _ _ _ _ Hrep). destruct fuel; cbn; eexists; (split; [reflexivity|]);
    split; [set_solver|done|set_solver|done]. }
  destruct xs as [|x xs]; [by pose proof (rep_length _ _ _ _ Hrep)|].
  destruct (unlink_rep _ _ _ _ _ _ Hrep) as (q' & Hhd & Hun & Hrep').
  pose proof (rep_nodup _ _ _ _ Hrep) as [Hnin _]%NoDup_cons.
  destruct (rep_nodes _ _ _ _ Hrep 0%nat l eq_refl) as (y & Hy & Hl).
  rewrite Hhd. cbn in Hfuel. destruct fuel as [|fuel]; [lia|].
  cbn [free_chain deref]. rewrite Hl. cbn [mbind outcome_bind next lookup list_lookup].
  assert (Hq' : head q' = ls !! 0%nat) by apply (rep_head _ _ _ _ Hrep').
  replace (ls !! 0%nat) with (head q') by done.
  destruct (IH (delete l h) q' xs fuel) as (h' & -> & Hf & Hk); [|lia|].
  { eapply fifo_rep_frame; [done|]. intros k Hk. rewrite lookup_delete_ne; [done|]. set_solver. }
  exists h'. split; [done|]. split.
  - intros k [->|Hin]%elem_of_cons; [|auto]. rewrite Hk by done. apply lookup_delete_eq.
  - intros k [Hne Hin]%not_elem_of_cons. rewrite Hk by done. by rewrite lookup_delete_ne.
Qed.

End LinkedQueue.
