(* ===== verification/OutQueue.v ===== *)
(** The two-lane outgoing packet queue: the classifier and [out_queue_t] of
    chamlon_server/src/scheduler.c.

    [packet_queue_push], [out_queue_pop], [out_queue_size] and [out_queue_destroy]
    work on linked nodes in a heap; the abstract queue is a pair of bounded lists,
    and [queue_rep] relates the two. *)

From stdpp Require Import gmap.
From S2P Require Import Prelude LinkedQueue.
Local Open Scope Z_scope.

Inductive pkt_priority_t := PKT_PRIO_HIGH | PKT_PRIO_NORMAL.
#[global] Instance pkt_priority_eq_dec : EqDecision pkt_priority_t.
Proof. solve_decision. Defined.

Definition QUEUE_CAP_HIGH : Z := 64.
Definition QUEUE_CAP_NORMAL : Z := 256.

(** ** Packet priority classifier *)

(** [(uint16_t)((hi << 8) | lo)] *)
Definition be16 (hi lo : Z) : Z := u16 (Z.lor (Z.shiftl hi 8) lo).

Definition classify_packet (ip : option (list byte)) (len : nat) : outcome pkt_priority_t :=
  match ip with
  | None => Ok PKT_PRIO_NORMAL
  | Some ip =>
    if decide (len < 20)%nat then Ok PKT_PRIO_NORMAL
    else
      b0 ← byte_at ip 0;
      let version := Z.shiftr b0 4 in
      if version =? 4 then
        b2 ← byte_at ip 2;
        b3 ← byte_at ip 3;
        protocol ← byte_at ip 9;
        let total_len := be16 b2 b3 in
        let ihl := Z.to_nat (u8 (Z.land b0 15 * 4)) in
        if total_len <=? 128 then Ok PKT_PRIO_HIGH
        else if protocol =? 1 then Ok PKT_PRIO_HIGH
        else
          dns ← (if (protocol =? 17) && bool_decide (ihl + 4 <= len)%nat then
                   p0 ← byte_at ip ihl;
                   p1 ← byte_at ip (ihl + 1);
                   p2 ← byte_at ip (ihl + 2);
                   p3 ← byte_at ip (ihl + 3);
                   Ok ((be16 p0 p1 =? 53) || (be16 p2 p3 =? 53))
                 else Ok false);
          if (dns : bool) then Ok PKT_PRIO_HIGH
          else
            ack ← (if (protocol =? 6) && bool_decide (ihl + 20 <= len)%nat then
                     off ← byte_at ip (ihl + 12);
                     tcp_flags ← byte_at ip (ihl + 13);
                     let tcp_off := u8 (Z.shiftr off 4 * 4) in
                     let tcp_payload := u16 (total_len - Z.of_nat ihl - tcp_off) in
                     Ok (negb (Z.land tcp_flags 16 =? 0) && (tcp_payload =? 0))
                   else Ok false);
            Ok (if (ack : bool) then PKT_PRIO_HIGH else PKT_PRIO_NORMAL)
      else if version =? 6 then
        icmp6 ← (if decide (40 <= len)%nat then
                   b6 ← byte_at ip 6; Ok (b6 =? 58)
                 else Ok false);
        Ok (if (icmp6 : bool) || bool_decide (len <= 128)%nat
            then PKT_PRIO_HIGH else PKT_PRIO_NORMAL)
      else Ok PKT_PRIO_NORMAL
  end.

(** ** The queue *)

(** A pair indexed by priority: [head[PKT_PRIO_LEVELS]] and its siblings. *)
Record lanes (A : Type) := { high : A; normal : A }.
Arguments high {A} _.
Arguments normal {A} _.

Definition lane {A} (p : pkt_priority_t) (l : lanes A) : A :=
  match p with PKT_PRIO_HIGH => high l | PKT_PRIO_NORMAL => normal l end.
Definition set_lane {A} (p : pkt_priority_t) (x : A) (l : lanes A) : lanes A :=
  match p with
  | PKT_PRIO_HIGH => {| high := x; normal := normal l |}
  | PKT_PRIO_NORMAL => {| high := high l; normal := x |}
  end.

(** The payload of an [out_node_t]; its [next] link is [LinkedQueue.next]. *)
Record out_data := {
  pkt : list byte;
  pktlen : Z;
  seq : Z;
  priority : pkt_priority_t;
}.
Abbreviation out_node_t := (node out_data).
Abbreviation out_queue_t := (lanes fifo).
Abbreviation heap := (gmap loc out_node_t).

Definition out_queue_init : out_queue_t := {| high := fifo_empty; normal := fifo_empty |}.

Definition queue_cap (p : pkt_priority_t) : Z :=
  match p with PKT_PRIO_HIGH => QUEUE_CAP_HIGH | PKT_PRIO_NORMAL => QUEUE_CAP_NORMAL end.

(** Making room: when the lane is full, its oldest packet is unlinked and freed.
    The boolean says whether a drop was recorded. *)
Definition evict_oldest (h : heap) (q : out_queue_t) (p : pkt_priority_t)
    : outcome (heap * out_queue_t * bool) :=
  if queue_cap p <=? size (lane p q) then
    a ← unlink h (lane p q);
    match head (lane p q) with
    | None => Err NullDeref
    | Some old => Ok (delete old h, set_lane p a.2 q, true)
    end
  else Ok (h, q, false).

(** [n] is the result of [malloc(sizeof(out_node_t))]; [q] and [pk] are null
    pointers when [None]. *)
Definition packet_queue_push (n : option loc) (h : heap) (q : option out_queue_t)
    (pk : option (list byte)) (pklen sq : Z) (ip_buf : option (list byte)) (ip_len : nat)
    : outcome (heap * option out_queue_t * bool) :=
  match q, pk with
  | Some q, Some pk =>
      prio ← classify_packet ip_buf ip_len;
      match n with
      | None => Ok (h, Some q, false)
      | Some n =>
          e ← evict_oldest h q prio;
          let '(h, q, dropped) := e in
          a ← append h (lane prio q) n
                {| pkt := pk; pktlen := pklen; seq := sq; priority := prio |};
          Ok (a.1, Some (set_lane prio a.2 q), dropped)
      end
  | _, _ => Ok (h, q, false)
  end.

(** The lanes are tried in the order HIGH, NORMAL; the popped node stays
    allocated and is owned by the caller. *)
Definition out_queue_pop (h : heap) (q : out_queue_t)
    : outcome (option loc * out_queue_t) :=
  match head (high q) with
  | Some n => a ← unlink h (high q); Ok (Some n, set_lane PKT_PRIO_HIGH a.2 q)
  | None =>
      match head (normal q) with
      | Some n => a ← unlink h (normal q); Ok (Some n, set_lane PKT_PRIO_NORMAL a.2 q)
      | None => Ok (None, q)
      end
  end.

Definition out_queue_size (q : out_queue_t) : Z := u64 (size (high q) + size (normal q)).

Definition out_queue_destroy (h : heap) (q : out_queue_t) : outcome (heap * out_queue_t) :=
  h ← free_chain (base.size h) h (head (high q));
  h ← free_chain (base.size h) h (head (normal q));
  Ok (h, out_queue_init).

(** ** Abstract queue *)

Abbreviation aqueue := (lanes (list out_data)).
Definition aq_empty : aqueue := {| high := []; normal := [] |}.

Definition aq_full (p : pkt_priority_t) (A : aqueue) : bool :=
  queue_cap p <=? Z.of_nat (length (lane p A)).

Definition aq_push (d : out_data) (A : aqueue) : aqueue :=
  let p := priority d in
  let l := if aq_full p A then List.tl (lane p A) else lane p A in
  set_lane p (l ++ [d]) A.

Definition aq_pop (A : aqueue) : option (out_data * aqueue) :=
  match high A with
  | d :: l => Some (d, set_lane PKT_PRIO_HIGH l A)
  | [] => match normal A with
          | d :: l => Some (d, set_lane PKT_PRIO_NORMAL l A)
          | [] => None
          end
  end.

Definition aq_size (A : aqueue) : nat := (length (high A) + length (normal A))%nat.

(** Every lane within its capacity. *)
Definition aq_wf (A : aqueue) : Prop :=
  forall p, Z.of_nat (length (lane p A)) <= queue_cap p.

(** The heap holds exactly the nodes of the two lanes, each once. *)
Definition queue_rep (h : heap) (q : out_queue_t) (A : aqueue) : Prop :=
  exists ls : lanes (list loc),
    (forall p, fifo_rep h (lane p q) (lane p ls) (lane p A)) /\
    (forall p p' l, l ∈ lane p ls -> l ∈ lane p' ls -> p = p') /\
    (forall l, is_Some (h !! l) -> exists p, l ∈ lane p ls).

Lemma lane_set_lane {A} p p' (x : A) l :
  lane p (set_lane p' x l) = if decide (p = p') then x else lane p l.
Proof. by destruct p, p'. Qed.

Lemma set_set_lane {A} p (x y : A) l : set_lane p x (set_lane p y l) = set_lane p x l.
Proof. by destruct p. Qed.

Lemma set_lane_id {A} p (l : lanes A) : set_lane p (lane p l) l = l.
Proof. by destruct p, l. Qed.

Lemma queue_cap_pos p : 0 < queue_cap p.
Proof. by destruct p. Qed.

Lemma fifo_rep_alloc (h : heap) f ls xs l :
  fifo_rep h f ls xs -> l ∈ ls -> is_Some (h !! l).
Proof.
  intros Hr [i Hi]%list_elem_of_lookup. destruct (rep_nodes _ _ _ _ Hr _ _ Hi) as (x & _ & ->). eauto.
Qed.

Lemma queue_rep_init : queue_rep ∅ out_queue_init aq_empty.
Proof.
  exists {| high := []; normal := [] |}. split; [|split].
  - intros []; apply fifo_rep_empty.
  - intros [] [] l; set_solver.
  - intros l [? H]. by rewrite lookup_empty in H.
Qed.

(** Unlinking the first node of a lane and freeing it. *)
Lemma unlink_lane h q A p d l :
  queue_rep h q A -> lane p A = d :: l ->
  exists n f, head (lane p q) = Some n /\
    unlink h (lane p q) = Ok ({| next := head f; data := d |}, f) /\
    h !! n = Some {| next := head f; data := d |} /\
    queue_rep (delete n h) (set_lane p f q) (set_lane p l A).
Proof.
  intros (ls & Hf & Hdis & Hown) HA. pose proof (Hf p) as Hp. rewrite HA in Hp.
  destruct (lane p ls) as [|n ns] eqn:Els; [by pose proof (rep_length _ _ _ _ Hp)|].
  destruct (unlink_rep _ _ _ _ _ _ Hp) as (f & Hhd & Hun & Hf').
  destruct (rep_nodes _ _ _ _ Hp 0%nat n eq_refl) as (? & [= <-] & Hn).
  pose proof (rep_head _ _ _ _ Hf') as Hhf. pose proof (rep_nodup _ _ _ _ Hp) as [Hnin _]%NoDup_cons.
  exists n, f. split; [done|]. split; [done|]. split; [by rewrite Hhf|].
  exists (set_lane p ns ls). split; [|split].
  - intros p'. rewrite !lane_set_lane. destruct (decide (p' = p)) as [->|Hne].
    + eapply fifo_rep_frame; [done|]. intros k Hk. rewrite lookup_delete_ne; [done|]. set_solver.
    + eapply fifo_rep_frame; [apply Hf|]. intros k Hk. rewrite lookup_delete_ne; [done|].
      intros ->. apply Hne, (Hdis p' p k Hk). rewrite Els. set_solver.
  - intros p1 p2 k. rewrite !lane_set_lane. intros H1 H2. apply (Hdis p1 p2 k).
    + destruct (decide (p1 = p)) as [->|]; [rewrite Els; set_solver|done].
    + destruct (decide (p2 = p)) as [->|]; [rewrite Els; set_solver|done].
  - intros k [x Hk]. apply lookup_delete_Some in Hk as [Hkn Hk].
    destruct (Hown k) as [p' Hp']; [eauto|]. exists p'. rewrite lane_set_lane.
    case_decide; [subst; rewrite Els in Hp'; set_solver|done].
Qed.

Lemma evict_rep h q A p :
  queue_rep h q A ->
  exists h' q', evict_oldest h q p = Ok (h', q', aq_full p A) /\
    queue_rep h' q' (set_lane p (if aq_full p A then List.tl (lane p A) else lane p A) A) /\
    h' ⊆ h.
Proof.
  intros Hrep. unfold evict_oldest, aq_full. pose proof Hrep as (ls & Hf & _).
  rewrite (rep_size _ _ _ _ (Hf p)), <- (rep_length _ _ _ _ (Hf p)).
  destruct (Z.leb_spec (queue_cap p) (Z.of_nat (length (lane p A)))) as [Hfull|Hroom].
  - pose proof (queue_cap_pos p). destruct (lane p A) as [|d l] eqn:EA; [cbn in Hfull; lia|].
    destruct (unlink_lane h q A p d l Hrep EA) as (n & f & Hhd & -> & _ & Hrep'). cbn.
    rewrite Hhd. do 2 eexists. split; [reflexivity|]. split; [done|]. apply delete_subseteq.
  - do 2 eexists. split; [reflexivity|]. by rewrite set_lane_id.
Qed.

Lemma append_lane h q A p n d :
  queue_rep h q A -> h !! n = None ->
  exists h' f, append h (lane p q) n d = Ok (h', f) /\
    queue_rep h' (set_lane p f q) (set_lane p (lane p A ++ [d]) A).
Proof.
  intros (ls & Hf & Hdis & Hown) Hn.
  assert (Hnin : forall p', n ∉ lane p' ls).
  { intros p' Hin. destruct (fifo_rep_alloc _ _ _ _ _ (Hf p') Hin). congruence. }
  destruct (append_rep h (lane p q) (lane p ls) (lane p A) n d (Hf p) (Hnin p))
    as (h' & f & Happ & Hf' & Hframe).
  exists h', f. split; [done|]. exists (set_lane p (lane p ls ++ [n]) ls). split; [|split].
  - intros p'. rewrite !lane_set_lane. destruct (decide (p' = p)) as [->|Hne]; [done|].
    eapply fifo_rep_frame; [apply Hf|]. intros k Hk. apply Hframe; [set_solver|].
    intros Hk'. apply Hne. eauto.
  - intros p1 p2 k. rewrite !lane_set_lane. repeat case_decide; subst; try done.
    + intros [H1| ->%list_elem_of_singleton]%elem_of_app H2; [eauto|set_solver].
    + intros H1 [H2| ->%list_elem_of_singleton]%elem_of_app; [eauto|set_solver].
    + eauto.
  - intros k Hk. destruct (decide (k = n)) as [->|Hkn].
    { exists p. rewrite lane_set_lane, decide_True by done. set_solver. }
    destruct (decide (k ∈ lane p ls)) as [Hin|Hin].
    { exists p. rewrite lane_set_lane, decide_True by done. set_solver. }
    rewrite Hframe in Hk by done. destruct (Hown k Hk) as [p' Hp']. exists p'.
    rewrite lane_set_lane. case_decide; [subst; set_solver|done].
Qed.

(** ** Theorems *)

(** C32: [packet_queue_push] on the linked structure does what a push on a pair of
    bounded FIFO lists does, for every reachable shape of the queue: the packet
    goes to the end of the lane its header selects, a full lane loses its oldest
    packet and reports a drop, the heap holds exactly the queued nodes, and a
    failed allocation leaves the queue as it was; so does a null queue or packet,
    whatever the header. *)
Theorem push_refines h q A n pk pklen sq ip ip_len prio :
  queue_rep h q A -> classify_packet ip ip_len = Ok prio ->
  (forall l, n = Some l -> h !! l = None) ->
  let d := {| pkt := pk; pktlen := pklen; seq := sq; priority := prio |} in
  exists h' q' dropped,
    packet_queue_push n h (Some q) (Some pk) pklen sq ip ip_len = Ok (h', Some q', dropped) /\
    match n with
    | Some _ => queue_rep h' q' (aq_push d A) /\ dropped = aq_full prio A
    | None => h' = h /\ q' = q /\ dropped = false
    end /\
    (forall ip ip_len, packet_queue_push n h (Some q) None pklen sq ip ip_len = Ok (h, Some q, false)) /\
    (forall pk ip ip_len, packet_queue_push n h None pk pklen sq ip ip_len = Ok (h, None, false)).
Proof.
  intros Hrep Hcl Hn d. unfold packet_queue_push. rewrite Hcl. cbn [mbind outcome_bind].
  destruct n as [n|]; [|by do 3 eexists].
  destruct (evict_rep h q A prio Hrep) as (h1 & q1 & -> & Hrep1 & Hsub). cbn [mbind outcome_bind].
  assert (Hn1 : h1 !! n = None).
  { eapply lookup_weaken_None; [|done]. by apply Hn. }
  fold d. destruct (append_lane h1 q1 _ prio n d Hrep1 Hn1) as (h2 & f & -> & Hrep2).
  cbn. do 3 eexists. split; [reflexivity|]. split; [|done]. split; [|done].
  rewrite lane_set_lane, decide_True, set_set_lane in Hrep2 by done. exact Hrep2.
Qed.

(** C33: [out_queue_pop] returns the oldest packet of the HIGH lane, or of the
    NORMAL lane when HIGH is empty, or nothing when both are; once the caller has
    freed the node the heap again holds exactly the queued packets. *)
Theorem pop_refines h q A :
  queue_rep h q A ->
  match aq_pop A with
  | Some (d, A') => exists n nxt q', out_queue_pop h q = Ok (Some n, q') /\
      h !! n = Some {| next := nxt; data := d |} /\ queue_rep (delete n h) q' A'
  | None => out_queue_pop h q = Ok (None, q)
  end.
Proof.
  intros Hrep. pose proof Hrep as (ls & Hf & _). unfold aq_pop, out_queue_pop.
  assert (Hnil : forall p, lane p A = [] -> head (lane p q) = None).
  { intros p HA. pose proof (rep_length _ _ _ _ (Hf p)) as Hl. rewrite HA in Hl.
    rewrite (rep_head _ _ _ _ (Hf p)). by destruct (lane p ls). }
  destruct (high A) as [|d l] eqn:EH.
  - specialize (Hnil PKT_PRIO_HIGH EH) as Hh. cbn in Hh. rewrite Hh.
    destruct (normal A) as [|d l] eqn:EN.
    + specialize (Hnil PKT_PRIO_NORMAL EN) as Hn. cbn in Hn. by rewrite Hn.
    + destruct (unlink_lane h q A PKT_PRIO_NORMAL d l Hrep EN) as (n & f & Hhd & Hu & Hn & Hrep').
      cbn [lane] in Hhd, Hu. rewrite Hhd, Hu. cbn. eauto 10.
  - destruct (unlink_lane h q A PKT_PRIO_HIGH d l Hrep EH) as (n & f & Hhd & Hu & Hn & Hrep').
    cbn [lane] in Hhd, Hu. rewrite Hhd, Hu. cbn. eauto 10.
Qed.

(** [out_queue_destroy] frees every node exactly once, whatever the queue
    holds: it never follows a freed link and nothing stays allocated. *)
Theorem destroy_frees_all h q A :
  queue_rep h q A -> out_queue_destroy h q = Ok (∅, out_queue_init).
Proof.
  intros (ls & Hf & Hdis & Hown). unfold out_queue_destroy.
  pose proof (Hf PKT_PRIO_HIGH) as Hh. pose proof (Hf PKT_PRIO_NORMAL) as Hn. cbn in Hh, Hn.
  destruct (free_chain_rep h (high q) (high ls) (high A) (base.size h)) as (h1 & -> & Hd1 & Hk1);
    [done| |].
  { apply length_le_size; [apply Hh|]. intros l Hl. exact (fifo_rep_alloc _ _ _ _ _ Hh Hl). }
  cbn [mbind outcome_bind].
  assert (Hn1 : fifo_rep h1 (normal q) (normal ls) (normal A)).
  { eapply fifo_rep_frame; [done|]. intros l Hl. apply Hk1. intros Hl'.
    discriminate (Hdis PKT_PRIO_HIGH PKT_PRIO_NORMAL l Hl' Hl). }
  destruct (free_chain_rep h1 (normal q) (normal ls) (normal A) (base.size h1))
    as (h2 & -> & Hd2 & Hk2); [done| |].
  { apply length_le_size; [apply Hn1|]. intros l Hl. exact (fifo_rep_alloc _ _ _ _ _ Hn1 Hl). }
  cbn [mbind outcome_bind]. do 2 f_equal. apply map_eq. intros l. rewrite lookup_empty.
  destruct (decide (l ∈ normal ls)) as [Hi|Hi]; [auto|]. rewrite Hk2 by done.
  destruct (decide (l ∈ high ls)) as [Hi'|Hi']; [auto|]. rewrite Hk1 by done.
  destruct (h !! l) eqn:E; [|done].
  destruct (Hown l) as [[] Hp]; [eauto|contradiction..].
Qed.

Lemma aq_push_wf d A : aq_wf A -> aq_wf (aq_push d A).
Proof.
  intros Hwf p. unfold aq_push, aq_full. rewrite lane_set_lane.
  case_decide; [|apply Hwf]. subst. pose proof (Hwf (priority d)). pose proof (queue_cap_pos (priority d)).
  rewrite length_app. cbn.
  destruct (Z.leb_spec (queue_cap (priority d)) (Z.of_nat (length (lane (priority d) A)))); [|lia].
  destruct (lane (priority d) A); cbn in *; lia.
Qed.

(** ** The packets of a queue, in the order they leave *)

Definition packets (q : aqueue) : list out_data := high q ++ normal q.

Lemma aq_push_packets d q : Forall (fun x => x = d \/ x ∈ packets q) (packets (aq_push d q)).
Proof.
  assert (Htl : forall (l : list out_data) x, x ∈ List.tl l -> x ∈ l) by (intros [|? ?] ?; [done|by right]).
  apply Forall_forall. intros x. unfold aq_push, packets. destruct (priority d); cbn [set_lane lane high normal];
    rewrite !elem_of_app; destruct (aq_full _ _); rewrite list_elem_of_singleton; naive_solver.
Qed.

Lemma aq_pop_Some d q q' : aq_pop q = Some (d, q') -> packets q = d :: packets q'.
Proof. unfold aq_pop, packets. destruct q as [[|x h] [|y n]]; cbn; intros; by simplify_eq/=. Qed.

Lemma aq_pop_None q : aq_pop q = None -> q = aq_empty.
Proof. unfold aq_pop. destruct q as [[|x h] [|y n]]; cbn; intros; by simplify_eq/=. Qed.

(** ** What the classifier decides *)

Definition at_ (ip : list byte) (i : nat) : Z := b2z (ip !!! i).
Definition ip_version (ip : list byte) : Z := Z.shiftr (at_ ip 0) 4.
Definition ip4_total_len (ip : list byte) : Z := be16 (at_ ip 2) (at_ ip 3).
Definition ip4_header_len (ip : list byte) : nat := Z.to_nat (u8 (Z.land (at_ ip 0) 15 * 4)).
Definition udp_dns (ip : list byte) : Prop :=
  let i := ip4_header_len ip in
  at_ ip 9 = 17 /\ (i + 4 <= length ip)%nat /\
  (be16 (at_ ip i) (at_ ip (i + 1)) = 53 \/ be16 (at_ ip (i + 2)) (at_ ip (i + 3)) = 53).
Definition tcp_pure_ack (ip : list byte) : Prop :=
  let i := ip4_header_len ip in
  at_ ip 9 = 6 /\ (i + 20 <= length ip)%nat /\ Z.land (at_ ip (i + 13)) 16 <> 0 /\
  u16 (ip4_total_len ip - Z.of_nat i - u8 (Z.shiftr (at_ ip (i + 12)) 4 * 4)) = 0.
Definition interactive (ip : list byte) : Prop :=
  (20 <= length ip)%nat /\
  ((ip_version ip = 4 /\ (ip4_total_len ip <= 128 \/ at_ ip 9 = 1 \/ udp_dns ip \/ tcp_pure_ack ip)) \/
   (ip_version ip = 6 /\ (((40 <= length ip)%nat /\ at_ ip 6 = 58) \/ (length ip <= 128)%nat))).
#[global] Instance interactive_dec ip : Decision (interactive ip).
Proof. unfold interactive, udp_dns, tcp_pure_ack. apply _. Defined.

Lemma byte_at_total ip i : (i < length ip)%nat -> byte_at ip i = Ok (at_ ip i).
Proof.
  intros H. destruct (byte_at_lt ip i H) as (b & Hb & ->). unfold at_.
  by rewrite (list_lookup_total_correct _ _ _ Hb).
Qed.

Lemma classify_v4 ip :
  (20 <= length ip)%nat -> ip_version ip = 4 ->
  classify_packet (Some ip) (length ip) = Ok (if decide (interactive ip) then PKT_PRIO_HIGH else PKT_PRIO_NORMAL).
Proof.
  intros Hlen Hv. unfold classify_packet. rewrite decide_False by lia.
  rewrite !byte_at_total by lia. cbn [mbind outcome_bind].
  fold (ip_version ip) (ip4_total_len ip) (ip4_header_len ip). rewrite Hv, Z.eqb_refl.
  assert (Hiff : interactive ip <->
    ip4_total_len ip <= 128 \/ at_ ip 9 = 1 \/ udp_dns ip \/ tcp_pure_ack ip).
  { unfold interactive. rewrite Hv. split; [intros (_ & [[_ ?]|[? _]]); [done|lia]|auto]. }
  rewrite (decide_ext _ _ _ _ Hiff). clear Hiff. unfold udp_dns, tcp_pure_ack. cbv zeta.
  set (i := ip4_header_len ip).
  destruct (Z.leb_spec (ip4_total_len ip) 128); [by rewrite decide_True by auto|].
  destruct (Z.eqb_spec (at_ ip 9) 1); [by rewrite decide_True by auto|].
  destruct (Z.eqb_spec (at_ ip 9) 17) as [E17|N17]; cbn [andb].
  - rewrite E17. cbn [Z.eqb Pos.eqb andb].
    destruct (decide (i + 4 <= length ip)%nat) as [Hi|Hi].
    + rewrite (bool_decide_eq_true_2 _ Hi), !byte_at_total by lia. cbn [mbind outcome_bind].
      destruct (Z.eqb_spec (be16 (at_ ip i) (at_ ip (i + 1))) 53),
        (Z.eqb_spec (be16 (at_ ip (i + 2)) (at_ ip (i + 3))) 53); cbn;
      [by rewrite decide_True by tauto..|rewrite decide_False; [done|]]. lia.
    + rewrite (bool_decide_eq_false_2 _ Hi). cbn. rewrite decide_False; [done|]. lia.
  - cbn [mbind outcome_bind].
    destruct (Z.eqb_spec (at_ ip 9) 6) as [E6|N6]; cbn [andb].
    2:{ cbn. rewrite decide_False; [done|]. lia. }
    destruct (decide (i + 20 <= length ip)%nat) as [Hi|Hi].
    2:{ rewrite (bool_decide_eq_false_2 _ Hi). cbn. rewrite decide_False; [done|]. lia. }
    rewrite (bool_decide_eq_true_2 _ Hi), !byte_at_total by lia. cbn [mbind outcome_bind].
    destruct (Z.eqb_spec (Z.land (at_ ip (i + 13)) 16) 0); cbn [negb andb].
    { rewrite decide_False; [done|]. lia. }
    destruct (Z.eqb_spec (u16 (ip4_total_len ip - Z.of_nat i - u8 (Z.shiftr (at_ ip (i + 12)) 4 * 4))) 0).
    + by rewrite decide_True by tauto.
    + rewrite decide_False; [done|]. lia.
Qed.

Lemma classify_eq ip :
  classify_packet (Some ip) (length ip) =
    Ok (if decide (interactive ip) then PKT_PRIO_HIGH else PKT_PRIO_NORMAL).
Proof.
  destruct (decide (20 <= length ip)%nat) as [Hlen|Hlen].
  2:{ cbn. rewrite decide_True by lia. rewrite decide_False; [done|]. by intros [? _]. }
  destruct (decide (ip_version ip = 4)) as [H4|H4]; [by apply classify_v4|].
  unfold classify_packet. rewrite decide_False by lia.
  rewrite (byte_at_total ip 0) by lia. cbn [mbind outcome_bind]. fold (ip_version ip).
  destruct (Z.eqb_spec (ip_version ip) 4); [done|].
  destruct (Z.eqb_spec (ip_version ip) 6) as [H6|H6].
  2:{ rewrite decide_False; [done|]. unfold interactive. tauto. }
  assert (Hiff : interactive ip <-> ((40 <= length ip)%nat /\ at_ ip 6 = 58) \/ (length ip <= 128)%nat).
  { unfold interactive. tauto. }
  rewrite (decide_ext _ _ _ _ Hiff). destruct (decide (40 <= length ip)%nat) as [H40|H40].
  - rewrite byte_at_total by lia. cbn [mbind outcome_bind].
    destruct (Z.eqb_spec (at_ ip 6) 58); cbn [orb]; [by rewrite decide_True by tauto|].
    case_bool_decide; [by rewrite decide_True by tauto|by rewrite decide_False by tauto].
  - cbn [mbind outcome_bind orb].
    case_bool_decide; [by rewrite decide_True by tauto|by rewrite decide_False by tauto].
Qed.

(** The classifier reads only bytes of the packet it was given and marks it
    HIGH exactly when it is a short IPv4 packet, ICMP, DNS over UDP, a TCP
    acknowledgement without payload, ICMPv6, or a short IPv6 packet. *)
Theorem classify_correct ip :
  classify_packet (Some ip) (length ip) =
    Ok (if decide (interactive ip) then PKT_PRIO_HIGH else PKT_PRIO_NORMAL).
Proof. apply classify_eq. Qed.

(** ** Witnesses *)

(** A queue after three pushes: a ping, a bulk packet, a DNS query. *)
Definition ping : list byte := z2b 0x45 :: replicate 27 Byte.x01.
Definition bulk : list byte := [z2b 0x45; z2b 0; z2b 5; z2b 0] ++ replicate 1276 Byte.x02.
Definition entry (n : Z) (p : pkt_priority_t) : out_data :=
  {| pkt := [z2b n]; pktlen := 1; seq := n; priority := p |}.

Definition push_run : outcome (heap * option out_queue_t * bool) :=
  a ← packet_queue_push (Some 1%positive) ∅ (Some out_queue_init) (Some [z2b 0]) 1 0 (Some bulk) (length bulk);
  b ← packet_queue_push (Some 2%positive) a.1.1 a.1.2 (Some [z2b 1]) 1 1 (Some ping) (length ping);
  packet_queue_push (Some 3%positive) b.1.1 b.1.2 (Some [z2b 2]) 1 2 (Some bulk) (length bulk).

Example push_run_pops :
  (r ← push_run;
   match r.1.2 with
   | None => Err NullDeref
   | Some q =>
       p1 ← out_queue_pop r.1.1 q;
       p2 ← out_queue_pop r.1.1 p1.2;
       p3 ← out_queue_pop r.1.1 p2.2;
       p4 ← out_queue_pop r.1.1 p3.2;
       Ok [p1.1; p2.1; p3.1; p4.1]
   end) = Ok [Some 2%positive; Some 1%positive; Some 3%positive; None].
Proof. vm_compute. reflexivity. Qed.

Lemma push_refines_witness :
  exists h' q' dropped,
    packet_queue_push (Some 1%positive) ∅ (Some out_queue_init) (Some [z2b 1]) 1 1 (Some ping) (length ping)
      = Ok (h', Some q', dropped) /\
    queue_rep h' q' (aq_push (entry 1 PKT_PRIO_HIGH) aq_empty) /\ dropped = false.
Proof.
  destruct (push_refines ∅ out_queue_init aq_empty (Some 1%positive) [z2b 1] 1 1 (Some ping) (length ping) PKT_PRIO_HIGH)
    as (h' & q' & dropped & E & H & _).
  - exact queue_rep_init.
  - vm_compute. reflexivity.
  - intros l _. apply lookup_empty.
  - exists h', q', dropped. split; [exact E|exact H].
Defined.

Lemma one_packet_rep :
  queue_rep {[1%positive := {| next := None; data := entry 1 PKT_PRIO_HIGH |}]}
    {| high := {| head := Some 1%positive; tail := Some 1%positive; size := 1 |}; normal := fifo_empty |}
    {| high := [entry 1 PKT_PRIO_HIGH]; normal := [] |}.
Proof.
  destruct (append_lane ∅ out_queue_init aq_empty PKT_PRIO_HIGH 1%positive (entry 1 PKT_PRIO_HIGH)
              queue_rep_init (lookup_empty _)) as (h & f & Happ & Hrep).
  cbn in Happ. simplify_eq. exact Hrep.
Qed.

Lemma pop_refines_witness :
  exists n nxt q', out_queue_pop {[1%positive := {| next := None; data := entry 1 PKT_PRIO_HIGH |}]}
    {| high := {| head := Some 1%positive; tail := Some 1%positive; size := 1 |}; normal := fifo_empty |}
      = Ok (Some n, q') /\
    ({[1%positive := {| next := None; data := entry 1 PKT_PRIO_HIGH |}]} : heap) !! n
      = Some {| next := nxt; data := entry 1 PKT_PRIO_HIGH |} /\
    queue_rep (delete n {[1%positive := {| next := None; data := entry 1 PKT_PRIO_HIGH |}]}) q' aq_empty.
Proof. exact (pop_refines _ _ _ one_packet_rep). Defined.

Lemma destroy_frees_all_witness :
  out_queue_destroy {[1%positive := {| next := None; data := entry 1 PKT_PRIO_HIGH |}]}
    {| high := {| head := Some 1%positive; tail := Some 1%positive; size := 1 |}; normal := fifo_empty |}
  = Ok (∅, out_queue_init).
Proof. exact (destroy_frees_all _ _ _ one_packet_rep). Defined.
