(* ===== verification/TaskHeap.v ===== *)
(** The scheduler's binary min-heap of timed tasks: [priority_queue_t] and its
    operations in chamlon_server/src/scheduler.c. *)

From stdpp Require Import list sorting.
From S2P Require Import Prelude.
Local Open Scope Z_scope.

Record timespec := { tv_sec : Z; tv_nsec : Z }.
#[global] Instance timespec_eq_dec : EqDecision timespec.
Proof. solve_decision. Defined.

Record scheduler_task_t := { next_run : timespec; session_id : list byte }.
#[global] Instance eta_task : Settable scheduler_task_t :=
  fun t => {| next_run := next_run t; session_id := session_id t |}.

(** [nodes] lists the slots of the array that have been written; a slot past
    [size] keeps a stale pointer. *)
Record priority_queue_t := {
  nodes : list scheduler_task_t;
  size : nat;
  capacity : Z;
}.
#[global] Instance eta_pq : Settable priority_queue_t :=
  fun q => {| nodes := nodes q; size := size q; capacity := capacity q |}.

(** [mq] and [mn] tell whether the two allocations succeed. *)
Definition pq_create (mq mn : bool) (cap : Z) : option priority_queue_t :=
  if mq && mn then Some {| nodes := []; size := 0; capacity := cap |} else None.

Definition pq_is_empty (pq : option priority_queue_t) : bool :=
  match pq with None => true | Some pq => bool_decide (size pq = 0%nat) end.

Definition timespec_compare (a b : timespec) : Z :=
  if negb (tv_sec a =? tv_sec b) then (if tv_sec b <? tv_sec a then 1 else -1)
  else if negb (tv_nsec a =? tv_nsec b) then (if tv_nsec b <? tv_nsec a then 1 else -1)
  else 0.

Definition task_compare (a b : scheduler_task_t) : Z :=
  timespec_compare (next_run a) (next_run b).

Definition pq_peek (pq : option priority_queue_t) : outcome (option scheduler_task_t) :=
  match pq with
  | None => Ok None
  | Some q => if pq_is_empty pq then Ok None else (t ← slot_read (nodes q) 0; Ok (Some t))
  end.

(** The [while (i > 0)] loop of [pq_push]: moves later tasks down until [task]
    fits at [i]. *)
Fixpoint sift_up (fuel : nat) (ns : list scheduler_task_t) (task : scheduler_task_t) (i : nat)
    : outcome (list scheduler_task_t * nat) :=
  if decide (0 < i)%nat then
    match fuel with
    | O => Err NoFuel
    | S fuel =>
        let p := ((i - 1) / 2)%nat in
        t ← slot_read ns p;
        if 0 <=? task_compare task t then Ok (ns, i)
        else (ns ← slot_write ns i t; sift_up fuel ns task p)
    end
  else Ok (ns, i).

(** [grown] tells whether [realloc] succeeds; on failure the task is not queued. *)
Definition pq_push (grown : bool) (pq : priority_queue_t) (task : scheduler_task_t)
    : outcome priority_queue_t :=
  let insert pq :=
    r ← sift_up (size pq) (nodes pq) task (size pq);
    ns ← slot_write r.1 r.2 task;
    Ok {| nodes := ns; size := S (size pq); capacity := capacity pq |} in
  if Z.of_nat (size pq) =? capacity pq then
    let cap := capacity pq * 2 in
    if INT_MAX <? cap then Err SignedOverflow
    else if grown then insert (pq <| capacity := cap |>)
    else Ok (pq <| capacity := cap ÷ 2 |>)
  else insert pq.

(** The index of the smaller child of [i] among the first [n] slots. *)
Definition smaller_child (ns : list scheduler_task_t) (n child : nat) : outcome nat :=
  if decide (child + 1 < n)%nat then
    a ← slot_read ns (child + 1);
    b ← slot_read ns child;
    Ok (if task_compare a b <? 0 then (child + 1)%nat else child)
  else Ok child.

(** The [while (i * 2 + 1 < pq->size)] loop of [pq_pop]. *)
Fixpoint sift_down (fuel : nat) (ns : list scheduler_task_t) (last : scheduler_task_t) (n i : nat)
    : outcome (list scheduler_task_t * nat) :=
  if decide (i * 2 + 1 < n)%nat then
    match fuel with
    | O => Err NoFuel
    | S fuel =>
        child ← smaller_child ns n (i * 2 + 1);
        t ← slot_read ns child;
        if task_compare last t <=? 0 then Ok (ns, i)
        else (ns ← slot_write ns i t; sift_down fuel ns last n child)
    end
  else Ok (ns, i).

Definition pq_pop (pq : priority_queue_t)
    : outcome (option scheduler_task_t * priority_queue_t) :=
  if decide (size pq = 0%nat) then Ok (None, pq)
  else
    res ← slot_read (nodes pq) 0;
    let n := (size pq - 1)%nat in
    last ← slot_read (nodes pq) n;
    r ← sift_down n (nodes pq) last n 0;
    ns ← slot_write r.1 r.2 last;
    Ok (Some res, pq <| nodes := ns |> <| size := n |>).

(** ** The order on tasks *)

Definition task_le (a b : scheduler_task_t) : Prop := task_compare a b <= 0.
#[global] Instance task_le_dec : RelDecision task_le.
Proof. intros a b. unfold task_le. apply _. Defined.

(** Lexicographic order of the deadlines. *)
Definition task_lt (a b : scheduler_task_t) : Prop :=
  tv_sec (next_run a) < tv_sec (next_run b) \/
  (tv_sec (next_run a) = tv_sec (next_run b) /\ tv_nsec (next_run a) < tv_nsec (next_run b)).

Lemma task_compare_lex a b :
  (task_compare a b = -1 /\ task_lt a b) \/ (task_compare a b = 1 /\ task_lt b a) \/
  (task_compare a b = 0 /\ ~ task_lt a b /\ ~ task_lt b a).
Proof.
  unfold task_compare, timespec_compare, task_lt.
  destruct (Z.eqb_spec (tv_sec (next_run a)) (tv_sec (next_run b))); cbn [negb].
  - destruct (Z.eqb_spec (tv_nsec (next_run a)) (tv_nsec (next_run b))); cbn [negb]; [lia|].
    destruct (Z.ltb_spec (tv_nsec (next_run b)) (tv_nsec (next_run a))); lia.
  - destruct (Z.ltb_spec (tv_sec (next_run b)) (tv_sec (next_run a))); lia.
Qed.

#[global] Instance task_le_refl : Reflexive task_le.
Proof. intros a. unfold task_le. pose proof (task_compare_lex a a). unfold task_lt in *. lia. Qed.
#[global] Instance task_le_trans : Transitive task_le.
Proof.
  intros a b c. unfold task_le. pose proof (task_compare_lex a b).
  pose proof (task_compare_lex b c). pose proof (task_compare_lex a c).
  unfold task_lt in *. lia.
Qed.
Lemma task_compare_neg a b : task_compare a b < 0 -> task_le a b.
Proof. unfold task_le. lia. Qed.
Lemma task_compare_pos a b : 0 <= task_compare a b -> task_le b a.
Proof.
  unfold task_le. pose proof (task_compare_lex a b). pose proof (task_compare_lex b a).
  unfold task_lt in *. lia.
Qed.
Lemma task_compare_gt a b : 0 < task_compare a b -> task_le b a.
Proof. intros. apply task_compare_pos. lia. Qed.
#[export] Hint Resolve task_compare_neg task_compare_pos task_compare_gt : vpn.

(** ** Heap order *)

Definition parent (i : nat) : nat := ((i - 1) / 2)%nat.

(** Every entry but those excluded by [ex] is not before its parent. *)
Definition ordered_except (ex : nat -> Prop) (F : list scheduler_task_t) : Prop :=
  forall j x y, (0 < j)%nat -> ~ ex j -> F !! parent j = Some x -> F !! j = Some y -> task_le x y.
Definition heap_ordered (F : list scheduler_task_t) : Prop := ordered_except (fun _ => False) F.

(** The children of [i] are not before the parent of [i]. *)
Definition grand_ok (F : list scheduler_task_t) (i : nat) : Prop :=
  forall k x y, (0 < i)%nat -> (0 < k)%nat -> parent k = i ->
    F !! parent i = Some x -> F !! k = Some y -> task_le x y.

(** [ns] with a hole at [i] to be filled with [t] holds [F] in its first [n] slots. *)
Record holed (ns : list scheduler_task_t) (i : nat) (t : scheduler_task_t) (n : nat)
    (F : list scheduler_task_t) : Prop := {
  holed_length : length F = n;
  holed_room : (n <= length ns)%nat \/ (i = length ns /\ n = S i);
  holed_at : F !! i = Some t;
  holed_else : forall j, (j < n)%nat -> j <> i -> ns !! j = F !! j;
}.

Lemma parent_lt i : (0 < i)%nat -> (parent i < i)%nat.
Proof. intros. unfold parent. apply Nat.Div0.div_lt_upper_bound; lia. Qed.

Lemma parent_child i k : (0 < k)%nat -> parent k = i -> k = (i * 2 + 1)%nat \/ k = (i * 2 + 2)%nat.
Proof.
  unfold parent. intros Hk <-. pose proof (Nat.div_mod_eq (k - 1) 2).
  pose proof (Nat.mod_upper_bound (k - 1) 2). lia.
Qed.

Lemma parent_left i : parent (i * 2 + 1) = i.
Proof. unfold parent. replace (i * 2 + 1 - 1)%nat with (i * 2)%nat by lia. by apply Nat.div_mul. Qed.
Lemma parent_right i : parent (i * 2 + 1 + 1) = i.
Proof.
  unfold parent. replace (i * 2 + 1 + 1 - 1)%nat with (1 + i * 2)%nat by lia.
  by rewrite Nat.div_add by lia.
Qed.

Lemma holed_fill ns i t n F :
  holed ns i t n F -> exists ns', slot_write ns i t = Ok ns' /\ take n ns' = F /\
    (n <= length ns' <= Nat.max (length ns) n)%nat.
Proof.
  intros [Hl Hroom Hat Hels]. pose proof (lookup_lt_Some _ _ _ Hat) as Hin.
  destruct (decide (i < length ns)%nat) as [Hi|Hi].
  - exists (<[i := t]> ns). split; [by apply slot_write_lt|].
    assert (n <= length ns)%nat by lia. rewrite length_insert. split; [|lia].
    apply list_eq. intros j. destruct (decide (j < n)%nat) as [Hj|Hj].
    + rewrite lookup_take_lt by done. destruct (decide (j = i)) as [->|Hne].
      * by rewrite list_lookup_insert_eq.
      * rewrite list_lookup_insert_ne by done. auto.
    + rewrite lookup_take_ge by lia. by rewrite lookup_ge_None_2 by lia.
  - destruct Hroom as [?|[-> ->]]; [lia|]. exists (ns ++ [t]). split; [apply slot_write_last|].
    rewrite length_app. cbn. split; [|lia]. rewrite take_ge by (rewrite length_app; cbn; lia).
    apply list_eq. intros j. destruct (decide (j < length ns)%nat) as [Hj|Hj].
    + rewrite lookup_app_l by done. apply Hels; lia.
    + destruct (decide (j = length ns)) as [->|Hne].
      * by rewrite list_lookup_middle.
      * rewrite !lookup_ge_None_2; [done| |]; rewrite ?length_app; cbn; lia.
Qed.

(** Moving the entry of slot [p] into the hole at [i] leaves the hole at [p]. *)
Lemma holed_move ns i t n F p x :
  holed ns i t n F -> i <> p -> F !! p = Some x ->
  exists ns', slot_read ns p = Ok x /\ slot_write ns i x = Ok ns' /\
    (length ns' <= Nat.max (length ns) n)%nat /\
    holed ns' p t n (<[p := t]> (<[i := x]> F)).
Proof.
  intros H Hne Hp. pose proof H as [Hl Hroom Hat Hels]. pose proof (lookup_lt_Some _ _ _ Hp) as Hpn.
  assert (H' : holed ns i x n (<[i := x]> F)).
  { split; [by rewrite length_insert|done| |].
    - apply list_lookup_insert_eq. by eapply lookup_lt_Some.
    - intros j Hj Hji. rewrite list_lookup_insert_ne by done. auto. }
  destruct (holed_fill _ _ _ _ _ H') as (ns' & Hw & Htake & Hlen). exists ns'. split; [|split; [|split]].
  - apply slot_read_Ok. rewrite Hels by lia. done.
  - done.
  - lia.
  - split; [by rewrite !length_insert|left; lia| |].
    + apply list_lookup_insert_eq. rewrite length_insert. lia.
    + intros j Hj Hjp. rewrite list_lookup_insert_ne by done. rewrite <- Htake.
      by rewrite lookup_take_lt.
Qed.

(** The two-entry exchange seen through lookups. *)
Lemma swap_lookup (F : list scheduler_task_t) i p x t j :
  i <> p -> (i < length F)%nat -> (p < length F)%nat ->
  <[p := t]> (<[i := x]> F) !! j =
    if decide (j = p) then Some t else if decide (j = i) then Some x else F !! j.
Proof.
  intros Hne Hi Hp. destruct (decide (j = p)) as [->|Hjp].
  { apply list_lookup_insert_eq. by rewrite length_insert. }
  rewrite list_lookup_insert_ne by done. destruct (decide (j = i)) as [->|Hji].
  - by apply list_lookup_insert_eq.
  - by apply list_lookup_insert_ne.
Qed.

Ltac swap_simpl :=
  repeat match goal with
  | H : context [<[_ := _]> (<[_ := _]> _) !! _] |- _ => rewrite swap_lookup in H by done
  end; repeat case_decide; simplify_eq.

(** ** Sifting up *)

Lemma sift_up_move F i t x :
  (0 < i)%nat -> F !! i = Some t -> F !! parent i = Some x -> task_le t x ->
  ordered_except (fun j => j = i) F -> grand_ok F i ->
  ordered_except (fun j => j = parent i) (<[parent i := t]> (<[i := x]> F)) /\
  grand_ok (<[parent i := t]> (<[i := x]> F)) (parent i).
Proof.
  intros Hi Ht Hx Hle Hord Hgr. pose proof (parent_lt i Hi) as Hp.
  assert (Hne : i <> parent i) by lia.
  assert (Hil : (i < length F)%nat) by (by eapply lookup_lt_Some).
  assert (Hpl : (parent i < length F)%nat) by lia.
  split.
  - intros j a b Hj Hex Ha Hb. pose proof (parent_lt j Hj).
    swap_simpl; try done.
    + etrans; [done|]. eapply (Hord j); eauto. congruence.
    + eapply (Hgr j); eauto.
    + eapply (Hord j); eauto.
  - intros k a b Hp0 Hk Hpk Ha Hb. pose proof (parent_lt (parent i) Hp0). pose proof (parent_lt k Hk).
    assert (Hpp : task_le a x).
    { clear Hb. swap_simpl; try lia. eapply (Hord (parent i)); eauto; lia. }
    swap_simpl; try lia; try done.
    etrans; [exact Hpp|]. eapply (Hord k); eauto. congruence.
Qed.

Lemma sift_up_spec fuel ns task i n F :
  holed ns i task n F -> (i <= fuel)%nat ->
  ordered_except (fun j => j = i) F -> grand_ok F i ->
  exists ns1 j ns2, sift_up fuel ns task i = Ok (ns1, j) /\ slot_write ns1 j task = Ok ns2 /\
    take n ns2 ≡ₚ F /\ heap_ordered (take n ns2) /\
    (n <= length ns2 <= Nat.max (length ns) n)%nat.
Proof.
  revert ns i F. induction fuel as [|fuel IH]; intros ns i F H Hfuel Hord Hgr; cbn [sift_up].
  - rewrite decide_False by lia. destruct (holed_fill _ _ _ _ _ H) as (ns2 & ? & Htk & ?).
    exists ns, i, ns2. rewrite Htk. repeat split; try done; try lia.
    intros j x y Hj _. apply Hord; lia.
  - destruct (decide (0 < i)%nat) as [Hi|Hi].
    2:{ destruct (holed_fill _ _ _ _ _ H) as (ns2 & ? & Htk & ?).
        exists ns, i, ns2. rewrite Htk. repeat split; try done; try lia. intros j x y Hj _. apply Hord; lia. }
    fold (parent i). pose proof (parent_lt i Hi) as Hp.
    pose proof (holed_at _ _ _ _ _ H) as Hat.
    destruct (lookup_lt_is_Some_2 F (parent i)) as [x Hx].
    { apply lookup_lt_Some in Hat. lia. }
    destruct (holed_move _ _ _ _ _ (parent i) x H) as (ns' & -> & Hw & Hlw & H'); [lia|done|].
    cbn [mbind outcome_bind]. destruct (Z.leb_spec 0 (task_compare task x)) as [Hge|Hlt].
    + destruct (holed_fill _ _ _ _ _ H) as (ns2 & ? & Htk & ?).
      exists ns, i, ns2. rewrite Htk. repeat split; try done; try lia.
      intros j a b Hj _ Ha Hb. destruct (decide (j = i)) as [->|Hne]; [|by eapply Hord].
      simplify_eq. auto with vpn.
    + rewrite Hw. cbn [mbind outcome_bind].
      destruct (sift_up_move F i task x) as [Hord' Hgr']; auto with vpn.
      destruct (IH _ _ _ H') as (ns1 & j & ns2 & -> & ? & Hperm & ? & ?); [lia|done..|].
      exists ns1, j, ns2. repeat split; try done; try lia. rewrite Hperm.
      apply insert_swap_Permutation; [lia|done..].
Qed.

(** ** Sifting down *)

Lemma smaller_child_spec ns n F i t :
  holed ns i t n F -> (i * 2 + 1 < n)%nat ->
  exists c x, smaller_child ns n (i * 2 + 1) = Ok c /\ (c < n)%nat /\ (i < c)%nat /\ parent c = i /\
    F !! c = Some x /\ forall k y, (0 < k)%nat -> parent k = i -> F !! k = Some y -> task_le x y.
Proof.
  intros H Hl. pose proof (holed_length _ _ _ _ _ H) as Hlen.
  destruct (lookup_lt_is_Some_2 F (i * 2 + 1)%nat) as [a Ha]; [lia|].
  unfold smaller_child. case_decide as Hr.
  - destruct (lookup_lt_is_Some_2 F (i * 2 + 1 + 1)%nat) as [b Hb]; [lia|].
    assert (Hrd : forall j z, (j < n)%nat -> j <> i -> F !! j = Some z -> slot_read ns j = Ok z).
    { intros j z Hj Hne Hz. apply slot_read_Ok. by rewrite (holed_else _ _ _ _ _ H). }
    rewrite (Hrd (i * 2 + 1 + 1)%nat b), (Hrd (i * 2 + 1)%nat a) by (done || lia).
    cbn [mbind outcome_bind].
    destruct (Z.ltb_spec (task_compare b a) 0) as [Hlt|Hge].
    + exists (i * 2 + 1 + 1)%nat, b. split; [done|]. split; [lia|]. split; [lia|].
      split; [apply parent_right|]. split; [done|]. intros k y Hk Hpk Hy.
      destruct (parent_child _ _ Hk Hpk) as [->| ->]; [|replace (i * 2 + 2)%nat with (i * 2 + 1 + 1)%nat in Hy by lia];
        simplify_eq; auto with vpn. done.
    + exists (i * 2 + 1)%nat, a. split; [done|]. split; [lia|]. split; [lia|].
      split; [apply parent_left|]. split; [done|]. intros k y Hk Hpk Hy.
      destruct (parent_child _ _ Hk Hpk) as [->| ->]; [|replace (i * 2 + 2)%nat with (i * 2 + 1 + 1)%nat in Hy by lia];
        simplify_eq; auto with vpn. done.
  - exists (i * 2 + 1)%nat, a. split; [done|]. split; [lia|]. split; [lia|].
    split; [apply parent_left|]. split; [done|]. intros k y Hk Hpk Hy.
    destruct (parent_child _ _ Hk Hpk) as [->| ->]; [by simplify_eq|].
    apply lookup_lt_Some in Hy. lia.
Qed.

Lemma sift_down_move F i c t x :
  (i < c)%nat -> parent c = i -> F !! i = Some t -> F !! c = Some x -> task_le x t ->
  (forall k y, (0 < k)%nat -> parent k = i -> F !! k = Some y -> task_le x y) ->
  ordered_except (fun j => parent j = i) F -> grand_ok F i ->
  ordered_except (fun j => parent j = c) (<[c := t]> (<[i := x]> F)) /\
  grand_ok (<[c := t]> (<[i := x]> F)) c.
Proof.
  intros Hic Hpc Ht Hx Hle Hmin Hord Hgr.
  assert (Hne : i <> c) by lia.
  assert (Hil : (i < length F)%nat) by (by eapply lookup_lt_Some).
  assert (Hcl : (c < length F)%nat) by (by eapply lookup_lt_Some).
  split.
  - intros j a b Hj Hex Ha Hb. pose proof (parent_lt j Hj).
    swap_simpl; try done; try lia.
    + eapply (Hgr c); eauto. lia.
    + eapply (Hmin j); eauto.
    + eapply (Hord j); eauto.
  - intros k a b Hc0 Hk Hpk Ha Hb. pose proof (parent_lt k Hk).
    swap_simpl; try lia. eapply (Hord k); eauto.
Qed.

Lemma sift_down_spec fuel ns t i n F :
  holed ns i t n F -> (n <= fuel + i)%nat ->
  ordered_except (fun j => parent j = i) F -> grand_ok F i ->
  exists ns1 j ns2, sift_down fuel ns t n i = Ok (ns1, j) /\ slot_write ns1 j t = Ok ns2 /\
    take n ns2 ≡ₚ F /\ heap_ordered (take n ns2) /\
    (n <= length ns2 <= Nat.max (length ns) n)%nat.
Proof.
  revert ns i F. induction fuel as [|fuel IH]; intros ns i F H Hfuel Hord Hgr; cbn [sift_down].
  - pose proof (lookup_lt_Some _ _ _ (holed_at _ _ _ _ _ H)). pose proof (holed_length _ _ _ _ _ H). lia.
  - assert (Hstop : (forall k y, (0 < k)%nat -> parent k = i -> F !! k = Some y -> task_le t y) ->
      exists ns2, slot_write ns i t = Ok ns2 /\
        take n ns2 ≡ₚ F /\ heap_ordered (take n ns2) /\
    (n <= length ns2 <= Nat.max (length ns) n)%nat).
    { intros Hk. destruct (holed_fill _ _ _ _ _ H) as (ns2 & ? & Htk & ?). exists ns2. rewrite Htk.
      repeat split; try done; try lia. intros j a b Hj _ Ha Hb.
      destruct (decide (parent j = i)) as [Hpj|Hpj]; [|by eapply (Hord j)].
      rewrite Hpj, (holed_at _ _ _ _ _ H) in Ha. simplify_eq. eauto. }
    case_decide as Hl.
    2:{ destruct Hstop as (ns2 & ? & ?); [|by exists ns, i, ns2].
        intros k y Hk Hpk Hy. apply lookup_lt_Some in Hy. rewrite (holed_length _ _ _ _ _ H) in Hy.
        destruct (parent_child _ _ Hk Hpk); lia. }
    destruct (smaller_child_spec _ _ _ _ _ H Hl) as (c & x & -> & Hcn & Hic & Hpc & Hx & Hmin).
    cbn [mbind outcome_bind].
    destruct (holed_move _ _ _ _ _ c x H) as (ns' & -> & Hw & Hlw & H'); [lia|done|].
    cbn [mbind outcome_bind]. destruct (Z.leb_spec (task_compare t x) 0) as [Hle|Hgt].
    + destruct Hstop as (ns2 & ? & ?); [|by exists ns, i, ns2].
      intros k y Hk Hpk Hy. etrans; [exact Hle|]. eauto.
    + rewrite Hw. cbn [mbind outcome_bind].
      destruct (sift_down_move F i c t x) as [Hord' Hgr']; auto with vpn.
      { by apply (holed_at _ _ _ _ _ H). }
      destruct (IH _ _ _ H') as (ns1 & j & ns2 & -> & ? & Hperm & ? & ?); [lia|done..|].
      exists ns1, j, ns2. repeat split; try done; try lia. rewrite Hperm.
      apply insert_swap_Permutation; [lia|done|]. by apply (holed_at _ _ _ _ _ H).
Qed.

(** ** The heap as a priority queue *)

(** The tasks in the queue: the slots below [size]. *)
Definition live (pq : priority_queue_t) : list scheduler_task_t := take (size pq) (nodes pq).

Record pq_wf (pq : priority_queue_t) : Prop := {
  wf_size : (size pq <= length (nodes pq))%nat;
  wf_fits : Z.of_nat (length (nodes pq)) <= capacity pq;
  wf_capacity : 0 < capacity pq <= INT_MAX;
  wf_order : heap_ordered (live pq);
}.

Lemma length_live pq : pq_wf pq -> length (live pq) = size pq.
Proof. intros H. apply length_take_le, H. Qed.

Lemma heap_root_le F x : heap_ordered F -> F !! 0%nat = Some x -> Forall (task_le x) F.
Proof.
  intros Hord Hx. apply Forall_lookup. intros j. induction (lt_wf j) as [j _ IH]. intros y Hy.
  destruct (decide (j = 0%nat)) as [->|Hj]; [by simplify_eq|].
  pose proof (parent_lt j ltac:(lia)) as Hp.
  destruct (lookup_lt_is_Some_2 F (parent j)) as [z Hz].
  { apply lookup_lt_Some in Hy. lia. }
  etrans; [by eapply (IH _ Hp)|]. eapply (Hord j); eauto. lia.
Qed.

Lemma pq_create_wf cap pq : 0 < cap <= INT_MAX -> pq_create true true cap = Some pq -> pq_wf pq /\ live pq = [].
Proof. intros Hc [= <-]. split; [|done]. split; cbn [size nodes capacity length]; [lia..|]. by intros j x y ? _ ?. Qed.

Lemma pq_insert_spec ns sz cap task :
  (sz <= length ns)%nat -> Z.of_nat (length ns) <= cap -> Z.of_nat sz < cap ->
  heap_ordered (take sz ns) ->
  exists ns1 j ns2, sift_up sz ns task sz = Ok (ns1, j) /\ slot_write ns1 j task = Ok ns2 /\
    take (S sz) ns2 ≡ₚ task :: take sz ns /\ heap_ordered (take (S sz) ns2) /\
    (S sz <= length ns2)%nat /\ Z.of_nat (length ns2) <= cap.
Proof.
  intros Hsz Hfit Hroom Hord. set (F := take sz ns ++ [task]).
  assert (Hlen : length (take sz ns) = sz) by (by apply length_take_le).
  destruct (sift_up_spec sz ns task sz (S sz) F) as (ns1 & j & ns2 & ? & ? & Hp & ? & ?).
  - subst F. split.
    + rewrite length_app, Hlen. cbn. lia.
    + destruct (decide (sz = length ns)); [right|left]; lia.
    + rewrite lookup_app_r, Hlen, Nat.sub_diag by lia. done.
    + intros k Hk Hne. rewrite lookup_app_l, lookup_take_lt by lia. done.
  - done.
  - intros k x y Hk Hne Hx Hy. assert (Hkl : (k < length F)%nat) by (by eapply lookup_lt_Some).
    subst F. rewrite length_app, Hlen in Hkl. cbn in Hkl. pose proof (parent_lt k Hk).
    rewrite lookup_app_l in Hx, Hy by lia. eapply (Hord k); eauto.
  - intros k x y Hi Hk Hpk _ Hy. pose proof (parent_lt k Hk). apply lookup_lt_Some in Hy.
    subst F. rewrite length_app, Hlen in Hy. cbn in Hy. lia.
  - exists ns1, j, ns2. repeat split; try done; try lia. rewrite Hp. subst F.
    by rewrite Permutation_app_comm.
Qed.

(** [pq_push] keeps the heap a heap inside its allocation and adds exactly the
    pushed task; only a full heap whose [realloc] fails drops the task, and then
    the heap is unchanged. *)
Lemma pq_push_ok grown pq task :
  pq_wf pq -> 2 * Z.of_nat (size pq) <= INT_MAX ->
  exists pq', pq_push grown pq task = Ok pq' /\ pq_wf pq' /\
    (if (Z.of_nat (size pq) =? capacity pq) && negb grown then pq' = pq
     else live pq' ≡ₚ task :: live pq).
Proof.
  intros [Hsz Hfit Hcap Hord] Hmax. unfold pq_push.
  assert (Hins : forall cap, Z.of_nat (length (nodes pq)) <= cap -> Z.of_nat (size pq) < cap <= INT_MAX ->
    exists pq', (r ← sift_up (size pq) (nodes pq) task (size pq);
      ns ← slot_write r.1 r.2 task;
      Ok {| nodes := ns; size := S (size pq); capacity := cap |}) = Ok pq' /\ pq_wf pq' /\
      live pq' ≡ₚ task :: live pq).
  { intros cap ? ?. destruct (pq_insert_spec (nodes pq) (size pq) cap task)
      as (ns1 & j & ns2 & -> & Hw & ? & ? & ? & ?); [done|lia..|done|].
    cbn [mbind outcome_bind fst snd]. rewrite Hw. cbn. eexists. split; [done|].
    split; [|done]. split; cbn [size nodes capacity]; try done; lia. }
  destruct (Z.eqb_spec (Z.of_nat (size pq)) (capacity pq)) as [Hfull|Hroom]; cbn [andb].
  - destruct (Z.ltb_spec INT_MAX (capacity pq * 2)); [lia|]. destruct grown; cbn [negb].
    + apply Hins; cbn [capacity set]; lia.
    + exists pq. rewrite Z.quot_mul by lia. destruct pq. done.
  - apply Hins; lia.
Qed.

Lemma live_split pq t :
  pq_wf pq -> nodes pq !! (size pq - 1)%nat = Some t -> size pq <> 0%nat ->
  live pq = take (size pq - 1) (nodes pq) ++ [t].
Proof.
  intros Hwf Ht Hne. unfold live. replace (size pq) with (S (size pq - 1)) at 1 by lia.
  by apply take_S_r.
Qed.

(** Replacing the root of the shortened heap by its former last task leaves a
    heap but for the edges out of the root. *)
Lemma pop_holed ns n last root rest F :
  (S n <= length ns)%nat -> take n ns = root :: rest -> F = last :: rest ->
  heap_ordered (take n ns) ->
  holed ns 0 last n F /\ ordered_except (fun j => parent j = 0%nat) F /\ grand_ok F 0.
Proof.
  intros Hl Htk -> Hord. assert (Hlen : length (take n ns) = n) by (apply length_take_le; lia).
  assert (Hsame : forall j, j <> 0%nat -> (last :: rest) !! j = take n ns !! j).
  { intros [|j] ?; [done|]. by rewrite Htk. }
  split; [|split].
  - split.
    + rewrite Htk in Hlen. done.
    + left. lia.
    + done.
    + intros j Hj Hne. rewrite Hsame, lookup_take_lt by done. done.
  - intros j x y Hj Hex Hx Hy. rewrite Hsame in Hx, Hy by lia. eapply (Hord j); eauto.
  - intros k x y Hi. lia.
Qed.

(** [pq_pop] on a well-formed heap returns an earliest task, the one
    [pq_peek] shows, and leaves a well-formed heap of exactly the other tasks;
    it returns null only when there is none. *)
Lemma pq_pop_ok pq :
  pq_wf pq ->
  exists r pq', pq_pop pq = Ok (r, pq') /\ pq_wf pq' /\ capacity pq' = capacity pq /\
    pq_peek (Some pq) = Ok r /\
    match r with
    | None => live pq = [] /\ pq' = pq
    | Some t => live pq ≡ₚ t :: live pq' /\ Forall (task_le t) (live pq')
    end.
Proof.
  intros Hwf. pose proof Hwf as [Hsz Hfit Hcap Hord]. unfold pq_pop, pq_peek, pq_is_empty.
  case_decide as Hne.
  { exists None, pq. rewrite bool_decide_true by done. unfold live. by rewrite Hne. }
  rewrite bool_decide_false by done.
  destruct (slot_read_lt (nodes pq) 0) as (root & -> & Hroot); [lia|].
  destruct (slot_read_lt (nodes pq) (size pq - 1)) as (last & Hlast & Hl); [lia|].
  cbn [mbind outcome_bind]. rewrite Hlast. cbn [mbind outcome_bind].
  pose proof (live_split _ _ Hwf Hl Hne) as Hsplit.
  assert (Hmin : Forall (task_le root) (live pq)).
  { apply heap_root_le; [done|]. unfold live. rewrite lookup_take_lt by lia. done. }
  destruct (decide (size pq = 1%nat)) as [H1|H1].
  - rewrite H1 in *. cbn [Nat.sub sift_down Nat.mul Nat.add]. rewrite decide_False by lia.
    cbn [mbind outcome_bind fst snd]. rewrite slot_write_lt by lia. cbn [mbind outcome_bind].
    eexists _, _. split; [done|].
    cbn in Hsplit. rewrite Hsplit. repeat split; cbn; try rewrite length_insert; try done; try lia.
    cbn in Hl. simplify_eq. done.
  - destruct (take (size pq - 1) (nodes pq)) as [|root' rest] eqn:Htk.
    { apply (f_equal length) in Htk. rewrite length_take in Htk. cbn in Htk. lia. }
    assert (root' = root) as ->.
    { assert (Hz : take (size pq - 1) (nodes pq) !! 0%nat = Some root) by (by rewrite lookup_take_lt by lia).
      rewrite Htk in Hz. by simplify_eq/=. }
    destruct (pop_holed (nodes pq) (size pq - 1) last root rest (last :: rest)) as (HF & Hex & Hgr);
      [lia|done|done| |].
    { intros j x y Hj _ Hx Hy. apply lookup_take_Some in Hx as [Hx ?], Hy as [Hy ?].
      by eapply (Hord j); eauto; unfold live; rewrite lookup_take_lt by lia. }
    destruct (sift_down_spec (size pq - 1) _ _ _ _ _ HF) as (ns1 & j & ns2 & -> & Hw & Hp & ? & ?);
      [lia|done|done|].
    cbn [mbind outcome_bind fst snd]. rewrite Hw. cbn [mbind outcome_bind].
    eexists _, _. split; [done|]. split; [split; cbn [size nodes capacity set]; try done; lia|]. split; [done|].
    split; [done|]. unfold live at 2 3. cbn. rewrite Hsplit, Hp. split.
    + cbn. by rewrite <- Permutation_cons_append.
    + apply Forall_inv_tail with root. rewrite Hsplit in Hmin. revert Hmin.
      by rewrite <- (Permutation_cons_append (root :: rest)), (Permutation_swap root last).
Qed.

(** ** Runs of the queue

    [realloc] may fail at any push, so a push carries its outcome. *)
Inductive heap_op := Push (grown : bool) (t : scheduler_task_t) | Pop.

Definition heap_step (pq : priority_queue_t) (op : heap_op)
    : outcome (option scheduler_task_t * priority_queue_t) :=
  match op with
  | Push grown t => pq' ← pq_push grown pq t; Ok (None, pq')
  | Pop => pq_pop pq
  end.

Fixpoint heap_run (pq : priority_queue_t) (ops : list heap_op)
    : outcome (list (option scheduler_task_t) * priority_queue_t) :=
  match ops with
  | [] => Ok ([], pq)
  | op :: ops => r ← heap_step pq op; rs ← heap_run r.2 ops; Ok (r.1 :: rs.1, rs.2)
  end.

(** The contract: a bag of tasks; a pop takes an earliest one and returns null
    only from the empty bag; a push may be lost only if [realloc] failed. *)
Inductive bag_step : list scheduler_task_t -> heap_op -> option scheduler_task_t ->
    list scheduler_task_t -> Prop :=
  | bag_push grown t bag bag' : bag' ≡ₚ t :: bag -> bag_step bag (Push grown t) None bag'
  | bag_drop t bag : bag_step bag (Push false t) None bag
  | bag_pop t bag bag' : bag ≡ₚ t :: bag' -> Forall (task_le t) bag' -> bag_step bag Pop (Some t) bag'
  | bag_empty : bag_step [] Pop None [].

Inductive bag_run : list scheduler_task_t -> list heap_op -> list (option scheduler_task_t) ->
    list scheduler_task_t -> Prop :=
  | bag_nil bag : bag_run bag [] [] bag
  | bag_cons bag op r bag1 ops rs bag2 :
      bag_step bag op r bag1 -> bag_run bag1 ops rs bag2 -> bag_run bag (op :: ops) (r :: rs) bag2.

Lemma heap_step_refines pq op :
  pq_wf pq -> 2 * Z.of_nat (size pq) <= INT_MAX ->
  exists r pq', heap_step pq op = Ok (r, pq') /\ pq_wf pq' /\ (size pq' <= S (size pq))%nat /\
    bag_step (live pq) op r (live pq').
Proof.
  intros Hwf Hmax. destruct op as [grown t|]; cbn [heap_step].
  - destruct (pq_push_ok grown pq t Hwf Hmax) as (pq' & -> & Hwf' & Hr). cbn [mbind outcome_bind].
    exists None, pq'. split; [done|]. split; [done|].
    destruct (_ && _) eqn:Hb.
    + subst pq'. split; [lia|]. apply andb_true_iff in Hb as [_ Hg]. destruct grown; [done|]. apply bag_drop.
    + pose proof (Permutation_length Hr) as Hl. cbn in Hl. rewrite !length_live in Hl by done.
      split; [lia|]. by constructor.
  - destruct (pq_pop_ok pq Hwf) as (r & pq' & -> & Hwf' & _ & _ & Hr). exists r, pq'.
    split; [done|]. split; [done|]. destruct r as [t|].
    + destruct Hr as [Hp Hle]. pose proof (Permutation_length Hp) as Hl. cbn in Hl.
      rewrite !length_live in Hl by done. split; [lia|]. by constructor.
    + destruct Hr as [Hnil ->]. split; [lia|]. rewrite Hnil. constructor.
Qed.

(** C30: from a fresh scheduler queue of any capacity, a positive int, every interleaving of
    pushes and pops that stays below 2^30 operations runs without undefined
    behaviour, keeps the heap well-formed inside its allocation, and returns
    what the bag contract allows: each pop an earliest queued task, no task lost
    unless [realloc] failed, none duplicated. *)
Theorem heap_run_refines cap pq ops :
  0 < cap <= INT_MAX -> pq_create true true cap = Some pq ->
  2 * Z.of_nat (length ops) <= INT_MAX ->
  exists rs pq', heap_run pq ops = Ok (rs, pq') /\ pq_wf pq' /\ bag_run [] ops rs (live pq').
Proof.
  intros Hcap Hc. destruct (pq_create_wf _ _ Hcap Hc) as [Hwf Hlive].
  assert (Hsz : size pq = 0%nat) by (injection Hc as <-; done).
  replace (length ops) with (size pq + length ops)%nat by lia. rewrite <- Hlive. clear Hc Hlive Hsz.
  revert pq Hwf. induction ops as [|op ops IH]; intros pq Hwf Hn; cbn [heap_run].
  - exists [], pq. repeat split; try apply Hwf. constructor.
  - cbn [length] in Hn.
    destruct (heap_step_refines pq op Hwf) as (r & pq1 & -> & Hwf1 & Hsz & Hstep); [lia|].
    cbn [mbind outcome_bind fst snd].
    destruct (IH pq1 Hwf1) as (rs & pq' & -> & Hwf' & Hrun); [lia|]. cbn.
    exists (r :: rs), pq'. repeat split; try apply Hwf'. by econstructor.
Qed.

(** ** Draining *)

(** Popping until the queue is empty, as repeated scheduler wake-ups do. *)
Fixpoint pop_all (fuel : nat) (pq : priority_queue_t) : outcome (list scheduler_task_t) :=
  if pq_is_empty (Some pq) then Ok []
  else match fuel with
       | O => Err NoFuel
       | S fuel =>
           r ← pq_pop pq;
           match r.1 with None => Ok [] | Some t => ts ← pop_all fuel r.2; Ok (t :: ts) end
       end.

(** C31: popping a well-formed heap until it is empty terminates within [size]
    pops and yields every queued task, in order of its deadline. *)
Theorem pop_all_sorted pq :
  pq_wf pq ->
  exists ts, pop_all (size pq) pq = Ok ts /\ StronglySorted task_le ts /\ ts ≡ₚ live pq.
Proof.
  remember (size pq) as fuel eqn:Hf. apply eq_sym, Nat.eq_le_incl in Hf. revert pq Hf.
  induction fuel as [|fuel IH]; intros pq Hf Hwf; cbn [pop_all].
  - unfold pq_is_empty. rewrite bool_decide_true by lia. exists []. split; [done|].
    split; [constructor|]. unfold live. by replace (size pq) with 0%nat by lia.
  - destruct (pq_is_empty (Some pq)) eqn:He.
    { apply bool_decide_eq_true in He. exists []. unfold live. rewrite He. repeat split; constructor. }
    destruct (pq_pop_ok pq Hwf) as (r & pq' & -> & Hwf' & _ & _ & Hr). cbn [mbind outcome_bind fst snd].
    destruct r as [t|].
    + destruct Hr as [Hp Hle]. destruct (IH pq') as (ts & -> & Hs & Hts); [|done|].
      { pose proof (Permutation_length Hp) as Hl. cbn in Hl. rewrite !length_live in Hl by done. lia. }
      exists (t :: ts). split; [done|]. split; [|by rewrite Hp, Hts].
      constructor; [done|]. by rewrite Hts.
    + destruct Hr as [-> _]. exists []. split; [done|]. split; [constructor|done].
Qed.

(** ** Witnesses *)

Definition task_at (s n : Z) : scheduler_task_t :=
  {| next_run := {| tv_sec := s; tv_nsec := n |}; session_id := [] |}.

Definition example_ops : list heap_op :=
  [Push true (task_at 7 0); Push true (task_at 5 9); Push false (task_at 5 3); Pop; Push true (task_at 1 1); Pop].
Definition example_heap : priority_queue_t :=
  {| nodes := [task_at 1 2; task_at 4 0; task_at 1 5; task_at 9 0]; size := 3; capacity := 4 |}.

Lemma heap_run_refines_witness :
  exists rs pq', heap_run {| nodes := []; size := 0; capacity := 2 |} example_ops = Ok (rs, pq') /\
    pq_wf pq' /\ bag_run [] example_ops rs (live pq').
Proof.
  apply (heap_run_refines 2 {| nodes := []; size := 0; capacity := 2 |} example_ops);
    [by vm_compute|reflexivity|by vm_compute].
Defined.

Example example_run :
  (fun r => r.1) <$> heap_run {| nodes := []; size := 0; capacity := 2 |} example_ops =
  Ok [None; None; None; Some (task_at 5 9); None; Some (task_at 1 1)].
Proof. reflexivity. Qed.

Lemma pop_all_sorted_witness :
  exists ts, pop_all (size example_heap) example_heap = Ok ts /\ StronglySorted task_le ts /\
    ts ≡ₚ live example_heap.
Proof.
  apply (pop_all_sorted example_heap). split; [cbn; lia|cbn; lia|by vm_compute|].
  intros [|[|[|j]]] x y Hj _ Hx Hy; vm_compute in Hx, Hy; simplify_eq; by vm_compute.
Defined.
