(* ===== verification/RateLimiter.v ===== *)
(** Per-address token buckets, blacklisting and queue backpressure:
    chamlon_server/src/rate_limiter.c.

    [time(NULL)] is read several times inside one call, so every operation takes
    its readings as arguments, in the order of the calls.  The bucket levels are
    C doubles that only ever hold integers below 2^53 (a refill past that is cut
    to the burst capacity whatever the rounding), so they are integers here. *)

From stdpp Require Import list gmap.
From S2P Require Import Prelude.
Local Open Scope Z_scope.

Definition HANDSHAKE_MAX_PER_SECOND : Z := 5.
Definition HANDSHAKE_BURST_CAPACITY : Z := 10.
Definition PACKET_MAX_PER_SECOND : Z := 1000.
Definition PACKET_BURST_CAPACITY : Z := 2000.
Definition BLACKLIST_DURATION_SEC : Z := 60.
Definition MAX_RATE_LIMIT_ENTRIES : Z := 10000.
Definition RATE_LIMITER_CLEANUP_INTERVAL : Z := 10.

Inductive rate_result := RATE_LIMIT_OK | RATE_LIMIT_EXCEEDED | RATE_LIMIT_BLACKLISTED.
#[global] Instance rate_result_eq_dec : EqDecision rate_result.
Proof. solve_decision. Defined.

Record ip_rate_limit_t := {
  ip_addr : Z;
  handshake_tokens : Z;
  packet_tokens : Z;
  last_handshake_refill : Z;
  last_packet_refill : Z;
  handshake_violations : Z;
  packet_violations : Z;
  blacklist_until : Z;
  last_seen : Z;
}.
#[global] Instance eta_ip : Settable ip_rate_limit_t := fun e =>
  {| ip_addr := ip_addr e; handshake_tokens := handshake_tokens e; packet_tokens := packet_tokens e;
     last_handshake_refill := last_handshake_refill e; last_packet_refill := last_packet_refill e;
     handshake_violations := handshake_violations e; packet_violations := packet_violations e;
     blacklist_until := blacklist_until e; last_seen := last_seen e |}.

(** [entries] lists the slots written so far, [None] for the null pointer; the
    slots at [num_entries] and above hold stale copies. *)
Record rate_limiter_t := {
  entries : option (list ip_rate_limit_t);
  num_entries : nat;
  capacity : Z;
  last_cleanup : Z;
}.
#[global] Instance eta_rl : Settable rate_limiter_t := fun r =>
  {| entries := entries r; num_entries := num_entries r; capacity := capacity r;
     last_cleanup := last_cleanup r |}.

Record queue_backpressure_t := {
  max_queue_size : Z;
  max_total_queue_size : Z;
  current_total_queue_size : Z;
}.
#[global] Instance eta_bp : Settable queue_backpressure_t := fun q =>
  {| max_queue_size := max_queue_size q; max_total_queue_size := max_total_queue_size q;
     current_total_queue_size := current_total_queue_size q |}.

(** The two file-scope objects, zero-initialised. *)
Record limiter := { g_rate_limiter : rate_limiter_t; g_queue_backpressure : queue_backpressure_t }.
#[global] Instance eta_limiter : Settable limiter := fun l =>
  {| g_rate_limiter := g_rate_limiter l; g_queue_backpressure := g_queue_backpressure l |}.

(** [malloc_ok] tells whether the allocation of the table succeeds. *)
Definition rate_limiter_init (malloc_ok : bool) (now : Z) (s : limiter) : Z * limiter :=
  let r := g_rate_limiter s <| capacity := MAX_RATE_LIMIT_ENTRIES |> <| num_entries := 0%nat |>
             <| entries := if malloc_ok then Some [] else None |> in
  if malloc_ok then
    (0, {| g_rate_limiter := r <| last_cleanup := now |>;
           g_queue_backpressure :=
             {| max_queue_size := 10000; max_total_queue_size := 100000;
                current_total_queue_size := 0 |} |})
  else (-1, s <| g_rate_limiter := r |>).

Definition table (r : rate_limiter_t) : outcome (list ip_rate_limit_t) :=
  match entries r with Some es => Ok es | None => Err NullDeref end.

Definition keep_entry (now : Z) (e : ip_rate_limit_t) : bool :=
  (now - last_seen e <? 300) || (now <? blacklist_until e).

(** The compaction loop of [rate_limiter_cleanup], [k] iterations from [i]. *)
Fixpoint compact (now : Z) (es : list ip_rate_limit_t) (i j k : nat)
    : outcome (list ip_rate_limit_t * nat) :=
  match k with
  | O => Ok (es, j)
  | S k =>
      e ← slot_read es i;
      if keep_entry now e then
        (es ← if decide (i = j) then Ok es else slot_write es j e; compact now es (S i) (S j) k)
      else compact now es (S i) j k
  end.

Definition rate_limiter_cleanup (now : Z) (r : rate_limiter_t) : outcome rate_limiter_t :=
  if now - last_cleanup r <? RATE_LIMITER_CLEANUP_INTERVAL then Ok r
  else if decide (num_entries r = 0%nat) then Ok (r <| last_cleanup := now |>)
  else
    es ← table r;
    res ← compact now es 0 0 (num_entries r);
    Ok (r <| entries := Some res.1 |> <| num_entries := res.2 |> <| last_cleanup := now |>).

(** [free] of the table; [num_entries] is left as it was. *)
Definition rate_limiter_destroy (r : rate_limiter_t) : rate_limiter_t := r <| entries := None |>.

(** The search loop of [find_or_create_ip_entry], [k] iterations from [i]. *)
Fixpoint find_ip (es : list ip_rate_limit_t) (ip : Z) (i k : nat) : outcome (option nat) :=
  match k with
  | O => Ok None
  | S k => e ← slot_read es i; if ip_addr e =? ip then Ok (Some i) else find_ip es ip (S i) k
  end.

Definition new_entry (ip now : Z) : ip_rate_limit_t :=
  {| ip_addr := ip; handshake_tokens := HANDSHAKE_BURST_CAPACITY;
     packet_tokens := PACKET_BURST_CAPACITY; last_handshake_refill := now;
     last_packet_refill := now; handshake_violations := 0; packet_violations := 0;
     blacklist_until := 0; last_seen := now |}.

(** The pointer returned is the index of the slot. *)
Definition find_or_create_ip_entry (now : Z) (r : rate_limiter_t) (ip : Z)
    : outcome (option nat * rate_limiter_t) :=
  found ← match entries r with
          | Some es => find_ip es ip 0 (num_entries r)
          | None => if decide (num_entries r = 0%nat) then Ok None else Err NullDeref
          end;
  match found with
  | Some i =>
      es ← table r; e ← slot_read es i;
      es ← slot_write es i (e <| last_seen := now |>);
      Ok (Some i, r <| entries := Some es |>)
  | None =>
      if Z.of_nat (num_entries r) <? capacity r then
        es ← table r;
        es ← slot_write es (num_entries r) (new_entry ip now);
        Ok (Some (num_entries r), r <| entries := Some es |> <| num_entries ::= S |>)
      else Ok (None, r)
  end.

(** The new level and refill time of a bucket. *)
Definition refill_tokens (now tokens max_tokens last_refill tokens_per_sec : Z) : Z * Z :=
  let elapsed := now - last_refill in
  if 0 <? elapsed then
    let t := tokens + elapsed * tokens_per_sec in
    (if max_tokens <? t then max_tokens else t, now)
  else (tokens, last_refill).

(** What a handshake check does to the entry it found: [now] is the reading the
    blacklist is tested against, [now'] the one [refill_tokens] takes. *)
Definition handshake_entry (now now' : Z) (e : ip_rate_limit_t) : rate_result * ip_rate_limit_t :=
  if now <? blacklist_until e then (RATE_LIMIT_BLACKLISTED, e)
  else
    let '(tok, last) := refill_tokens now' (handshake_tokens e) HANDSHAKE_BURST_CAPACITY
                          (last_handshake_refill e) HANDSHAKE_MAX_PER_SECOND in
    let e := e <| handshake_tokens := tok |> <| last_handshake_refill := last |> in
    if 1 <=? handshake_tokens e then
      (RATE_LIMIT_OK, e <| handshake_tokens := handshake_tokens e - 1 |>)
    else
      let e := e <| handshake_violations := u32 (handshake_violations e + 1) |> in
      if 50 <? handshake_violations e then
        (RATE_LIMIT_BLACKLISTED, e <| blacklist_until := now + BLACKLIST_DURATION_SEC |>)
      else (RATE_LIMIT_EXCEEDED, e).

Definition packet_entry (now now' : Z) (e : ip_rate_limit_t) : rate_result * ip_rate_limit_t :=
  if now <? blacklist_until e then (RATE_LIMIT_BLACKLISTED, e)
  else
    let '(tok, last) := refill_tokens now' (packet_tokens e) PACKET_BURST_CAPACITY
                          (last_packet_refill e) PACKET_MAX_PER_SECOND in
    let e := e <| packet_tokens := tok |> <| last_packet_refill := last |> in
    if 1 <=? packet_tokens e then
      (RATE_LIMIT_OK, e <| packet_tokens := packet_tokens e - 1 |>)
    else
      let e := e <| packet_violations := u32 (packet_violations e + 1) |> in
      if 500 <? packet_violations e then
        (RATE_LIMIT_BLACKLISTED, e <| blacklist_until := now + BLACKLIST_DURATION_SEC |>)
      else (RATE_LIMIT_EXCEEDED, e).

(** Lock, find the entry of [ip], apply [step] to it through the pointer, unlock. *)
Definition with_entry {A} (now : Z) (r : rate_limiter_t) (ip : Z) (full : A)
    (step : ip_rate_limit_t -> A * ip_rate_limit_t) : outcome (A * rate_limiter_t) :=
  res ← find_or_create_ip_entry now r ip;
  match res.1 with
  | None => Ok (full, res.2)
  | Some i =>
      es ← table res.2; e ← slot_read es i;
      let '(a, e) := step e in
      es ← slot_write es i e;
      Ok (a, res.2 <| entries := Some es |>)
  end.

Definition check_handshake_rate_limit (t1 t2 t3 : Z) (r : rate_limiter_t) (ip : Z)
    : outcome (rate_result * rate_limiter_t) :=
  with_entry t1 r ip RATE_LIMIT_EXCEEDED (handshake_entry t2 t3).

Definition check_packet_rate_limit (t1 t2 t3 : Z) (r : rate_limiter_t) (ip : Z)
    : outcome (rate_result * rate_limiter_t) :=
  with_entry t1 r ip RATE_LIMIT_EXCEEDED (packet_entry t2 t3).

(** [t0] is read before the lock is taken, [t1] by the search. *)
Definition blacklist_ip (t0 t1 : Z) (r : rate_limiter_t) (ip : Z) : outcome rate_limiter_t :=
  snd <$> with_entry t1 r ip tt (fun e => (tt, e <| blacklist_until := t0 + BLACKLIST_DURATION_SEC |>)).

(** ** Queue backpressure *)

Definition check_queue_backpressure (q : queue_backpressure_t) (packets_to_add : Z) : outcome rate_result :=
  n ← int_of (current_total_queue_size q + packets_to_add);
  Ok (if max_total_queue_size q <? n then RATE_LIMIT_EXCEEDED else RATE_LIMIT_OK).

Definition update_queue_backpressure (q : queue_backpressure_t) (packets_added : Z)
    : outcome queue_backpressure_t :=
  n ← int_of (current_total_queue_size q + packets_added);
  Ok (q <| current_total_queue_size := n |>).

Definition release_queue_backpressure (q : queue_backpressure_t) (packets_removed : Z)
    : outcome queue_backpressure_t :=
  n ← int_of (current_total_queue_size q - packets_removed);
  Ok (q <| current_total_queue_size := if n <? 0 then 0 else n |>).

Definition get_queue_backpressure_level (q : queue_backpressure_t) : Z := current_total_queue_size q.

(** ** The table as a finite map

    The contract: at most [cap] addresses, each with its entry; a check creates a
    missing entry if there is room, and works on the entry of its own address. *)

Abbreviation ip_map := (gmap Z ip_rate_limit_t).

Definition a_entry (now cap : Z) (m : ip_map) (ip : Z) : option ip_rate_limit_t :=
  match m !! ip with
  | Some e => Some (e <| last_seen := now |>)
  | None => if Z.of_nat (base.size m) <? cap then Some (new_entry ip now) else None
  end.

Definition a_with {A} (now cap : Z) (m : ip_map) (ip : Z) (full : A)
    (step : ip_rate_limit_t -> A * ip_rate_limit_t) : A * ip_map :=
  match a_entry now cap m ip with
  | None => (full, m)
  | Some e => let '(a, e) := step e in (a, <[ip := e]> m)
  end.

Definition a_cleanup (now : Z) (m : ip_map) : ip_map := filter (fun p => keep_entry now p.2 = true) m.

Definition index (L : list ip_rate_limit_t) : ip_map :=
  list_to_map ((fun e => (ip_addr e, e)) <$> L).

#[local] Arguments index : simpl never.

Definition live (r : rate_limiter_t) : list ip_rate_limit_t :=
  take (num_entries r) (default [] (entries r)).

Record table_rep (r : rate_limiter_t) (m : ip_map) : Prop := {
  rep_entries : is_Some (entries r);
  rep_num : (num_entries r <= length (default [] (entries r)))%nat;
  rep_fits : Z.of_nat (length (default [] (entries r))) <= capacity r;
  rep_nodup : NoDup (ip_addr <$> live r);
  rep_index : m = index (live r);
}.

Lemma kv_fst (L : list ip_rate_limit_t) : ((fun e => (ip_addr e, e)) <$> L).*1 = ip_addr <$> L.
Proof. rewrite <- list_fmap_compose. done. Qed.

Lemma index_lookup L ip e :
  NoDup (ip_addr <$> L) -> index L !! ip = Some e <-> e ∈ L /\ ip_addr e = ip.
Proof.
  intros Hnd. unfold index. rewrite <- elem_of_list_to_map by (by rewrite kv_fst).
  rewrite list_elem_of_fmap. split.
  - intros (e' & [= -> ->] & ?). done.
  - intros [? <-]. eauto.
Qed.

Lemma index_lookup_None L ip : index L !! ip = None <-> ip ∉ ip_addr <$> L.
Proof. unfold index. by rewrite <- not_elem_of_list_to_map, kv_fst. Qed.

Lemma index_size L : NoDup (ip_addr <$> L) -> base.size (index L) = length L.
Proof. intros. unfold index. rewrite map_size_list_to_map by (by rewrite kv_fst). by rewrite length_fmap. Qed.

Lemma ips_insert (L : list ip_rate_limit_t) (i : nat) e e' :
  L !! i = Some e -> ip_addr e' = ip_addr e -> ip_addr <$> <[i := e']> L = ip_addr <$> L.
Proof.
  intros Hi Hip. rewrite list_fmap_insert. apply list_insert_id.
  by rewrite list_lookup_fmap, Hi, Hip.
Qed.

Lemma index_insert_at (L : list ip_rate_limit_t) (i : nat) e e' :
  NoDup (ip_addr <$> L) -> L !! i = Some e -> ip_addr e' = ip_addr e ->
  index (<[i := e']> L) = <[ip_addr e := e']> (index L).
Proof.
  intros Hnd Hi Hip. pose proof (ips_insert _ _ _ _ Hi Hip) as Hips.
  apply map_eq. intros ip. apply option_eq. intros x.
  rewrite index_lookup by (by rewrite Hips). rewrite lookup_insert_Some, index_lookup by done.
  rewrite !list_elem_of_lookup. split.
  - intros [[j Hj] Hx]. destruct (decide (j = i)) as [->|Hne].
    + rewrite list_lookup_insert_eq in Hj by (by eapply lookup_lt_Some). left. by simplify_eq.
    + rewrite list_lookup_insert_ne in Hj by done. right. split; [|eauto].
      intros Hipe. apply Hne. eapply NoDup_lookup; [exact Hnd| |]; rewrite list_lookup_fmap.
      * by rewrite Hj.
      * rewrite Hi. cbn. congruence.
  - intros [[<- <-]|[Hne [[j Hj] Hx]]].
    + split; [|done]. exists i. apply list_lookup_insert_eq. by eapply lookup_lt_Some.
    + split; [|done]. exists j. rewrite list_lookup_insert_ne; [done|]. intros ->. congruence.
Qed.

Lemma index_app L e : ip_addr e ∉ ip_addr <$> L -> index (L ++ [e]) = <[ip_addr e := e]> (index L).
Proof. intros Hn. unfold index. rewrite fmap_app. cbn. rewrite list_to_map_snoc; [done|]. by rewrite kv_fst. Qed.

Abbreviation kept now := (filter (fun e => keep_entry now e = true)).

Lemma index_filter L now :
  NoDup (ip_addr <$> L) ->
  index (kept now L) = a_cleanup now (index L) /\ NoDup (ip_addr <$> kept now L).
Proof.
  intros Hnd.
  assert (Hnd' : NoDup (ip_addr <$> kept now L)).
  { eapply sublist_NoDup; [exact Hnd|]. apply fmap_sublist, sublist_filter. }
  split; [|done]. apply map_eq. intros ip. apply option_eq. intros x.
  rewrite index_lookup by done. unfold a_cleanup. rewrite map_lookup_filter_Some, index_lookup by done.
  rewrite list_elem_of_filter. cbn. tauto.
Qed.

(** ** The loops *)

Lemma compact_spec now k es i j :
  (j <= i)%nat -> (i + k <= length es)%nat ->
  exists es' j', compact now es i j k = Ok (es', j') /\ length es' = length es /\
    (j' <= i + k)%nat /\ take j' es' = take j es ++ kept now (take k (drop i es)).
Proof.
  revert es i j. induction k as [|k IH]; intros es i j Hji Hl; cbn [compact].
  - exists es, j. cbn. rewrite app_nil_r. repeat split; lia.
  - destruct (slot_read_lt es i) as (e & -> & He); [lia|]. cbn [mbind outcome_bind].
    rewrite (drop_S es e i He). cbn [take]. rewrite filter_cons. destruct (keep_entry now e) eqn:Hk.
    2:{ destruct (IH es (S i) j) as (es' & j' & -> & Hlen & Hj' & Htk); [lia..|].
        exists es', j'. repeat split; try done. lia. }
    cbn [decide].
    assert (Hw : (if decide (i = j) then Ok es else slot_write es j e) = Ok (<[j := e]> es)).
    { case_decide as Heq; [|by rewrite slot_write_lt by lia]. subst j. by rewrite list_insert_id. }
    rewrite Hw. cbn [mbind outcome_bind].
    destruct (IH (<[j := e]> es) (S i) (S j)) as (es' & j' & -> & Hlen & Hj' & Htk);
      rewrite ?length_insert; [lia..|].
    rewrite length_insert in Hlen. exists es', j'. repeat split; [done|lia|]. rewrite Htk.
    rewrite drop_insert_lt by lia.
    rewrite (take_S_r _ _ e) by (apply list_lookup_insert_eq; lia).
    rewrite take_insert_ge by lia. by rewrite <- app_assoc.
Qed.

Lemma find_ip_spec es ip k i :
  (i + k <= length es)%nat ->
  (find_ip es ip i k = Ok None /\ ip ∉ ip_addr <$> take k (drop i es)) \/
  exists x e, find_ip es ip i k = Ok (Some x) /\ (i <= x < i + k)%nat /\ es !! x = Some e /\ ip_addr e = ip.
Proof.
  revert i. induction k as [|k IH]; intros i Hl; cbn [find_ip].
  - left. split; [done|]. cbn. apply not_elem_of_nil.
  - destruct (slot_read_lt es i) as (e & -> & He); [lia|]. cbn [mbind outcome_bind].
    destruct (Z.eqb_spec (ip_addr e) ip) as [Heq|Hne].
    + right. exists i, e. repeat split; try done; lia.
    + rewrite (drop_S es e i He). destruct (IH (S i)) as [[-> Hn]|(x & e' & -> & ? & ? & ?)]; [lia| |].
      * left. split; [done|]. cbn. apply not_elem_of_cons. auto.
      * right. exists x, e'. repeat split; try done; lia.
Qed.

(** Writing the [num_entries] slot of the table appends to its live part. *)
Lemma slot_write_next {A} (es : list A) n x :
  (n <= length es)%nat ->
  exists es', slot_write es n x = Ok es' /\ take (S n) es' = take n es ++ [x] /\
    (S n <= length es' <= Nat.max (length es) (S n))%nat /\ es' !! n = Some x.
Proof.
  intros Hn. destruct (decide (n = length es)) as [->|Hne].
  - exists (es ++ [x]). rewrite slot_write_last. split; [done|].
    rewrite length_app. cbn. rewrite firstn_all2 by (rewrite length_app; cbn; lia).
    rewrite take_ge by lia. repeat split; try lia. by apply list_lookup_middle.
  - exists (<[n := x]> es). rewrite slot_write_lt by lia. split; [done|].
    rewrite length_insert. rewrite (take_S_r _ _ x) by (apply list_lookup_insert_eq; lia).
    rewrite take_insert_ge by lia. repeat split; try lia. apply list_lookup_insert_eq. lia.
Qed.

(** ** Refinement of the map *)

(** Updating a live entry in place updates the map at its address. *)
Lemma table_rep_update r m i e e' :
  table_rep r m -> live r !! i = Some e -> ip_addr e' = ip_addr e ->
  exists es es', table r = Ok es /\ slot_read es i = Ok e /\ slot_write es i e' = Ok es' /\
    table_rep (r <| entries := Some es' |>) (<[ip_addr e := e']> m).
Proof.
  intros [[es Hes] Hn Hf Hnd ->] Hi Hip. unfold live in *. rewrite Hes in *. cbn [default from_option id] in *.
  pose proof Hi as Hi'. apply lookup_take_Some in Hi' as [Hes_i Hin].
  exists es, (<[i := e']> es). unfold table. rewrite Hes. split; [done|].
  split; [by apply slot_read_Ok|]. split; [apply slot_write_lt; lia|].
  assert (Hlive : take (num_entries r) (<[i := e']> es) = <[i := e']> (take (num_entries r) es))
    by (by apply take_insert_in).
  split; cbn; unfold live; cbn; rewrite ?length_insert, ?Hlive; try done.
  - by rewrite (ips_insert _ _ e).
  - by rewrite (index_insert_at _ _ e).
Qed.

Lemma find_or_create_refines now r m ip :
  table_rep r m ->
  match a_entry now (capacity r) m ip with
  | None => find_or_create_ip_entry now r ip = Ok (None, r)
  | Some e => exists i es,
      find_or_create_ip_entry now r ip =
        Ok (Some i, r <| entries := Some es |> <| num_entries := base.size (<[ip := e]> m) |>) /\
      live (r <| entries := Some es |> <| num_entries := base.size (<[ip := e]> m) |>) !! i = Some e /\
      ip_addr e = ip /\
      table_rep (r <| entries := Some es |> <| num_entries := base.size (<[ip := e]> m) |>) (<[ip := e]> m)
  end.
Proof.
  intros Hrep. pose proof Hrep as [[es Hes] Hn Hf Hnd Hm]. unfold find_or_create_ip_entry, a_entry.
  assert (Hsz : base.size m = num_entries r).
  { rewrite Hm, index_size by done. unfold live. by apply length_take_le. }
  rewrite Hes in *. cbn [default from_option id] in *.
  destruct (find_ip_spec es ip (num_entries r) 0) as [[-> Hno]|(x & e & -> & Hx & He & Hip)]; [lia| |].
  - cbn [mbind outcome_bind]. rewrite drop_0 in Hno.
    assert (Hnone : m !! ip = None) by (rewrite Hm; apply index_lookup_None; unfold live; by rewrite Hes).
    rewrite Hnone, Hsz. destruct (Z.ltb_spec (Z.of_nat (num_entries r)) (capacity r)) as [Hroom|]; [|done].
    unfold table. rewrite Hes. cbn [mbind outcome_bind].
    destruct (slot_write_next es (num_entries r) (new_entry ip now)) as (es' & -> & Htk & Hlen & Hat); [lia|].
    cbn [mbind outcome_bind]. exists (num_entries r), es'.
    rewrite map_size_insert_None, Hsz by done. split; [done|].
    assert (Hlive : live (r <| entries := Some es' |> <| num_entries := S (num_entries r) |>) =
      live r ++ [new_entry ip now]) by (unfold live; cbn; rewrite Hes; exact Htk).
    rewrite Hlive. split; [|split; [done|split]].
    + apply list_lookup_middle. unfold live. rewrite Hes. cbn. by rewrite length_take_le.
    + done.
    + cbn. lia.
    + cbn. lia.
    + rewrite Hlive, fmap_app. apply NoDup_app. split; [done|]. split; [|apply NoDup_singleton].
      intros ip' Hin ->%list_elem_of_singleton. unfold live in Hin. rewrite Hes in Hin. done.
    + rewrite Hlive, Hm, index_app; [done|]. unfold live. by rewrite Hes.
  - cbn [mbind outcome_bind].
    assert (Hlk : live r !! x = Some e) by (unfold live; rewrite Hes; cbn; rewrite lookup_take_lt by lia; done).
    assert (Hsome : m !! ip = Some e).
    { rewrite Hm, index_lookup by done. split; [|done]. by eapply list_elem_of_lookup_2. }
    rewrite Hsome.
    destruct (table_rep_update r m x e (e <| last_seen := now |>)) as (es1 & es2 & -> & Hr & Hw & Hrep'); [done..|].
    cbn [mbind outcome_bind]. rewrite Hr. cbn [mbind outcome_bind]. rewrite Hw. cbn [mbind outcome_bind].
    exists x, es2. rewrite map_size_insert_Some, Hsz by done. rewrite Hip in Hrep'.
    destruct r as [re rn rc rl]. cbn in *. split; [done|]. split; [|done].
    unfold slot_write in Hw. rewrite decide_True in Hw; [|apply slot_read_Ok, lookup_lt_Some in Hr; lia].
    injection Hw as <-. unfold live. cbn. rewrite lookup_take_lt by lia. apply list_lookup_insert_eq.
    apply slot_read_Ok, lookup_lt_Some in Hr. lia.
Qed.

Lemma with_entry_refines {A} now r m ip (full : A) step :
  table_rep r m -> (forall e, ip_addr (step e).2 = ip_addr e) ->
  exists es n, with_entry now r ip full step =
      Ok ((a_with now (capacity r) m ip full step).1, r <| entries := Some es |> <| num_entries := n |>) /\
    table_rep (r <| entries := Some es |> <| num_entries := n |>) (a_with now (capacity r) m ip full step).2.
Proof.
  intros Hrep Hstep. pose proof (find_or_create_refines now r m ip Hrep) as Hfind.
  unfold with_entry, a_with. destruct (a_entry now (capacity r) m ip) as [e|].
  - destruct Hfind as (i & es & -> & Hi & Hip & Hrep'). cbn [mbind outcome_bind fst snd].
    specialize (Hstep e). destruct (step e) as [a e'] eqn:Hse. cbn in Hstep.
    destruct (table_rep_update _ _ i e e' Hrep' Hi Hstep) as (es1 & es2 & -> & Hr & Hw & Hrep'').
    cbn [mbind outcome_bind]. rewrite Hr. cbn [mbind outcome_bind]. rewrite Hse, Hw. cbn [mbind outcome_bind].
    eexists es2, _. split; [done|]. rewrite Hip, insert_insert_eq in Hrep''. exact Hrep''.
  - rewrite Hfind. cbn [mbind outcome_bind fst snd]. pose proof Hrep as [[es Hes] _ _ _ _].
    exists es, (num_entries r). assert (Hr : r <| entries := Some es |> <| num_entries := num_entries r |> = r).
    { destruct r. cbn in *. by subst. }
    by rewrite Hr.
Qed.

Lemma cleanup_refines now r m :
  table_rep r m ->
  exists r', rate_limiter_cleanup now r = Ok r' /\ capacity r' = capacity r /\
    table_rep r' (if now - last_cleanup r <? RATE_LIMITER_CLEANUP_INTERVAL then m else a_cleanup now m).
Proof.
  intros Hrep. unfold rate_limiter_cleanup.
  destruct (now - last_cleanup r <? RATE_LIMITER_CLEANUP_INTERVAL); [eauto|].
  destruct Hrep as [[es Hes] Hn Hf Hnd ->]. destruct (index_filter _ now Hnd) as [<- Hnd'].
  unfold live in *. rewrite Hes in *. cbn [default from_option id] in *. case_decide as Hz.
  - eexists. split; [done|]. split; [done|]. rewrite Hz in *.
    split; cbn; unfold live; cbn; rewrite ?Hes, ?Hz; done.
  - unfold table. rewrite Hes. cbn [mbind outcome_bind].
    destruct (compact_spec now (num_entries r) es 0 0) as (es' & j & -> & Hlen & Hj & Htk); [lia..|].
    cbn [mbind outcome_bind fst snd]. eexists. split; [done|]. split; [done|].
    rewrite drop_0, take_0, app_nil_l in Htk.
    split; cbn; unfold live; cbn; rewrite ?Htk; try done; lia.
Qed.

(** ** Runs of the limiter *)

Inductive rl_event :=
  | Handshake (ip t1 t2 t3 : Z)
  | Packet (ip t1 t2 t3 : Z)
  | Blacklist (ip t0 t1 : Z)
  | Cleanup (now : Z).

Definition rl_step (r : rate_limiter_t) (ev : rl_event) : outcome (option rate_result * rate_limiter_t) :=
  match ev with
  | Handshake ip t1 t2 t3 => p ← check_handshake_rate_limit t1 t2 t3 r ip; Ok (Some p.1, p.2)
  | Packet ip t1 t2 t3 => p ← check_packet_rate_limit t1 t2 t3 r ip; Ok (Some p.1, p.2)
  | Blacklist ip t0 t1 => r ← blacklist_ip t0 t1 r ip; Ok (None, r)
  | Cleanup now => r ← rate_limiter_cleanup now r; Ok (None, r)
  end.

Fixpoint rl_run (r : rate_limiter_t) (evs : list rl_event) : outcome (list (option rate_result) * rate_limiter_t) :=
  match evs with
  | [] => Ok ([], r)
  | ev :: evs => p ← rl_step r ev; ps ← rl_run p.2 evs; Ok (p.1 :: ps.1, ps.2)
  end.

(** The same run on the map; a clean-up may be skipped or take effect. *)
Inductive a_step (cap : Z) (m : ip_map) : rl_event -> option rate_result -> ip_map -> Prop :=
  | a_handshake ip t1 t2 t3 :
      a_step cap m (Handshake ip t1 t2 t3)
        (Some (a_with t1 cap m ip RATE_LIMIT_EXCEEDED (handshake_entry t2 t3)).1)
        (a_with t1 cap m ip RATE_LIMIT_EXCEEDED (handshake_entry t2 t3)).2
  | a_packet ip t1 t2 t3 :
      a_step cap m (Packet ip t1 t2 t3)
        (Some (a_with t1 cap m ip RATE_LIMIT_EXCEEDED (packet_entry t2 t3)).1)
        (a_with t1 cap m ip RATE_LIMIT_EXCEEDED (packet_entry t2 t3)).2
  | a_blacklist ip t0 t1 :
      a_step cap m (Blacklist ip t0 t1) None
        (a_with t1 cap m ip tt (fun e => (tt, e <| blacklist_until := t0 + BLACKLIST_DURATION_SEC |>))).2
  | a_skip now : a_step cap m (Cleanup now) None m
  | a_clean now : a_step cap m (Cleanup now) None (a_cleanup now m).

Inductive a_run (cap : Z) : ip_map -> list rl_event -> list (option rate_result) -> ip_map -> Prop :=
  | a_nil m : a_run cap m [] [] m
  | a_cons m ev res m1 evs rs m2 :
      a_step cap m ev res m1 -> a_run cap m1 evs rs m2 -> a_run cap m (ev :: evs) (res :: rs) m2.

Lemma handshake_entry_ip t2 t3 e : ip_addr (handshake_entry t2 t3 e).2 = ip_addr e.
Proof. unfold handshake_entry, refill_tokens. repeat case_match; done. Qed.
Lemma packet_entry_ip t2 t3 e : ip_addr (packet_entry t2 t3 e).2 = ip_addr e.
Proof. unfold packet_entry, refill_tokens. repeat case_match; done. Qed.

Lemma rl_step_refines r m ev :
  table_rep r m ->
  exists res r' m', rl_step r ev = Ok (res, r') /\ a_step (capacity r) m ev res m' /\
    table_rep r' m' /\ capacity r' = capacity r.
Proof.
  intros Hrep. destruct ev as [ip t1 t2 t3|ip t1 t2 t3|ip t0 t1|now]; cbn [rl_step].
  - destruct (with_entry_refines t1 r m ip RATE_LIMIT_EXCEEDED (handshake_entry t2 t3) Hrep)
      as (es & n & Hw & Hr); [apply handshake_entry_ip|].
    unfold check_handshake_rate_limit. rewrite Hw. cbn [mbind outcome_bind fst snd].
    do 3 eexists. split; [done|]. split; [constructor|]. by split.
  - destruct (with_entry_refines t1 r m ip RATE_LIMIT_EXCEEDED (packet_entry t2 t3) Hrep)
      as (es & n & Hw & Hr); [apply packet_entry_ip|].
    unfold check_packet_rate_limit. rewrite Hw. cbn [mbind outcome_bind fst snd].
    do 3 eexists. split; [done|]. split; [constructor|]. by split.
  - destruct (with_entry_refines t1 r m ip tt (fun e => (tt, e <| blacklist_until := t0 + BLACKLIST_DURATION_SEC |>)) Hrep)
      as (es & n & Hw & Hr); [done|].
    unfold blacklist_ip. rewrite Hw. cbn [mbind outcome_bind fmap outcome_fmap fst snd].
    do 3 eexists. split; [done|]. split; [constructor|]. by split.
  - destruct (cleanup_refines now r m Hrep) as (r' & -> & Hc & Hr). cbn [mbind outcome_bind].
    do 3 eexists. split; [done|]. split; [|by split]. case_match; constructor.
Qed.

Lemma rl_run_refines_from r m evs :
  table_rep r m ->
  exists rs r' m', rl_run r evs = Ok (rs, r') /\ a_run (capacity r) m evs rs m' /\ table_rep r' m'.
Proof.
  revert r m. induction evs as [|ev evs IH]; intros r m Hrep; cbn [rl_run].
  - exists [], r, m. split; [done|]. split; [constructor|done].
  - destruct (rl_step_refines r m ev Hrep) as (res & r1 & m1 & -> & Hs & Hrep1 & Hc).
    cbn [mbind outcome_bind fst snd].
    destruct (IH r1 m1 Hrep1) as (rs & r' & m' & -> & Hrun & Hrep'). cbn [mbind outcome_bind fst snd].
    exists (res :: rs), r', m'. split; [done|]. split; [|done]. rewrite Hc in Hrun. by econstructor.
Qed.

Definition zero_limiter : limiter :=
  {| g_rate_limiter := {| entries := None; num_entries := 0; capacity := 0; last_cleanup := 0 |};
     g_queue_backpressure := {| max_queue_size := 0; max_total_queue_size := 0; current_total_queue_size := 0 |} |}.

(** The state after a successful [rate_limiter_init] at time [now]. *)
Definition started (now : Z) : rate_limiter_t := g_rate_limiter (rate_limiter_init true now zero_limiter).2.

Lemma started_rep now : table_rep (started now) ∅.
Proof. split; cbn; first [done|lia|apply NoDup_nil_2]. Qed.

(** C34: every sequence of checks, blacklistings and clean-ups after
    [rate_limiter_init] runs inside the table without undefined behaviour, and
    the linear-search table behaves as a finite map from addresses to entries
    with room for 10000 of them. *)
Theorem rl_run_refines now evs :
  exists rs r' m', rl_run (started now) evs = Ok (rs, r') /\
    a_run MAX_RATE_LIMIT_ENTRIES ∅ evs rs m' /\ table_rep r' m'.
Proof. apply (rl_run_refines_from (started now) ∅ evs), started_rep. Qed.

(** ** The token-bucket bound *)

Inductive bucket := HandshakeBucket | PacketBucket.
#[global] Instance bucket_eq_dec : EqDecision bucket.
Proof. solve_decision. Defined.

Definition tok (b : bucket) (e : ip_rate_limit_t) : Z :=
  match b with HandshakeBucket => handshake_tokens e | PacketBucket => packet_tokens e end.
Definition last (b : bucket) (e : ip_rate_limit_t) : Z :=
  match b with HandshakeBucket => last_handshake_refill e | PacketBucket => last_packet_refill e end.
Definition burst (b : bucket) : Z :=
  match b with HandshakeBucket => HANDSHAKE_BURST_CAPACITY | PacketBucket => PACKET_BURST_CAPACITY end.
Definition rate (b : bucket) : Z :=
  match b with HandshakeBucket => HANDSHAKE_MAX_PER_SECOND | PacketBucket => PACKET_MAX_PER_SECOND end.
Definition check_entry (b : bucket) :=
  match b with HandshakeBucket => handshake_entry | PacketBucket => packet_entry end.

(** The tokens an address can spend at time [t]. *)
Definition level (b : bucket) (e : ip_rate_limit_t) (t : Z) : Z :=
  Z.min (burst b) (tok b e + rate b * (t - last b e)).
#[local] Arguments level : simpl never.
Definition credit (b : bucket) (m : ip_map) (ip t : Z) : Z :=
  match m !! ip with None => burst b | Some e => level b e t end.

Record entry_ok (t : Z) (e : ip_rate_limit_t) : Prop := {
  ok_tok b : 0 <= tok b e <= burst b;
  ok_last b : last b e <= Z.min t (last_seen e + 60);
  ok_seen : last_seen e <= t;
}.

(** The clock does not run backwards and a check takes at most a minute. *)
Definition timed (t : Z) (ev : rl_event) (t' : Z) : Prop :=
  match ev with
  | Handshake _ t1 t2 t3 | Packet _ t1 t2 t3 => t <= t1 /\ t1 <= t2 /\ t2 <= t3 /\ t3 = t' /\ t3 <= t1 + 60
  | Blacklist _ t0 t1 => t <= t0 /\ t0 <= t1 /\ t1 = t'
  | Cleanup now => t <= now /\ now = t'
  end.

Inductive timed_run : Z -> list rl_event -> Z -> Prop :=
  | timed_nil t : timed_run t [] t
  | timed_cons t ev t1 evs t2 : timed t ev t1 -> timed_run t1 evs t2 -> timed_run t (ev :: evs) t2.

(** 1 when the event is a check of bucket [b] for [ip] that was allowed. *)
Definition allowed (b : bucket) (ip : Z) (ev : rl_event) (res : option rate_result) : Z :=
  match ev, b with
  | Handshake ip' _ _ _, HandshakeBucket | Packet ip' _ _ _, PacketBucket =>
      if bool_decide (ip' = ip /\ res = Some RATE_LIMIT_OK) then 1 else 0
  | _, _ => 0
  end.

Fixpoint count_allowed (b : bucket) (ip : Z) (evs : list rl_event) (rs : list (option rate_result)) : Z :=
  match evs, rs with
  | ev :: evs, res :: rs => allowed b ip ev res + count_allowed b ip evs rs
  | _, _ => 0
  end.

Lemma refill_level b e t :
  entry_ok t e -> refill_tokens t (tok b e) (burst b) (last b e) (rate b) = (level b e t, t).
Proof.
  intros [Htok Hlast _]. specialize (Htok b). specialize (Hlast b). unfold refill_tokens, level.
  destruct (Z.ltb_spec 0 (t - last b e)).
  - destruct (Z.ltb_spec (burst b) (tok b e + (t - last b e) * rate b)); f_equal; lia.
  - assert (last b e = t) by lia. f_equal; nia.
Qed.

Lemma level_nonneg b e t : entry_ok t e -> 0 <= level b e t <= burst b.
Proof.
  intros [Htok Hlast _]. specialize (Htok b). specialize (Hlast b). unfold level.
  assert (0 <= rate b) by (by destruct b). nia.
Qed.

Lemma entry_ok_later t t' e : t <= t' -> entry_ok t e -> entry_ok t' e.
Proof. intros Ht [Htok Hlast Hs]. split; [done| |lia]. intros b. specialize (Hlast b). lia. Qed.

(** A check spends one unit of the level exactly when it allows. *)
Lemma check_entry_level b t2 t3 e :
  entry_ok t3 e -> t3 <= last_seen e + 60 ->
  let '(res, e') := check_entry b t2 t3 e in
  entry_ok t3 e' /\ last_seen e' = last_seen e /\
  (forall b', b' <> b -> level b' e' t3 = level b' e t3) /\
  level b e' t3 + (if decide (res = RATE_LIMIT_OK) then 1 else 0) = level b e t3.
Proof.
  intros Hok Hs. pose proof (refill_level b e t3 Hok) as Hre. pose proof (level_nonneg b e t3 Hok) as Hlv.
  pose proof Hok as [Htok Hlast Hseen].
  pose proof (Htok HandshakeBucket) as Ht1. pose proof (Htok PacketBucket) as Ht2.
  pose proof (Hlast HandshakeBucket) as Hl1. pose proof (Hlast PacketBucket) as Hl2.
  assert (Hmk : forall e', last_seen e' = last_seen e -> last b e' = t3 -> 0 <= tok b e' <= burst b ->
    (forall b', b' <> b -> tok b' e' = tok b' e /\ last b' e' = last b' e) ->
    entry_ok t3 e' /\ last_seen e' = last_seen e /\
    (forall b', b' <> b -> level b' e' t3 = level b' e t3) /\ level b e' t3 = tok b e').
  { intros e' Hls Hlb Htb Ho. split; [|split; [done|split]].
    - split; [| |by rewrite Hls].
      + intros b'. destruct (decide (b' = b)) as [->|Hne]; [done|]. destruct (Ho b' Hne) as [-> _]. auto.
      + intros b'. rewrite Hls. destruct (decide (b' = b)) as [->|Hne]; [lia|].
        destruct (Ho b' Hne) as [_ ->]. auto.
    - intros b' Hne. unfold level. by destruct (Ho b' Hne) as [-> ->].
    - unfold level. rewrite Hlb, Z.sub_diag. lia. }
  destruct b; cbn [check_entry]; unfold handshake_entry, packet_entry; cbn [tok burst last rate] in *;
    (destruct (t2 <? blacklist_until e); [rewrite decide_False by done; repeat (split; [done|]); lia|]);
    rewrite Hre; cbn [set handshake_tokens packet_tokens handshake_violations packet_violations eta_of eta_ip];
    match goal with |- context [1 <=? level ?b e t3] => destruct (Z.leb_spec 1 (level b e t3)) end;
    try match goal with |- context [?a <? ?b] => destruct (a <? b) end; cbn;
    match goal with |- entry_ok _ ?e' /\ _ => destruct (Hmk e') as (? & ? & ? & Hl) end;
    try (intros []; cbn; by intros ?); cbn; try lia; repeat (split; [done|]); rewrite Hl; cbn;
    case_decide; (lia || done).
Qed.

Definition map_ok (t : Z) (m : ip_map) : Prop := map_Forall (fun _ e => entry_ok t e) m.

Lemma map_ok_later t t' m : t <= t' -> map_ok t m -> map_ok t' m.
Proof. intros Ht Hm ip e He. eapply entry_ok_later; eauto. Qed.

Lemma level_ext b e e' t : tok b e = tok b e' -> last b e = last b e' -> level b e t = level b e' t.
Proof. unfold level. by intros -> ->. Qed.

Lemma level_later b e t t' : t <= t' -> level b e t' <= level b e t + rate b * (t' - t).
Proof. intros. unfold level. assert (0 <= rate b) by (by destruct b). nia. Qed.

Lemma credit_later b m ip t t' : t <= t' -> credit b m ip t' <= credit b m ip t + rate b * (t' - t).
Proof.
  intros Ht. unfold credit. destruct (m !! ip); [by apply level_later|].
  assert (0 <= rate b) by (by destruct b). nia.
Qed.

(** The entry a search hands out has the credit of its address. *)
Lemma a_entry_ok t t1 t3 cap m ip e :
  map_ok t m -> t <= t1 -> t1 <= t3 -> t3 <= t1 + 60 -> a_entry t1 cap m ip = Some e ->
  entry_ok t3 e /\ last_seen e = t1 /\ forall b, level b e t3 <= credit b m ip t + rate b * (t3 - t).
Proof.
  intros Hm H1 H3 H60. unfold a_entry, credit. destruct (m !! ip) as [e0|] eqn:He0.
  - intros [= <-]. pose proof (Hm _ _ He0) as Hok. split; [|split; [done|]].
    + apply (entry_ok_later _ t3) in Hok as [Htok Hlast Hs]; [|lia].
      split; [intros b; specialize (Htok b); by destruct b| |cbn; lia].
      pose proof (ok_last _ _ (Hm _ _ He0)) as Hl. intros b. specialize (Hl b). destruct b; cbn in *; lia.
    + intros b. rewrite (level_ext b _ e0) by (by destruct b).
      apply level_later. lia.
  - case_match; [|done]. intros [= <-]. split; [|split; [done|]].
    + split; [by intros []|intros []; cbn; lia|cbn; lia].
    + intros b. assert (0 <= rate b) by (by destruct b). unfold level. nia.
Qed.

Lemma a_with_check_credit b b0 t t1 t2 t3 cap m ip ip0 :
  map_ok t m -> t <= t1 -> t1 <= t3 -> t3 <= t1 + 60 ->
  let '(res, m') := a_with t1 cap m ip RATE_LIMIT_EXCEEDED (check_entry b t2 t3) in
  map_ok t3 m' /\
  (if decide (b = b0 /\ ip = ip0 /\ res = RATE_LIMIT_OK) then 1 else 0) + credit b0 m' ip0 t3
    <= credit b0 m ip0 t + rate b0 * (t3 - t).
Proof.
  intros Hm H1 H3 H60. unfold a_with. destruct (a_entry t1 cap m ip) as [e|] eqn:He.
  2:{ rewrite decide_False by (intros (_ & _ & [=])). split; [eapply map_ok_later; [|done]; lia|].
      pose proof (credit_later b0 m ip0 t t3). lia. }
  destruct (a_entry_ok t t1 t3 cap m ip e) as (Hok & Hs & Hc); [done..|].
  pose proof (check_entry_level b t2 t3 e Hok ltac:(lia)) as Hce.
  destruct (check_entry b t2 t3 e) as [res e']. destruct Hce as (Hok' & _ & Ho & Hb). split.
  - apply map_Forall_insert_2; [done|]. eapply map_ok_later; [|done]. lia.
  - unfold credit at 1. destruct (decide (ip = ip0)) as [<-|Hne].
    + rewrite lookup_insert_eq. destruct (decide (b = b0)) as [<-|Hbn].
      * specialize (Hc b). repeat case_decide; naive_solver lia.
      * rewrite decide_False by naive_solver. specialize (Hc b0). rewrite Ho by congruence. lia.
    + rewrite lookup_insert_ne by done. rewrite decide_False by naive_solver.
      pose proof (credit_later b0 m ip0 t t3). unfold credit in *. lia.
Qed.

Lemma a_step_credit cap m ev res m' b ip t t' :
  a_step cap m ev res m' -> map_ok t m -> timed t ev t' ->
  map_ok t' m' /\ t <= t' /\ allowed b ip ev res + credit b m' ip t' <= credit b m ip t + rate b * (t' - t).
Proof.
  intros Hst Hm Ht. assert (Hr : 0 <= rate b) by (by destruct b).
  assert (Hcheck : forall b0 ip0 t1 t2 t3, t <= t1 -> t1 <= t3 -> t3 <= t1 + 60 -> t3 = t' ->
    let p := a_with t1 cap m ip0 RATE_LIMIT_EXCEEDED (check_entry b0 t2 t3) in
    map_ok t' p.2 /\ t <= t' /\
    (if decide (b0 = b /\ ip0 = ip /\ p.1 = RATE_LIMIT_OK) then 1 else 0) + credit b p.2 ip t'
      <= credit b m ip t + rate b * (t' - t)).
  { intros b0 ip0 t1 t2 t3 H1 H2 H3 <-.
    pose proof (a_with_check_credit b0 b t t1 t2 t3 cap m ip0 ip Hm H1 H2 H3) as H.
    destruct (a_with _ _ _ _ _ _) as [res' m'']. cbn. destruct H. split; [done|]. split; [lia|done]. }
  destruct Hst as [ip0 t1 t2 t3|ip0 t1 t2 t3|ip0 t0 t1|now|now]; cbn in Ht; destruct_and?; subst.
  - destruct (Hcheck HandshakeBucket ip0 t1 t2 t') as (? & ? & Hc); [lia..|].
    split; [done|]. split; [done|]. etrans; [|exact Hc]. apply Z.add_le_mono_r. clear Hc Hcheck. cbn [check_entry].
    destruct b; cbn [allowed]; [case_bool_decide as Hp|]; case_decide as Hq; try lia.
    destruct Hq. destruct Hp as [-> [= ->]]. done.
  - destruct (Hcheck PacketBucket ip0 t1 t2 t') as (? & ? & Hc); [lia..|].
    split; [done|]. split; [done|]. etrans; [|exact Hc]. apply Z.add_le_mono_r. clear Hc Hcheck. cbn [check_entry].
    destruct b; cbn [allowed]; [|case_bool_decide as Hp]; case_decide as Hq; try lia.
    destruct Hq. destruct Hp as [-> [= ->]]. done.
  - split; [|split; [lia|]]; cbn [allowed].
    + unfold a_with. destruct (a_entry t' cap m ip0) as [e|] eqn:He; cbn.
      * destruct (a_entry_ok t t' t' cap m ip0 e) as ([Htok Hlast Hs] & _ & _); [done|lia..|done|].
        apply map_Forall_insert_2; [|eapply map_ok_later; [|done]; lia].
        split; [intros b'; specialize (Htok b'); by destruct b'
               |intros b'; specialize (Hlast b'); by destruct b'|done].
      * eapply map_ok_later; [|done]. lia.
    + unfold a_with. destruct (a_entry t' cap m ip0) as [e|] eqn:He; cbn;
        [|pose proof (credit_later b m ip t t'); lia].
      destruct (a_entry_ok t t' t' cap m ip0 e) as (_ & _ & Hc); [done|lia..|done|].
      unfold credit at 1. destruct (decide (ip0 = ip)) as [<-|Hne].
      * rewrite lookup_insert_eq. specialize (Hc b). rewrite (level_ext b _ e) by (by destruct b). lia.
      * rewrite lookup_insert_ne by done. pose proof (credit_later b m ip t t'). unfold credit in *. lia.
  - split; [by eapply map_ok_later|]. split; [lia|]. pose proof (credit_later b m ip t t'). cbn [allowed]. lia.
  - split; [|split; [lia|]].
    + intros ip' e He. unfold a_cleanup in He. apply map_lookup_filter_Some in He as [He _].
      eapply entry_ok_later; eauto.
    + cbn [allowed]. destruct (a_cleanup t' m !! ip) as [e|] eqn:He.
      * unfold credit. rewrite He. unfold a_cleanup in He. apply map_lookup_filter_Some in He as [-> _].
        pose proof (level_later b e t t'). lia.
      * unfold credit. rewrite He. destruct (m !! ip) as [e|] eqn:Hme; [|nia].
        unfold a_cleanup in He. apply map_lookup_filter_None in He as [?|He]; [congruence|].
        specialize (He e Hme). cbn in He. unfold keep_entry in He.
        destruct (Z.ltb_spec (t' - last_seen e) 300) as [|Hold]; [done|].
        destruct (Hm _ _ Hme) as [Htok Hlast _]. specialize (Htok b). specialize (Hlast b).
        pose proof (level_later b e t t'). unfold level in *.
        assert (burst b <= rate b * 240) by (by destruct b). nia.
Qed.

Lemma a_run_credit cap m evs rs m' b ip t t' :
  a_run cap m evs rs m' -> map_ok t m -> timed_run t evs t' ->
  map_ok t' m' /\ count_allowed b ip evs rs + credit b m' ip t' <= credit b m ip t + rate b * (t' - t).
Proof.
  intros Hrun. revert t. induction Hrun as [m|m ev res m1 evs rs m2 Hst Hrun IH]; intros t Hm Ht;
    inversion Ht; subst; cbn [count_allowed].
  - split; [done|lia].
  - destruct (a_step_credit cap m ev res m1 b ip t t1) as (Hm1 & _ & Hc); [done..|].
    destruct (IH t1) as (? & ?); [done..|]. split; [done|]. nia.
Qed.

(** C35: however checks, blacklistings and clean-ups interleave, an address is
    allowed at most 10 + 5 T handshakes and 2000 + 1000 T packets in T seconds
    after start-up.  A clean-up that forgets an address gives it nothing: its
    bucket would have been full again. *)
Theorem token_bucket_bound t0 t1 evs rs r' b ip :
  timed_run t0 evs t1 -> rl_run (started t0) evs = Ok (rs, r') ->
  count_allowed b ip evs rs <= burst b + rate b * (t1 - t0).
Proof.
  intros Ht Hrun. destruct (rl_run_refines_from (started t0) ∅ evs (started_rep t0)) as (rs' & r'' & m' & Hr & Ha & _).
  rewrite Hrun in Hr. injection Hr as <- <-.
  destruct (a_run_credit _ _ _ _ _ b ip t0 t1 Ha) as [Hm Hc]; [by intros ? ? ?|done|].
  assert (0 <= credit b m' ip t1).
  { unfold credit. destruct (m' !! ip) as [e|] eqn:He; [|by destruct b]. eapply level_nonneg, Hm, He. }
  change (credit b ∅ ip t0) with (burst b) in Hc. lia.
Qed.

(** ** Blacklisting *)

Definition barred (u ip : Z) (m : ip_map) : Prop := exists e, m !! ip = Some e /\ u <= blacklist_until e.

Lemma check_entry_barred b t2 t3 e u :
  u <= blacklist_until e -> u <= t2 + BLACKLIST_DURATION_SEC -> u <= blacklist_until (check_entry b t2 t3 e).2.
Proof.
  intros. destruct b; cbn; unfold handshake_entry, packet_entry, refill_tokens; repeat case_match; cbn; lia.
Qed.

Lemma a_with_barred {A} u ip now cap m ip0 (full : A) step :
  barred u ip m -> (forall e, u <= blacklist_until e -> u <= blacklist_until (step e).2) ->
  barred u ip (a_with now cap m ip0 full step).2.
Proof.
  intros (e & He & Hu) Hstep. unfold a_with. destruct (decide (ip0 = ip)) as [->|Hne].
  - unfold a_entry. rewrite He. set (e1 := e <| last_seen := now |>). pose proof (Hstep e1 Hu) as Hs. destruct (step e1) as [a e'].
    exists e'. split; [apply lookup_insert_eq|done].
  - destruct (a_entry now cap m ip0) as [e0|].
    + destruct (step e0). exists e. split; [|done]. cbn. by rewrite lookup_insert_ne.
    + by exists e.
Qed.

Lemma a_step_barred cap m ev res m' u ip t t' :
  a_step cap m ev res m' -> timed t ev t' -> u <= t + BLACKLIST_DURATION_SEC -> t' < u ->
  barred u ip m -> barred u ip m'.
Proof.
  intros Hst Ht Hu Hlt Hb.
  destruct Hst as [ip0 t1 t2 t3|ip0 t1 t2 t3|ip0 t0 t1|now|now]; cbn in Ht; destruct_and?; subst; try done.
  - apply a_with_barred; [done|]. intros. apply (check_entry_barred HandshakeBucket); [done|lia].
  - apply a_with_barred; [done|]. intros. apply (check_entry_barred PacketBucket); [done|lia].
  - apply a_with_barred; [done|]. cbn. lia.
  - destruct Hb as (e & He & Hbu). exists e. split; [|done]. apply map_lookup_filter_Some.
    split; [done|]. cbn. unfold keep_entry. destruct (Z.ltb_spec t' (blacklist_until e)); [|lia].
    by rewrite orb_true_r.
Qed.

Lemma timed_le t ev t' : timed t ev t' -> t <= t'.
Proof. destruct ev; cbn; lia. Qed.

Lemma timed_run_le t evs t' : timed_run t evs t' -> t <= t'.
Proof. induction 1 as [|??? evs ? H%timed_le]; lia. Qed.

Lemma a_run_barred cap m evs rs m' u ip t t' :
  a_run cap m evs rs m' -> timed_run t evs t' -> u <= t + BLACKLIST_DURATION_SEC -> t' < u ->
  barred u ip m -> barred u ip m'.
Proof.
  intros Hrun. revert t. induction Hrun as [m|m ev res m1 evs rs m2 Hst Hrun IH]; intros t Ht Hu Hlt Hb;
    inversion Ht as [|? ? t1 ? ? Hev Hevs]; subst; [done|].
  pose proof (timed_le _ _ _ Hev). pose proof (timed_run_le _ _ _ Hevs).
  apply (IH t1); [done|lia|done|]. eapply a_step_barred; [exact Hst|exact Hev|lia|lia|done].
Qed.

Lemma a_with_barred_result b u ip t1 t2 t3 cap m :
  barred u ip m -> t2 < u -> (a_with t1 cap m ip RATE_LIMIT_EXCEEDED (check_entry b t2 t3)).1 = RATE_LIMIT_BLACKLISTED.
Proof.
  intros (e & He & Hu) Ht. unfold a_with, a_entry. rewrite He.
  destruct b; cbn [check_entry]; unfold handshake_entry, packet_entry;
    cbn [set eta_of eta_ip blacklist_until]; destruct (Z.ltb_spec t2 (blacklist_until e)); (done || lia).
Qed.

(** C36: once [blacklist_ip] has recorded an address at [t0], every check of that
    address whose clock is below [t0 + 60] answers BLACKLISTED, whatever checks,
    blacklistings and clean-ups of any address happen in between; the address is
    recorded whenever it is known or the table has room. *)
Theorem blacklist_holds r m ip t0 t1 evs t' rs r1 r2 b s1 s2 s3 :
  table_rep r m -> (is_Some (m !! ip) \/ Z.of_nat (num_entries r) < capacity r) -> t0 <= t1 ->
  blacklist_ip t0 t1 r ip = Ok r1 -> timed_run t1 evs t' -> rl_run r1 evs = Ok (rs, r2) ->
  t' < t0 + BLACKLIST_DURATION_SEC -> s2 < t0 + BLACKLIST_DURATION_SEC ->
  (fst <$> match b with
           | HandshakeBucket => check_handshake_rate_limit s1 s2 s3 r2 ip
           | PacketBucket => check_packet_rate_limit s1 s2 s3 r2 ip
           end) = Ok RATE_LIMIT_BLACKLISTED.
Proof.
  intros Hrep Hroom Ht01 Hbl Ht Hrun Hlt Hs2. unfold blacklist_ip in Hbl.
  destruct (with_entry_refines t1 r m ip tt (fun e => (tt, e <| blacklist_until := t0 + BLACKLIST_DURATION_SEC |>)) Hrep)
    as (es & n & Hw & Hrep1); [done|].
  rewrite Hw in Hbl. injection Hbl as <-.
  assert (Hb : barred (t0 + BLACKLIST_DURATION_SEC) ip
    (a_with t1 (capacity r) m ip tt (fun e => (tt, e <| blacklist_until := t0 + BLACKLIST_DURATION_SEC |>))).2).
  { unfold a_with, a_entry. pose proof Hrep as [[es' Hes] Hn _ Hnd Hm].
    destruct (m !! ip) as [e|] eqn:He.
    - eexists. split; [apply lookup_insert_eq|done].
    - destruct Hroom as [[? ?]|Hroom]; [done|].
      assert (Hsz : base.size m = num_entries r) by (rewrite Hm, index_size by done; by apply length_take_le).
      rewrite Hsz, (proj2 (Z.ltb_lt _ _) Hroom). eexists. split; [apply lookup_insert_eq|done]. }
  destruct (rl_run_refines_from _ _ evs Hrep1) as (rs' & r'' & m2 & Hr & Ha & Hrep2).
  pose proof (eq_trans (eq_sym Hrun) Hr) as [= <- <-].
  apply (a_run_barred _ _ _ _ _ _ ip t1 t' Ha Ht) in Hb; [|lia|done].
  pose proof (a_with_barred_result b _ ip s1 s2 s3 (capacity r2) m2 Hb Hs2) as Hres.
  destruct b; unfold check_handshake_rate_limit, check_packet_rate_limit; cbn [check_entry] in Hres.
  - destruct (with_entry_refines s1 r2 m2 ip RATE_LIMIT_EXCEEDED (handshake_entry s2 s3) Hrep2)
      as (? & ? & -> & _); [apply handshake_entry_ip|]. cbn. by rewrite Hres.
  - destruct (with_entry_refines s1 r2 m2 ip RATE_LIMIT_EXCEEDED (packet_entry s2 s3) Hrep2)
      as (? & ? & -> & _); [apply packet_entry_ip|]. cbn. by rewrite Hres.
Qed.

(** ** Backpressure *)

(** Callers that add only after a successful check. *)
Inductive bp_op := BpAdd (n : Z) | BpRelease (n : Z).

Definition bp_step (q : queue_backpressure_t) (op : bp_op) : outcome queue_backpressure_t :=
  match op with
  | BpAdd n => a ← check_queue_backpressure q n;
               if decide (a = RATE_LIMIT_OK) then update_queue_backpressure q n else Ok q
  | BpRelease n => release_queue_backpressure q n
  end.

Definition bp_ok (q : queue_backpressure_t) : Prop :=
  0 <= current_total_queue_size q <= max_total_queue_size q /\ max_total_queue_size q <= 100000.

Definition bp_args (op : bp_op) : Prop :=
  match op with BpAdd n | BpRelease n => 0 <= n <= 2 ^ 30 end.

(** Guarded additions and releases of up to 2^30 packets never overflow and
    keep the queued total between 0 and its limit. *)
Theorem backpressure_bounded q ops :
  bp_ok q -> Forall bp_args ops ->
  exists q', foldl (fun acc op => q ← acc; bp_step q op) (Ok q) ops = Ok q' /\ bp_ok q'.
Proof.
  intros Hq Hops. revert q Hq. induction Hops as [|op ops Hop _ IH]; intros q Hq; cbn [foldl]; [eauto|].
  assert (Hst : exists q', bp_step q op = Ok q' /\ bp_ok q').
  { destruct Hq as [Hc Hm]. destruct op as [n|n]; cbn in Hop; cbn [bp_step].
    - unfold check_queue_backpressure, update_queue_backpressure.
      rewrite int_of_Ok by (unfold in_int, INT_MIN, INT_MAX; lia). cbn [mbind outcome_bind].
      destruct (Z.ltb_spec (max_total_queue_size q) (current_total_queue_size q + n)).
      + exists q. by rewrite decide_False.
      + rewrite decide_True by done. eexists. split; [done|]. unfold bp_ok. cbn. lia.
    - unfold release_queue_backpressure. rewrite int_of_Ok by (unfold in_int, INT_MIN, INT_MAX; lia).
      cbn [mbind outcome_bind]. eexists. split; [done|]. unfold bp_ok. cbn.
      destruct (Z.ltb_spec (current_total_queue_size q - n) 0); lia. }
  destruct Hst as (q' & Hst & Hq'). cbn [mbind outcome_bind]. rewrite Hst. by apply IH.
Qed.

(** ** Witnesses *)

Ltac solve_timed :=
  repeat (eapply timed_cons; [cbn; repeat split; first [reflexivity|lia]|]); apply timed_nil.

Definition ip_a : Z := 16777343.
Definition ip_b : Z := 33554559.

(** Twelve handshakes of one address in a second, then one a second later. *)
Definition burst_events : list rl_event :=
  replicate 12 (Handshake ip_a 100 100 100) ++ [Packet ip_b 100 100 101; Cleanup 101; Handshake ip_a 101 101 102].
Definition burst_results : list (option rate_result) :=
  replicate 10 (Some RATE_LIMIT_OK) ++ replicate 2 (Some RATE_LIMIT_EXCEEDED) ++
  [Some RATE_LIMIT_OK; None; Some RATE_LIMIT_OK].

Lemma token_bucket_bound_witness :
  count_allowed HandshakeBucket ip_a burst_events burst_results <= 10 + 5 * (102 - 100).
Proof.
  destruct (rl_run (started 100) burst_events) as [[rs r]|] eqn:E; [|vm_compute in E; discriminate].
  assert (rs = burst_results) as <- by (vm_compute in E; injection E as <- _; reflexivity).
  apply (token_bucket_bound 100 102 burst_events rs r HandshakeBucket ip_a); [|exact E].
  unfold burst_events. cbn [replicate app]. solve_timed.
Defined.

Lemma blacklist_holds_witness :
  exists r1 r2, blacklist_ip 100 100 (started 90) ip_a = Ok r1 /\
    rl_run r1 [Handshake ip_b 110 110 110; Cleanup 120] = Ok ([Some RATE_LIMIT_OK; None], r2) /\
    (fst <$> check_packet_rate_limit 150 150 150 r2 ip_a) = Ok RATE_LIMIT_BLACKLISTED.
Proof.
  eexists _, _. split; [reflexivity|]. split; [reflexivity|].
  eapply (blacklist_holds (started 90) ∅ ip_a 100 100 [Handshake ip_b 110 110 110; Cleanup 120] 120 _ _ _ PacketBucket);
    [apply started_rep|right; by vm_compute|lia|reflexivity| |reflexivity|by vm_compute|by vm_compute].
  solve_timed.
Defined.

Lemma backpressure_bounded_witness :
  exists q', foldl (fun acc op => q ← acc; bp_step q op)
    (Ok (g_queue_backpressure (rate_limiter_init true 0 zero_limiter).2))
    [BpAdd 99999; BpAdd 7; BpRelease 1000000] = Ok q' /\ bp_ok q'.
Proof.
  apply (backpressure_bounded _ [BpAdd 99999; BpAdd 7; BpRelease 1000000]).
  - by vm_compute.
  - repeat constructor; by vm_compute.
Defined.
