(* ===== verification/Metrics.v ===== *)
(** Server metrics: the counters and the health status of
    chamlon_server/src/metrics.c.  The mutex that serialises the operations is not
    part of the state; each operation is one critical section. *)

From stdpp Require Import list.
From S2P Require Import Prelude.
Local Open Scope Z_scope.

Record metrics_t := {
  packets_received : Z;
  packets_sent : Z;
  packets_dropped : Z;
  bytes_received : Z;
  bytes_sent : Z;
  handshakes_initiated : Z;
  handshakes_completed : Z;
  handshakes_failed : Z;
  active_connections : Z;
  total_connections : Z;
  total_disconnections : Z;
  max_queue_depth : Z;
  queue_drops : Z;
  backpressure_events : Z;
  total_latency_ms : Z;
  latency_samples : Z;
  max_latency_ms : Z;
  min_latency_ms : Z;
  crypto_errors : Z;
  validation_errors : Z;
  rate_limit_drops : Z;
  black_listed_ips : Z;
  startup_time : Z;
  last_reset : Z;
}.
#[global] Instance eta_metrics : Settable metrics_t := fun m => {|
  packets_received := packets_received m;
  packets_sent := packets_sent m;
  packets_dropped := packets_dropped m;
  bytes_received := bytes_received m;
  bytes_sent := bytes_sent m;
  handshakes_initiated := handshakes_initiated m;
  handshakes_completed := handshakes_completed m;
  handshakes_failed := handshakes_failed m;
  active_connections := active_connections m;
  total_connections := total_connections m;
  total_disconnections := total_disconnections m;
  max_queue_depth := max_queue_depth m;
  queue_drops := queue_drops m;
  backpressure_events := backpressure_events m;
  total_latency_ms := total_latency_ms m;
  latency_samples := latency_samples m;
  max_latency_ms := max_latency_ms m;
  min_latency_ms := min_latency_ms m;
  crypto_errors := crypto_errors m;
  validation_errors := validation_errors m;
  rate_limit_drops := rate_limit_drops m;
  black_listed_ips := black_listed_ips m;
  startup_time := startup_time m;
  last_reset := last_reset m |}.

Definition UINT64_MAX : Z := 2 ^ 64 - 1.

(** All-zero memory. *)
Definition metrics_zero : metrics_t := {|
  packets_received := 0;
  packets_sent := 0;
  packets_dropped := 0;
  bytes_received := 0;
  bytes_sent := 0;
  handshakes_initiated := 0;
  handshakes_completed := 0;
  handshakes_failed := 0;
  active_connections := 0;
  total_connections := 0;
  total_disconnections := 0;
  max_queue_depth := 0;
  queue_drops := 0;
  backpressure_events := 0;
  total_latency_ms := 0;
  latency_samples := 0;
  max_latency_ms := 0;
  min_latency_ms := 0;
  crypto_errors := 0;
  validation_errors := 0;
  rate_limit_drops := 0;
  black_listed_ips := 0;
  startup_time := 0;
  last_reset := 0 |}.

Definition metrics_init (now : Z) : metrics_t :=
  metrics_zero <| startup_time := now |> <| last_reset := now |> <| min_latency_ms := UINT64_MAX |>.

Definition inc64 (z : Z) : Z := u64 (z + 1).

Definition metrics_record_packet_received (size : Z) (m : metrics_t) : metrics_t :=
  m <| packets_received ::= inc64 |> <| bytes_received := u64 (bytes_received m + size) |>.
Definition metrics_record_packet_sent (size : Z) (m : metrics_t) : metrics_t :=
  m <| packets_sent ::= inc64 |> <| bytes_sent := u64 (bytes_sent m + size) |>.
Definition metrics_record_packet_dropped (m : metrics_t) : metrics_t := m <| packets_dropped ::= inc64 |>.
Definition metrics_record_handshake_initiated (m : metrics_t) : metrics_t := m <| handshakes_initiated ::= inc64 |>.
Definition metrics_record_handshake_completed (m : metrics_t) : metrics_t := m <| handshakes_completed ::= inc64 |>.
Definition metrics_record_handshake_failed (m : metrics_t) : metrics_t := m <| handshakes_failed ::= inc64 |>.

Definition metrics_record_connection_established (m : metrics_t) : outcome metrics_t :=
  a ← int_of (active_connections m + 1);
  Ok (m <| total_connections ::= inc64 |> <| active_connections := a |>).

Definition metrics_record_connection_closed (m : metrics_t) : metrics_t :=
  let m := if 0 <? active_connections m then m <| active_connections := active_connections m - 1 |> else m in
  m <| total_disconnections ::= inc64 |>.

Definition metrics_set_active_connections (count : Z) (m : metrics_t) : metrics_t :=
  m <| active_connections := count |>.

Definition metrics_record_queue_depth (depth : Z) (m : metrics_t) : metrics_t :=
  if max_queue_depth m <? depth then m <| max_queue_depth := depth |> else m.
Definition metrics_record_queue_drop (m : metrics_t) : metrics_t := m <| queue_drops ::= inc64 |>.
Definition metrics_record_backpressure (m : metrics_t) : metrics_t := m <| backpressure_events ::= inc64 |>.

Definition metrics_record_latency_ms (latency_ms : Z) (m : metrics_t) : metrics_t :=
  let m := m <| total_latency_ms := u64 (total_latency_ms m + latency_ms) |> <| latency_samples ::= inc64 |> in
  let m := if max_latency_ms m <? latency_ms then m <| max_latency_ms := latency_ms |> else m in
  if latency_ms <? min_latency_ms m then m <| min_latency_ms := latency_ms |> else m.

Definition metrics_record_crypto_error (m : metrics_t) : metrics_t := m <| crypto_errors ::= inc64 |>.
Definition metrics_record_validation_error (m : metrics_t) : metrics_t := m <| validation_errors ::= inc64 |>.
Definition metrics_record_rate_limit_drop (m : metrics_t) : metrics_t := m <| rate_limit_drops ::= inc64 |>.
Definition metrics_record_blacklist_event (m : metrics_t) : metrics_t := m <| black_listed_ips ::= inc64 |>.

Record health_status_t := {
  is_healthy : bool;
  packet_drop_rate : Z;
  queue_fill_ratio : Z;
  avg_latency_ms : Z;
  active_clients : Z;
  uptime_seconds : Z;
  packets_per_sec : Z;
  bytes_per_sec : Z;
}.

(** [(int) z] of an unsigned 64-bit value. *)
Definition to_int (z : Z) : Z := let w := u32 z in if w <=? INT_MAX then w else w - 2 ^ 32.

Definition drop_rate (m : metrics_t) : Z :=
  let total_packets := u64 (packets_received m + packets_dropped m) in
  if 0 <? total_packets then to_int (u64 (packets_dropped m * 100) / total_packets) else 0.

Definition metrics_get_health_status (now : Z) (m : metrics_t) : health_status_t :=
  let uptime := now - startup_time m in
  {| is_healthy :=
       negb (5 <? drop_rate m) && negb (handshakes_completed m / 2 <? handshakes_failed m) &&
       negb (100 <? black_listed_ips m);
     packet_drop_rate := drop_rate m;
     queue_fill_ratio := 0;
     avg_latency_ms := if 0 <? latency_samples m then to_int (total_latency_ms m / latency_samples m) else 0;
     active_clients := active_connections m;
     uptime_seconds := uptime;
     packets_per_sec := if 0 <? uptime then packets_received m / uptime else 0;
     bytes_per_sec := if 0 <? uptime then bytes_received m / uptime else 0 |}.

(** The health line of [metrics_print_detailed_report], computed there anew. *)
Definition report_is_healthy (m : metrics_t) : bool :=
  let total_packets := u64 (packets_received m + packets_dropped m) in
  let packet_drop_rate :=
    if 0 <? total_packets then to_int (u64 (packets_dropped m * 100) / total_packets) else 0 in
  if 100 <? black_listed_ips m then false
  else if handshakes_completed m / 2 <? handshakes_failed m then false
  else negb (5 <? packet_drop_rate).

Definition metrics_reset (now : Z) (m : metrics_t) : metrics_t :=
  metrics_zero <| startup_time := now |> <| last_reset := now |> <| min_latency_ms := UINT64_MAX |>
    <| total_connections := total_connections m |> <| total_disconnections := total_disconnections m |>
    <| active_connections := active_connections m |>.

(** ** Latency statistics *)

Definition record_latencies (m : metrics_t) (ls : list Z) : metrics_t :=
  foldl (fun m l => metrics_record_latency_ms l m) m ls.

Definition sum_list (ls : list Z) : Z := foldr Z.add 0 ls.

Lemma record_latency_fields l m :
  total_latency_ms (metrics_record_latency_ms l m) = u64 (total_latency_ms m + l) /\
  latency_samples (metrics_record_latency_ms l m) = inc64 (latency_samples m) /\
  max_latency_ms (metrics_record_latency_ms l m) = Z.max (max_latency_ms m) l /\
  min_latency_ms (metrics_record_latency_ms l m) = Z.min (min_latency_ms m) l.
Proof.
  unfold metrics_record_latency_ms. cbn.
  destruct (Z.ltb_spec (max_latency_ms m) l); cbn;
    destruct (Z.ltb_spec l (min_latency_ms m)); cbn; repeat split; lia.
Qed.

Lemma record_latencies_fields ls m :
  in_u64 (total_latency_ms m) -> in_u64 (latency_samples m) ->
  total_latency_ms (record_latencies m ls) = u64 (total_latency_ms m + sum_list ls) /\
  latency_samples (record_latencies m ls) = u64 (latency_samples m + Z.of_nat (length ls)) /\
  max_latency_ms (record_latencies m ls) = foldr Z.max (max_latency_ms m) ls /\
  min_latency_ms (record_latencies m ls) = foldr Z.min (min_latency_ms m) ls.
Proof.
  revert m. induction ls as [|l ls IH]; intros m Ht Hs; cbn [record_latencies foldl sum_list foldr length].
  - rewrite !Z.add_0_r, !u64_small by done. done.
  - destruct (record_latency_fields l m) as (E1 & E2 & E3 & E4).
    destruct (IH (metrics_record_latency_ms l m)) as (H1 & H2 & H3 & H4);
      [rewrite E1; auto with vpn|rewrite E2; apply u64_range|].
    unfold record_latencies in *. rewrite H1, H2, H3, H4, E1, E2, E3, E4. unfold inc64.
    rewrite !u64_add_l. split; [f_equal; unfold sum_list; lia|]. split; [f_equal; lia|].
    assert (Hmax : forall a ls, foldr Z.max (Z.max a l) ls = Z.max l (foldr Z.max a ls)).
    { intros a ls'. induction ls' as [|x ls' IH']; cbn; [lia|]. rewrite IH'. lia. }
    assert (Hmin : forall a ls, foldr Z.min (Z.min a l) ls = Z.min l (foldr Z.min a ls)).
    { intros a ls'. induction ls' as [|x ls' IH']; cbn; [lia|]. rewrite IH'. lia. }
    by rewrite Hmax, Hmin.
Qed.

Lemma foldr_max_spec a ls : a <= foldr Z.max a ls /\ Forall (fun l => l <= foldr Z.max a ls) ls /\
  (foldr Z.max a ls = a \/ foldr Z.max a ls ∈ ls).
Proof.
  induction ls as [|x ls (H1 & H2 & H3)]; cbn; [auto with lia|]. split; [lia|]. split.
  - constructor; [lia|]. eapply Forall_impl; [exact H2|]. cbn. lia.
  - destruct (Z.max_spec x (foldr Z.max a ls)) as [[_ ->]|[_ ->]]; rewrite elem_of_cons; tauto.
Qed.

Lemma foldr_min_spec a ls : foldr Z.min a ls <= a /\ Forall (fun l => foldr Z.min a ls <= l) ls /\
  (foldr Z.min a ls = a \/ foldr Z.min a ls ∈ ls).
Proof.
  induction ls as [|x ls (H1 & H2 & H3)]; cbn; [auto with lia|]. split; [lia|]. split.
  - constructor; [lia|]. eapply Forall_impl; [exact H2|]. cbn. lia.
  - destruct (Z.min_spec x (foldr Z.min a ls)) as [[_ ->]|[_ ->]]; rewrite elem_of_cons; tauto.
Qed.

(** After recording any non-empty sequence of 64-bit latencies whose sum
    fits an [int], the maximum, minimum and reported average are those of the
    sequence. *)
Theorem latency_statistics t0 now l ls :
  Forall in_u64 (l :: ls) -> sum_list (l :: ls) <= INT_MAX -> in_u64 (Z.of_nat (length (l :: ls))) ->
  let m := record_latencies (metrics_init t0) (l :: ls) in
  (max_latency_ms m ∈ l :: ls /\ Forall (fun x => x <= max_latency_ms m) (l :: ls)) /\
  (min_latency_ms m ∈ l :: ls /\ Forall (fun x => min_latency_ms m <= x) (l :: ls)) /\
  avg_latency_ms (metrics_get_health_status now m) = sum_list (l :: ls) / Z.of_nat (length (l :: ls)).
Proof.
  intros Hr Hsum Hlen. set (L := l :: ls) in *. cbn zeta.
  destruct (record_latencies_fields L (metrics_init t0)) as (E1 & E2 & E3 & E4); [done..|].
  cbn [total_latency_ms latency_samples max_latency_ms min_latency_ms metrics_init metrics_zero set] in E1, E2, E3, E4.
  assert (Hl : in_u64 l) by (by inversion Hr). assert (Hin : l ∈ L) by (by left).
  assert (Hpos : 0 <= sum_list L).
  { clear -Hr. induction Hr as [|x L Hx _ IH]; cbn; [lia|]. unfold in_u64, sum_list in *. lia. }
  destruct (foldr_max_spec 0 L) as (M1 & M2 & M3). destruct (foldr_min_spec UINT64_MAX L) as (N1 & N2 & N3).
  rewrite E3, E4. split; [|split].
  - split; [|done]. destruct M3 as [M3|M3]; [|done]. rewrite Forall_forall in M2. specialize (M2 l Hin).
    unfold in_u64 in Hl. by replace (foldr Z.max 0 L) with l by lia.
  - split; [|done]. destruct N3 as [N3|N3]; [|done]. rewrite Forall_forall in N2. specialize (N2 l Hin).
    unfold in_u64, UINT64_MAX in *. by replace (foldr Z.min (2 ^ 64 - 1) L) with l by lia.
  - unfold metrics_get_health_status. cbn [avg_latency_ms]. rewrite E1, E2, !Z.add_0_l.
    rewrite (u64_small (sum_list L)) by (unfold in_u64, INT_MAX in *; lia).
    rewrite (u64_small (Z.of_nat _)) by done.
    destruct (Z.ltb_spec 0 (Z.of_nat (length L))) as [H0|H0]; [|subst L; cbn in H0; lia].
    unfold to_int, u32. pose proof (Z.div_le_upper_bound (sum_list L) (Z.of_nat (length L)) (sum_list L) H0).
    pose proof (Z.div_pos (sum_list L) (Z.of_nat (length L)) Hpos H0).
    rewrite Z.mod_small by (unfold INT_MAX in *; nia).
    destruct (Z.leb_spec (sum_list L / Z.of_nat (length L)) INT_MAX); [done|nia].
Qed.

(** ** Health *)

(** While the packet counters stay below 2^57, the reported drop rate is a
    percentage, and the status is healthy exactly when at most 5 percent of the
    packets were dropped, the failed handshakes are at most half the completed
    ones and at most 100 addresses were blacklisted; the detailed report agrees. *)
Theorem health_status_correct now m :
  0 <= packets_received m < 2 ^ 57 -> 0 <= packets_dropped m < 2 ^ 57 ->
  let total := packets_received m + packets_dropped m in
  0 <= packet_drop_rate (metrics_get_health_status now m) <= 100 /\
  (is_healthy (metrics_get_health_status now m) = true <->
    packets_dropped m * 100 < 6 * Z.max 1 total /\ handshakes_failed m <= handshakes_completed m / 2 /\
    black_listed_ips m <= 100) /\
  report_is_healthy m = is_healthy (metrics_get_health_status now m).
Proof.
  intros Hr Hd total.
  assert (Hrate : drop_rate m = if 0 <? total then packets_dropped m * 100 / total else 0).
  { unfold drop_rate, u64. fold total. rewrite !Z.mod_small by lia.
    destruct (Z.ltb_spec 0 total); [|done]. unfold to_int, u32.
    assert (0 <= packets_dropped m * 100 / total <= 100).
    { split; [apply Z.div_pos; lia|]. apply Z.div_le_upper_bound; lia. }
    rewrite Z.mod_small by lia. destruct (Z.leb_spec (packets_dropped m * 100 / total) INT_MAX); [done|].
    unfold INT_MAX in *. lia. }
  assert (Hrange : 0 <= drop_rate m <= 100 /\ (drop_rate m <= 5 <-> packets_dropped m * 100 < 6 * Z.max 1 total)).
  { rewrite Hrate. destruct (Z.ltb_spec 0 total).
    - pose proof (Z.div_mod (packets_dropped m * 100) total). pose proof (Z.mod_pos_bound (packets_dropped m * 100) total).
      split; [split; [apply Z.div_pos; lia|apply Z.div_le_upper_bound; lia]|]. nia.
    - assert (packets_dropped m = 0) by lia. lia. }
  destruct Hrange as [Hrange Hfive]. unfold metrics_get_health_status. cbn [packet_drop_rate is_healthy].
  split; [done|]. split.
  - rewrite !andb_true_iff, !negb_true_iff, !Z.ltb_ge, Hfive. tauto.
  - unfold report_is_healthy. fold (drop_rate m).
    destruct (100 <? black_listed_ips m), (handshakes_completed m / 2 <? handshakes_failed m), (5 <? drop_rate m); done.
Qed.

(** Two failures against three successes, a 40 percent failure rate, are already
    reported unhealthy although the comment on the test says more than half. *)
Lemma unhealthy_below_half :
  let m := metrics_init 0 <| handshakes_completed := 3 |> <| handshakes_failed := 2 |> in
  is_healthy (metrics_get_health_status 10 m) = false /\
  2 * handshakes_failed m < handshakes_completed m + handshakes_failed m.
Proof. done. Qed.

Lemma latency_statistics_witness :
  let m := record_latencies (metrics_init 5) [12; 3; 30] in
  (max_latency_ms m ∈ [12; 3; 30] /\ Forall (fun x => x <= max_latency_ms m) [12; 3; 30]) /\
  (min_latency_ms m ∈ [12; 3; 30] /\ Forall (fun x => min_latency_ms m <= x) [12; 3; 30]) /\
  avg_latency_ms (metrics_get_health_status 9 m) = 15.
Proof.
  apply (latency_statistics 5 9 12 [3; 30]); [repeat constructor; by vm_compute|by vm_compute|by vm_compute].
Defined.

Lemma health_status_correct_witness :
  let m := metrics_init 0 <| packets_received := 95 |> <| packets_dropped := 5 |> in
  is_healthy (metrics_get_health_status 10 m) = true /\
  report_is_healthy m = is_healthy (metrics_get_health_status 10 m).
Proof.
  intros m. destruct (health_status_correct 10 m) as (_ & H & R); [by vm_compute..|].
  split; [apply H; by vm_compute|exact R].
Defined.
