(* ===== verification/Crypto.v ===== *)
(** Session cryptography: chamlon_server/src/vpn_crypto.c over libsodium.

    libsodium is not part of the repository: its functions are the operations of
    the class [Sodium] and the documented behaviour the program relies on is the
    class [SodiumLaws].  [toy_sodium] instantiates both, for the witnesses. *)

From stdpp Require Import list.
From S2P Require Import Prelude.
Local Open Scope Z_scope.

Definition SESSION_ID_LEN : nat := 16.
Definition AEAD_KEY_LEN : nat := 32.
Definition AEAD_NONCE_LEN : nat := 12.
Definition MAC_LEN : nat := 16.
Definition PUBKEY_LEN : nat := 32.
Definition PRIVKEY_LEN : nat := 32.
Definition DH_LEN : nat := 32.
Definition SIG_LEN : nat := 64.

(** ** libsodium

    A function that returns non-zero on failure yields [None]. *)
Class Sodium := {
  (** crypto_aead_chacha20poly1305_ietf_encrypt / _decrypt: key, nonce, ad, text *)
  aead_seal : list byte -> list byte -> list byte -> list byte -> option (list byte);
  aead_open : list byte -> list byte -> list byte -> list byte -> option (list byte);
  (** crypto_generichash with the output length, no key *)
  generichash : nat -> list byte -> list byte;
  (** crypto_scalarmult n p *)
  scalarmult : list byte -> list byte -> option (list byte);
  (** the X25519 public key of a secret key, as crypto_kx_keypair computes it *)
  scalarmult_base : list byte -> list byte;
  (** crypto_sign_detached sk m / crypto_sign_verify_detached sig m pk *)
  sign_detached : list byte -> list byte -> option (list byte);
  sign_verify_detached : list byte -> list byte -> list byte -> bool;
  (** crypto_sign_ed25519_sk_to_curve25519 / _pk_to_curve25519 *)
  sk_to_curve25519 : list byte -> option (list byte);
  pk_to_curve25519 : list byte -> option (list byte);
}.

(** What the documentation of libsodium promises.  [sign_pair sk pk] is the
    relation between the two halves of a signing key pair. *)
Class SodiumLaws (S : Sodium) := {
  sign_pair : list byte -> list byte -> Prop;
  aead_open_seal k n ad pt ct : aead_seal k n ad pt = Some ct -> aead_open k n ad ct = Some pt;
  aead_seal_total k n ad pt :
    length k = AEAD_KEY_LEN -> length n = AEAD_NONCE_LEN -> is_Some (aead_seal k n ad pt);
  aead_seal_length k n ad pt ct : aead_seal k n ad pt = Some ct -> length ct = (length pt + MAC_LEN)%nat;
  aead_open_length k n ad ct pt : aead_open k n ad ct = Some pt -> length ct = (length pt + MAC_LEN)%nat;
  generichash_length n m : (16 <= n <= 64)%nat -> length (generichash n m) = n;
  scalarmult_comm a b : scalarmult a (scalarmult_base b) = scalarmult b (scalarmult_base a);
  scalarmult_length a p q : scalarmult a p = Some q -> length q = DH_LEN;
  scalarmult_base_length a : length (scalarmult_base a) = PUBKEY_LEN;
  sign_total sk m : is_Some (sign_detached sk m);
  sign_length sk m s : sign_detached sk m = Some s -> length s = SIG_LEN;
  sign_verify sk pk m s : sign_pair sk pk -> sign_detached sk m = Some s -> sign_verify_detached s m pk = true;
  curve25519_pair sk pk sk' :
    sign_pair sk pk -> sk_to_curve25519 sk = Some sk' -> pk_to_curve25519 pk = Some (scalarmult_base sk');
}.

(** ** Nonces *)

(** The byte loops [(seq >> (56 - 8*i)) & 0xFF] for [i] from 0 to 7. *)
Definition seq_bytes (seq : Z) : list byte :=
  (fun i => z2b (Z.land (Z.shiftr seq (56 - 8 * Z.of_nat i)) 255)) <$> List.seq 0 8.

Definition build_nonce (key : list byte) (seq : Z) : list byte := take 4 key ++ seq_bytes seq.

(** ** Authenticated encryption *)

Section crypto.
Context `{Sod : Sodium}.

Definition aead_encrypt (key session_id : list byte) (seq : Z) (pt : list byte) : option (list byte) :=
  aead_seal key (build_nonce key seq) (take SESSION_ID_LEN session_id ++ seq_bytes seq) pt.

Definition aead_decrypt (key session_id : list byte) (seq : Z) (ct : list byte) : option (list byte) :=
  aead_open key (build_nonce key seq) (take SESSION_ID_LEN session_id ++ seq_bytes seq) ct.

(** The multi-part hash of several updates is the hash of their concatenation. *)
Definition derive_two_keys (shared context : list byte) : list byte * list byte :=
  let tmp := generichash 64 (shared ++ [z2b 1] ++ context) in
  let out1 := take AEAD_KEY_LEN tmp in
  let tmp := generichash 64 (take AEAD_KEY_LEN tmp ++ [z2b 2] ++ context) in
  let out2 := take AEAD_KEY_LEN tmp in
  (out1, out2).

Context `{!SodiumLaws Sod}.

Lemma length_derive_two_keys shared context :
  length (derive_two_keys shared context).1 = AEAD_KEY_LEN /\
  length (derive_two_keys shared context).2 = AEAD_KEY_LEN.
Proof.
  cbn [derive_two_keys fst snd]. rewrite !length_take, !generichash_length by (unfold AEAD_KEY_LEN; lia).
  done.
Qed.

Lemma length_seq_bytes seq : length (seq_bytes seq) = 8%nat.
Proof. done. Qed.

Lemma length_build_nonce key seq : length key = AEAD_KEY_LEN -> length (build_nonce key seq) = AEAD_NONCE_LEN.
Proof. intros Hk. unfold build_nonce. by rewrite length_app, length_take, Hk. Qed.

(** The packet a session seals is opened by the peer that shares key, session
    id and sequence number, and only 16 bytes are added. *)
Lemma aead_roundtrip key sid seq pt :
  length key = AEAD_KEY_LEN ->
  exists ct, aead_encrypt key sid seq pt = Some ct /\ aead_decrypt key sid seq ct = Some pt /\
    length ct = (length pt + MAC_LEN)%nat.
Proof.
  intros Hk. unfold aead_encrypt, aead_decrypt.
  destruct (aead_seal_total key (build_nonce key seq) (take SESSION_ID_LEN sid ++ seq_bytes seq) pt) as [ct Hct];
    [done|by apply length_build_nonce|].
  exists ct. split; [done|]. split; [by apply aead_open_seal|by eapply aead_seal_length].
Qed.

End crypto.

(** ** The byte loop is the big-endian encoding *)

Lemma seq_bytes_be seq : in_u64 seq -> seq_bytes seq = be_bytes 8 seq.
Proof.
  intros Hs. unfold seq_bytes, be_bytes. cbn [List.seq fmap list_fmap le_bytes reverse].
  assert (Hb : forall k, 0 <= k -> z2b (Z.land (Z.shiftr seq k) 255) = z2b (seq / 2 ^ k)).
  { intros k Hk. apply b2z_inj. rewrite !b2z_z2b. unfold u8. change 255 with (Z.ones 8).
    rewrite Z.land_ones, Z.shiftr_div_pow2 by lia. by rewrite Z.mod_mod. }
  rewrite !Hb by lia. rewrite !Z.div_div by lia. cbv -[Z.div z2b]. by rewrite Z.div_1_r.
Qed.

Lemma build_nonce_inj key key' seq seq' :
  length key = length key' -> in_u64 seq -> in_u64 seq' ->
  build_nonce key seq = build_nonce key' seq' -> seq = seq' /\ take 4 key = take 4 key'.
Proof.
  intros Hk Hs Hs' E. unfold build_nonce in E. apply app_inj_1 in E as [E1 E2].
  2:{ by rewrite !length_take, Hk. }
  split; [|done]. rewrite !seq_bytes_be in E2 by done.
  by rewrite <- (be_value_u64 seq), <- (be_value_u64 seq'), E2.
Qed.

(** Two nonces built by [build_nonce] agree only if the sequence numbers
    do: under one key, packets with different sequence numbers never share a
    nonce. *)
Theorem build_nonce_injective key key' seq seq' :
  length key = AEAD_KEY_LEN -> length key' = AEAD_KEY_LEN -> in_u64 seq -> in_u64 seq' ->
  build_nonce key seq = build_nonce key' seq' -> seq = seq' /\ take 4 key = take 4 key'.
Proof. intros Hk Hk'. apply build_nonce_inj. congruence. Qed.

Lemma build_nonce_injective_witness :
  build_nonce (replicate 32 Byte.x07) 258 = build_nonce (replicate 32 Byte.x07) 258 /\ 258 = 258.
Proof.
  split; [reflexivity|].
  apply (build_nonce_injective (replicate 32 Byte.x07) (replicate 32 Byte.x07)); by vm_compute.
Defined.

(** ** A model of the laws

    Encryption appends a tag made of the key; Diffie-Hellman is bytewise
    addition; a signature repeats the message's first bytes. *)

Definition pad (n : nat) (l : list byte) : list byte := take n l ++ replicate (n - length l) Byte.x00.

Lemma length_pad n l : length (pad n l) = n.
Proof. unfold pad. rewrite length_app, length_take, length_replicate. lia. Qed.

Definition toy_tag (k n ad pt : list byte) : list byte := pad MAC_LEN (reverse n ++ k).

#[local] Arguments toy_tag : simpl never.
#[local] Arguments pad : simpl never.

#[local] Instance toy_sodium : Sodium := {|
  aead_seal k n ad pt := Some (pt ++ toy_tag k n ad pt);
  aead_open k n ad ct :=
    let pt := take (length ct - MAC_LEN) ct in
    if decide (ct = pt ++ toy_tag k n ad pt) then Some pt else None;
  generichash n m := pad n (reverse m);
  scalarmult a p := Some (zip_with (fun x y => z2b (b2z x + b2z y)) (pad DH_LEN a) (pad DH_LEN p));
  scalarmult_base a := pad PUBKEY_LEN a;
  sign_detached sk m := Some (pad SIG_LEN (take 32 (pad 32 sk) ++ m));
  sign_verify_detached s m pk := bool_decide (s = pad SIG_LEN (pad 32 pk ++ m));
  sk_to_curve25519 sk := Some (reverse (pad PRIVKEY_LEN sk));
  pk_to_curve25519 pk := Some (pad PUBKEY_LEN (reverse (pad PUBKEY_LEN pk)));
|}.

Lemma pad_id n l : length l = n -> pad n l = l.
Proof. intros H. unfold pad. rewrite H, Nat.sub_diag, take_ge by lia. apply app_nil_r. Qed.

#[local] Program Instance toy_laws : SodiumLaws toy_sodium := {|
  sign_pair sk pk := pad 32 sk = pad 32 pk;
|}.
Next Obligation.
  intros k n ad pt ct [= <-]. cbn. rewrite length_app. unfold toy_tag. rewrite length_pad.
  replace (length pt + MAC_LEN - MAC_LEN)%nat with (length pt) by lia.
  rewrite take_app_length, decide_True by done. done.
Qed.
Next Obligation. done. Qed.
Next Obligation. intros k n ad pt ct [= <-]. rewrite length_app. unfold toy_tag. by rewrite length_pad. Qed.
Next Obligation.
  intros k n ad ct pt. cbn. case_decide as H; [|done]. intros [= <-].
  rewrite H at 1. unfold toy_tag. by rewrite length_app, length_pad.
Qed.
Next Obligation. intros. cbn. by rewrite length_pad. Qed.
Next Obligation.
  intros a b. cbn. rewrite !(pad_id DH_LEN (pad PUBKEY_LEN _)) by apply length_pad.
  change PUBKEY_LEN with DH_LEN. f_equal. generalize (pad DH_LEN a), (pad DH_LEN b). intros x. induction x as [|c x IH]; intros [|d y]; [done..|].
  cbn. by rewrite IH, Z.add_comm.
Qed.
Next Obligation. intros a p q [= <-]. rewrite length_zip_with, !length_pad. done. Qed.
Next Obligation. intros a. apply length_pad. Qed.
Next Obligation. done. Qed.
Next Obligation. intros sk m s [= <-]. apply length_pad. Qed.
Next Obligation.
  intros sk pk m s Hp [= <-]. cbn. apply bool_decide_eq_true. rewrite Hp.
  by rewrite take_ge by (rewrite length_pad; lia).
Qed.
Next Obligation. intros sk pk sk' Hp [= <-]. cbn. change PRIVKEY_LEN with 32%nat. change PUBKEY_LEN with 32%nat. by rewrite Hp. Qed.
