(* ===== verification/ServerKey.v ===== *)
(** The server's long-term key: load_or_create_server_key of
    chamlon_server/src/handshake.c, on a model of the key file.

    The file is its contents; what the calls on it do is part of the state: whether
    it can be opened for writing, how many bytes each [fwrite] accepts, and how many of
    those are in the file once the stream is closed.  Output is buffered: what [fwrite]
    accepts reaches the file at [fclose] at the latest, if at all. *)

From stdpp Require Import list.
From S2P Require Import Prelude State Crypto.
Local Open Scope Z_scope.

Definition ED25519_SK_LEN : nat := 64.
Definition ED25519_PK_LEN : nat := 32.
Definition KEY_FILE_LEN : nat := ED25519_SK_LEN + ED25519_PK_LEN + PUBKEY_LEN.

(** [S_IRUSR | S_IWUSR] *)
Definition mode_600 : Z := Z.lor 256 128.

(** [key_file] is [None] when there is no file; [writable] says whether it can be
    opened for writing, [accepts] how many bytes the calls of [fwrite] to come will
    accept, all of them once it is used up, [saves] how many of the accepted bytes the
    file can take, [None] when it takes all, and [chmods] whether its mode can be
    changed.  [stream] holds what the open stream has accepted. *)
Record key_world := {
  key_file : option (list byte);
  key_mode : Z;
  g_sign_sk : option (list byte);
  writable : bool;
  accepts : list nat;
  saves : option nat;
  stream : list byte;
  chmods : bool;
}.
#[global] Instance eta_key_world : Settable key_world := fun w =>
  {| key_file := key_file w; key_mode := key_mode w; g_sign_sk := g_sign_sk w; writable := writable w;
     accepts := accepts w; saves := saves w; stream := stream w; chmods := chmods w |}.

Abbreviation M := (ST key_world).

(** What the function stores through its pointers when it returns 0. *)
Record server_keys := { sk : list byte; pk : list byte; sign_pk : list byte }.

(** [fopen(path, "wb")] when it succeeds: the file is empty. *)
Definition fopen_wb : M unit := modify (fun w => w <| key_file := Some [] |> <| stream := [] |>).

(** [fwrite] of [data]: the number of bytes the stream accepts. *)
Definition fwrite (data : list byte) : M nat := fun w =>
  let n := match accepts w with [] => length data | k :: _ => Nat.min k (length data) end in
  Ok (n, w <| stream ::= (fun b => b ++ take n data) |> <| accepts ::= (fun l => List.tl l) |>).

(** [fclose]: the file is left with what it could take of the stream's bytes.  The
    result says whether it took all of them. *)
Definition fclose : M bool := fun w =>
  let data := match saves w with None => stream w | Some n => take n (stream w) end in
  Ok (bool_decide (data = stream w), w <| key_file := Some data |> <| stream := [] |>).

(** The chain of writes joined by [&&]. *)
Fixpoint write_all (parts : list (list byte)) : M bool :=
  match parts with
  | [] => mret true
  | p :: parts => n ← fwrite p; if decide (n = length p) then write_all parts else mret false
  end.

Section keys.
Context `{Sod : Sodium}.

(** The second half of the function, on the key pair [crypto_sign_keypair] draws, if
    it succeeds: secret key, public key. *)
Definition create_key (drawn : option (list byte * list byte)) : M (option server_keys) :=
  match drawn with
  | None => mret None
  | Some (ed_sk, ed_pk) =>
      match sk_to_curve25519 ed_sk, pk_to_curve25519 ed_pk with
      | Some kx_sk, Some kx_pk =>
          if bool_decide (kx_pk = ed_pk) then mret None
          else
            can ← get writable;
            if negb can then mret None
            else
              _ ← fopen_wb;
              ok ← write_all [ed_sk; ed_pk; kx_pk];
              _ ← fclose;
              if negb (ok : bool) then mret None
              else
                _ ← modify (fun w => w <| key_mode ::= (fun m => if chmods w then mode_600 else m) |> <| g_sign_sk := Some ed_sk |>);
                mret (Some {| sk := kx_sk; pk := kx_pk; sign_pk := ed_pk |})
      | _, _ => mret None
      end
  end.

(** The result is [None] when the function returns -1. *)
Definition load_or_create_server_key (drawn : option (list byte * list byte)) : M (option server_keys) :=
  f ← get key_file;
  match f with
  | Some contents =>
      if decide (KEY_FILE_LEN <= length contents)%nat then
        let ed_sk := take ED25519_SK_LEN contents in
        match sk_to_curve25519 ed_sk with
        | None => mret None
        | Some kx_sk =>
            _ ← modify (fun w => w <| g_sign_sk := Some ed_sk |>);
            mret (Some {| sk := kx_sk;
                          pk := take PUBKEY_LEN (drop (ED25519_SK_LEN + ED25519_PK_LEN) contents);
                          sign_pk := take ED25519_PK_LEN (drop ED25519_SK_LEN contents) |})
        end
      else create_key drawn
  | None => create_key drawn
  end.

Context `{!SodiumLaws Sod}.

(** What crypto_sign_keypair promises. *)
Definition drawn_ok (drawn : option (list byte * list byte)) : Prop :=
  forall s p, drawn = Some (s, p) -> length s = ED25519_SK_LEN /\ length p = ED25519_PK_LEN /\ sign_pair s p.

(** A file in which [k] is found. *)
Definition holds (contents : list byte) (k : server_keys) : Prop :=
  (KEY_FILE_LEN <= length contents)%nat /\ sk_to_curve25519 (take ED25519_SK_LEN contents) = Some (sk k) /\
  take PUBKEY_LEN (drop (ED25519_SK_LEN + ED25519_PK_LEN) contents) = pk k /\
  take ED25519_PK_LEN (drop ED25519_SK_LEN contents) = sign_pk k.

Lemma load_held drawn contents k w :
  key_file w = Some contents -> holds contents k ->
  load_or_create_server_key drawn w = Ok (Some k, w <| g_sign_sk := Some (take ED25519_SK_LEN contents) |>).
Proof.
  intros Hf (Hl & Hsk & Hpk & Hsp). unfold load_or_create_server_key, mbind, ST_bind, get. rewrite Hf.
  rewrite decide_True by done. rewrite Hsk. cbn. destruct k; cbn in *; by subst.
Qed.

(** The writes leave a prefix of the file they were meant to make, all of it when
    they succeed. *)
Lemma write_all_ok parts : forall w,
  runs (write_all parts) w (fun ok w' => exists n, (n <= length (concat parts))%nat /\
    stream w' = stream w ++ take n (concat parts) /\ saves w' = saves w /\ g_sign_sk w' = g_sign_sk w /\
    (ok = true -> n = length (concat parts)) /\ (ok = false -> n < length (concat parts))%nat).
Proof.
  induction parts as [|p parts IH]; intros w; cbn [write_all concat].
  { apply runs_ret. exists 0%nat. by rewrite app_nil_r. }
  apply runs_bind. set (n := match accepts w with [] => length p | k :: _ => Nat.min k (length p) end).
  assert (Hn : (n <= length p)%nat) by (subst n; destruct (accepts w); lia).
  unfold runs at 1. unfold fwrite. fold n. do 2 eexists. split; [reflexivity|]. cbv beta.
  set (w1 := w <| stream ::= _ |> <| accepts ::= _ |>). assert (Hw1 : stream w1 = stream w ++ take n p /\ saves w1 = saves w /\ g_sign_sk w1 = g_sign_sk w) by done.
  destruct Hw1 as (Hs1 & Hv1 & Hg1). clearbody w1. rewrite length_app. case_decide as Hall.
  - eapply runs_conseq; [apply (IH w1)|]. cbv beta. intros ok w' (m & Hm & Hs & Hv & Hg & Ht & Hfl). exists (length p + m)%nat.
    split; [lia|]. rewrite take_app_add, Hs, Hs1, Hall, (take_ge p), <- app_assoc by lia. split; [done|]. split; [congruence|].
    split; [congruence|]. split; intros H; [specialize (Ht H)|specialize (Hfl H)]; lia.
  - apply runs_ret. exists n. split; [lia|]. rewrite take_app_le by done. split; [done|]. split; [done|]. split; [done|]. split; [done|lia].
Qed.

(** A file too short for the key is replaced. *)
Definition no_key (f : option (list byte)) : Prop :=
  match f with Some contents => (length contents < KEY_FILE_LEN)%nat | None => True end.

(** What a created key is: both halves belong together, and the file holds them. *)
Record created (k : server_keys) (w : key_world) : Prop := {
  cr_sign : exists ssk, g_sign_sk w = Some ssk /\ sign_pair ssk (sign_pk k) /\ sk_to_curve25519 ssk = Some (sk k);
  cr_pair : pk k = scalarmult_base (sk k);
  cr_mode : chmods w = true -> key_mode w = mode_600;
}.

(** The file can take the whole key. *)
Definition takes_key (w : key_world) : Prop := match saves w with None => True | Some n => (KEY_FILE_LEN <= n)%nat end.

Lemma create_key_ok drawn w :
  drawn_ok drawn ->
  runs (create_key drawn) w (fun r w' =>
    match r with
    | Some k => created k w' /\ exists contents, holds contents k /\ length contents = KEY_FILE_LEN /\
        g_sign_sk w' = Some (take ED25519_SK_LEN contents) /\
        key_file w' = Some (match saves w with None => contents | Some n => take n contents end)
    | None => g_sign_sk w' = g_sign_sk w /\ (key_file w' = key_file w \/ no_key (key_file w'))
    end).
Proof.
  intros Hd. unfold create_key. assert (Hfail : runs (mret (M := M) (@None server_keys)) w (fun r w' =>
    r = None /\ g_sign_sk w' = g_sign_sk w /\ (key_file w' = key_file w \/ no_key (key_file w')))).
  { apply runs_ret. auto. }
  assert (Hno : forall Q : option server_keys -> key_world -> Prop, Q None w -> runs (mret (M := M) None) w Q) by (intros; by apply runs_ret).
  destruct drawn as [[s p]|]; [|apply Hno; auto]. destruct (Hd s p eq_refl) as (Hs & Hp & Hpair).
  destruct (sk_to_curve25519 s) as [kx|] eqn:Hkx; [|apply Hno; auto]. rewrite (curve25519_pair _ _ _ Hpair Hkx).
  case_bool_decide; [apply Hno; auto|]. apply runs_bind, runs_get. destruct (writable w); cbn [negb]; [|apply Hno; auto].
  apply runs_bind. unfold fopen_wb. apply runs_modify, runs_bind. set (data := concat [s; p; scalarmult_base kx]).
  assert (Hdl : length data = KEY_FILE_LEN).
  { subst data. cbn [concat]. rewrite app_nil_r, !length_app, Hs, Hp, scalarmult_base_length. done. }
  eapply runs_conseq; [apply write_all_ok|]. cbv beta. fold data. intros ok w2 (n & Hn & Hst & Hsv & Hg & Ht & Hf).
  change (stream w2 = take n data) in Hst. change (saves w2 = saves w) in Hsv. change (g_sign_sk w2 = g_sign_sk w) in Hg.
  apply runs_bind. unfold runs at 1, fclose. do 2 eexists. split; [reflexivity|]. cbv beta.
  set (w3 := w2 <| key_file := _ |> <| stream := _ |>).
  assert (Hf3 : key_file w3 = Some (match saves w with None => take n data | Some k => take k (take n data) end))
    by (subst w3; cbn; by rewrite Hst, Hsv).
  assert (Hg3 : g_sign_sk w3 = g_sign_sk w) by done. clearbody w3. destruct ok; cbn [negb].
  - apply runs_bind, runs_modify, runs_ret. rewrite (Ht eq_refl), (take_ge data) in Hf3 by lia. split.
    + constructor; cbn; [by exists s|done|by intros ->].
    + exists data. cbn [key_file g_sign_sk set]. subst data. cbn [concat] in *. rewrite app_nil_r in *. split.
      * split; [by rewrite Hdl|]. cbn [sk pk sign_pk].
        rewrite (take_app_length' s) by done. split; [done|]. rewrite app_assoc, (drop_app_length' (s ++ p)) by (by rewrite length_app, Hs, Hp).
        split; [apply take_ge; by rewrite scalarmult_base_length|]. rewrite <- app_assoc, (drop_app_length' s) by done.
        by apply take_app_length'.
      * split; [done|]. split; [by rewrite take_app_length'|done].
  - apply runs_ret. split; [done|]. right. specialize (Hf eq_refl). rewrite Hf3. unfold no_key. rewrite <- Hdl.
    destruct (saves w); rewrite ?length_take; lia.
Qed.

(** The public key a start yields has the length the clients expect. *)
Lemma sign_pk_length drawn w k w' :
  drawn_ok drawn -> load_or_create_server_key drawn w = Ok (Some k, w') -> length (sign_pk k) = ED25519_PK_LEN.
Proof.
  intros Hd. assert (Hh : forall contents k0, holds contents k0 -> length (sign_pk k0) = ED25519_PK_LEN).
  { intros contents k0 (Hl & _ & _ & <-). rewrite length_take, length_drop. unfold KEY_FILE_LEN, ED25519_PK_LEN, ED25519_SK_LEN in *. lia. }
  assert (Hc : create_key drawn w = Ok (Some k, w') -> length (sign_pk k) = ED25519_PK_LEN).
  { intros E. destruct (create_key_ok drawn w Hd) as (r & w1 & E1 & Hr). rewrite E in E1. injection E1 as <- <-.
    destruct Hr as (_ & contents & Hhold & _). by eapply Hh. }
  unfold load_or_create_server_key, mbind, ST_bind, get, modify. destruct (key_file w) as [contents|]; [|exact Hc].
  case_decide as Hl; [|exact Hc]. destruct (sk_to_curve25519 _); [|done]. intros [= <- _]. cbn.
  rewrite length_take, length_drop. unfold KEY_FILE_LEN, ED25519_PK_LEN, ED25519_SK_LEN in *. lia.
Qed.

(** What later starts make of the file that [w1] holds, when the start that left it
    yielded [k]. *)
Definition kept (k : server_keys) (w1 : key_world) : Prop :=
  forall drawn w, key_file w = key_file w1 -> load_or_create_server_key drawn w = Ok (Some k, w <| g_sign_sk := g_sign_sk w1 |>).
Definition forgotten (w1 : key_world) : Prop :=
  forall drawn w, key_file w = key_file w1 -> load_or_create_server_key drawn w = create_key drawn w.

Lemma no_key_forgotten w1 : no_key (key_file w1) -> forgotten w1.
Proof.
  intros Hno drawn w Hf. unfold load_or_create_server_key, mbind, ST_bind, get. rewrite Hf. destruct (key_file w1); [|done].
  unfold no_key in Hno. by rewrite decide_False by lia.
Qed.

(** What is promised of a start from [w] that ends in [w1]. *)
Definition start_outcome (w : key_world) (r : option server_keys) (w1 : key_world) : Prop :=
  match r with
  | Some k =>
      (no_key (key_file w) -> takes_key w -> kept k w1) /\ (no_key (key_file w) -> ~ takes_key w -> forgotten w1) /\
      (~ no_key (key_file w) -> kept k w1 /\ key_file w1 = key_file w) /\ (no_key (key_file w) -> created k w1)
  | None => g_sign_sk w1 = g_sign_sk w /\ (key_file w1 = key_file w \/ no_key (key_file w1))
  end.

Lemma create_outcome drawn w : drawn_ok drawn -> no_key (key_file w) -> runs (create_key drawn) w (start_outcome w).
Proof.
  intros Hd Hno. eapply runs_conseq; [by apply create_key_ok|]. cbv beta. intros [k|] w1; [|done].
  intros (Hc & contents & Hh & Hl & Hg & Hf). split_and!; [| |done|done].
  - intros _ Htake drawn2 w2 Hf2. unfold takes_key in Htake. rewrite Hg. apply load_held; [|done]. rewrite Hf2, Hf. destruct (saves w) as [n|] in Htake |- *; [|done].
    by rewrite take_ge by lia.
  - intros _ Htake. unfold takes_key in Htake. apply no_key_forgotten. rewrite Hf. destruct (saves w) as [n|] in Htake |- *; [|by destruct Htake].
    unfold no_key. rewrite length_take. lia.
Qed.


End keys.

(** ** A run *)

#[local] Existing Instance toy_sodium.
#[local] Existing Instance toy_laws.

Definition first_start : key_world :=
  {| key_file := None; key_mode := 420; g_sign_sk := None; writable := true; accepts := []; saves := None;
     stream := []; chmods := true |}.
Definition drawn_pk : list byte := z2b 1 :: replicate 31 (z2b 2).
Definition draw : option (list byte * list byte) := Some (drawn_pk ++ replicate 32 (z2b 0), drawn_pk).

Lemma draw_ok : drawn_ok draw.
Proof. intros s p [= <- <-]. split; [reflexivity|]. split; [reflexivity|]. by vm_compute. Qed.

