(* ===== verification/Wire.v ===== *)
(** Packet layouts: the packed structs and constants of
    chamlon_server/include/vpn_common.h and include/config.h, and the buffer
    routines of chamlon_server/src/packet.c that do not touch a session. *)

From stdpp Require Import list.
From S2P Require Import Prelude Crypto.
Local Open Scope Z_scope.

Definition BUFFER_SIZE : Z := 1600.
Definition MAX_FRAG : Z := 1600.
Definition MAX_PACKET_SIZE : Z := 2500.
Definition MAX_CLIENTS : nat := 250.
Definition MAX_REASSEMBLY_ENTRIES : nat := 256.
Definition REASSEMBLY_TIMEOUT : Z := 20.
Definition SESSION_TIMEOUT_SEC : Z := 60.
Definition KEEPALIVE_INTERVAL_SEC : Z := 10.

Definition CONFIG_MIN_MBPS : Z := 1.
Definition CONFIG_MAX_MBPS : Z := 15.
Definition CONFIG_DEFAULT_MBPS : Z := 5.
Definition CONFIG_MIN_FRAG_PARAM : Z := 64.
Definition CONFIG_MAX_FRAG_PARAM : Z := 1200.
Definition CONFIG_DEFAULT_FRAG_PARAM : Z := 1024.

Definition PKT_MAGIC : Z := 0x77E1DA.
Definition PKT_VERSION : Z := 1.
Definition PKT_TYPE_HANDSHAKE : Z := 222.
Definition PKT_TYPE_DATA : Z := 111.
Definition PKT_CTRL_KEEPALIVE : Z := 0x02.
Definition PKT_CTRL_DISCONNECT : Z := 0x03.
Definition PKT_DUMMY : Z := 0xFF.

(** Values of the option characters. *)
Definition ch_Y : byte := z2b 89.
Definition ch_N : byte := z2b 78.

(** ** Addresses and output *)

Record sockaddr_in := { sin_family : Z; sin_addr : Z; sin_port : Z }.
#[global] Instance eta_sockaddr : Settable sockaddr_in := fun a =>
  {| sin_family := sin_family a; sin_addr := sin_addr a; sin_port := sin_port a |}.
#[global] Instance sockaddr_eq_dec : EqDecision sockaddr_in.
Proof. solve_decision. Defined.

Definition AF_INET : Z := 2.
Definition EINTR : Z := 4.
Definition htons (v : Z) : Z := let v := u16 v in v mod 256 * 256 + v / 256.

(** What the program does to the outside: datagrams, packets written to the tunnel
    device, shell commands, descriptors closed, and text on standard output. *)
Inductive event :=
  | UdpSend (sock : Z) (dst : sockaddr_in) (data : list byte)
  | TunWrite (data : list byte)
  | System (cmd : list byte)
  | Close (fd : Z)
  | Print (text : list byte).

(** ** proto_header_t *)

Record proto_header_t := { magic : Z; version : Z; type : Z }.

Definition sizeof_proto_header : nat := 6.
Definition proto_bytes (h : proto_header_t) : list byte :=
  le_bytes 4 (magic h) ++ [z2b (version h); z2b (type h)].
Definition read_proto (buf : list byte) : outcome proto_header_t :=
  m ← buf_read buf 0 4;
  v ← byte_at buf 4;
  t ← byte_at buf 5;
  Ok {| magic := le_value m; version := v; type := t |}.

(** ** tunnel_header_t *)

Record tunnel_header_t := {
  packet_id : Z;
  fragment_offset : Z;
  total_ip_len : Z;
  flags : Z;
  th_session_id : list byte;
}.

Definition sizeof_tunnel_header : nat := 24.
Definition tunnel_bytes (h : tunnel_header_t) : list byte :=
  le_bytes 2 (packet_id h) ++ le_bytes 2 (fragment_offset h) ++ le_bytes 2 (total_ip_len h) ++
  le_bytes 2 (flags h) ++ th_session_id h.

(** A [uint16_t] field at byte offset [off] of a buffer whose first bytes [l] are
    initialised and whose size covers the header. *)
Definition u16_at (l : list byte) (off : nat) : outcome Z :=
  if decide (off + 2 <= length l)%nat then Ok (le_value (take 2 (drop off l))) else Err Uninit.

Definition DATA_HEADER_LEN : nat := sizeof_proto_header + SESSION_ID_LEN + 8.

Definition data_header : proto_header_t :=
  {| magic := PKT_MAGIC; version := PKT_VERSION; type := PKT_TYPE_DATA |}.
Definition handshake_header : proto_header_t :=
  {| magic := PKT_MAGIC; version := PKT_VERSION; type := PKT_TYPE_HANDSHAKE |}.

(** The sequence of [memcpy]s that lays out a data packet:
    proto_header | session_id(16) | htobe64(seq) | ciphertext. *)
Definition data_packet (session_id : list byte) (seq : Z) (ct : list byte) : list byte :=
  proto_bytes data_header ++ session_id ++ be_bytes 8 seq ++ ct.

(** [packet_padding], on the initialised part [buf2] of a [MAX_FRAG] array. *)
Definition packet_padding (buf2 : list byte) (len frag : Z) : outcome (list byte) :=
  if (frag <=? 0) || (MAX_FRAG <? frag) then Ok buf2
  else if frag <? len then Ok buf2
  else
    let len_to_fill := frag - len in
    if 0 <? len_to_fill then memcpy buf2 (Z.to_nat len) (replicate (Z.to_nat len_to_fill) (z2b 0))
    else Ok buf2.

(** ** Reading back what was written *)

Lemma length_proto_bytes h : length (proto_bytes h) = sizeof_proto_header.
Proof. unfold proto_bytes. by rewrite length_app, length_le_bytes. Qed.

Lemma length_tunnel_bytes h :
  length (th_session_id h) = SESSION_ID_LEN -> length (tunnel_bytes h) = sizeof_tunnel_header.
Proof. intros H. unfold tunnel_bytes. by rewrite !length_app, !length_le_bytes, H. Qed.

Lemma read_proto_bytes h rest :
  0 <= magic h < 2 ^ 32 -> 0 <= version h < 256 -> 0 <= type h < 256 ->
  read_proto (proto_bytes h ++ rest) = Ok h.
Proof.
  intros Hm Hv Ht. destruct h as [m v t]. cbn [magic version type] in Hm, Hv, Ht. unfold read_proto, proto_bytes. cbn [magic version type].
  unfold buf_read. rewrite decide_True by (rewrite !length_app, length_le_bytes; cbn; lia).
  cbn [mbind outcome_bind]. rewrite drop_0, <- app_assoc, take_app_length' by (by rewrite length_le_bytes).
  rewrite le_value_bytes.
  unfold byte_at. rewrite !lookup_app_r, length_le_bytes by (rewrite length_le_bytes; lia). cbn.
  rewrite !b2z_z2b. unfold u8. rewrite !Z.mod_small by (cbn in *; lia). done.
Qed.

Lemma u16_at_app l1 z l2 off :
  in_u16 z -> length l1 = off -> u16_at (l1 ++ le_bytes 2 z ++ l2) off = Ok z.
Proof.
  intros Hz <-. unfold u16_at. rewrite decide_True by (rewrite !length_app, length_le_bytes; lia).
  rewrite drop_app_length, take_app_length' by (by rewrite length_le_bytes).
  rewrite le_value_bytes. f_equal. apply Z.mod_small. unfold in_u16 in Hz. cbn in *. lia.
Qed.

Lemma u16_at_ok l off : (off + 2 <= length l)%nat -> exists v, u16_at l off = Ok v /\ in_u16 v.
Proof.
  intros H. unfold u16_at. rewrite decide_True by done. eexists. split; [done|].
  pose proof (le_value_range (take 2 (drop off l))) as Hr. rewrite length_take, length_drop in Hr.
  unfold in_u16. replace (Nat.min 2 (length l - off)) with 2%nat in Hr by lia. cbn in Hr. lia.
Qed.

Record tunnel_wf (h : tunnel_header_t) : Prop := {
  wf_packet_id : in_u16 (packet_id h);
  wf_offset : in_u16 (fragment_offset h);
  wf_total : in_u16 (total_ip_len h);
  wf_flags : in_u16 (flags h);
  wf_sid : length (th_session_id h) = SESSION_ID_LEN;
}.

(** Every field of a header survives the wire. *)
Lemma tunnel_fields h rest :
  tunnel_wf h ->
  u16_at (tunnel_bytes h ++ rest) 0 = Ok (packet_id h) /\
  u16_at (tunnel_bytes h ++ rest) 2 = Ok (fragment_offset h) /\
  u16_at (tunnel_bytes h ++ rest) 4 = Ok (total_ip_len h) /\
  u16_at (tunnel_bytes h ++ rest) 6 = Ok (flags h).
Proof.
  intros [Hp Ho Ht Hf _]. unfold tunnel_bytes. rewrite <- !app_assoc. repeat split.
  - by apply (u16_at_app []).
  - by apply u16_at_app; [|rewrite length_le_bytes].
  - rewrite (app_assoc (le_bytes 2 (packet_id h))).
    by apply u16_at_app; [|rewrite length_app, !length_le_bytes].
  - rewrite (app_assoc (le_bytes 2 (packet_id h))), (app_assoc (_ ++ _)).
    by apply u16_at_app; [|rewrite !length_app, !length_le_bytes].
Qed.

Lemma length_data_packet sid seq ct :
  length sid = SESSION_ID_LEN -> length (data_packet sid seq ct) = (DATA_HEADER_LEN + length ct)%nat.
Proof.
  intros H. unfold data_packet. rewrite !length_app, length_proto_bytes, length_be_bytes, H. unfold DATA_HEADER_LEN. lia.
Qed.

Lemma drop_take_app {A} (l1 l2 l3 : list A) n m :
  length l1 = n -> length l2 = m -> take m (drop n (l1 ++ l2 ++ l3)) = l2.
Proof. intros <- <-. by rewrite drop_app_length, take_app_length. Qed.

(** The fields of a data packet, read at the offsets the receiver uses. *)
Lemma data_packet_fields sid seq ct :
  length sid = SESSION_ID_LEN -> in_u64 seq ->
  read_proto (data_packet sid seq ct) = Ok data_header /\
  take SESSION_ID_LEN (drop sizeof_proto_header (data_packet sid seq ct)) = sid /\
  be_value (take 8 (drop (sizeof_proto_header + SESSION_ID_LEN) (data_packet sid seq ct))) = seq /\
  drop DATA_HEADER_LEN (data_packet sid seq ct) = ct.
Proof.
  intros Hsid Hseq. unfold data_packet. split; [by apply read_proto_bytes|]. split; [|split].
  - apply drop_take_app; [apply length_proto_bytes|done].
  - rewrite app_assoc, drop_take_app; [by apply be_value_u64| |apply length_be_bytes].
    rewrite length_app, length_proto_bytes. lia.
  - rewrite !app_assoc. apply drop_app_length'.
    rewrite !length_app, length_proto_bytes, length_be_bytes, Hsid. done.
Qed.

Lemma packet_padding_fill buf2 len frag :
  0 <= len <= frag -> frag <= MAX_FRAG -> Z.of_nat (length buf2) = frag -> 0 < frag ->
  packet_padding buf2 len frag = Ok (take (Z.to_nat len) buf2 ++ replicate (Z.to_nat (frag - len)) (z2b 0)).
Proof.
  intros Hl Hm Hb Hf. unfold packet_padding.
  destruct (Z.leb_spec frag 0); [lia|]. destruct (Z.ltb_spec MAX_FRAG frag); [lia|]. cbn [orb].
  destruct (Z.ltb_spec frag len); [lia|]. destruct (Z.ltb_spec 0 (frag - len)).
  - rewrite memcpy_Ok by (rewrite length_replicate; lia). rewrite length_replicate.
    rewrite (drop_ge buf2) by lia. by rewrite app_nil_r.
  - replace (frag - len) with 0 by lia. rewrite take_ge by lia. cbn. by rewrite app_nil_r.
Qed.

(** ** Encryption *)

(** Encryption into a buffer of [BUFFER_SIZE] bytes. *)
Definition encrypt `{Sod : Sodium} (key sid : list byte) (seq : Z) (pt : list byte) : outcome (option (list byte)) :=
  match aead_encrypt key sid seq pt with
  | None => Ok None
  | Some ct => if Z.of_nat (length ct) <=? BUFFER_SIZE then Ok (Some ct) else Err OutOfBounds
  end.

Lemma encrypt_ok `{Sod : Sodium} `{!SodiumLaws Sod} key sid sq pt :
  length key = AEAD_KEY_LEN -> Z.of_nat (length pt + MAC_LEN) <= BUFFER_SIZE ->
  exists ct, encrypt key sid sq pt = Ok (Some ct) /\ aead_decrypt key sid sq ct = Some pt /\
    length ct = (length pt + MAC_LEN)%nat.
Proof.
  intros Hk Hl. destruct (aead_roundtrip key sid sq pt Hk) as (ct & Hct & Hdec & Hlen).
  exists ct. unfold encrypt. rewrite Hct. destruct (Z.leb_spec (Z.of_nat (length ct)) BUFFER_SIZE); [done|].
  rewrite Hlen in *. lia.
Qed.

(** ** Packets built in place *)

Lemma u16_at_take l n off : (off + 2 <= n)%nat -> (n <= length l)%nat -> u16_at (take n l) off = u16_at l off.
Proof.
  intros H Hl. unfold u16_at. rewrite length_take, !decide_True by lia.
  rewrite skipn_firstn_comm, take_take. do 3 f_equal. lia.
Qed.

(** The static start of a packet buffer: protocol header and session id. *)
Lemma static_header_ok p sid :
  length sid = SESSION_ID_LEN -> (22 <= length p)%nat ->
  exists p1 p2, memcpy p 0 (proto_bytes data_header) = Ok p1 /\ memcpy p1 sizeof_proto_header sid = Ok p2 /\
    length p2 = length p /\ take 22 p2 = proto_bytes data_header ++ sid.
Proof.
  intros Hsid Hp. assert (Hph : length (proto_bytes data_header) = 6%nat) by apply length_proto_bytes.
  unfold SESSION_ID_LEN in Hsid. eexists _, _. split; [apply memcpy_Ok; lia|].
  split; [apply memcpy_Ok; simpl_len; unfold sizeof_proto_header; lia|].
  change sizeof_proto_header with 6%nat. rewrite !take_0. cbn [app]. split; [simpl_len; lia|].
  rewrite (take_app_length' (proto_bytes data_header) _ 6) by done. rewrite app_assoc.
  apply take_app_length'. by rewrite length_app, Hph, Hsid.
Qed.

(** A payload buffer laid out as a header and [n - 24] bytes of filling. *)
Lemma filled_buffer_ok d th n fill :
  tunnel_wf th -> (24 <= n <= length d)%nat ->
  exists d1 d2, memcpy d 0 (tunnel_bytes th) = Ok d1 /\
    memcpy d1 sizeof_tunnel_header (replicate (n - sizeof_tunnel_header) fill) = Ok d2 /\
    length d2 = length d /\ u16_at d2 6 = Ok (flags th).
Proof.
  intros Hwf Hn. assert (Hth : length (tunnel_bytes th) = 24%nat) by apply length_tunnel_bytes, Hwf.
  eexists _, _. split; [apply memcpy_Ok; lia|].
  split; [apply memcpy_Ok; simpl_len; unfold sizeof_tunnel_header; lia|].
  change sizeof_tunnel_header with 24%nat. rewrite !take_0. cbn [app]. split; [simpl_len; lia|].
  rewrite (take_app_length' (tunnel_bytes th) _ 24) by done. by apply (tunnel_fields th).
Qed.

(** Writing the sequence number and the ciphertext behind the static header makes
    the data packet, and keeps the buffer ready for the next one. *)
Lemma packet_in_buffer p sid ct sq :
  take 22 p = proto_bytes data_header ++ sid -> (30 + length ct <= length p)%nat ->
  exists b1 b, memcpy p 22 (be_bytes 8 sq) = Ok b1 /\ memcpy b1 30 ct = Ok b /\
    take (30 + length ct) b = data_packet sid sq ct /\ take 22 b = take 22 p /\ length b = length p.
Proof.
  intros Hr Hct. assert (Hb8 : length (be_bytes 8 sq) = 8%nat) by apply length_be_bytes.
  assert (H22 : length (take 22 p) = 22%nat) by (rewrite length_take; lia).
  set (b1 := take 22 p ++ be_bytes 8 sq ++ drop (22 + length (be_bytes 8 sq)) p).
  assert (Hl1 : length b1 = length p) by (subst b1; simpl_len; lia).
  assert (H30 : take 30 b1 = take 22 p ++ be_bytes 8 sq).
  { subst b1. rewrite app_assoc. apply take_app_length'. rewrite length_app. lia. }
  exists b1. eexists. split; [apply memcpy_Ok; lia|]. split; [apply memcpy_Ok; lia|]. rewrite H30. split; [|split].
  - rewrite app_assoc, take_app_length' by (rewrite !length_app; lia). rewrite Hr. unfold data_packet. by rewrite <- !app_assoc.
  - rewrite <- !app_assoc. by apply take_app_length'.
  - rewrite !length_app, length_drop. lia.
Qed.
