(* ===== verification/Text.v ===== *)
(** Text as both programs handle it: string literals, and the functions of the C
    library that scan and print numbers and strings. *)

From Stdlib Require Import Strings.String.
From stdpp Require Import list.
From S2P Require Import Prelude.
Local Open Scope Z_scope.

(** A string literal as bytes. *)
Definition bytes (s : string) : list byte := list_byte_of_string s.
Arguments bytes s%_string.

Definition ch_newline : byte := z2b 10.
Definition is_empty (l : list byte) : bool := bool_decide (l = []).

(** ** Scanning *)

Definition is_space (b : byte) : bool := let z := b2z b in (z =? 32) || ((9 <=? z) && (z <=? 13)).
Definition is_digit (b : byte) : bool := let z := b2z b in (48 <=? z) && (z <=? 57).

(** The longest prefix of at most [n] bytes that satisfy [p], and the rest. *)
Fixpoint span (n : nat) (p : byte -> bool) (s : list byte) : list byte * list byte :=
  match n, s with
  | S n, b :: s' => if p b then let r := span n p s' in (b :: r.1, r.2) else ([], s)
  | _, _ => ([], s)
  end.

Definition skip_space (s : list byte) : list byte := (span (length s) is_space s).2.

(** An optional sign: whether it is a minus, and the rest. *)
Definition scan_sign (s : list byte) : bool * list byte :=
  match s with
  | b :: s' => if b2z b =? 45 then (true, s') else if b2z b =? 43 then (false, s') else (false, s)
  | [] => (false, [])
  end.

Definition digits_value (ds : list byte) : Z := foldl (fun n d => 10 * n + (b2z d - 48)) 0 ds.

(** [atoi]: undefined when the number is not an [int]. *)
Definition atoi (s : list byte) : outcome Z :=
  let '(neg, s) := scan_sign (skip_space s) in
  let v := digits_value (span (length s) is_digit s).1 in
  int_of (if neg then - v else v).

(** [strtol(s, &end, 10)]: the value, what [end] points to, and whether [errno] is
    set to [ERANGE]. *)
Definition LONG_MAX : Z := 2 ^ 63 - 1.
Definition LONG_MIN : Z := - 2 ^ 63.
Definition strtol (s : list byte) : Z * list byte * bool :=
  let '(neg, t) := scan_sign (skip_space s) in
  let '(ds, rest) := span (length t) is_digit t in
  if is_empty ds then (0, s, false)
  else
    let v := if neg then - digits_value ds else digits_value ds in
    if v <? LONG_MIN then (LONG_MIN, rest, true)
    else if LONG_MAX <? v then (LONG_MAX, rest, true)
    else (v, rest, false).

(** [fgets(buf, n, f)] when what is left to read is [s]; [None] at the end of the
    file. *)
Definition fgets (n : nat) (s : list byte) : option (list byte) :=
  let not_newline b := negb (bool_decide (b = ch_newline)) in
  let '(line, rest) := span (n - 1) not_newline s in
  if is_empty s then None
  else if decide (length line < n - 1)%nat then Some (line ++ take 1 rest) else Some line.

(** [s[strcspn(s, "\n")] = 0] *)
Definition cut_newline (s : list byte) : list byte :=
  (span (length s) (fun b => negb (bool_decide (b = ch_newline))) s).1.

(** The value of a hexadecimal digit. *)
Definition hex_digit (b : byte) : option Z :=
  let z := b2z b in
  if (48 <=? z) && (z <=? 57) then Some (z - 48)
  else if (97 <=? z) && (z <=? 102) then Some (z - 87)
  else if (65 <=? z) && (z <=? 70) then Some (z - 55)
  else None.

(** [sscanf(s, "%2x", &v) == 1], and [v]: at most two characters after the white space;
    "0x" alone is no number. *)
Definition scan_hex2 (s : list byte) : option Z :=
  match skip_space s with
  | a :: t =>
      match hex_digit a with
      | Some x =>
          match t with
          | b :: _ =>
              match hex_digit b with
              | Some y => Some (16 * x + y)
              | None => if (x =? 0) && ((b2z b =? 120) || (b2z b =? 88)) then None else Some x
              end
          | [] => Some x
          end
      | None =>
          if (b2z a =? 43) || (b2z a =? 45) then
            match t with
            | b :: _ => y ← hex_digit b; Some (if b2z a =? 45 then u32 (- y) else y)
            | [] => None
            end
          else None
      end
  | [] => None
  end.

(** ** Printing *)

(** [snprintf] into [n] bytes, the last of which is the terminator. *)
Definition snprintf (n : nat) (s : list byte) : list byte := take (n - 1) s.

(** The decimal digits of a byte, as [%u] and [inet_ntoa] print it. *)
Definition digit (d : Z) : byte := z2b (48 + d).
Definition decimal (n : Z) : list byte :=
  if n <? 10 then [digit n]
  else if n <? 100 then [digit (n / 10); digit (n mod 10)]
  else [digit (n / 100); digit (n / 10 mod 10); digit (n mod 10)].
Definition dotted (ip : list byte) : list byte :=
  match decimal ∘ b2z <$> ip with
  | [] => []
  | d :: ds => d ++ concat ((fun d => bytes "." ++ d) <$> ds)
  end.

(** [%d], [%ld] and [%lu]: the decimal digits of a number, with its sign. *)
Fixpoint print_digits (fuel : nat) (n : Z) : list byte :=
  match fuel with
  | O => []
  | S fuel => if n <? 10 then [digit n] else print_digits fuel (n / 10) ++ [digit (n mod 10)]
  end.
Definition print_int (n : Z) : list byte :=
  let ds := print_digits (S (Z.to_nat (Z.log2 (Z.abs n)))) (Z.abs n) in
  if n <? 0 then z2b 45 :: ds else ds.

(** [%02x] *)
Definition hex_char (d : Z) : byte := if d <? 10 then z2b (48 + d) else z2b (87 + d).
Definition hex2 (b : byte) : list byte := [hex_char (b2z b / 16); hex_char (b2z b mod 16)].

(** ** Lemmas *)

Lemma span_app n p s : (span n p s).1 ++ (span n p s).2 = s.
Proof. revert s. induction n as [|n IH]; intros [|b s]; cbn; try done. destruct (p b); cbn; [by rewrite IH|done]. Qed.

Lemma span_all n p s : Forall (fun b => p b = true) (span n p s).1.
Proof. revert s. induction n as [|n IH]; intros [|b s]; cbn; try done. destruct (p b) eqn:E; cbn; by constructor. Qed.

(** The span is exactly a prefix that satisfies [p] when the next byte does not. *)
Lemma span_prefix p l r n :
  Forall (fun b => p b = true) l -> match r with b :: _ => p b = false | [] => True end -> (length l <= n)%nat ->
  span n p (l ++ r) = (l, r).
Proof.
  intros Hl Hr. revert n. induction Hl as [|b l Hb _ IH]; intros n Hn.
  - destruct n, r; cbn; try done. by rewrite Hr.
  - destruct n; cbn in *; [lia|]. by rewrite Hb, IH by lia.
Qed.

Lemma span_whole p l : Forall (fun b => p b = true) l -> span (length l) p l = (l, []).
Proof. intros H. rewrite <- (app_nil_r l) at 2. by apply span_prefix. Qed.

(** The signs a number may have, and whether they are a minus. *)
Definition signs : list (list byte * bool) := [([], false); ([z2b 43], false); ([z2b 45], true)].

(** [s] is white space, a sign if any, and digits: a number [strtol] reads to the end. *)
Inductive numeral : list byte -> Z -> Prop :=
  | numeral_intro (sp sgn ds : list byte) (neg : bool) :
      Forall (fun b => is_space b = true) sp -> ds <> [] -> Forall (fun b => is_digit b = true) ds ->
      (sgn, neg) ∈ signs ->
      numeral (sp ++ sgn ++ ds) (if neg then - digits_value ds else digits_value ds).

Lemma skip_space_split s : exists sp : list byte, s = sp ++ skip_space s /\ Forall (fun b => is_space b = true) sp.
Proof. exists (span (length s) is_space s).1. split; [symmetry; apply span_app|apply span_all]. Qed.

Lemma scan_sign_split s : exists (sgn : list byte) (neg : bool), scan_sign s = (neg, drop (length sgn) s) /\ s = sgn ++ drop (length sgn) s /\
  (sgn, neg) ∈ signs.
Proof.
  destruct s as [|b s]; [by exists [], false; repeat split; left|]. cbn [scan_sign].
  destruct (Z.eqb_spec (b2z b) 45) as [E|_].
  { exists [z2b 45], true. assert (b = z2b 45) as -> by (apply b2z_inj; by rewrite E). repeat split. by right; right; left. }
  destruct (Z.eqb_spec (b2z b) 43) as [E|_].
  { exists [z2b 43], false. assert (b = z2b 43) as -> by (apply b2z_inj; by rewrite E). repeat split. by right; left. }
  exists [], false. repeat split. by left.
Qed.

Lemma digit_not_space b : is_digit b = true -> is_space b = false.
Proof. unfold is_digit, is_space. destruct (Z.leb_spec 48 (b2z b)), (Z.eqb_spec (b2z b) 32), (Z.leb_spec (b2z b) 13); cbn; try lia; try done; by rewrite andb_false_r. Qed.

Lemma digit_not_sign b : is_digit b = true -> (b2z b =? 45) = false /\ (b2z b =? 43) = false.
Proof. unfold is_digit. destruct (Z.leb_spec 48 (b2z b)); [|done]. intros _. by split; apply Z.eqb_neq; lia. Qed.

(** [strtol] reads exactly the numerals to their end. *)
Lemma strtol_numeral s v : LONG_MIN <= v <= LONG_MAX -> strtol s = (v, [], false) /\ s <> [] <-> numeral s v.
Proof.
  intros Hv. unfold strtol. split.
  - intros [H Hne]. destruct (skip_space_split s) as (sp & Es & Hsp). set (s1 := skip_space s) in *.
    destruct (scan_sign_split s1) as (sgn & neg & Hsg & Es1 & Hin). rewrite Hsg in H. set (t := drop (length sgn) s1) in *.
    pose proof (span_app (length t) is_digit t) as Et. pose proof (span_all (length t) is_digit t) as Hd.
    destruct (span (length t) is_digit t) as [ds rest]. cbn [fst snd] in *. unfold is_empty in H.
    case_bool_decide as Hds; [by destruct s|].
    assert (Hr : rest = [] /\ v = (if neg then - digits_value ds else digits_value ds)).
    { destruct (_ <? LONG_MIN); [by simplify_eq|]. destruct (LONG_MAX <? _); [by simplify_eq|]. injection H. auto. }
    destruct Hr as [-> ->]. rewrite app_nil_r in Et. rewrite Es, Es1, <- Et. by constructor.
  - intros Hn. destruct Hn as [sp sgn ds neg Hsp Hds Hd Hin] in Hv |- *. destruct ds as [|d ds]; [done|]. pose proof Hd as [Hd0 _]%Forall_cons.
    destruct (digit_not_sign d Hd0) as [H45 H43].
    assert (Hfirst : match sgn ++ d :: ds with b :: _ => is_space b = false | [] => True end).
    { repeat (apply elem_of_cons in Hin as [[= -> ->]|Hin]); [by apply digit_not_space|done..|by apply elem_of_nil in Hin]. }
    assert (Hskip : skip_space (sp ++ sgn ++ d :: ds) = sgn ++ d :: ds).
    { unfold skip_space. rewrite (span_prefix is_space sp); [done|done|done|]. rewrite length_app. lia. }
    rewrite Hskip. assert (Hsg : scan_sign (sgn ++ d :: ds) = (neg, d :: ds)).
    { repeat (apply elem_of_cons in Hin as [[= -> ->]|Hin]); [by cbn; rewrite H45, H43|done..|by apply elem_of_nil in Hin]. }
    rewrite Hsg, span_whole by done.
    change (is_empty (d :: ds)) with false. cbv iota.
    destruct (Z.ltb_spec (if neg then - digits_value (d :: ds) else digits_value (d :: ds)) LONG_MIN); [lia|].
    destruct (Z.ltb_spec LONG_MAX (if neg then - digits_value (d :: ds) else digits_value (d :: ds))); [lia|].
    split; [done|]. by destruct sp, sgn.
Qed.

(** [atoi] reads a numeral as [strtol] does. *)
Lemma atoi_numeral s v : numeral s v -> in_int v -> atoi s = Ok v.
Proof.
  intros Hn Hv. assert (Hl : LONG_MIN <= v <= LONG_MAX) by (unfold in_int, INT_MIN, INT_MAX, LONG_MIN, LONG_MAX in *; lia).
  apply strtol_numeral in Hn as [Hs Hne]; [|done]. unfold strtol, atoi in *. destruct (scan_sign (skip_space s)) as [neg u].
  destruct (span (length u) is_digit u) as [ds rest]. cbn [fst]. destruct (is_empty ds); [by injection Hs as _ ->|].
  destruct (_ <? LONG_MIN); [done|]. destruct (LONG_MAX <? _); [done|]. injection Hs as <- _. by apply int_of_Ok.
Qed.

(** Two hexadecimal digits are read back. *)
Lemma hex_char_digit d : 0 <= d < 16 -> hex_digit (hex_char d) = Some d /\ is_space (hex_char d) = false.
Proof.
  intros H. assert (E : d = 0 \/ d = 1 \/ d = 2 \/ d = 3 \/ d = 4 \/ d = 5 \/ d = 6 \/ d = 7 \/ d = 8 \/ d = 9 \/ d = 10 \/
    d = 11 \/ d = 12 \/ d = 13 \/ d = 14 \/ d = 15) by lia.
  repeat destruct E as [->|E]; try (split; reflexivity). by subst.
Qed.

Lemma scan_hex2_print b rest : scan_hex2 (hex2 b ++ rest) = Some (b2z b).
Proof.
  pose proof (b2z_range b). pose proof (Z.div_mod (b2z b) 16 ltac:(lia)). pose proof (Z.mod_pos_bound (b2z b) 16 ltac:(lia)).
  assert (0 <= b2z b / 16 < 16) by (split; [apply Z.div_pos; lia|apply Z.div_lt_upper_bound; lia]).
  destruct (hex_char_digit (b2z b / 16)) as [Ha Hs]; [done|]. destruct (hex_char_digit (b2z b mod 16)) as [Hb _]; [lia|].
  unfold scan_hex2, hex2, skip_space. cbn [app length span]. rewrite Hs. cbn [snd]. rewrite Ha, Hb. f_equal. lia.
Qed.

(** *** Printed numbers *)

Lemma digit_value d : 0 <= d < 10 -> is_digit (digit d) = true /\ b2z (digit d) - 48 = d /\ digit d <> ch_newline.
Proof.
  intros H. assert (E : b2z (digit d) = 48 + d) by (unfold digit; rewrite b2z_z2b; unfold u8; apply Z.mod_small; lia).
  split; [|split; [lia|]].
  - unfold is_digit. rewrite E. apply andb_true_iff. split; apply Z.leb_le; lia.
  - intros En. rewrite En in E. vm_compute (b2z ch_newline) in E. lia.
Qed.

Lemma digits_value_snoc ds d : digits_value (ds ++ [d]) = 10 * digits_value ds + (b2z d - 48).
Proof. unfold digits_value. by rewrite foldl_app. Qed.

Lemma print_digits_read fuel : forall n, 0 <= n < 2 ^ Z.of_nat fuel -> (0 < fuel)%nat ->
  digits_value (print_digits fuel n) = n /\ Forall (fun b => is_digit b = true) (print_digits fuel n) /\ print_digits fuel n <> [].
Proof.
  induction fuel as [|fuel IH]; intros n Hn Hf; [lia|]. cbn [print_digits]. destruct (Z.ltb_spec n 10) as [Hs|Hb].
  - destruct (digit_value n) as (Hd & Hv & _); [lia|]. unfold digits_value. cbn [foldl]. split; [lia|]. split; [by constructor|done].
  - pose proof (Z.div_mod n 10 ltac:(lia)). pose proof (Z.mod_pos_bound n 10 ltac:(lia)).
    destruct (digit_value (n mod 10)) as (Hd & Hv & _); [lia|]. rewrite Nat2Z.inj_succ, Z.pow_succ_r in Hn by lia.
    destruct fuel as [|fuel]; [cbn in Hn; lia|]. destruct (IH (n / 10)) as (Hval & Hall & _); [|lia|].
    { split; [apply Z.div_pos; lia|]. apply Z.div_lt_upper_bound; lia. }
    rewrite digits_value_snoc, Hval. split; [lia|]. split; [|by destruct (print_digits _ _)].
    apply Forall_app. split; [done|by constructor].
Qed.

(** The digits of a number that is not negative are read back as that number. *)
Lemma print_int_read n : 0 <= n ->
  digits_value (print_int n) = n /\ Forall (fun b => is_digit b = true) (print_int n) /\ print_int n <> [].
Proof.
  intros Hn. unfold print_int. rewrite Z.abs_eq by done. destruct (Z.ltb_spec n 0); [lia|]. apply print_digits_read; [|lia].
  rewrite Nat2Z.inj_succ, Z2Nat.id by apply Z.log2_nonneg. split; [done|]. destruct (decide (n = 0)) as [->|]; [done|].
  apply Z.log2_spec. lia.
Qed.

Lemma print_int_numeral n : 0 <= n -> numeral (print_int n) n.
Proof.
  intros Hn. destruct (print_int_read n Hn) as (Hv & Hd & Hne). rewrite <- Hv at 2.
  apply (numeral_intro [] [] (print_int n) false); [constructor|done|done|left].
Qed.
