(* ===== verification/Logging.v ===== *)
(** The log of connections, chamlon_server/src/vpn_log.c, and the line that vpn_log.h
    prints for a message.  The broken-down local time is a parameter, as [localtime]
    gives it. *)

From Stdlib Require Import Strings.String.
From stdpp Require Import list.
From S2P Require Import Prelude Text.
Local Open Scope Z_scope.

(** The fields of [struct tm] that are printed. *)
Record tm := { tm_mday : Z; tm_hour : Z; tm_min : Z; tm_sec : Z }.

Definition ch_tab : byte := z2b 9.

(** [%02d] of a number that is not negative. *)
Definition two_digits (n : Z) : list byte := if n <? 10 then [digit 0; digit n] else print_int n.

(** What [vpn_log] prints; [ts] is the time as [strftime] writes it. *)
Definition vpn_log (ts msg : list byte) : list byte := bytes "[" ++ ts ++ bytes "] " ++ msg ++ [ch_newline].

(** The columns of a line are set off by a bar between two tabs. *)
Definition bar : list byte := [ch_tab] ++ bytes "|" ++ [ch_tab].

Definition log_header : list byte :=
  bytes "FIRST CONNECTION" ++ bar ++ bytes "IP" ++ bar ++ bytes "COUNTRY" ++ [ch_newline].

Definition connection_line (local : tm) (ipaddr country : list byte) : list byte :=
  bytes "Current time: " ++ two_digits (tm_mday local) ++ bytes " " ++ two_digits (tm_hour local) ++ bytes ":" ++
  two_digits (tm_min local) ++ bytes ":" ++ two_digits (tm_sec local) ++ bar ++ ipaddr ++ bar ++ country ++ [ch_newline].

(** [file] is the content of ip_time.con before, empty when there is no such file; it is
    [opened] or the call does nothing. *)
Definition log_connection (opened : bool) (local : tm) (ipaddr country : list byte) (file : list byte) : list byte :=
  if negb opened then file
  else
    let file := if bool_decide (length file = 0%nat) then file ++ log_header else file in
    file ++ connection_line local ipaddr country.

(** ** The file *)

(** A connection to be logged: whether the file opens, the time, the address, the country. *)
Definition visit : Type := bool * tm * list byte * list byte.
Definition log_visit (file : list byte) (v : visit) : list byte :=
  let '(opened, local, ip, country) := v in log_connection opened local ip country file.
Definition visit_line (v : visit) : list byte := let '(_, local, ip, country) := v in connection_line local ip country.
Definition visit_opened (v : visit) : bool := v.1.1.1.

(** A file that has been started keeps what it has; each connection adds its line. *)
Lemma log_started vs file :
  file <> [] -> foldl log_visit file vs = file ++ concat (visit_line <$> List.filter visit_opened vs).
Proof.
  revert file. induction vs as [|[[[[] local] ip] country] vs IH]; intros file Hf; cbn [foldl].
  - cbn. by rewrite app_nil_r.
  - assert (Hnew : log_visit file (true, local, ip, country) = file ++ connection_line local ip country).
    { unfold log_visit, log_connection. cbn [negb]. rewrite bool_decide_false; [done|]. by destruct file. }
    rewrite Hnew, IH by (by destruct file). cbn. by rewrite <- app_assoc.
  - by rewrite IH.
Qed.

(** The log as a whole: the header once, then one line for each connection that could be
    written, in their order; a file that never opens stays empty. *)
Theorem log_complete vs :
  foldl log_visit [] vs =
    match List.filter visit_opened vs with
    | [] => []
    | ws => log_header ++ concat (visit_line <$> ws)
    end.
Proof.
  induction vs as [|[[[[] local] ip] country] vs IH]; [done| |exact IH]. cbn [foldl List.filter visit_opened fst].
  change (log_visit [] (true, local, ip, country)) with (log_header ++ connection_line local ip country).
  rewrite log_started by done. cbn. by rewrite <- !app_assoc.
Qed.

Example first_line :
  log_connection true {| tm_mday := 7; tm_hour := 9; tm_min := 30; tm_sec := 5 |} (bytes "10.0.0.1") (bytes "IT") [] =
  log_header ++ bytes "Current time: 07 09:30:05" ++ bar ++ bytes "10.0.0.1" ++ bar ++ bytes "IT" ++ [ch_newline].
Proof. by vm_compute. Qed.
