(* ===== verification/Fragment.v ===== *)
(** Fragments of IP packets: the reassembly entries and their table (src/fragment.c
    of the server, src/vpn_reassembly.c of the client), what a receiver does with a
    fragment (packet_processor.c, vpn_packet_handler.c), and the fragments a sender
    cuts a packet into.  Both programs have this code, on their own tables. *)

From stdpp Require Import list.
From S2P Require Import Prelude Crypto Wire.
Local Open Scope Z_scope.

(** ** Data *)

Record reassembly_entry_t := {
  re_packet_id : Z;
  re_last_activity : Z;
  expected_length : Z;
  received_bytes : Z;
  buffer : list byte;
  is_active : bool;
}.
#[global] Instance eta_entry : Settable reassembly_entry_t := fun e =>
  {| re_packet_id := re_packet_id e; re_last_activity := re_last_activity e;
     expected_length := expected_length e; received_bytes := received_bytes e;
     buffer := buffer e; is_active := is_active e |}.

Definition entry_zero : reassembly_entry_t :=
  {| re_packet_id := 0; re_last_activity := 0; expected_length := 0; received_bytes := 0;
     buffer := zeros (Z.to_nat MAX_PACKET_SIZE); is_active := false |}.

(** ** Operations on a table *)

Definition expire_entry (t : Z) (e : reassembly_entry_t) : reassembly_entry_t :=
  if is_active e && (REASSEMBLY_TIMEOUT <? t - re_last_activity e) then entry_zero else e.

(** The index of the entry for packet [id] in the table, and the new table. *)
Definition find_or_create_entry (t : Z) (tbl : list reassembly_entry_t) (id : Z)
    : option (nat * list reassembly_entry_t) :=
  match first_index (fun e => is_active e && (re_packet_id e =? id)) tbl with
  | Some i => Some (i, alter (fun e => e <| re_last_activity := t |>) i tbl)
  | None =>
      match first_index (fun e => negb (is_active e)) tbl with
      | Some i => Some (i, <[i := entry_zero <| is_active := true |> <| re_packet_id := id |>
                                    <| re_last_activity := t |>]> tbl)
      | None => None
      end
  end.

(** The reassembly of a decrypted data packet [plain]: from the search for its entry
    to the write to the tunnel.  The result is the new table and what is written. *)
Definition accept_fragment (t : Z) (tbl : list reassembly_entry_t) (plain : list byte)
    : outcome (list reassembly_entry_t * option (list byte)) :=
  id ← u16_at plain 0;
  match find_or_create_entry t tbl id with
  | None => Ok (tbl, None)
  | Some (k, tbl) =>
      let fragment_payload_len := u64 (Z.of_nat (length plain) - Z.of_nat sizeof_tunnel_header) in
      off ← u16_at plain 2;
      if MAX_PACKET_SIZE <? u64 (off + fragment_payload_len) then
        Ok (alter (fun e => e <| is_active := false |>) k tbl, None)
      else
        total ← u16_at plain 4;
        payload ← (if Z.of_nat (length plain) <? Z.of_nat sizeof_tunnel_header then Err OutOfBounds
                   else Ok (drop sizeof_tunnel_header plain));
        e ← slot_read tbl k;
        let e := if expected_length e =? 0 then e <| expected_length := total |> else e in
        buf ← memcpy (buffer e) (Z.to_nat off) payload;
        let e := e <| buffer := buf |> <| received_bytes := u64 (received_bytes e + fragment_payload_len) |> in
        fl ← u16_at plain 6;
        let is_last := Z.land fl 0x8000 =? 0 in
        if is_last && (expected_length e <=? received_bytes e) then
          data ← buf_read (buffer e) 0 (Z.to_nat (expected_length e));
          Ok (<[k := e <| is_active := false |>]> tbl, Some data)
        else Ok (<[k := e]> tbl, None)
  end.

(** The header of the fragment at [off] of a packet of [len] bytes; [tag] is what its
    unused session id field holds. *)
Definition fragment_header (tag : list byte) (id off chunk_len len : Z) : tunnel_header_t :=
  {| packet_id := id; fragment_offset := u16 off; total_ip_len := u16 len;
     flags := if off + chunk_len =? len then 0 else 0x8000; th_session_id := tag |}.

(** ** What a sender's fragments are *)

Definition fragment_body (tag : list byte) (id : Z) (len off : nat) (c : list byte) : list byte :=
  tunnel_bytes (fragment_header tag id (Z.of_nat off) (Z.of_nat (length c)) (Z.of_nat len)) ++ c.

(** A fragment's plaintext: header and data, padded with zeros to [padto] bytes. *)
Definition fragment_plain (tag : list byte) (padto : nat) (id : Z) (len : nat) (oc : nat * list byte) : list byte :=
  let body := fragment_body tag id len oc.1 oc.2 in body ++ zeros (padto - length body).

(** The packet cut into pieces of [P] bytes, each with its offset. *)
Fixpoint chunks (fuel P off : nat) (l : list byte) : list (nat * list byte) :=
  match l, fuel with
  | [], _ | _, O => []
  | _, S fuel => (off, take P l) :: chunks fuel P (off + P) (drop P l)
  end.

Definition pieces (tag : list byte) (P padto : nat) (id : Z) (ip : list byte) : list (list byte) :=
  fragment_plain tag padto id (length ip) <$> chunks (length ip) P 0 ip.

(** The datagram that carries [pt] under a key and session id. *)
Definition seal `{Sod : Sodium} (key sid : list byte) (pt : list byte) (sq : Z) : list byte :=
  data_packet sid sq (default [] (aead_encrypt key sid sq pt)).

(** Several, numbered from [sq] on. *)
Fixpoint seal_each `{Sod : Sodium} (key sid : list byte) (sq : Z) (pts : list (list byte)) : list (list byte) :=
  match pts with
  | [] => []
  | pt :: pts => seal key sid pt sq :: seal_each key sid (u64 (sq + 1)) pts
  end.

Lemma length_seal_each `{Sod : Sodium} key sid pts : forall sq, length (seal_each key sid sq pts) = length pts.
Proof. induction pts as [|pt pts IH]; intros sq; cbn [seal_each length]; [done|]. by rewrite IH. Qed.

Lemma length_fragment_body tag id len off c :
  length tag = SESSION_ID_LEN -> length (fragment_body tag id len off c) = (24 + length c)%nat.
Proof. intros. unfold fragment_body. by rewrite length_app, length_tunnel_bytes. Qed.

Lemma length_chunks fuel P off l : (length (chunks fuel P off l) <= fuel)%nat.
Proof.
  revert off l. induction fuel as [|fuel IH]; intros off [|b l]; cbn [chunks length]; [lia..|].
  specialize (IH (off + P)%nat (drop P (b :: l))). lia.
Qed.

Lemma length_pieces tag P padto id ip : (length (pieces tag P padto id ip) <= length ip)%nat.
Proof. unfold pieces. rewrite length_fmap. apply length_chunks. Qed.

Lemma chunks_nil fuel P off : chunks fuel P off [] = [].
Proof. by destruct fuel. Qed.

(** The cut continues where the loop does. *)
Lemma chunks_next fuel P off (ip : list byte) :
  chunks fuel P (off + P) (drop P (drop off ip)) =
  let c := take P (drop off ip) in chunks fuel P (off + length c) (drop (off + length c) ip).
Proof.
  cbv zeta. rewrite drop_drop, length_take, length_drop.
  destruct (Nat.le_ge_cases P (length ip - off)).
  - by rewrite Nat.min_l.
  - rewrite Nat.min_r, !(drop_ge ip), !chunks_nil by lia. done.
Qed.

Lemma chunks_cons fuel P off (ip : list byte) :
  (off < length ip)%nat ->
  chunks (S fuel) P off (drop off ip) = (off, take P (drop off ip)) :: chunks fuel P (off + P) (drop P (drop off ip)).
Proof.
  intros H. destruct (drop off ip) as [|b l] eqn:E; [|done].
  apply (f_equal length) in E. rewrite length_drop in E. cbn in E. lia.
Qed.

(** The padded end of the last piece stays inside the reassembly buffer. *)
Lemma padded_fits (ip c : list byte) (P n off : nat) :
  (40 <= P <= 1176 -> off = n * P -> off < length ip -> length ip <= 1600 -> length c <= P -> off + P <= 2500)%nat.
Proof.
  intros HP -> Ho Hl Hc. destruct n as [|[|n]]; [lia|lia|]. assert (2 * P <= S (S n) * P)%nat by nia.
  nia.
Qed.

(** ** Well-formed entries *)

Record entry_ok (e : reassembly_entry_t) : Prop := {
  ok_buffer : Z.of_nat (length (buffer e)) = MAX_PACKET_SIZE;
  ok_received : in_u64 (received_bytes e);
  ok_expected : 0 <= expected_length e <= MAX_PACKET_SIZE;
}.

Lemma entry_zero_ok : entry_ok entry_zero.
Proof. constructor; [|by vm_compute..]. cbn [buffer entry_zero]. unfold zeros. by rewrite length_replicate. Qed.

Lemma expire_entry_ok t e : entry_ok e -> entry_ok (expire_entry t e).
Proof. intros. unfold expire_entry. destruct (_ && _); [apply entry_zero_ok|done]. Qed.

(** What a search of the reassembly table hands out: the entry of packet [id],
    active, all others as they were. *)
Lemma find_or_create_entry_spec t tbl id k tbl' :
  Forall entry_ok tbl -> in_u16 id -> find_or_create_entry t tbl id = Some (k, tbl') ->
  exists e, tbl' = <[k := e]> tbl /\ (k < length tbl)%nat /\ entry_ok e /\
    is_active e = true /\ re_packet_id e = id.
Proof.
  intros Htbl Hid. unfold find_or_create_entry.
  destruct (first_index (fun e => is_active e && (re_packet_id e =? id)) tbl) as [i|] eqn:E1.
  - intros [= <- <-]. apply first_index_Some in E1 as (e & He & Hp & _). bprop.
    exists (e <| re_last_activity := t |>). split; [|split; [by eapply lookup_lt_Some|]].
    + by apply alter_insert.
    + eapply Forall_lookup in Htbl as [Hb Hr Hx]; [|exact He]. split; [by constructor|]. done.
  - destruct (first_index (fun e => negb (is_active e)) tbl) as [i|] eqn:E2; [|done].
    intros [= <- <-]. apply first_index_Some in E2 as (e & He & _). eexists. split; [done|].
    split; [by eapply lookup_lt_Some|]. split; [|done]. destruct entry_zero_ok. by constructor.
Qed.

(** What a peer's software puts in a packet: a full header and, in it, a packet
    length the receiver can hold. *)
Definition honest (plain : list byte) : Prop :=
  (sizeof_tunnel_header <= length plain)%nat /\
  forall total, u16_at plain 4 = Ok total -> total <= MAX_PACKET_SIZE.

(** ** Accepting a fragment *)

Lemma payload_length (plain : list byte) :
  (sizeof_tunnel_header <= length plain)%nat -> Z.of_nat (length plain) <= BUFFER_SIZE ->
  u64 (Z.of_nat (length plain) - Z.of_nat sizeof_tunnel_header) = Z.of_nat (length plain - 24).
Proof.
  unfold sizeof_tunnel_header, BUFFER_SIZE. intros. rewrite u64_small; [lia|]. unfold in_u64. lia.
Qed.

(** On a fragment of an honest peer, acceptance is defined and keeps every entry of
    the table well-formed. *)
Lemma accept_fragment_ok t tbl plain :
  Forall entry_ok tbl -> honest plain -> Z.of_nat (length plain) <= BUFFER_SIZE ->
  exists tbl' o, accept_fragment t tbl plain = Ok (tbl', o) /\ Forall entry_ok tbl' /\ length tbl' = length tbl.
Proof.
  intros Htbl [Hlen Htot] Hbuf. pose proof (payload_length plain Hlen Hbuf) as Hpl. unfold sizeof_tunnel_header in Hlen.
  destruct (u16_at_ok plain 6) as (fl & Hfl & _); [lia|]. destruct (u16_at_ok plain 0) as (id & Hid & Hid16); [lia|].
  destruct (u16_at_ok plain 2) as (off & Hoff & Hoff16); [lia|].
  destruct (u16_at_ok plain 4) as (total & Htotal & Htot16); [lia|]. specialize (Htot total Htotal).
  unfold accept_fragment. rewrite Hid. cbn [mbind outcome_bind].
  destruct (find_or_create_entry t tbl id) as [[k tbl1]|] eqn:Hfind; [|eauto].
  destruct (find_or_create_entry_spec _ _ _ _ _ Htbl Hid16 Hfind) as (e & -> & Hk & He & _ & _).
  assert (Htbl1 : <[k := e]> tbl !! k = Some e) by (by apply list_lookup_insert_eq).
  assert (Hput : forall e', entry_ok e' -> Forall entry_ok (<[k := e']> (<[k := e]> tbl)))
    by (intros; apply Forall_insert; [by apply Forall_insert|done]).
  rewrite Hoff, Hpl. cbn [mbind outcome_bind].
  rewrite (u64_small (off + _)) by (unfold in_u64, in_u16, BUFFER_SIZE in *; lia).
  destruct (Z.ltb_spec MAX_PACKET_SIZE (off + Z.of_nat (length plain - 24))) as [Hbig|Hfit].
  { rewrite (alter_insert _ _ _ e Htbl1). eexists _, None. split; [done|]. rewrite !length_insert. split; [|done].
    apply Hput. by destruct He; constructor. }
  rewrite Htotal. cbn [mbind outcome_bind].
  destruct (Z.ltb_spec (Z.of_nat (length plain)) (Z.of_nat sizeof_tunnel_header)); [unfold sizeof_tunnel_header in *; lia|].
  rewrite (proj2 (slot_read_Ok _ _ _) Htbl1). cbn [mbind outcome_bind].
  set (e1 := if expected_length e =? 0 then e <| expected_length := total |> else e).
  assert (He1 : entry_ok e1).
  { subst e1. destruct He. destruct (expected_length e =? 0); constructor; cbn; try done. unfold in_u16 in *. lia. }
  pose proof (ok_buffer e1 He1) as Hbl. rewrite memcpy_Ok.
  2:{ rewrite length_drop. unfold sizeof_tunnel_header, in_u16 in *. lia. }
  cbn [mbind outcome_bind]. rewrite Hfl. cbn [mbind outcome_bind]. set (buf := take _ (buffer e1) ++ _).
  set (e2 := e1 <| buffer := buf |> <| received_bytes := _ |>).
  assert (He2 : entry_ok e2).
  { destruct He1. constructor; [|apply u64_range|done]. cbn. subst buf. simpl_len.
    unfold sizeof_tunnel_header, in_u16 in *. lia. }
  destruct (_ && _); [|eexists _, None; split; [done|]; rewrite !length_insert; split; [by apply Hput|done]].
  unfold buf_read. destruct He2 as [Hb2 Hr2 Hx2]. rewrite decide_True by lia. cbn [mbind outcome_bind].
  eexists _, _. split; [done|]. rewrite !length_insert. split; [|done]. apply Hput. by constructor.
Qed.

(** ** Reassembly in order *)

(** No live entry of the table other than [k] is for packet [id]. *)
Definition only_entry (tbl : list reassembly_entry_t) (k : nat) (id : Z) : Prop :=
  forall j e, j <> k -> tbl !! j = Some e -> is_active e = true -> re_packet_id e <> id.

(** The first [off] bytes of [ip] have arrived in [e]; at offset 0 the entry is new. *)
Record arrived (e : reassembly_entry_t) (id : Z) (ip : list byte) (off : nat) : Prop := {
  arr_active : is_active e = true;
  arr_id : re_packet_id e = id;
  arr_len : expected_length e = if decide (off = 0%nat) then 0 else Z.of_nat (length ip);
  arr_bytes : received_bytes e = Z.of_nat off;
  arr_room : length (buffer e) = 2500%nat;
  arr_prefix : take off (buffer e) = take off ip;
}.

(** The table is ready for the fragment at [off]: a search yields such an entry. *)
Definition ready (t : Z) (tbl : list reassembly_entry_t) (id : Z) (ip : list byte) (off : nat) : Prop :=
  exists k e, find_or_create_entry t tbl id = Some (k, <[k := e]> tbl) /\ (k < length tbl)%nat /\
    arrived e id ip off /\ only_entry tbl k id.

Lemma ready_start t tbl id ip :
  (forall e, e ∈ tbl -> is_active e = true -> re_packet_id e <> id) -> (exists e, e ∈ tbl /\ is_active e = false) ->
  ready t tbl id ip 0.
Proof.
  intros Hno (e0 & Hin & Hidle). unfold ready, find_or_create_entry.
  assert (E1 : first_index (fun e => is_active e && (re_packet_id e =? id)) tbl = None).
  { apply first_index_None, Forall_forall. intros e He. destruct (is_active e) eqn:Ha; [|done].
    apply Z.eqb_neq. by apply Hno. }
  rewrite E1. destruct (first_index (fun e => negb (is_active e)) tbl) as [k|] eqn:E2.
  - apply first_index_Some in E2 as (e & He & _). eexists k, _. split; [done|].
    split; [by eapply lookup_lt_Some|]. split; [by constructor|].
    intros j e' _ Hj. apply Hno. by eapply list_elem_of_lookup_2.
  - apply first_index_None in E2. rewrite Forall_forall in E2. specialize (E2 e0 Hin). by rewrite Hidle in E2.
Qed.

Lemma ready_next t tbl id ip off k e :
  tbl !! k = Some e -> arrived e id ip off -> only_entry tbl k id -> ready t tbl id ip off.
Proof.
  intros Hk Harr Hon. exists k, (e <| re_last_activity := t |>). unfold find_or_create_entry.
  assert (E : first_index (fun e => is_active e && (re_packet_id e =? id)) tbl = Some k).
  { apply first_index_Some. exists e. split; [done|]. destruct Harr as [Ha Hid _ _ _ _].
    split; [rewrite Ha; by apply Z.eqb_eq|]. intros j e' Hj He'. destruct (is_active e') eqn:Ha'; [|done].
    apply Z.eqb_neq. eapply (Hon j); [lia|done..]. }
  rewrite E, (alter_insert _ _ _ _ Hk). split; [done|]. split; [by eapply lookup_lt_Some|].
  split; [by destruct Harr; constructor|done].
Qed.

(** The fields of a fragment, read at the offsets the receiver uses. *)
Lemma fragment_fields tag id (ip : list byte) off c m :
  length tag = SESSION_ID_LEN -> 0 < id < 2 ^ 16 -> (length ip <= 1600)%nat -> (off + length c <= length ip)%nat ->
  let plain := fragment_body tag id (length ip) off c ++ zeros m in
  u16_at plain 0 = Ok id /\ u16_at plain 2 = Ok (Z.of_nat off) /\ u16_at plain 4 = Ok (Z.of_nat (length ip)) /\
  u16_at plain 6 = Ok (if decide (off + length c = length ip)%nat then 0 else 0x8000) /\
  drop sizeof_tunnel_header plain = c ++ zeros m /\ length plain = (24 + (length c + m))%nat.
Proof.
  intros Htag Hid Hmax Hle plain.
  set (h := fragment_header tag id (Z.of_nat off) (Z.of_nat (length c)) (Z.of_nat (length ip))).
  assert (Hoff : u16 (Z.of_nat off) = Z.of_nat off) by (apply u16_small; unfold in_u16; lia).
  assert (Hlen : u16 (Z.of_nat (length ip)) = Z.of_nat (length ip)) by (apply u16_small; unfold in_u16; lia).
  assert (Hfl : flags h = if decide (off + length c = length ip)%nat then 0 else 0x8000).
  { subst h. cbn. case_decide; destruct (Z.eqb_spec (Z.of_nat off + Z.of_nat (length c)) (Z.of_nat (length ip))); lia. }
  assert (Hwf : tunnel_wf h).
  { constructor; cbn [h fragment_header packet_id fragment_offset total_ip_len th_session_id]; auto with vpn.
    - unfold in_u16. lia.
    - rewrite Hfl. case_decide; unfold in_u16; lia. }
  assert (Hplain : plain = tunnel_bytes h ++ c ++ zeros m).
  { subst plain. unfold fragment_body. by rewrite <- app_assoc. }
  rewrite Hplain. destruct (tunnel_fields h (c ++ zeros m) Hwf) as (-> & -> & -> & ->).
  assert (Hth : length (tunnel_bytes h) = 24%nat) by (apply length_tunnel_bytes, Hwf).
  rewrite drop_app_length' by (by rewrite Hth). rewrite !length_app, Hth. unfold zeros. rewrite length_replicate, Hfl.
  cbn [h fragment_header packet_id fragment_offset total_ip_len]. by rewrite Hoff, Hlen.
Qed.

(** The fragment at [off] with data [c], followed by [m] bytes of padding: the last
    one delivers the packet, the others leave the table ready for the next. *)
Lemma accept_fragment_step t tbl tag id ip off c m :
  length tag = SESSION_ID_LEN -> 0 < id < 2 ^ 16 -> ready t tbl id ip off ->
  (length ip <= 1600)%nat -> (off + length c <= length ip)%nat -> (0 < length c)%nat ->
  c = take (length c) (drop off ip) -> (off + length c + m <= 2500)%nat ->
  ((off + length c < length ip)%nat -> m = 0%nat) ->
  exists tbl', accept_fragment t tbl (fragment_body tag id (length ip) off c ++ zeros m) =
      Ok (tbl', if decide (off + length c = length ip)%nat then Some ip else None) /\
    ((off + length c < length ip)%nat -> ready t tbl' id ip (off + length c)).
Proof.
  intros Htag Hid (k & e & Hfind & Hk & Harr & Hon) Hmax Hle Hpos Hc Hfit Hm.
  destruct (fragment_fields tag id ip off c m Htag Hid Hmax Hle) as (F0 & F2 & F4 & F6 & Fd & Fl).
  set (plain := fragment_body _ _ _ _ _ ++ _) in *. unfold accept_fragment. rewrite F0. cbn [mbind outcome_bind].
  rewrite Hfind, F2. cbn [mbind outcome_bind].
  assert (Hpl : u64 (Z.of_nat (length plain) - Z.of_nat sizeof_tunnel_header) = Z.of_nat (length c + m)).
  { rewrite Fl, u64_small; unfold in_u64, sizeof_tunnel_header; lia. }
  rewrite Hpl, (u64_small (Z.of_nat off + _)) by (unfold in_u64; lia).
  destruct (Z.ltb_spec MAX_PACKET_SIZE (Z.of_nat off + Z.of_nat (length c + m))); [unfold MAX_PACKET_SIZE in *; lia|].
  rewrite F4. cbn [mbind outcome_bind].
  destruct (Z.ltb_spec (Z.of_nat (length plain)) (Z.of_nat sizeof_tunnel_header)); [unfold sizeof_tunnel_header in *; lia|].
  rewrite Fd, (proj2 (slot_read_Ok (<[k:=e]> tbl) k e)) by (by apply list_lookup_insert_eq). cbn [mbind outcome_bind].
  destruct Harr as [Ha Hide Hex Hrc Hroom Hpre].
  set (e1 := if expected_length e =? 0 then e <| expected_length := Z.of_nat (length ip) |> else e).
  assert (He1 : expected_length e1 = Z.of_nat (length ip) /\ buffer e1 = buffer e /\ received_bytes e1 = Z.of_nat off /\
    is_active e1 = true /\ re_packet_id e1 = id).
  { subst e1. destruct (decide (off = 0%nat)), (Z.eqb_spec (expected_length e) 0); cbn; repeat split; try done; lia. }
  destruct He1 as (He1x & He1b & He1r & He1a & He1i). rewrite He1b, He1r, Nat2Z.id, F6.
  rewrite memcpy_Ok by (rewrite length_app; unfold zeros; rewrite length_replicate; lia).
  cbn [mbind outcome_bind]. set (buf := take off (buffer e) ++ _).
  rewrite (u64_small (Z.of_nat off + Z.of_nat (length c + m))) by (unfold in_u64; lia).
  set (e2 := e1 <| buffer := buf |> <| received_bytes := _ |>).
  assert (Hbuf : take (off + length c) buf = take (off + length c) ip).
  { subst buf. rewrite Hpre, <- app_assoc, app_assoc, take_app_length'.
    - rewrite Hc, <- take_take_drop. by rewrite length_take, length_drop, Nat.min_l by lia.
    - rewrite length_app, length_take. lia. }
  assert (Hbl : length buf = 2500%nat).
  { subst buf. unfold zeros. simpl_len. rewrite Hroom. lia. }
  change (expected_length e2) with (expected_length e1).
  change (received_bytes e2) with (Z.of_nat off + Z.of_nat (length c + m)). rewrite He1x.
  case_decide as Hlast.
  - destruct (Z.leb_spec (Z.of_nat (length ip)) (Z.of_nat off + Z.of_nat (length c + m))); [|lia].
    change (Z.land 0 32768 =? 0) with true. cbn [andb]. unfold buf_read. change (buffer e2) with buf.
    rewrite decide_True by lia. cbn [mbind outcome_bind].
    rewrite drop_0, Nat2Z.id, <- Hlast, Hbuf, Hlast, firstn_all. eexists. split; [done|lia].
  - change (Z.land 32768 32768 =? 0) with false. cbn [andb]. eexists. split; [done|]. intros _.
    apply (ready_next _ _ _ _ _ k e2).
    + apply list_lookup_insert_eq. by rewrite length_insert.
    + assert (Hm0 : m = 0%nat) by (apply Hm; lia). constructor; try done.
      * change (expected_length e2) with (expected_length e1). by rewrite decide_False by lia.
      * change (received_bytes e2) with (Z.of_nat off + Z.of_nat (length c + m)). lia.
    + intros j e' Hj. rewrite list_insert_insert_eq, list_lookup_insert_ne by done. by apply Hon.
Qed.

(** ** Several fragments *)

(** What reassembly makes of a sequence of packets: the final table and what is
    written to the tunnel. *)
Fixpoint accept_all (t : Z) (tbl : list reassembly_entry_t) (pts : list (list byte))
    : outcome (list reassembly_entry_t * list (list byte)) :=
  match pts with
  | [] => Ok (tbl, [])
  | pt :: pts =>
      r ← accept_fragment t tbl pt;
      rs ← accept_all t r.1 pts;
      Ok (rs.1, option_list r.2 ++ rs.2)
  end.

(** A packet's plaintext that is neither a dummy nor a control packet, and fits a
    datagram once sealed. *)
Definition data_plain (pt : list byte) : Prop :=
  Z.of_nat (length pt) <= MAX_FRAG - 70 /\ (sizeof_tunnel_header <= length pt)%nat /\
  exists fl, u16_at pt 6 = Ok fl /\ (fl =? PKT_DUMMY) = false /\ (fl =? PKT_CTRL_KEEPALIVE) = false /\
    (fl =? PKT_CTRL_DISCONNECT) = false.

(** The pieces of a packet from offset [off] on complete it. *)
Lemma accept_chunks t tag P padto id ip fuel :
  (40 <= P <= 1176)%nat -> (padto <= 24 + P)%nat -> length tag = SESSION_ID_LEN -> 0 < id < 2 ^ 16 ->
  (length ip <= 1600)%nat -> forall off tbl,
  let pts := fragment_plain tag padto id (length ip) <$> chunks fuel P off (drop off ip) in
  ready t tbl id ip off -> (off < length ip)%nat -> (length ip - off <= fuel)%nat ->
  (exists n, off = n * P)%nat ->
  Forall data_plain pts /\ exists tbl', accept_all t tbl pts = Ok (tbl', [ip]).
Proof.
  intros HP Hpad Htag Hid Hmax. induction fuel as [|fuel IH]; intros off tbl pts Hrdy Hoff Hfuel [n Hn]; [lia|].
  subst pts. rewrite chunks_cons by done. set (c := take P (drop off ip)).
  assert (Hcl : length c = Nat.min P (length ip - off)) by (subst c; by rewrite length_take, length_drop).
  rewrite chunks_next. fold c. cbv zeta. cbn [fmap list_fmap accept_all]. set (m := (padto - (24 + length c))%nat).
  assert (Hpl : fragment_plain tag padto id (length ip) (off, c) = fragment_body tag id (length ip) off c ++ zeros m).
  { unfold fragment_plain. cbn [fst snd]. by rewrite length_fragment_body. }
  rewrite Hpl. pose proof (padded_fits ip c P n off).
  destruct (accept_fragment_step t tbl tag id ip off c m) as (tbl1 & E & Hnext); try done; [lia..| |lia|lia|].
  { subst c. by rewrite take_len_take. }
  rewrite E. cbn [mbind outcome_bind fst snd].
  assert (Hd : data_plain (fragment_body tag id (length ip) off c ++ zeros m)).
  { destruct (fragment_fields tag id ip off c m Htag Hid Hmax ltac:(lia)) as (_ & _ & _ & F6 & _ & Fl). split.
    - rewrite Fl. unfold MAX_FRAG. lia.
    - split; [rewrite Fl; unfold sizeof_tunnel_header; lia|]. eexists. split; [exact F6|]. by case_decide. }
  case_decide as Hlast.
  - rewrite Hlast, drop_all, chunks_nil. cbn [fmap list_fmap accept_all mbind outcome_bind].
    split; [by constructor|]. by exists tbl1.
  - destruct (IH (off + length c)%nat tbl1) as (Hds & tbl2 & E2).
    + apply Hnext. lia.
    + lia.
    + lia.
    + exists (S n). lia.
    + cbn [fmap list_fmap] in E2. rewrite E2. split; [by constructor|]. by exists tbl2.
Qed.

Lemma accept_pieces t tbl tag P padto id ip :
  (40 <= P <= 1176)%nat -> (padto <= 24 + P)%nat -> length tag = SESSION_ID_LEN -> 0 < id < 2 ^ 16 ->
  (0 < length ip <= 1600)%nat ->
  (forall x, x ∈ tbl -> is_active x = true -> re_packet_id x <> id) -> (exists x, x ∈ tbl /\ is_active x = false) ->
  Forall data_plain (pieces tag P padto id ip) /\ exists tbl', accept_all t tbl (pieces tag P padto id ip) = Ok (tbl', [ip]).
Proof.
  intros HP Hpad Htag Hid [Hpos Hmax] Hno Hidle.
  pose proof (accept_chunks t tag P padto id ip (length ip) HP Hpad Htag Hid Hmax 0%nat tbl) as H.
  rewrite drop_0 in H. apply H; [by apply ready_start|lia..|by exists 0%nat].
Qed.
