(* ===== verification/Clock.v ===== *)
(** Time and floating point, as the pacing code of both programs uses them.

    C doubles are IEEE binary64 numbers, computed with the Standard Library's
    executable specification of floating point. *)

From Stdlib Require Import Floats.SpecFloat.
From stdpp Require Import base numbers.
From S2P Require Import Prelude TaskHeap.
Local Open Scope Z_scope.

(** ** binary64 *)

Definition prec : Z := 53.
Definition emax : Z := 1024.
Definition dbl (z : Z) : spec_float := binary_normalize prec emax z 0 false.
Definition dmul := SFmul prec emax.
Definition ddiv := SFdiv prec emax.
Definition dadd := SFadd prec emax.

(** Conversion of a non-negative finite double to an integer: truncation. *)
Definition trunc (f : spec_float) : Z :=
  match f with
  | S754_finite s m e =>
      let v := if 0 <=? e then Zpos m * 2 ^ e else Zpos m / 2 ^ (- e) in if s then - v else v
  | _ => 0
  end.

(** ** Instants *)

Definition NSEC_PER_SEC : Z := 1000000000.

Definition total_ns (ts : timespec) : Z := tv_sec ts * NSEC_PER_SEC + tv_nsec ts.
Definition normal_ts (ts : timespec) : Prop := 0 <= tv_nsec ts < NSEC_PER_SEC.
