(* ===== verification/Report.v ===== *)
(** The printed reports of chamlon_server/src/metrics.c.

    A report is the text it prints.  Doubles are printed as the C library does, exactly
    and rounded half to even; the time zone's way of writing a time is a parameter. *)

From Stdlib Require Import Strings.String Floats.SpecFloat.
From stdpp Require Import list.
From S2P Require Import Prelude Metrics Text TaskHeap Clock.
Local Open Scope Z_scope.

(** ** Printing a double *)

(** [num / den] to the nearest integer, ties to the even one. *)
Definition round_half_even (num den : Z) : Z :=
  let q := num / den in
  let r := 2 * (num mod den) in
  if r <? den then q else if den <? r then q + 1 else if Z.even q then q else q + 1.

(** A number of hundredths with its point. *)
Definition print_hundredths (h : Z) : list byte :=
  print_int (h / 100) ++ bytes "." ++ [digit (h / 10 mod 10); digit (h mod 10)].

(** [%.2f] *)
Definition print_fixed2 (f : spec_float) : list byte :=
  let signed (s : bool) (l : list byte) := if s then z2b 45 :: l else l in
  match f with
  | S754_zero s => signed s (print_hundredths 0)
  | S754_infinity s => signed s (bytes "inf")
  | S754_nan => bytes "nan"
  | S754_finite s m e =>
      signed s (print_hundredths
        (if 0 <=? e then Zpos m * 100 * 2 ^ e else round_half_even (Zpos m * 100) (2 ^ (- e))))
  end.

(** ** The reports *)

Definition line (l : list byte) : list byte := l ++ [ch_newline].
Definition verdict (healthy : bool) : list byte := if healthy then bytes "HEALTHY" else bytes "UNHEALTHY".

Definition metrics_print_status (now : Z) (m : metrics_t) : list byte :=
  let status := metrics_get_health_status now m in
  line [] ++
  line (bytes "[HEALTH] Status: " ++ verdict (is_healthy status) ++ bytes " | Active: " ++ print_int (active_clients status) ++
        bytes " | Uptime: " ++ print_int (uptime_seconds status) ++ bytes " sec | Packets/sec: " ++
        print_int (packets_per_sec status) ++ bytes " | Drop Rate: " ++ print_int (packet_drop_rate status) ++
        bytes "% | Avg Latency: " ++ print_int (avg_latency_ms status) ++ bytes " ms").

(** A line with one number, and with one double. *)
Definition counter (label : string) (v : Z) (unit : string) : list byte := bytes label ++ print_int v ++ bytes unit.
Definition measure (label : string) (v : spec_float) (unit : string) : list byte := bytes label ++ print_fixed2 v ++ bytes unit.

Definition rule : list byte := bytes "========================================".

Definition megabits (b uptime : Z) : spec_float := ddiv (dmul (dbl b) (dbl 8)) (dmul (dbl uptime) (dbl 1000000)).
Definition percent (part whole : Z) : spec_float := ddiv (dmul (dbl part) (dbl 100)) (dbl whole).

(** The lines of the detailed report at time [now]; [strftime] is the local time as
    [strftime] writes it. *)
Definition report_lines (strftime : Z -> list byte) (now : Z) (m : metrics_t) : list (list byte) :=
  let uptime := now - startup_time m in
  let total_packets := u64 (packets_received m + packets_dropped m) in
  [[]; rule; bytes "     VPN SERVER METRICS REPORT"; rule;
   bytes "Uptime: " ++ print_int uptime ++ bytes " seconds (" ++ print_fixed2 (ddiv (dbl uptime) (dbl 3600)) ++ bytes " hours)";
   []; bytes "--- PACKET STATISTICS ---";
   counter "Packets Received:   " (packets_received m) "";
   counter "Packets Sent:       " (packets_sent m) "";
   counter "Packets Dropped:    " (packets_dropped m) "";
   counter "Bytes Received:     " (bytes_received m) "";
   counter "Bytes Sent:         " (bytes_sent m) ""] ++
  (if 0 <? uptime then
     [measure "Throughput RX:      " (megabits (bytes_received m) uptime) " Mbps";
      measure "Throughput TX:      " (megabits (bytes_sent m) uptime) " Mbps";
      counter "Packet Rate RX:     " (packets_received m / uptime) " pps";
      counter "Packet Rate TX:     " (packets_sent m / uptime) " pps"]
   else []) ++
  [[]; bytes "--- CONNECTION STATISTICS ---";
   counter "Active Connections: " (active_connections m) "";
   counter "Total Connections:  " (total_connections m) "";
   counter "Total Disconnections: " (total_disconnections m) "";
   []; bytes "--- HANDSHAKE STATISTICS ---";
   counter "Handshakes Initiated: " (handshakes_initiated m) "";
   counter "Handshakes Completed: " (handshakes_completed m) "";
   counter "Handshakes Failed:    " (handshakes_failed m) ""] ++
  (if 0 <? handshakes_initiated m then
     [measure "Success Rate:         " (percent (handshakes_completed m) (handshakes_initiated m)) "%"]
   else []) ++
  [[]; bytes "--- QUEUE STATISTICS ---";
   counter "Max Queue Depth:    " (max_queue_depth m) " packets";
   counter "Queue Drops:        " (queue_drops m) "";
   counter "Backpressure Events: " (backpressure_events m) "";
   []; bytes "--- LATENCY STATISTICS ---"] ++
  (if 0 <? latency_samples m then
     [counter "Samples:            " (latency_samples m) "";
      counter "Average Latency:    " (total_latency_ms m / latency_samples m) " ms";
      counter "Max Latency:        " (max_latency_ms m) " ms";
      counter "Min Latency:        " (min_latency_ms m) " ms"]
   else [bytes "No latency data collected"]) ++
  [[]; bytes "--- ERROR STATISTICS ---";
   counter "Crypto Errors:      " (crypto_errors m) "";
   counter "Validation Errors:  " (validation_errors m) "";
   counter "Rate Limit Drops:   " (rate_limit_drops m) "";
   counter "Blacklisted IPs:    " (black_listed_ips m) ""] ++
  (if 0 <? total_packets then
     [measure "Overall Drop Rate:  " (percent (packets_dropped m) total_packets) "%"]
   else []) ++
  [[]; bytes "--- HEALTH STATUS ---";
   bytes "Server Status:      " ++ verdict (report_is_healthy m);
   bytes "Last Reset:         " ++ strftime (last_reset m);
   rule; []].

Definition metrics_print_detailed_report (strftime : Z -> list byte) (now : Z) (m : metrics_t) : list byte :=
  concat (line <$> report_lines strftime now m).

(** ** Reading a report *)

(** The lines of a text. *)
Fixpoint lines (s : list byte) : list (list byte) :=
  match s with
  | [] => []
  | b :: s =>
      if bool_decide (b = ch_newline) then [] :: lines s
      else match lines s with [] => [[b]] | l :: ls => (b :: l) :: ls end
  end.

(** What follows [p] in a text that begins with it. *)
Fixpoint after (p s : list byte) : option (list byte) :=
  match p, s with
  | [], _ => Some s
  | a :: p, b :: s => if bool_decide (a = b) then after p s else None
  | _, [] => None
  end.

(** The number on the first line that begins with [label]. *)
Fixpoint field (label : list byte) (ls : list (list byte)) : option Z :=
  match ls with
  | [] => None
  | l :: ls =>
      match after label l with
      | Some rest => Some (digits_value (span (length rest) is_digit rest).1)
      | None => field label ls
      end
  end.

Definition one_line (l : list byte) : Prop := Forall (fun b => b <> ch_newline) l.

Lemma lines_line l s : one_line l -> lines (line l ++ s) = l :: lines s.
Proof.
  unfold line. rewrite <- app_assoc. induction 1 as [|b l Hb _ IH]; cbn [app lines] in *; [by rewrite bool_decide_true|].
  by rewrite bool_decide_false, IH.
Qed.

Lemma lines_concat ls : Forall one_line ls -> lines (concat (line <$> ls)) = ls.
Proof. induction 1 as [|l ls Hl _ IH]; cbn [fmap list_fmap concat]; [done|]. by rewrite lines_line, IH. Qed.

Lemma after_app p s : after p (p ++ s) = Some s.
Proof. induction p as [|b p IH]; cbn; [done|]. by rewrite bool_decide_true. Qed.

(** The label [q] rules out a line of label [p]. *)
Fixpoint differ (p q : list byte) : bool :=
  match p, q with
  | a :: p, b :: q => if bool_decide (a = b) then differ p q else true
  | _, _ => false
  end.

Lemma after_differ p q s : differ p q = true -> after p (q ++ s) = None.
Proof.
  revert q. induction p as [|a p IH]; intros [|b q]; cbn; try done. case_bool_decide; [|done]. apply IH.
Qed.

Lemma field_counter label v unit ls :
  0 <= v -> match bytes unit with b :: _ => is_digit b = false | [] => True end ->
  field (bytes label) (counter label v unit :: ls) = Some v.
Proof.
  intros Hv Hu. cbn [field]. unfold counter. rewrite after_app. destruct (print_int_read v Hv) as (Hd & Hall & _).
  rewrite (span_prefix is_digit (print_int v) (bytes unit)); [by cbn [fst]; rewrite Hd|done|done|]. rewrite length_app. lia.
Qed.

Lemma field_skip label q s ls : differ label q = true -> field label ((q ++ s) :: ls) = field label ls.
Proof. intros H. cbn [field]. by rewrite (after_differ label q s H). Qed.

Lemma field_skip_end label q ls : differ label q = true -> field label (q :: ls) = field label ls.
Proof. intros H. rewrite <- (app_nil_r q). by apply field_skip. Qed.

Lemma field_section label (c : bool) sec alt ls :
  Forall (fun l => after label l = None) sec -> Forall (fun l => after label l = None) alt ->
  field label ((if c then sec else alt) ++ ls) = field label ls.
Proof.
  intros Hs Ha. assert (H : Forall (fun l => after label l = None) (if c then sec else alt)) by (by destruct c).
  induction H as [|l sec' Hl _ IH]; cbn [app field]; [done|]. by rewrite Hl.
Qed.

(** *** Nothing printed breaks its line *)

Lemma one_line_literal l : forallb (fun b => negb (bool_decide (b = ch_newline))) l = true -> one_line l.
Proof. rewrite forallb_forall. intros H. apply Forall_forall. intros b Hb ->. specialize (H ch_newline). rewrite bool_decide_true in H by done.
  discriminate H. by apply list_elem_of_In. Qed.

Lemma one_line_app a b : one_line a -> one_line b -> one_line (a ++ b).
Proof. intros Ha Hb. by apply Forall_app. Qed.

Lemma one_line_digits l : Forall (fun b => is_digit b = true) l -> one_line l.
Proof. intros H. eapply Forall_impl; [exact H|]. intros b Hb ->. discriminate. Qed.

Lemma one_line_int n : one_line (print_int n).
Proof.
  assert (Hd : one_line (print_int (Z.abs n))) by (apply one_line_digits, print_int_read; lia).
  unfold print_int in *. rewrite Z.abs_idemp in Hd. destruct (Z.ltb_spec (Z.abs n) 0); [lia|].
  destruct (n <? 0); [|exact Hd]. by constructor.
Qed.

Lemma one_line_hundredths h : one_line (print_hundredths h).
Proof.
  pose proof (Z.mod_pos_bound (h / 10) 10 ltac:(lia)). pose proof (Z.mod_pos_bound h 10 ltac:(lia)).
  apply one_line_app; [apply one_line_int|]. constructor; [done|].
  constructor; [by apply digit_value|]. constructor; [by apply digit_value|constructor].
Qed.

Lemma one_line_fixed2 f : one_line (print_fixed2 f).
Proof.
  assert (Hs : forall (s : bool) l, one_line l -> one_line (if s then z2b 45 :: l else l)) by (intros [] l Hl; [by constructor|done]).
  destruct f; cbn; try apply Hs; try apply one_line_hundredths; by apply one_line_literal.
Qed.

Ltac one_line :=
  first [done | apply one_line_int | apply one_line_fixed2 | apply one_line_literal; reflexivity
        | apply one_line_app; [one_line|one_line]].

Lemma report_one_line strftime now m :
  (forall t, one_line (strftime t)) -> Forall one_line (report_lines strftime now m).
Proof.
  intros Ht. assert (Hv : forall b, one_line (verdict b)) by (by intros []; apply one_line_literal).
  unfold report_lines, counter, measure, rule. cbv zeta. repeat apply Forall_app_2;
    repeat match goal with |- Forall _ (if ?c then _ else _) => destruct c end;
    repeat (apply Forall_cons_2; [try solve [one_line]|]); try apply Forall_nil_2.
Qed.

(** *** The counters *)

(** What the report always prints, with its label. *)
Definition report_counters (m : metrics_t) : list (string * Z) :=
  [("Packets Received:   ", packets_received m); ("Packets Sent:       ", packets_sent m);
   ("Packets Dropped:    ", packets_dropped m); ("Bytes Received:     ", bytes_received m);
   ("Bytes Sent:         ", bytes_sent m); ("Total Connections:  ", total_connections m);
   ("Total Disconnections: ", total_disconnections m); ("Handshakes Initiated: ", handshakes_initiated m);
   ("Handshakes Completed: ", handshakes_completed m); ("Handshakes Failed:    ", handshakes_failed m);
   ("Max Queue Depth:    ", max_queue_depth m); ("Queue Drops:        ", queue_drops m);
   ("Backpressure Events: ", backpressure_events m); ("Crypto Errors:      ", crypto_errors m);
   ("Validation Errors:  ", validation_errors m); ("Rate Limit Drops:   ", rate_limit_drops m);
   ("Blacklisted IPs:    ", black_listed_ips m)]%string.

(** Past a line of another label, past an optional section, or at the line. *)
Ltac read_field :=
  cbn [app];
  lazymatch goal with
  | |- field _ ((if _ then _ else _) ++ _) = _ =>
      rewrite field_section by (repeat constructor; apply (after_differ _ (bytes _)); reflexivity); read_field
  | |- field _ ([] :: _) = _ => change_no_check (field ?l ([] :: ?ls)) with (field l ls); read_field
  | |- field ?lab (counter ?l _ _ :: _) = _ =>
      first [apply field_counter; [done|reflexivity] | unfold counter at 1; rewrite field_skip by reflexivity; read_field]
  | |- field _ (measure _ _ _ :: _) = _ => unfold measure at 1; rewrite field_skip by reflexivity; read_field
  | |- field _ ((_ ++ _) :: _) = _ => rewrite field_skip by reflexivity; read_field
  | |- field _ (_ :: _) = _ => rewrite field_skip_end by reflexivity; read_field
  end.

(** The detailed report tells the truth: each counter it always prints can be read back
    from its text, by its label, whatever the other counters, the time and the time
    zone. *)
Theorem report_readable strftime now m :
  (forall t, one_line (strftime t)) -> Forall (fun c => 0 <= c.2) (report_counters m) ->
  Forall (fun c => field (bytes c.1) (lines (metrics_print_detailed_report strftime now m)) = Some c.2) (report_counters m).
Proof.
  intros Ht Hpos. unfold metrics_print_detailed_report. rewrite lines_concat by (by apply report_one_line).
  unfold report_counters, report_lines, rule in *. cbv zeta.
  repeat (apply Forall_cons in Hpos as [? Hpos]; apply Forall_cons_2; [cbn [fst snd] in *; read_field|]). constructor.
Qed.
