(* ===== verification/EpollHandler.v ===== *)
(** The epoll wrapper: chamlon_server/src/epoll_handler.c, which main does not use.

    The kernel's epoll is not part of the repository: it is the class [Epoll], its
    documented behaviour the class [EpollLaws], and [interest] names what an instance
    watches.  [toy_epoll] instantiates both. *)

From stdpp Require Import list gmap.
From S2P Require Import Prelude State Wire.
Local Open Scope Z_scope.

(** ** The kernel *)

Record epoll_event := { ev_events : Z; ev_data : Z }.
Inductive ctl_op := EPOLL_CTL_ADD | EPOLL_CTL_MOD | EPOLL_CTL_DEL.


(** A watch list: each descriptor with what was asked for it. *)
Abbreviation watched := (gmap Z epoll_event).

(** What an operation makes of a watch list; [None] when it is refused. *)
Definition ctl_spec (op : ctl_op) (fd : Z) (ev : option epoll_event) (m : watched) : option watched :=
  match op, m !! fd, ev with
  | EPOLL_CTL_ADD, None, Some ev => Some (<[fd := ev]> m)
  | EPOLL_CTL_MOD, Some _, Some ev => Some (<[fd := ev]> m)
  | EPOLL_CTL_DEL, Some _, _ => Some (delete fd m)
  | _, _, _ => None
  end.

(** What [epoll_wait] returns: the number of events with the events, or [errno]. *)
Inductive waited := Events (evs : list epoll_event) | WaitFailed (errno : Z).

Class Epoll (K : Type) := {
  interest : Z -> K -> option watched;
  epoll_create1 : K -> Z * K;
  epoll_ctl : Z -> ctl_op -> Z -> option epoll_event -> K -> Z * K;
  epoll_wait : Z -> Z -> Z -> K -> waited * K;
  close : Z -> K -> K;
}.

(** Two states of the kernel with the same instances, [epfd] apart. *)
Definition same_but `{Epoll K} (epfd : Z) (k k' : K) : Prop := forall fd, fd <> epfd -> interest fd k' = interest fd k.

Class EpollLaws (K : Type) `{Epoll K} := {
  create_fresh k fd k' : epoll_create1 k = (fd, k') ->
    if fd <? 0 then forall e, interest e k' = interest e k
    else interest fd k = None /\ interest fd k' = Some ∅ /\ same_but fd k k';
  ctl_does epfd op fd ev m k : interest epfd k = Some m -> exists r k', epoll_ctl epfd op fd ev k = (r, k') /\
    same_but epfd k k' /\
    ((0 <= r /\ exists m', ctl_spec op fd ev m = Some m' /\ interest epfd k' = Some m') \/
     (r < 0 /\ interest epfd k' = Some m));
  wait_does epfd n t k : 0 < n -> exists r k', epoll_wait epfd n t k = (r, k') /\
    (forall fd, interest fd k' = interest fd k) /\
    match r with
    | Events evs => Z.of_nat (length evs) <= n /\
        forall m, interest epfd k = Some m -> Forall (fun ev => exists fd ev0, m !! fd = Some ev0 /\ ev_data ev = ev_data ev0) evs
    | WaitFailed _ => True
    end;
  close_does epfd k : interest epfd (close epfd k) = None /\ same_but epfd k (close epfd k);
}.

(** ** The handler *)

(** [events] is the buffer: what the last wait put into it. *)
Record epoll_handler_t := { epfd : Z; events : list epoll_event; max_events : Z; num_events : Z }.
#[global] Instance eta_handler : Settable epoll_handler_t := fun h =>
  {| epfd := epfd h; events := events h; max_events := max_events h; num_events := num_events h |}.

Section handler.
Context {K : Type} `{HK : Epoll K}.

(** A null handler is [None]; [handler_ok] and [events_ok] are the allocations. *)
Definition epoll_handler_create (max_events : Z) (handler_ok events_ok : bool) (k : K) : option epoll_handler_t * K :=
  let max_events := if max_events <=? 0 then 100 else max_events in
  if negb handler_ok then (None, k)
  else
    let '(fd, k) := epoll_create1 k in
    if fd <? 0 then (None, k)
    else if negb events_ok then (None, close fd k)
    else (Some {| epfd := fd; events := []; max_events := max_events; num_events := 0 |}, k).

Definition epoll_handler_destroy (h : option epoll_handler_t) (k : K) : K :=
  match h with
  | None => k
  | Some h => if 0 <=? epfd h then close (epfd h) k else k
  end.

Definition epoll_handler_add (h : option epoll_handler_t) (fd evs data : Z) (k : K) : Z * K :=
  match h with
  | None => (-1, k)
  | Some h =>
      if fd <? 0 then (-1, k)
      else let '(r, k) := epoll_ctl (epfd h) EPOLL_CTL_ADD fd (Some {| ev_events := evs; ev_data := data |}) k in
           (if r <? 0 then -1 else 0, k)
  end.

Definition epoll_handler_mod (h : option epoll_handler_t) (fd evs data : Z) (k : K) : Z * K :=
  match h with
  | None => (-1, k)
  | Some h =>
      if fd <? 0 then (-1, k)
      else let '(r, k) := epoll_ctl (epfd h) EPOLL_CTL_MOD fd (Some {| ev_events := evs; ev_data := data |}) k in
           (if r <? 0 then -1 else 0, k)
  end.

Definition epoll_handler_del (h : option epoll_handler_t) (fd : Z) (k : K) : Z * K :=
  match h with
  | None => (-1, k)
  | Some h =>
      if fd <? 0 then (-1, k)
      else let '(r, k) := epoll_ctl (epfd h) EPOLL_CTL_DEL fd None k in (if r <? 0 then -1 else 0, k)
  end.

(** The result, the handler, and what [events_out] points to when it was set;
    [has_out] is whether the caller passed one. *)
Definition epoll_handler_wait (h : option epoll_handler_t) (timeout_ms : Z) (has_out : bool) (k : K)
    : Z * option epoll_handler_t * option (list epoll_event) * K :=
  match h with
  | None => (-1, None, None, k)
  | Some h =>
      if negb has_out then (-1, Some h, None, k)
      else
        match epoll_wait (epfd h) (max_events h) timeout_ms k with
        | (WaitFailed e, k) =>
            if e =? EINTR then (0, Some (h <| num_events := 0 |>), Some (events h), k) else (-1, Some h, None, k)
        | (Events evs, k) =>
            let n := Z.of_nat (length evs) in
            let buf := evs ++ drop (length evs) (events h) in
            (n, Some (h <| events := buf |> <| num_events := n |>), Some buf, k)
        end
  end.

Definition epoll_handler_event_count (h : option epoll_handler_t) : Z :=
  match h with None => 0 | Some h => num_events h end.

(** ** Runs *)

Inductive handler_op :=
  | Add (fd evs data : Z)
  | Mod (fd evs data : Z)
  | Del (fd : Z)
  | Wait (timeout_ms : Z).

Definition handler_step (op : handler_op) (h : epoll_handler_t) (k : K) : Z * epoll_handler_t * K :=
  match op with
  | Add fd evs data => let '(r, k) := epoll_handler_add (Some h) fd evs data k in (r, h, k)
  | Mod fd evs data => let '(r, k) := epoll_handler_mod (Some h) fd evs data k in (r, h, k)
  | Del fd => let '(r, k) := epoll_handler_del (Some h) fd k in (r, h, k)
  | Wait t => let '(r, h', _, k) := epoll_handler_wait (Some h) t true k in (r, default h h', k)
  end.

Fixpoint handler_run (ops : list handler_op) (h : epoll_handler_t) (k : K) : list Z * epoll_handler_t * K :=
  match ops with
  | [] => ([], h, k)
  | op :: ops =>
      let '(r, h, k) := handler_step op h k in
      let '(rs, h, k) := handler_run ops h k in (r :: rs, h, k)
  end.

(** What an operation that returned [r] does to the watch list; [None] when it should
    not have returned that. *)
Definition spec_step (m : watched) (op : handler_op) (r : Z) : option watched :=
  match op with
  | Wait _ => Some m
  | _ => if r =? -1 then Some m else if negb (r =? 0) then None else
      match op with
      | Add fd evs data => ctl_spec EPOLL_CTL_ADD fd (Some {| ev_events := evs; ev_data := data |}) m
      | Mod fd evs data => ctl_spec EPOLL_CTL_MOD fd (Some {| ev_events := evs; ev_data := data |}) m
      | Del fd => ctl_spec EPOLL_CTL_DEL fd None m
      | Wait _ => Some m
      end
  end.
Fixpoint spec_run (m : watched) (ops : list handler_op) (rs : list Z) : option watched :=
  match ops, rs with
  | [], [] => Some m
  | op :: ops, r :: rs => m ← spec_step m op r; spec_run m ops rs
  | _, _ => None
  end.

(** A live handler whose instance watches [m]. *)
Record handler_rep (h : epoll_handler_t) (k : K) (m : watched) : Prop := {
  hr_interest : interest (epfd h) k = Some m;
  hr_epfd : 0 <= epfd h;
  hr_max : 0 < max_events h;
  hr_count : 0 <= num_events h <= max_events h /\ num_events h <= Z.of_nat (length (events h));
}.

Context `{!EpollLaws K}.

Lemma same_but_trans e (k1 k2 k3 : K) : same_but e k1 k2 -> same_but e k2 k3 -> same_but e k1 k3.
Proof. intros H1 H2 fd Hfd. by rewrite H2, H1. Qed.

Lemma ctl_step h k m op fd ev :
  handler_rep h k m ->
  exists r k', (if fd <? 0 then (-1, k) else let '(r, k) := epoll_ctl (epfd h) op fd ev k in (if r <? 0 then -1 else 0, k)) = (r, k') /\
    same_but (epfd h) k k' /\
    ((r = 0 /\ exists m', ctl_spec op fd ev m = Some m' /\ handler_rep h k' m') \/ (r = -1 /\ handler_rep h k' m)).
Proof.
  intros [Hi He Hm Hc]. destruct (fd <? 0); [exists (-1), k; split; [done|]; split; [done|]; by right|].
  destruct (ctl_does (epfd h) op fd ev m k Hi) as (r & k' & -> & Hs & Hr).
  destruct Hr as [(Hr & m' & Hm' & Hi')|[Hr Hi']].
  - exists 0, k'. destruct (Z.ltb_spec r 0); [lia|]. split; [done|]. split; [done|]. left. split; [done|]. by exists m'.
  - exists (-1), k'. destruct (Z.ltb_spec r 0); [|lia]. split; [done|]. split; [done|]. by right.
Qed.

Lemma handler_step_ok op h k m :
  handler_rep h k m -> exists r h' k' m', handler_step op h k = (r, h', k') /\ spec_step m op r = Some m' /\
    handler_rep h' k' m' /\ epfd h' = epfd h /\ max_events h' = max_events h /\ same_but (epfd h) k k' /\ -1 <= r <= max_events h.
Proof.
  intros Hrep. pose proof (hr_max _ _ _ Hrep) as Hmax. assert (Hctl : forall op0 fd ev, exists r k' m',
    (if fd <? 0 then (-1, k) else let '(r, k) := epoll_ctl (epfd h) op0 fd ev k in (if r <? 0 then -1 else 0, k)) = (r, k') /\
    same_but (epfd h) k k' /\ handler_rep h k' m' /\ -1 <= r <= max_events h /\
    (if r =? -1 then Some m else if negb (r =? 0) then None else ctl_spec op0 fd ev m) = Some m').
  { intros op0 fd ev. destruct (ctl_step h k m op0 fd ev Hrep) as (r & k' & E & Hs & [(-> & m' & Hm' & Hr')|(-> & Hr')]).
    - exists 0, k', m'. split_and!; try done; lia.
    - exists (-1), k', m. split_and!; try done; lia. }
  destruct op as [fd evs data|fd evs data|fd|t]; cbn [handler_step epoll_handler_add epoll_handler_mod epoll_handler_del].
  1-3: edestruct Hctl as (r & k' & m' & E & Hs & Hr' & Hb & Hsp); rewrite E; exists r, h, k', m'; split_and!; solve [done | lia | exact Hsp].
  cbn [epoll_handler_wait negb]. destruct (wait_does (epfd h) (max_events h) t k Hmax) as (w & k' & -> & Hsame & Hw).
  destruct Hrep as [Hi He Hm [Hc Hl]]. assert (Hi' : interest (epfd h) k' = Some m) by (by rewrite Hsame).
  destruct w as [evs|e].
  - destruct Hw as [Hn _]. do 4 eexists. split; [reflexivity|]. split; [reflexivity|]. split; [|split_and!; [done|done|by intros fd _|lia|lia]].
    constructor; cbn; [done|done|done|]. rewrite length_app. lia.
  - destruct (e =? EINTR); (do 4 eexists; split; [reflexivity|]; split; [reflexivity|]; split; [|split_and!; [done|done|by intros fd _|lia|lia]]).
    + constructor; cbn; [done|done|done|lia].
    + by constructor.
Qed.

Lemma handler_run_ok ops : forall h k m, handler_rep h k m ->
  exists rs h' k' m', handler_run ops h k = (rs, h', k') /\ spec_run m ops rs = Some m' /\ handler_rep h' k' m' /\
    epfd h' = epfd h /\ max_events h' = max_events h /\ same_but (epfd h) k k' /\ Forall (fun r => -1 <= r <= max_events h) rs.
Proof.
  induction ops as [|op ops IH]; intros h k m Hrep; cbn [handler_run]; [by exists [], h, k, m|].
  destruct (handler_step_ok op h k m Hrep) as (r & h1 & k1 & m1 & -> & Hsp & Hrep1 & He1 & Hmx & Hs1 & Hb).
  destruct (IH h1 k1 m1 Hrep1) as (rs & h2 & k2 & m2 & -> & Hsp2 & Hrep2 & He2 & Hm2 & Hs2 & Hbs).
  exists (r :: rs), h2, k2, m2. cbn [spec_run]. rewrite Hsp. split; [done|]. split; [exact Hsp2|]. split; [done|]. split; [congruence|]. split; [congruence|].
  rewrite He1 in Hs2. split; [by eapply same_but_trans|]. rewrite Hmx in Hbs. by constructor.
Qed.

(** The wrapper keeps a watch list: creation either opens one empty instance or leaves
    none open; after any operations, with any of them refused by the kernel, the
    instance watches exactly what the operations that returned 0 ask for, every
    other instance is as it was, every result is -1, 0 or a number of events within
    the buffer; and destroying the handler closes the instance. *)
Theorem handler_refines max_events handler_ok events_ok ops k :
  match epoll_handler_create max_events handler_ok events_ok k with
  | (None, k1) => forall e m, interest e k1 = Some m -> interest e k = Some m
  | (Some h, k1) =>
      exists rs h' k' m', handler_run ops h k1 = (rs, h', k') /\ spec_run ∅ ops rs = Some m' /\
        interest (epfd h) k' = Some m' /\ same_but (epfd h) k k' /\
        Forall (fun r => -1 <= r <= (if max_events <=? 0 then 100 else max_events)) rs /\
        0 <= epoll_handler_event_count (Some h') <= (if max_events <=? 0 then 100 else max_events) /\
        interest (epfd h) (epoll_handler_destroy (Some h') k') = None /\
        same_but (epfd h) k (epoll_handler_destroy (Some h') k')
  end.
Proof.
  unfold epoll_handler_create. set (n := if max_events <=? 0 then 100 else max_events).
  assert (Hn : 0 < n) by (subst n; destruct (Z.leb_spec max_events 0); lia).
  destruct handler_ok; cbn [negb]; [|done]. destruct (epoll_create1 k) as [fd k1] eqn:E.
  pose proof (create_fresh k fd k1 E) as Hf. destruct (Z.ltb_spec fd 0); [intros e m; by rewrite Hf|].
  destruct Hf as (Hnone & Hempty & Hs). destruct events_ok; cbn [negb].
  - assert (Hrep : handler_rep {| epfd := fd; events := []; max_events := n; num_events := 0 |} k1 ∅) by (constructor; cbn; [done|lia..]).
    destruct (handler_run_ok ops _ k1 ∅ Hrep) as (rs & h' & k' & m' & Er & Hsp & [Hi He Hm [Hc Hl]] & Hfd & Hmx & Hs' & Hb). cbn in Hfd, Hmx, Hs', Hb.
    exists rs, h', k', m'. split; [done|]. split; [done|]. cbn [epfd] in *. rewrite Hfd in Hi. split; [done|].
    split; [by eapply same_but_trans|]. split; [done|]. split.
    + cbn [epoll_handler_event_count]. lia.
    + cbn [epoll_handler_destroy]. rewrite Hfd, (proj2 (Z.leb_le 0 fd)) by done. destruct (close_does fd k') as [Hcl Hso].
      split; [done|]. eapply same_but_trans; [exact Hs|]. by eapply same_but_trans.
  - destruct (close_does fd k1) as [Hcl Hso]. intros e m He. destruct (decide (e = fd)) as [->|Hne]; [congruence|].
    by rewrite Hso, Hs in He.
Qed.

End handler.

(** ** A kernel *)

Definition toy_kernel : Type := gmap nat watched.
Definition toy_interest (fd : Z) (k : toy_kernel) : option watched := if fd <? 0 then None else k !! Z.to_nat fd.

#[local] Instance toy_epoll : Epoll toy_kernel := {|
  interest := toy_interest;
  epoll_create1 k := let n := fresh (dom k) in (Z.of_nat n, <[n := ∅]> k);
  epoll_ctl epfd op fd ev k :=
    match toy_interest epfd k ≫= ctl_spec op fd ev with
    | Some m => (0, <[Z.to_nat epfd := m]> k)
    | None => (-1, k)
    end;
  epoll_wait epfd n t k :=
    match toy_interest epfd k with
    | Some m => (Events (take (Z.to_nat n) (snd <$> map_to_list m)), k)
    | None => (WaitFailed 9, k)
    end;
  close fd k := if fd <? 0 then k else delete (Z.to_nat fd) k;
|}.

Lemma toy_insert epfd m (k : toy_kernel) fd :
  0 <= epfd -> interest fd (<[Z.to_nat epfd := m]> k) = if decide (fd = epfd) then Some m else interest fd k.
Proof.
  intros He. cbn. unfold toy_interest. case_decide as Hd.
  - subst. destruct (Z.ltb_spec epfd 0); [lia|]. apply lookup_insert_eq.
  - destruct (Z.ltb_spec fd 0); [done|]. apply lookup_insert_ne. lia.
Qed.

#[local] Instance toy_epoll_laws : EpollLaws toy_kernel.
Proof.
  split.
  - intros k fd k' [= <- <-]. set (n := fresh (dom k)). destruct (Z.ltb_spec (Z.of_nat n) 0); [lia|].
    assert (Hn : k !! n = None) by (apply not_elem_of_dom, is_fresh). split; [|split].
    + cbn. unfold toy_interest. destruct (Z.ltb_spec (Z.of_nat n) 0); [lia|]. by rewrite Nat2Z.id.
    + rewrite <- (Nat2Z.id n) at 2. rewrite toy_insert by lia. by rewrite decide_True.
    + intros fd Hfd. rewrite <- (Nat2Z.id n). rewrite toy_insert by lia. by rewrite decide_False.
  - intros epfd op fd ev m k Hm. cbn. cbn in Hm. rewrite Hm. cbn. assert (He : 0 <= epfd).
    { unfold toy_interest in Hm. destruct (Z.ltb_spec epfd 0); [done|lia]. }
    destruct (ctl_spec op fd ev m) as [m'|] eqn:Hc; (do 2 eexists; split; [reflexivity|]).
    + split; [intros fd' Hfd; rewrite toy_insert by done; by rewrite decide_False|].
      left. split; [lia|]. exists m'. split; [done|]. pose proof (toy_insert epfd m' k epfd He) as Hi. by rewrite decide_True in Hi.
    + split; [by intros ?|]. right. by split; [lia|].
  - intros epfd n t k Hn. cbn. destruct (toy_interest epfd k) as [m|] eqn:Hm; (do 2 eexists; split; [reflexivity|]); [|done].
    split; [done|]. split; [rewrite length_take; lia|]. intros m' [= <-]. apply Forall_forall. intros ev Hev.
    eapply elem_of_subseteq in Hev; [|apply subseteq_take]. apply list_elem_of_fmap in Hev as ([fd ev0] & -> & Hin).
    apply elem_of_map_to_list in Hin. by exists fd, ev0.
  - intros epfd k. cbn. unfold toy_interest, same_but. cbn. unfold toy_interest. destruct (Z.ltb_spec epfd 0) as [|He]; [done|]. split; [apply lookup_delete_eq|].
    intros fd Hfd. destruct (Z.ltb_spec fd 0); [done|]. apply lookup_delete_ne. lia.
Qed.

(** Two descriptors watched, one of them twice, one given up. *)
Example handler_demo :
  let ops := [Add 5 1 50; Add 6 1 60; Add 5 1 51; Mod 6 3 61; Del 5; Wait 100; Del 7; Add (-1) 1 0] in
  match epoll_handler_create 0 true true (∅ : toy_kernel) with
  | (Some h, k) => (handler_run ops h k).1.1 = [0; 0; -1; 0; 0; 1; -1; -1]
  | (None, _) => False
  end.
Proof. by vm_compute. Qed.
