(* ===== verification/Server.v ===== *)
(** The server's shared state and the operations on it that other components
    call: the session table (src/session.c), reassembly entries (src/fragment.c),
    control and dummy packets (src/packet.c), and the entry point of the send
    scheduler (scheduler_add_session in src/scheduler.c).

    A [world] holds the program's global objects and its environment: the clocks,
    the results of the allocations and sends to come, and the trace of what was
    sent.  An operation is a state transformer that may be undefined.  Which thread
    holds a lock is not part of the state; each operation here runs as the critical
    section or single-thread step the locks and shard routing make of it.  Whether the
    metrics' mutex exists is, because main destroys it before its last use. *)

From stdpp Require Import list gmap.
From S2P Require Import Prelude State ReplayWindow OutQueue TaskHeap RateLimiter Metrics Crypto Wire Fragment.
Local Open Scope Z_scope.

(** ** Data *)

(** [outq] is the abstract queue of OutQueue: [push_refines], [pop_refines] and
    [destroy_frees_all] relate it to the linked one.  [None] is the null pointer. *)
Record session_t := {
  active : bool;
  s_udp_sock : Z;
  session_id : list byte;
  k_recv : list byte;
  k_send : list byte;
  send_seq : Z;
  last_recv_seq : Z;
  client_addr : sockaddr_in;
  client_addrlen : Z;
  vpn_ip : list byte;
  g_reassembly_table : list reassembly_entry_t;
  outq : option aqueue;
  last_activity : Z;
  last_activity_keepalive : Z;
  argv_MBPS : Z;
  argv_FRAG : Z;
  argv_CBR : byte;
  argv_PAD : byte;
  rw : replay_window_t;
  dummy_payload : list byte;
  final_pkt_dummy : list byte;
  static_hdr_len : Z;
}.
#[global] Instance eta_session : Settable session_t := fun s =>
  {| active := active s; s_udp_sock := s_udp_sock s; session_id := session_id s; k_recv := k_recv s;
     k_send := k_send s; send_seq := send_seq s; last_recv_seq := last_recv_seq s;
     client_addr := client_addr s; client_addrlen := client_addrlen s; vpn_ip := vpn_ip s;
     g_reassembly_table := g_reassembly_table s; outq := outq s; last_activity := last_activity s;
     last_activity_keepalive := last_activity_keepalive s; argv_MBPS := argv_MBPS s;
     argv_FRAG := argv_FRAG s; argv_CBR := argv_CBR s; argv_PAD := argv_PAD s; rw := rw s;
     dummy_payload := dummy_payload s; final_pkt_dummy := final_pkt_dummy s;
     static_hdr_len := static_hdr_len s |}.

Definition session_zero : session_t :=
  {| active := false; s_udp_sock := 0; session_id := zeros SESSION_ID_LEN; k_recv := zeros AEAD_KEY_LEN;
     k_send := zeros AEAD_KEY_LEN; send_seq := 0; last_recv_seq := 0;
     client_addr := {| sin_family := 0; sin_addr := 0; sin_port := 0 |}; client_addrlen := 0;
     vpn_ip := zeros 4; g_reassembly_table := replicate MAX_REASSEMBLY_ENTRIES entry_zero; outq := None;
     last_activity := 0; last_activity_keepalive := 0; argv_MBPS := 0; argv_FRAG := 0;
     argv_CBR := z2b 0; argv_PAD := z2b 0; rw := window_zero; dummy_payload := zeros (Z.to_nat MAX_FRAG);
     final_pkt_dummy := zeros (Z.to_nat MAX_FRAG); static_hdr_len := 0 |}.

(** [mallocs] and [sends] list the results of the allocations and [sendto] calls to
    come, success once the list is used up.  [now] and [mono] are the readings of
    the two clocks while the operation runs.  [stack_junk] is what a fresh
    16-byte stack object contains.  [g_sign_sk] is [None] until the key is loaded.
    [metrics_lock] says whether the mutex [global_metrics.lock] is initialised. *)
Record world := {
  sessions : list session_t;
  g_next_packet_id_atomic : Z;
  global_metrics : metrics_t;
  metrics_lock : bool;
  rl : rate_limiter_t;
  g_shards : list (option priority_queue_t);
  g_sign_sk : option (list byte);
  now : Z;
  mono : timespec;
  mallocs : list bool;
  sends : list bool;
  stack_junk : list byte;
  trace : list event;
}.
#[global] Instance eta_world : Settable world := fun w =>
  {| sessions := sessions w; g_next_packet_id_atomic := g_next_packet_id_atomic w;
     global_metrics := global_metrics w; metrics_lock := metrics_lock w; rl := rl w; g_shards := g_shards w; g_sign_sk := g_sign_sk w;
     now := now w; mono := mono w; mallocs := mallocs w; sends := sends w; stack_junk := stack_junk w;
     trace := trace w |}.

(** ** State transformers *)

Abbreviation M := (ST world).

(** [pthread_mutex_lock(&global_metrics.lock)]. *)
Definition lock_metrics : M unit := fun w => if metrics_lock w then Ok (tt, w) else Err DestroyedMutex.
(** An operation of metrics.c, a critical section. *)
Definition metric (f : metrics_t -> metrics_t) : M unit := _ ← lock_metrics; modify (fun w => w <| global_metrics ::= f |>).
Definition metrics_destroy : M unit := modify (fun w => w <| metrics_lock := false |>).
Definition emit (e : event) : M unit := modify (fun w => w <| trace ::= (fun t => t ++ [e]) |>).

Definition malloc : M bool := fun w =>
  match mallocs w with [] => Ok (true, w) | b :: bs => Ok (b, w <| mallocs := bs |>) end.

(** [sendto] of the whole buffer: [false] when it fails or is partial. *)
Definition sendto (sock : Z) (data : list byte) (dst : sockaddr_in) : M bool := fun w =>
  match sends w with
  | [] => Ok (true, w <| trace ::= (fun t => t ++ [UdpSend sock dst data]) |>)
  | true :: bs => Ok (true, w <| trace ::= (fun t => t ++ [UdpSend sock dst data]) |> <| sends := bs |>)
  | false :: bs => Ok (false, w <| sends := bs |>)
  end.

(** [sessions[i]] and assignment to its fields. *)
Definition session (i : nat) : M session_t := fun w =>
  match sessions w !! i with Some s => Ok (s, w) | None => Err OutOfBounds end.
Definition update (i : nat) (f : session_t -> session_t) : M unit := fun w =>
  match sessions w !! i with
  | Some s => Ok (tt, w <| sessions ::= <[i := f s]> |>)
  | None => Err OutOfBounds
  end.

(** ** session.c *)

Definition allocate_session : M (option nat) :=
  ss ← get sessions;
  match first_index (fun s => negb (active s)) ss with
  | Some i => _ ← update i (fun s => s <| rw := window_zero |>); mret (Some i)
  | None => mret None
  end.

(** The scan of [session_by_id]: [memcmp] reads the caller's 16 bytes only when it
    reaches an active session, so reading past the packet is undefined only then. *)
Fixpoint scan_id (sid : outcome (list byte)) (ss : list session_t) : outcome (option nat) :=
  match ss with
  | [] => Ok None
  | s :: ss =>
      hit ← (if active s then sid ← sid; Ok (bool_decide (session_id s = sid)) else Ok false);
      if (hit : bool) then Ok (Some O) else (r ← scan_id sid ss; Ok (fmap (M:=option) S r))
  end.

Definition session_by_id (sid : outcome (list byte)) : M (option nat) :=
  ss ← get sessions; lift (scan_id sid ss).

Definition session_by_vpnip (ip : list byte) : M (option nat) :=
  ss ← get sessions;
  mret (first_index (fun s => active s && bool_decide (vpn_ip s = ip)) ss).

Definition assign_vpn_ip_to_session (i : nat) : M unit :=
  update i (fun s => s <| vpn_ip := [z2b 10; z2b 10; z2b 0; z2b (u8 (2 + Z.of_nat i))] |>).

(** The fields cleared when a slot is given up. *)
Definition wipe (s : session_t) : session_t :=
  s <| k_recv := zeros AEAD_KEY_LEN |> <| k_send := zeros AEAD_KEY_LEN |>
    <| session_id := zeros SESSION_ID_LEN |> <| active := false |> <| send_seq := 0 |>
    <| last_recv_seq := 0 |> <| client_addr ::= (fun a => a <| sin_family := 0 |>) |>
    <| client_addrlen := 0 |> <| vpn_ip := zeros 4 |> <| last_activity := 0 |>.

Definition free_session (i : nat) : M unit :=
  s ← session i;
  if negb (active s) then mret tt
  else
    _ ← metric metrics_record_connection_closed;
    update i (fun s => wipe (s <| outq := None |>)).

(** ** fragment.c *)

Definition fragment_next_packet_id : M Z := fun w =>
  let fetch_add w := (g_next_packet_id_atomic w, w <| g_next_packet_id_atomic := u16 (g_next_packet_id_atomic w + 1) |>) in
  let '(id, w) := fetch_add w in
  if id =? 0 then Ok (fetch_add w) else Ok (id, w).

Definition sweep_reassembly_table : M unit :=
  t ← get now;
  modify (fun w => w <| sessions ::= fmap (fun s => s <| g_reassembly_table ::= fmap (expire_entry t) |>) |>).

(** ** packet.c *)

Section packet.
Context `{Sod : Sodium}.

(** [atomic_fetch_add(&s->send_seq, 1)] *)
Definition next_seq (i : nat) : M Z :=
  s ← session i; _ ← update i (fun s => s <| send_seq := u64 (send_seq s + 1) |>); mret (send_seq s).

(** [(size_t) argv_FRAG] *)
Definition frag_size (s : session_t) : Z := u64 (argv_FRAG s).

Definition send_control_packet (udp_sock : Z) (i : nat) (ctrl_type : Z) : M unit :=
  s ← session i;
  if negb (active s) then mret tt
  else
    let frag_len := frag_size s in
    if (MAX_FRAG <? frag_len) || (frag_len <? 64) then mret tt
    else
      seq ← next_seq i;
      junk ← get stack_junk;
      let header := {| packet_id := 1; fragment_offset := 1; total_ip_len := 1; flags := ctrl_type;
                       th_session_id := junk |} in
      let buf2 := tunnel_bytes header ++
                  replicate (Z.to_nat frag_len - sizeof_tunnel_header) (z2b 0x77) in
      ct ← lift (encrypt (k_send s) (session_id s) seq buf2);
      match ct with
      | None => mret tt
      | Some out =>
          let pktlen := Z.of_nat (DATA_HEADER_LEN + length out) in
          if BUFFER_SIZE <? pktlen then mret tt
          else _ ← sendto udp_sock (data_packet (session_id s) seq out) (client_addr s); mret tt
      end.

(** The session's pre-built dummy packet and its plaintext. *)
Definition dummy_parts (s : session_t) : outcome session_t :=
  p ← memcpy (final_pkt_dummy s) 0 (proto_bytes data_header);
  p ← memcpy p sizeof_proto_header (session_id s);
  let frag_len := frag_size s in
  let frag_len := if (MAX_FRAG <? frag_len) || (frag_len <? 64) then 1024 else frag_len in
  let th := {| packet_id := 1; fragment_offset := 1; total_ip_len := 1; flags := PKT_DUMMY;
               th_session_id := zeros SESSION_ID_LEN |} in
  d ← memcpy (dummy_payload s) 0 (tunnel_bytes th);
  d ← (if Z.of_nat sizeof_tunnel_header <? frag_len
       then memcpy d sizeof_tunnel_header (replicate (Z.to_nat frag_len - sizeof_tunnel_header) (z2b 0x99))
       else Ok d);
  Ok (s <| final_pkt_dummy := p |> <| dummy_payload := d |>
        <| static_hdr_len := Z.of_nat (sizeof_proto_header + SESSION_ID_LEN) |>).

Definition prepare_dummy_static_parts (i : nat) : M unit :=
  s ← session i; s' ← lift (dummy_parts s); update i (fun _ => s').

(** ** Expiry of sessions (session.c) *)

Definition expire_session (udp_sock : Z) (i : nat) : M unit :=
  s ← session i;
  t ← get now;
  if negb (active s) then mret tt
  else if SESSION_TIMEOUT_SEC <? t - last_activity s then
    _ ← send_control_packet udp_sock i PKT_CTRL_DISCONNECT;
    _ ← metric metrics_record_connection_closed;
    update i wipe
  else mret tt.

Definition cleanup_expired_sessions (udp_sock : Z) : M unit :=
  for_from 0 MAX_CLIENTS (expire_session udp_sock).

End packet.

(** ** Entry point of the scheduler (scheduler.c) *)

Definition NUM_SHARDS : Z := 4.

(** [pq_push] into shard [k]; growing the heap is one more allocation. *)
Definition shard_push (k : nat) (task : scheduler_task_t) : M unit :=
  shards ← get g_shards;
  match shards !! k with
  | None => lift (Err OutOfBounds)
  | Some None => lift (Err NullDeref)
  | Some (Some pq) =>
      grown ← (if Z.of_nat (TaskHeap.size pq) =? TaskHeap.capacity pq then malloc else mret true);
      pq ← lift (pq_push grown pq task);
      modify (fun w => w <| g_shards ::= <[k := Some pq]> |>)
  end.

Definition scheduler_add_session (sid : list byte) : M unit :=
  ok ← malloc;
  if negb ok then mret tt
  else
    t ← get mono;
    b ← lift (byte_at sid 0);
    shard_push (Z.to_nat (b mod NUM_SHARDS)) {| next_run := t; TaskHeap.session_id := sid |}.

(** [packet_queue_push] on the session's queue. *)
Definition queue_push (i : nat) (pk : list byte) (sq : Z) (ip : list byte) : M unit :=
  s ← session i;
  match outq s with
  | None => mret tt
  | Some q =>
      prio ← lift (classify_packet (Some ip) (length ip));
      ok ← malloc;
      if negb ok then mret tt
      else
        _ ← when (aq_full prio q) (metric metrics_record_queue_drop);
        update i (fun s => s <| outq := Some (aq_push {| pkt := pk; pktlen := Z.of_nat (length pk);
                                                         seq := sq; priority := prio |} q) |>)
  end.

(** [out_queue_pop] on the session's queue; it locks the queue's mutex first. *)
Definition queue_pop (i : nat) : M (option out_data) :=
  s ← session i;
  match outq s with
  | None => lift (Err NullDeref)
  | Some q =>
      match aq_pop q with
      | None => mret None
      | Some (d, q') => _ ← update i (fun s => s <| outq := Some q' |>); mret (Some d)
      end
  end.
