(* ===== verification/Handshake.v ===== *)
(** The server side of the key exchange: handle_msg1 and handle_rehandshake_msg1
    of chamlon_server/src/handshake.c.

    The ephemeral key pair and the nonce are random: each call takes the secret
    key and nonce it draws, and the public key is the one libsodium derives. *)

From stdpp Require Import list gmap.
From S2P Require Import Prelude State ReplayWindow OutQueue TaskHeap RateLimiter Metrics Crypto Wire Fragment Server.
Local Open Scope Z_scope.

Definition MSG1_LEN : nat := PUBKEY_LEN + 8.
Definition PARAMS : nat := 4 + 4 + 1 + 1.
Definition MSG1_PACKET_LEN : nat := sizeof_proto_header + MSG1_LEN + PARAMS.

(** An [int] read from four little-endian bytes. *)
Definition int_value (bs : list byte) : Z :=
  let z := le_value bs in if z <? 2 ^ 31 then z else z - 2 ^ 32.

(** The session parameters of MSG1, each replaced by its default when out of range. *)
Definition clamp_mbps (v : Z) : Z :=
  if (v <? CONFIG_MIN_MBPS) || (CONFIG_MAX_MBPS <? v) then CONFIG_DEFAULT_MBPS else v.
Definition clamp_frag (v : Z) : Z :=
  if (v <? CONFIG_MIN_FRAG_PARAM) || (CONFIG_MAX_FRAG_PARAM <? v) then CONFIG_DEFAULT_FRAG_PARAM else v.
Definition clamp_flag (c : byte) : byte := if bool_decide (c = ch_Y) || bool_decide (c = ch_N) then c else ch_N.

Definition same_peer (s : session_t) (src : sockaddr_in) : bool :=
  active s && (sin_addr (client_addr s) =? sin_addr src) && (sin_port (client_addr s) =? sin_port src).

Section handshake.
Context `{Sod : Sodium}.

Record ephemeral := { s_priv : list byte; s_nonce : list byte }.
Definition s_pub (e : ephemeral) : list byte := scalarmult_base (s_priv e).

(** Both Diffie-Hellman results, the two keys and the session id; [None] when a
    scalar multiplication fails. *)
Definition session_secrets (e : ephemeral) (server_sk c_pub c_nonce : list byte)
    : option (list byte * list byte * list byte) :=
  dh1 ← scalarmult (s_priv e) c_pub;
  dh2 ← scalarmult server_sk c_pub;
  let shared := dh1 ++ dh2 in
  let context := c_nonce ++ s_nonce e in
  let '(k1, k2) := derive_two_keys shared context in
  let sid_input := shared ++ c_nonce ++ s_nonce e ++ c_pub ++ s_pub e in
  Some (k1, k2, generichash SESSION_ID_LEN sid_input).

(** s_pub | s_nonce | c_pub | c_nonce *)
Definition to_sign (e : ephemeral) (c_pub c_nonce : list byte) : list byte :=
  s_pub e ++ s_nonce e ++ c_pub ++ c_nonce.

(** proto_header | s_pub(32) | s_nonce(8) | vpn_ip(4) | sig(64) *)
Definition msg2_packet (e : ephemeral) (ip sig : list byte) : list byte :=
  proto_bytes handshake_header ++ s_pub e ++ s_nonce e ++ ip ++ sig.

(** The loop that frees another session of the same peer. *)
Definition replace_old_session (i : nat) (src : sockaddr_in) : M unit :=
  ss ← get sessions;
  match first_index (fun p : nat * session_t => negb (bool_decide (p.1 = i)) && same_peer p.2 src)
          (imap pair ss) with
  | None => mret tt
  | Some j =>
      _ ← update j (fun s => s <| k_recv := zeros AEAD_KEY_LEN |> <| k_send := zeros AEAD_KEY_LEN |>
                              <| session_id := zeros SESSION_ID_LEN |> <| outq := None |>
                              <| active := false |>);
      metric metrics_record_connection_closed
  end.

(** [goto fail_dh] *)
Definition fail_dh (i : nat) : M Z := _ ← free_session i; mret (-1).

(** The end of [handle_msg1]: replacing the peer's old session, the queue, the
    scheduler task and MSG2. *)
Definition finish_msg1 (i : nat) (udp_sock : Z) (sid msg2 : list byte) (src : sockaddr_in) (t : Z) : M Z :=
  _ ← replace_old_session i src;
  ok ← malloc;
  _ ← update i (fun s => s <| client_addr := src |> <| client_addrlen := 16 |>
                           <| last_activity := t |>
                           <| outq := if ok : bool then Some aq_empty else None |>);
  if negb ok then fail_dh i
  else
    _ ← scheduler_add_session sid;
    sent ← sendto udp_sock msg2 src;
    if negb sent then fail_dh i
    else
      _ ← metric metrics_record_handshake_completed;
      _ ← lock_metrics;
      m ← get global_metrics;
      m ← lift (metrics_record_connection_established m);
      _ ← modify (fun w => w <| global_metrics := m |>);
      _ ← update i (fun s => s <| last_activity_keepalive := t |>);
      mret 0.

(** [handle_msg1] once slot [i] is allocated: parameters, MSG2, keys, activation. *)
Definition handle_msg1_slot (e : ephemeral) (udp_sock : Z) (msg1 : list byte) (src : sockaddr_in)
    (server_sk g_sign_sk : list byte) (i : nat) : M Z :=
  let h := sizeof_proto_header in
  let c_pub := take PUBKEY_LEN (drop h msg1) in
  let c_nonce := take 8 (drop (h + PUBKEY_LEN) msg1) in
  t ← get now;
  _ ← assign_vpn_ip_to_session i;
  let params := drop (h + PUBKEY_LEN + 8) msg1 in
  cbr ← lift (slot_read params 8);
  pad ← lift (slot_read params 9);
  _ ← update i (fun s =>
        s <| argv_MBPS := clamp_mbps (int_value (take 4 params)) |>
          <| argv_FRAG := clamp_frag (int_value (take 4 (drop 4 params))) |>
          <| argv_CBR := clamp_flag cbr |> <| argv_PAD := clamp_flag pad |>);
  match sign_detached g_sign_sk (to_sign e c_pub c_nonce) with
  | None => fail_dh i
  | Some sig =>
    s ← session i;
    let msg2 := msg2_packet e (vpn_ip s) sig in
    match session_secrets e server_sk c_pub c_nonce with
    | None => fail_dh i
    | Some (k1, k2, sid) =>
      _ ← update i (fun s => s <| k_recv := k1 |> <| k_send := k2 |> <| s_udp_sock := udp_sock |>
                               <| session_id := sid |>);
      _ ← prepare_dummy_static_parts i;
      _ ← update i (fun s => s <| send_seq := 0 |> <| last_recv_seq := 0 |> <| active := true |>);
      finish_msg1 i udp_sock sid msg2 src t
    end
  end.

Definition handle_msg1 (e : ephemeral) (udp_sock : Z) (msg1 : list byte) (src : sockaddr_in)
    (server_sk : list byte) : M Z :=
  sk ← get g_sign_sk;
  match sk with
  | None => mret (-1)
  | Some g_sign_sk =>
    _ ← metric metrics_record_handshake_initiated;
    t ← get now;
    r ← get rl;
    rc ← lift (check_handshake_rate_limit t t t r (sin_addr src));
    _ ← modify (fun w => w <| rl := rc.2 |>);
    match rc.1 with
    | RATE_LIMIT_BLACKLISTED =>
        _ ← metric metrics_record_handshake_failed;
        _ ← metric metrics_record_blacklist_event;
        mret (-1)
    | RATE_LIMIT_EXCEEDED => _ ← metric metrics_record_handshake_failed; mret (-1)
    | RATE_LIMIT_OK =>
      if negb (bool_decide (length msg1 = MSG1_PACKET_LEN)) then mret (-1)
      else
        slot ← allocate_session;
        match slot with
        | None => _ ← metric metrics_record_handshake_failed; mret (-1)
        | Some i => handle_msg1_slot e udp_sock msg1 src server_sk g_sign_sk i
        end
    end
  end.

(** [e] is the key pair of the key rotation, [e'] the one drawn when it falls back
    to a full handshake. *)
Definition handle_rehandshake_msg1 (e e' : ephemeral) (udp_sock : Z) (msg1 : list byte)
    (src : sockaddr_in) (server_sk : list byte) : M Z :=
  if negb (bool_decide (length msg1 = MSG1_PACKET_LEN)) then mret (-1)
  else
    ss ← get sessions;
    match first_index (fun s => same_peer s src) ss with
    | None => handle_msg1 e' udp_sock msg1 src server_sk
    | Some i =>
      let h := sizeof_proto_header in
      let c_pub := take PUBKEY_LEN (drop h msg1) in
      let c_nonce := take 8 (drop (h + PUBKEY_LEN) msg1) in
      sk ← get g_sign_sk;
      match session_secrets e server_sk c_pub c_nonce with
      | None => handle_msg1 e' udp_sock msg1 src server_sk
      | Some (k1, k2, new_sid) =>
        match sign_detached (default (zeros 64) sk) (to_sign e c_pub c_nonce) with
        | None => handle_msg1 e' udp_sock msg1 src server_sk
        | Some sig =>
          s ← session i;
          let msg2 := msg2_packet e (vpn_ip s) sig in
          ok ← malloc;
          t ← get now;
          _ ← update i (fun s => s <| k_recv := k1 |> <| k_send := k2 |> <| session_id := new_sid |>
                                   <| outq := if ok : bool then Some aq_empty else None |>);
          _ ← prepare_dummy_static_parts i;
          _ ← update i (fun s => s <| send_seq := 0 |> <| rw := window_zero |> <| last_recv_seq := 0 |>
                                   <| last_activity := t |>);
          _ ← scheduler_add_session new_sid;
          _ ← sendto udp_sock msg2 src;
          mret 0
        end
      end
    end.

End handshake.
