(* ===== verification/PacketProcessor.v ===== *)
(** The data path: chamlon_server/src/packet_processor.c. *)

From stdpp Require Import list gmap.
From S2P Require Import Prelude State ReplayWindow OutQueue TaskHeap RateLimiter Metrics Crypto Wire Fragment Server Handshake.
Local Open Scope Z_scope.

Section processor.
Context `{Sod : Sodium}.

(** The reassembly half of [handle_inbound_udp], on the decrypted packet [plain]
    of session [i]: from the flag tests to the write to the tunnel device. *)
Definition handle_plain (i : nat) (plain : list byte) : M unit :=
  t ← get now;
  fl ← lift (u16_at plain 6);
  if fl =? PKT_DUMMY then mret tt
  else if fl =? PKT_CTRL_KEEPALIVE then update i (fun s => s <| last_activity := t |>)
  else if fl =? PKT_CTRL_DISCONNECT then free_session i
  else
    s ← session i;
    r ← lift (accept_fragment t (g_reassembly_table s) plain);
    _ ← update i (fun s => s <| g_reassembly_table := r.1 |>);
    match r.2 with Some data => emit (TunWrite data) | None => mret tt end.

(** The authenticated half: replay check, decryption, window update. *)
Definition handle_data (i : nat) (buf : list byte) : M unit :=
  t ← get now;
  _ ← update i (fun s => s <| last_activity := t |>);
  p ← lift (buf_read buf (sizeof_proto_header + SESSION_ID_LEN) 8);
  let pkt_seq := be_value p in
  s ← session i;
  replayed ← lift (check_replay pkt_seq (rw s));
  if (replayed : bool) then metric metrics_record_validation_error
  else
    let cipher_len := u64 (Z.of_nat (length buf) - Z.of_nat DATA_HEADER_LEN) in
    if BUFFER_SIZE - Z.of_nat DATA_HEADER_LEN <? cipher_len then mret tt
    else
      match aead_decrypt (k_recv s) (session_id s) pkt_seq (drop DATA_HEADER_LEN buf) with
      | None => mret tt
      | Some plain =>
        if BUFFER_SIZE <? Z.of_nat (length plain) then mret tt
        else
          w' ← lift (update_window pkt_seq (rw s));
          _ ← update i (fun s => s <| rw := w' |>);
          handle_plain i plain
      end.

(** [handle_inbound_udp] past the rate limit: handshakes and session packets. *)
Definition handle_admitted (e e' : ephemeral) (udp_sock : Z) (buf : list byte)
    (src : sockaddr_in) (server_sk : list byte) (ph : proto_header_t) : M unit :=
  if type ph =? PKT_TYPE_HANDSHAKE then
    if bool_decide (length buf = MSG1_PACKET_LEN) then
      ss ← get sessions;
      _ ← (match first_index (fun s => same_peer s src) ss with
           | Some _ => handle_rehandshake_msg1 e e' udp_sock buf src server_sk
           | None => handle_msg1 e udp_sock buf src server_sk
           end);
      mret tt
    else mret tt
  else
    _ ← metric (metrics_record_packet_received (Z.of_nat (length buf)));
    found ← session_by_id (buf_read buf sizeof_proto_header SESSION_ID_LEN);
    match found with
    | None => mret tt
    | Some i => handle_data i buf
    end.

(** The per-address limit, applied to data packets only. *)
Definition limit_packet (ph : proto_header_t) (src : sockaddr_in) : M bool :=
  if type ph =? PKT_TYPE_DATA then
    t ← get now;
    r ← get rl;
    rc ← lift (check_packet_rate_limit t t t r (sin_addr src));
    _ ← modify (fun w => w <| rl := rc.2 |>);
    mret (negb (bool_decide (rc.1 = RATE_LIMIT_OK)))
  else mret false.

(** [buf] holds the [r] bytes received. *)
Definition handle_inbound_udp (e e' : ephemeral) (udp_sock : Z) (buf : list byte)
    (src : sockaddr_in) (server_sk : list byte) : M unit :=
  let r := length buf in
  if decide (r < sizeof_proto_header)%nat then mret tt
  else if BUFFER_SIZE <? Z.of_nat r then mret tt
  else
    ph ← lift (read_proto buf);
    if negb (magic ph =? PKT_MAGIC) || negb (version ph =? PKT_VERSION) then mret tt
    else
      limited ← limit_packet ph src;
      if (limited : bool) then
        _ ← metric metrics_record_packet_dropped; metric metrics_record_rate_limit_drop
      else handle_admitted e e' udp_sock buf src server_sk ph.

(** [buf2] holds the initialised bytes of the fragment buffer. *)
Definition send_outbound_packet (i : nat) (buf2 : list byte) (real_data_len : Z) (ip : list byte) : M unit :=
  seq ← next_seq i;
  s ← session i;
  p ← lift (if bool_decide (argv_CBR s = ch_Y) && (real_data_len <? frag_size s) then
              b ← packet_padding buf2 real_data_len (argv_FRAG s); Ok (b, frag_size s)
            else Ok (buf2, real_data_len));
  pt ← lift (buf_read p.1 0 (Z.to_nat p.2));
  ct ← lift (encrypt (k_send s) (session_id s) seq pt);
  match ct with
  | None => mret tt
  | Some out =>
    ok ← malloc;
    if negb ok then mret tt
    else
      let pkt := data_packet (session_id s) seq out in
      if bool_decide (argv_CBR s = ch_Y) then queue_push i pkt seq ip
      else _ ← sendto (s_udp_sock s) pkt (client_addr s); mret tt
  end.

(** The [while (current_offset < len)] loop. *)
Fixpoint fragment_loop (fuel : nat) (i : nat) (id off : Z) (ip : list byte) : M unit :=
  let len := Z.of_nat (length ip) in
  if off <? len then
    match fuel with
    | O => lift (Err NoFuel)
    | S fuel =>
        s ← session i;
        if MAX_FRAG <? frag_size s then lift (Err OutOfBounds)
        else
          let max_payload := u64 (frag_size s - Z.of_nat sizeof_tunnel_header) in
          let buf2 := zeros (Z.to_nat (frag_size s)) in
          let chunk_len := if max_payload <? len - off then max_payload else len - off in
          buf2 ← lift (memcpy buf2 0 (tunnel_bytes (fragment_header (zeros SESSION_ID_LEN) id off chunk_len len)));
          buf2 ← lift (memcpy buf2 sizeof_tunnel_header
                         (take (Z.to_nat chunk_len) (drop (Z.to_nat off) ip)));
          let real_data_len := Z.of_nat sizeof_tunnel_header + chunk_len in
          p ← lift (if bool_decide (argv_PAD s = ch_Y) then
                      b ← packet_padding buf2 real_data_len (argv_FRAG s); Ok (b, frag_size s)
                    else Ok (buf2, real_data_len));
          _ ← send_outbound_packet i p.1 p.2 ip;
          fragment_loop fuel i id (off + chunk_len) ip
    end
  else mret tt.

Definition handle_outbound_tun_buf (ip : list byte) : M unit :=
  if decide (length ip < 20)%nat then mret tt
  else
    found ← session_by_vpnip (take 4 (drop 16 ip));
    match found with
    | None => mret tt
    | Some i =>
        id ← fragment_next_packet_id;
        fragment_loop (length ip) i id 0 ip
    end.

Definition send_keepalive_to_client (i : nat) : M unit :=
  s ← session i;
  let hdr := {| packet_id := 0; fragment_offset := 0; total_ip_len := 0; flags := PKT_CTRL_KEEPALIVE;
                th_session_id := zeros SESSION_ID_LEN |} in
  seq ← next_seq i;
  ct ← lift (encrypt (k_send s) (session_id s) seq (tunnel_bytes hdr));
  match ct with
  | None => mret tt
  | Some out =>
      ok ← malloc;
      if negb ok then mret tt
      else _ ← sendto (s_udp_sock s) (data_packet (session_id s) seq out) (client_addr s); mret tt
  end.

(** The body of the keepalive loop of [perform_maintenance]. *)
Definition keepalive_session (t : Z) (i : nat) : M unit :=
  s ← session i;
  if negb (active s) then mret tt
  else if KEEPALIVE_INTERVAL_SEC <=? t - last_activity_keepalive s then
    _ ← send_keepalive_to_client i;
    update i (fun s => s <| last_activity_keepalive := t |> <| last_activity := t |>)
  else mret tt.

Definition perform_maintenance (udp_sock : Z) : M unit :=
  _ ← cleanup_expired_sessions udp_sock;
  _ ← sweep_reassembly_table;
  t ← get now;
  for_from 0 MAX_CLIENTS (keepalive_session t).

End processor.
