(* ===== verification/Scheduler.v ===== *)
(** The send scheduler: pacing intervals, execute_send and one turn of a shard's
    worker, from chamlon_server/src/scheduler.c.

    Pacing uses C doubles: see Clock. *)

From Stdlib Require Import Floats.SpecFloat.
From stdpp Require Import list gmap.
From S2P Require Import Prelude State ReplayWindow OutQueue TaskHeap RateLimiter Metrics Crypto Wire Fragment Server Handshake.
From S2P Require Import PacketProcessor Clock.
Local Open Scope Z_scope.

(** ** Intervals *)

(** The literal 0.00001. *)
Definition dbl_1em5 : spec_float := S754_finite false 5902958103587057 (-69).

(** [while (ts->tv_nsec >= 1000000000L)]: one turn per second carried. *)
Fixpoint carry_loop (fuel : nat) (ts : timespec) : outcome timespec :=
  if NSEC_PER_SEC <=? tv_nsec ts then
    match fuel with
    | O => Err NoFuel
    | S fuel => carry_loop fuel {| tv_sec := tv_sec ts + 1; tv_nsec := tv_nsec ts - NSEC_PER_SEC |}
    end
  else Ok ts.
Definition carry (ts : timespec) : outcome timespec := carry_loop (Z.to_nat (tv_nsec ts / NSEC_PER_SEC)) ts.

Definition wire_len (frag : Z) : spec_float :=
  let payload_len := dbl (frag + Z.of_nat MAC_LEN + Z.of_nat SESSION_ID_LEN + 8) in
  dadd (dadd (dadd payload_len (dbl 14)) (dbl 20)) (dbl 8).

Definition interval_ns (mbps frag : Z) : Z :=
  let interval_sec := ddiv (dmul (wire_len frag) (dbl 8)) (dmul (dbl mbps) (dbl 1000000)) in
  let interval_sec := if SFltb interval_sec dbl_1em5 then dbl_1em5 else interval_sec in
  trunc (dmul interval_sec (dbl 1000000000)).

Definition add_mbps_interval_to_timespec (ts : timespec) (mbps frag : Z) : outcome timespec :=
  carry {| tv_sec := tv_sec ts; tv_nsec := tv_nsec ts + interval_ns mbps frag |}.

(** The drift correction of the worker: skip the intervals already missed. *)
Definition catch_up (mbps frag : Z) (now next : timespec) : outcome timespec :=
  let behind_ns := (tv_sec now - tv_sec next) * NSEC_PER_SEC + (tv_nsec now - tv_nsec next) in
  if 0 <? behind_ns then
    let interval := dmul (ddiv (dmul (wire_len frag) (dbl 8)) (dmul (dbl mbps) (dbl 1000000))) (dbl 1000000000) in
    let interval := if SFltb interval (dbl 10000) then dbl 10000 else interval in
    let skipped := trunc (ddiv (dbl behind_ns) interval) in
    if 0 <? skipped then
      let skip_ns := trunc (dmul (dbl skipped) interval) in
      carry {| tv_sec := tv_sec next + skip_ns / NSEC_PER_SEC;
               tv_nsec := tv_nsec next + skip_ns mod NSEC_PER_SEC |}
    else Ok next
  else Ok next.

Section scheduler.
Context `{Sod : Sodium}.

(** The [while ((node = out_queue_pop(s->outq)) != NULL)] loop; true if a packet
    was sent. *)
Fixpoint drain_queue (fuel : nat) (i : nat) : M bool :=
  n ← queue_pop i;
  match n with
  | None => mret false
  | Some d =>
      match fuel with
      | O => lift (Err NoFuel)
      | S fuel =>
          s ← session i;
          _ ← sendto (s_udp_sock s) (pkt d) (client_addr s);
          _ ← drain_queue fuel i;
          mret true
      end
  end.

Definition queue_length (s : session_t) : nat :=
  match outq s with Some q => aq_size q | None => 0 end.

(** A dummy packet built in the session's buffer. *)
Definition send_dummy (i : nat) : M unit :=
  s ← session i;
  seq ← next_seq i;
  pt ← lift (buf_read (dummy_payload s) 0 (Z.to_nat (frag_size s)));
  ct ← lift (encrypt (k_send s) (session_id s) seq pt);
  match ct with
  | None => mret tt
  | Some out =>
      let ptr := Z.to_nat (static_hdr_len s) in
      b ← lift (memcpy (final_pkt_dummy s) ptr (be_bytes 8 seq));
      b ← lift (memcpy b (ptr + 8) out);
      _ ← update i (fun s => s <| final_pkt_dummy := b |>);
      _ ← sendto (s_udp_sock s) (take (ptr + 8 + length out) b) (client_addr s);
      mret tt
  end.

Definition execute_send (sid : list byte) : M bool :=
  found ← session_by_id (Ok sid);
  match found with
  | None => mret false
  | Some i =>
    s ← session i;
    if bool_decide (argv_CBR s = ch_Y) then
      n ← queue_pop i;
      match n with
      | Some d => _ ← sendto (s_udp_sock s) (pkt d) (client_addr s); mret true
      | None => _ ← send_dummy i; mret false
      end
    else
      sent_real ← drain_queue (queue_length s) i;
      _ ← (if (sent_real : bool) then mret tt
           else
             t ← get now;
             if (KEEPALIVE_INTERVAL_SEC <=? t - last_activity s) &&
                (KEEPALIVE_INTERVAL_SEC <=? t - last_activity_keepalive s) then
               _ ← send_control_packet (s_udp_sock s) i PKT_CTRL_KEEPALIVE;
               update i (fun s => s <| last_activity_keepalive := t |>)
             else mret tt);
      mret sent_real
  end.

(** What a turn of the worker's loop does. *)
Inductive turn := Waiting | Early | Ran (task : scheduler_task_t).

(** One turn of [scheduler_worker_fn] on shard [k], from a non-empty queue to the
    push of the next run; [mono] is the clock after the sleep. *)
Definition scheduler_turn (k : nat) : M turn :=
  shards ← get g_shards;
  clock ← get mono;
  match shards !! k with
  | Some (Some pq) =>
    top ← lift (pq_peek (Some pq));
    match top with
    | None => mret Waiting
    | Some task =>
      if timespec_compare clock (next_run task) <? 0 then mret Early
      else
        p ← lift (pq_pop pq);
        _ ← modify (fun w => w <| g_shards ::= <[k := Some p.2]> |>);
        match p.1 with
        | None => lift (Err NullDeref)
        | Some task =>
          let sid := TaskHeap.session_id task in
          _ ← execute_send sid;
          found ← session_by_id (Ok sid);
          match found with
          | None => mret (Ran task)
          | Some i =>
            s ← session i;
            next ← lift (if bool_decide (argv_CBR s = ch_Y) then
                           n ← add_mbps_interval_to_timespec (next_run task) (argv_MBPS s) (argv_FRAG s);
                           catch_up (argv_MBPS s) (argv_FRAG s) clock n
                         else Ok {| tv_sec := tv_sec clock + KEEPALIVE_INTERVAL_SEC; tv_nsec := tv_nsec clock |});
            _ ← shard_push k (task <| next_run := next |>);
            mret (Ran task)
          end
        end
    end
  | _ => lift (Err NullDeref)
  end.

End scheduler.
