(* ===== verification/ThreadPool.v ===== *)
(** The sharded thread pool: chamlon_server/src/thread_pool.c.

    Each worker owns one shard, a linked FIFO of job nodes in a shared heap.  A step
    of the pool is one critical section: a submission by the event loop, or a
    dequeue by a worker. *)

From stdpp Require Import list gmap.
From S2P Require Import Prelude State LinkedQueue Wire Server.
Local Open Scope Z_scope.

(** ** Data *)

Inductive job_t :=
  | JOB_TYPE_INBOUND_CRYPTO (buf : list byte) (src : sockaddr_in) (udp_sock : Z) (server_sk : list byte)
  | JOB_TYPE_OUTBOUND_CRYPTO (buf : list byte) (udp_sock : Z)
  | JOB_TYPE_SHUTDOWN.

Abbreviation job_heap := (gmap loc (node job_t)).

Record shard_queue_t := { jobs : fifo; max_size : Z }.
#[global] Instance eta_shard : Settable shard_queue_t := fun q => {| jobs := jobs q; max_size := max_size q |}.

Record thread_pool_t := { shards : list shard_queue_t; num_threads : Z; shutdown : bool }.
#[global] Instance eta_pool : Settable thread_pool_t := fun p =>
  {| shards := shards p; num_threads := num_threads p; shutdown := shutdown p |}.

(** ** Operations *)

Definition shard_cap : Z := 4096.

(** [oks]: the allocation of the pool, of the threads, of the shards, and of each
    worker's argument together with the start of its thread. *)
Definition thread_pool_create (n : Z) (pool_ok threads_ok shards_ok : bool) (workers : list bool)
    : option thread_pool_t :=
  let n := if n <=? 0 then 4 else n in
  if negb pool_ok then None
  else if negb threads_ok || negb shards_ok then None
  else if forallb id (take (Z.to_nat n) workers) then
    Some {| shards := replicate (Z.to_nat n) {| jobs := fifo_empty; max_size := shard_cap |};
            num_threads := n; shutdown := false |}
  else None.

(** [ok] is the result of [malloc]; the node it returns is one not allocated yet. *)
Definition enqueue_to_shard (ok : bool) (h : job_heap) (p : thread_pool_t) (job : job_t) (shard : Z)
    : outcome (Z * job_heap * thread_pool_t) :=
  if shard <? 0 then Err OutOfBounds
  else
    q ← slot_read (shards p) (Z.to_nat shard);
    if max_size q <=? size (jobs q) then Ok (-1, h, p)
    else if negb ok then Ok (-1, h, p)
    else
      let l := fresh (dom h) in
      a ← append h (jobs q) l job;
      Ok (0, a.1, p <| shards ::= <[Z.to_nat shard := q <| jobs := a.2 |>]> |>).

(** A null pool or job is [None]. *)
Definition thread_pool_submit_sharded (ok : bool) (h : job_heap) (p : option thread_pool_t)
    (job : option job_t) (shard_key : Z) : outcome (Z * job_heap * option thread_pool_t) :=
  match p, job with
  | Some p, Some job =>
      if num_threads p =? 0 then Err DivByZero
      else
        r ← enqueue_to_shard ok h p job (Z.rem shard_key (num_threads p));
        let '(rc, h, p) := r in Ok (rc, h, Some p)
  | _, _ => Ok (-1, h, p)
  end.

(** [rr] is the round-robin counter, an [_Atomic int] that wraps. *)
Definition thread_pool_submit (ok : bool) (h : job_heap) (p : option thread_pool_t)
    (job : option job_t) (rr : Z) : outcome (Z * job_heap * option thread_pool_t * Z) :=
  match p, job with
  | Some p, Some job =>
      let rr' := (rr + 1 + 2 ^ 31) mod 2 ^ 32 - 2 ^ 31 in
      if num_threads p =? 0 then Err DivByZero
      else
        r ← enqueue_to_shard ok h p job (Z.rem rr (num_threads p));
        let '(rc, h, p) := r in Ok (rc, h, Some p, rr')
  | _, _ => Ok (-1, h, p, rr)
  end.

(** What a worker does with its queue locked: wait, leave, or take the oldest job
    and free its node. *)
Inductive taken := Wait | Exit | Run (job : job_t).

Definition worker_take (h : job_heap) (p : thread_pool_t) (shard : nat) : outcome (taken * job_heap * thread_pool_t) :=
  q ← slot_read (shards p) shard;
  if size (jobs q) =? 0 then Ok (if shutdown p then Exit else Wait, h, p)
  else
    a ← unlink h (jobs q);
    match head (jobs q) with
    | None => Err NullDeref
    | Some l => Ok (Run (data a.1), delete l h, p <| shards ::= <[shard := q <| jobs := a.2 |>]> |>)
    end.

(** The loop of [thread_pool_pending_jobs], over the shards from the first. *)
Fixpoint count_jobs (total : Z) (qs : list shard_queue_t) : outcome Z :=
  match qs with
  | [] => Ok total
  | q :: qs => total ← int_of (total + size (jobs q)); count_jobs total qs
  end.
Definition thread_pool_pending_jobs (p : option thread_pool_t) : outcome Z :=
  match p with None => Ok 0 | Some p => count_jobs 0 (take (Z.to_nat (num_threads p)) (shards p)) end.
Definition thread_pool_num_threads (p : option thread_pool_t) : Z :=
  match p with None => 0 | Some p => num_threads p end.

(** [thread_pool_destroy] after the workers have left: the leftover nodes go. *)
Fixpoint drain_shards (h : job_heap) (qs : list shard_queue_t) : outcome job_heap :=
  match qs with
  | [] => Ok h
  | q :: qs => h ← free_chain (base.size h) h (head (jobs q)); drain_shards h qs
  end.
Definition thread_pool_destroy (h : job_heap) (p : option thread_pool_t) : outcome job_heap :=
  match p with None => Ok h | Some p => drain_shards h (take (Z.to_nat (num_threads p)) (shards p)) end.

(** ** Abstract pool: the pending jobs of each worker, oldest first *)

Record pool_rep (h : job_heap) (p : thread_pool_t) (qs : list (list job_t)) (lss : list (list loc)) : Prop := {
  pr_threads : num_threads p = Z.of_nat (length (shards p));
  pr_qs : length qs = length (shards p);
  pr_lss : length lss = length (shards p);
  pr_fifo i q ls xs : shards p !! i = Some q -> lss !! i = Some ls -> qs !! i = Some xs ->
    fifo_rep h (jobs q) ls xs /\ max_size q = shard_cap /\ Z.of_nat (length xs) <= shard_cap;
  pr_disjoint i j ls ls' l : i <> j -> lss !! i = Some ls -> lss !! j = Some ls' -> l ∈ ls -> l ∉ ls';
  pr_only l : is_Some (h !! l) -> exists i ls, lss !! i = Some ls /\ l ∈ ls;
}.

Lemma pool_shard h p qs lss i :
  pool_rep h p qs lss -> (i < length (shards p))%nat ->
  exists q ls xs, shards p !! i = Some q /\ lss !! i = Some ls /\ qs !! i = Some xs /\
    fifo_rep h (jobs q) ls xs /\ max_size q = shard_cap /\ Z.of_nat (length xs) <= shard_cap.
Proof.
  intros [Ht Hq Hl Hf _ _] Hi. destruct (lookup_lt_is_Some_2 (shards p) i Hi) as [q Eq].
  destruct (lookup_lt_is_Some_2 lss i) as [ls El]; [lia|]. destruct (lookup_lt_is_Some_2 qs i) as [xs Ex]; [lia|].
  destruct (Hf i q ls xs) as (? & ? & ?); [done..|]. by exists q, ls, xs.
Qed.

(** Replacing shard [i], the heap changing only at its own nodes and at fresh ones. *)
Lemma pool_rep_update h h' p qs lss i q ls q' ls' xs' :
  pool_rep h p qs lss -> shards p !! i = Some q -> lss !! i = Some ls ->
  fifo_rep h' (jobs q') ls' xs' -> max_size q' = shard_cap -> Z.of_nat (length xs') <= shard_cap ->
  (forall l, l ∈ ls' -> l ∈ ls \/ h !! l = None) ->
  (forall l, (l ∉ ls) -> is_Some (h !! l) -> h' !! l = h !! l) ->
  (forall l, is_Some (h' !! l) -> (l ∉ ls') -> (l ∉ ls) /\ is_Some (h !! l)) ->
  pool_rep h' (p <| shards ::= <[i := q']> |>) (<[i := xs']> qs) (<[i := ls']> lss).
Proof.
  intros [Ht Hq Hl Hf Hd Ho] Ei El Hrep Hmax Hlen Hnew Hsame Hgone.
  assert (Hi : (i < length (shards p))%nat) by (by eapply lookup_lt_Some).
  assert (Hin : forall j ls0 l, lss !! j = Some ls0 -> l ∈ ls0 -> is_Some (h !! l)).
  { intros j ls0 l Hj Hl0. assert (Hj' : (j < length (shards p))%nat) by (apply lookup_lt_Some in Hj; lia).
    destruct (lookup_lt_is_Some_2 (shards p) j Hj') as [q0 E0]. destruct (lookup_lt_is_Some_2 qs j) as [x0 Ex0]; [lia|].
    destruct (Hf j q0 ls0 x0 E0 Hj Ex0) as [[_ _ _ _ _ Hn] _]. apply list_elem_of_lookup_1 in Hl0 as [n Hn0].
    destruct (Hn n l Hn0) as (? & _ & ->). eauto. }
  constructor; cbn; rewrite ?length_insert; try done.
  - intros j q0 ls0 xs0 Ej Elj Exj. destruct (decide (i = j)) as [<-|Hne].
    + rewrite list_lookup_insert_eq in Ej by lia; rewrite list_lookup_insert_eq in Elj by lia; rewrite list_lookup_insert_eq in Exj by lia. by simplify_eq.
    + rewrite list_lookup_insert_ne in Ej by done; rewrite list_lookup_insert_ne in Elj by done; rewrite list_lookup_insert_ne in Exj by done. destruct (Hf j q0 ls0 xs0) as (Hr & ? & ?); [done..|].
      split; [|done]. eapply fifo_rep_frame; [exact Hr|]. intros l Hl0. apply Hsame; [|by eapply Hin].
      by eapply (Hd j i).
  - intros j k ls0 ls1 l Hne E0 E1 Hl0 Hl1.
    destruct (decide (i = j)) as [<-|Hij]; destruct (decide (i = k)) as [<-|Hik]; try done.
    + rewrite list_lookup_insert_eq in E0 by lia. rewrite list_lookup_insert_ne in E1 by done. simplify_eq.
      destruct (Hnew l Hl0) as [Hold|Hnone]; [by eapply (Hd i k)|].
      destruct (Hin k ls1 l E1 Hl1). congruence.
    + rewrite list_lookup_insert_ne in E0 by done. rewrite list_lookup_insert_eq in E1 by lia. simplify_eq.
      destruct (Hnew l Hl1) as [Hold|Hnone]; [by eapply (Hd j i)|].
      destruct (Hin j ls0 l E0 Hl0). congruence.
    + rewrite list_lookup_insert_ne in E0 by done; rewrite list_lookup_insert_ne in E1 by done. by eapply (Hd j k).
  - intros l Hl0. destruct (decide (l ∈ ls')) as [Hin'|Hnin].
    + exists i, ls'. split; [|done]. apply list_lookup_insert_eq. by eapply lookup_lt_Some.
    + destruct (Hgone l Hl0 Hnin) as [Hold Hs]. destruct (Ho l Hs) as (j & ls0 & Hj & Hl1). exists j, ls0.
      split; [|done]. rewrite list_lookup_insert_ne; [done|]. intros <-. congruence.
Qed.

(** What neither a submission nor a dequeue changes. *)
Definition same_pool (p p' : thread_pool_t) : Prop := num_threads p' = num_threads p /\ shutdown p' = shutdown p.

(** The shard a key selects. *)
Definition shard_of (p : thread_pool_t) (key : Z) : nat := Z.to_nat (key mod num_threads p).

Lemma shard_of_lt h p qs lss key : pool_rep h p qs lss -> 0 < num_threads p -> (shard_of p key < length (shards p))%nat.
Proof.
  intros Hp Hn. unfold shard_of. pose proof (Z.mod_pos_bound key (num_threads p) Hn). pose proof (pr_threads _ _ _ _ Hp). lia.
Qed.

Lemma submit_ok ok h p qs lss job key :
  pool_rep h p qs lss -> 0 < num_threads p -> 0 <= key ->
  exists xs rc h' p', qs !! shard_of p key = Some xs /\
    thread_pool_submit_sharded ok h (Some p) (Some job) key = Ok (rc, h', Some p') /\
    same_pool p p' /\
    if ok && (Z.of_nat (length xs) <? shard_cap)
    then rc = 0 /\ exists lss', pool_rep h' p' (<[shard_of p key := xs ++ [job]]> qs) lss'
    else rc = -1 /\ h' = h /\ p' = p.
Proof.
  intros Hp Hn Hk. destruct (pool_shard h p qs lss (shard_of p key) Hp) as (q & ls & xs & Eq & El & Ex & Hrep & Hmax & Hlen);
    [by eapply shard_of_lt|].
  exists xs. unfold thread_pool_submit_sharded. destruct (Z.eqb_spec (num_threads p) 0); [lia|].
  rewrite Z.rem_mod_nonneg by lia. unfold enqueue_to_shard. pose proof (Z.mod_pos_bound key (num_threads p) Hn).
  destruct (Z.ltb_spec (key mod num_threads p) 0); [lia|]. fold (shard_of p key). rewrite (proj2 (slot_read_Ok _ _ q) Eq).
  cbn [mbind outcome_bind]. rewrite Hmax, (rep_size _ _ _ _ Hrep), <- (rep_length _ _ _ _ Hrep).
  rewrite Z.ltb_antisym. destruct (Z.leb_spec shard_cap (Z.of_nat (length xs))) as [Hfull|Hroom]; cbn [negb].
  { rewrite andb_false_r. do 3 eexists. split; [done|]. split; [reflexivity|]. done. }
  rewrite andb_true_r. destruct ok; cbn [negb mbind outcome_bind].
  2:{ do 3 eexists. split; [done|]. split; [reflexivity|]. done. }
  set (l := fresh (dom h)).
  assert (Hfresh : h !! l = None) by (apply not_elem_of_dom, is_fresh).
  assert (Hnin : l ∉ ls).
  { intros [i Hn0]%list_elem_of_lookup_1. destruct (rep_nodes _ _ _ _ Hrep i l Hn0) as (? & _ & E). congruence. }
  destruct (append_rep h (jobs q) ls xs l job Hrep Hnin) as (h' & q' & -> & Hrep' & Hframe). cbn [mbind outcome_bind fst snd].
  do 3 eexists. split; [done|]. split; [reflexivity|]. split; [done|]. split; [done|]. exists (<[shard_of p key := ls ++ [l]]> lss).
  eapply (pool_rep_update h h' p qs lss _ q ls (q <| jobs := q' |>)); try done.
  - rewrite length_app. cbn. lia.
  - intros k [Hk0|Hk0]%elem_of_app; [by left|]. apply list_elem_of_singleton in Hk0 as ->. by right.
  - intros k Hk0 [nd Hsome]. apply Hframe; [|done]. intros ->. congruence.
  - intros k Hk0 [Hkl Hkn]%not_elem_of_app. split; [done|]. rewrite <- Hframe; [done| |done].
    intros ->. by apply Hkn, list_elem_of_singleton.
Qed.

Lemma take_ok h p qs lss i :
  pool_rep h p qs lss -> (i < length (shards p))%nat ->
  exists xs r h' p', qs !! i = Some xs /\ worker_take h p i = Ok (r, h', p') /\ same_pool p p' /\
    match xs with
    | [] => r = (if shutdown p then Exit else Wait) /\ h' = h /\ p' = p
    | x :: xs => r = Run x /\ exists lss', pool_rep h' p' (<[i := xs]> qs) lss'
    end.
Proof.
  intros Hp Hi. destruct (pool_shard h p qs lss i Hp Hi) as (q & ls & xs & Eq & El & Ex & Hrep & Hmax & Hlen).
  exists xs. unfold worker_take. rewrite (proj2 (slot_read_Ok _ _ q) Eq). cbn [mbind outcome_bind].
  rewrite (rep_size _ _ _ _ Hrep). pose proof (rep_length _ _ _ _ Hrep) as Hl. destruct xs as [|x xs].
  { destruct ls; [|done]. do 3 eexists. split; [done|]. split; [reflexivity|]. done. }
  destruct ls as [|l ls]; [done|]. cbn [length Z.of_nat Z.eqb].
  destruct (unlink_rep h (jobs q) l ls x xs Hrep) as (q' & Hhd & Hun & Hrep').
  rewrite Hhd, Hun. cbn [mbind outcome_bind fst snd data]. pose proof (rep_nodup _ _ _ _ Hrep) as [Hnin _]%NoDup_cons.
  do 3 eexists. split; [done|]. split; [reflexivity|]. split; [done|]. split; [done|]. exists (<[i := ls]> lss).
  eapply (pool_rep_update h _ p qs lss i q (l :: ls) (q <| jobs := q' |>)); try done.
  - eapply fifo_rep_frame; [exact Hrep'|]. intros k Hk. rewrite lookup_delete_ne; [done|]. set_solver.
  - cbn in Hlen. lia.
  - intros k Hk. left. by right.
  - intros k Hk _. rewrite lookup_delete_ne; [done|]. set_solver.
  - intros k [nd [Hne Hs]%lookup_delete_Some] Hnk. split; [set_solver|by eexists].
Qed.

(** ** Runs of the pool *)

Inductive pool_op := Submit (ok : bool) (key : Z) (job : job_t) | Take (worker : nat).

(** Job [job] accepted under shard key [key]; job [job] executed by worker [worker]. *)
Inductive pool_event := Accepted (key : Z) (job : job_t) | Executed (worker : nat) (job : job_t).

Definition pool_step (h : job_heap) (p : thread_pool_t) (op : pool_op)
    : outcome (list pool_event * job_heap * thread_pool_t) :=
  match op with
  | Submit ok key job =>
      r ← thread_pool_submit_sharded ok h (Some p) (Some job) key;
      let '(rc, h, p') := r in
      Ok (if rc =? 0 then [Accepted key job] else [], h, default p p')
  | Take i =>
      r ← worker_take h p i;
      let '(t, h, p) := r in
      Ok (match t with Run job => [Executed i job] | _ => [] end, h, p)
  end.

Fixpoint pool_run (h : job_heap) (p : thread_pool_t) (ops : list pool_op)
    : outcome (list pool_event * job_heap * thread_pool_t) :=
  match ops with
  | [] => Ok ([], h, p)
  | op :: ops =>
      r ← pool_step h p op;
      let '(es, h, p) := r in
      r ← pool_run h p ops;
      let '(es', h, p) := r in Ok (es ++ es', h, p)
  end.

(** The jobs worker [k] was given, and those it has executed, in order. *)
Definition given (p : thread_pool_t) (k : nat) (es : list pool_event) : list job_t :=
  omap (fun e => match e with Accepted key job => if decide (shard_of p key = k) then Some job else None | _ => None end) es.
Definition executed (k : nat) (es : list pool_event) : list job_t :=
  omap (fun e => match e with Executed i job => if decide (i = k) then Some job else None | _ => None end) es.

Definition op_ok (p : thread_pool_t) (op : pool_op) : Prop :=
  match op with Submit _ key _ => 0 <= key < 256 | Take i => (i < length (shards p))%nat end.

(** One step: what a worker had pending and is given is what it executes and has
    pending afterwards. *)
Lemma pool_step_ok h p qs lss op :
  pool_rep h p qs lss -> 0 < num_threads p -> op_ok p op ->
  exists es h' p' qs' lss', pool_step h p op = Ok (es, h', p') /\ pool_rep h' p' qs' lss' /\
    num_threads p' = num_threads p /\
    forall k, (k < length (shards p))%nat -> exists xs xs', qs !! k = Some xs /\ qs' !! k = Some xs' /\
      xs ++ given p k es = executed k es ++ xs'.
Proof.
  intros Hp Hn Hop. assert (Hsame : forall k, (k < length (shards p))%nat -> exists xs xs', qs !! k = Some xs /\ qs !! k = Some xs' /\ xs ++ [] = xs').
  { intros k Hk. destruct (lookup_lt_is_Some_2 qs k) as [xs Hx]; [rewrite (pr_qs _ _ _ _ Hp); lia|].
    exists xs, xs. by rewrite app_nil_r. }
  assert (Hupd : forall i xs xs' g e, qs !! i = Some xs -> xs ++ g i = e i ++ xs' -> (forall k, k <> i -> g k = [] /\ e k = []) ->
    forall k, (k < length (shards p))%nat -> exists ys ys' : list job_t, qs !! k = Some ys /\ <[i := xs']> qs !! k = Some ys' /\ ys ++ g k = e k ++ ys').
  { intros i xs xs' g e Hx E Hoth k Hk. destruct (decide (k = i)) as [->|Hne].
    - exists xs, xs'. split; [done|]. split; [|done]. apply list_lookup_insert_eq. by eapply lookup_lt_Some.
    - destruct (lookup_lt_is_Some_2 qs k) as [ys Hy]; [rewrite (pr_qs _ _ _ _ Hp); lia|].
      exists ys, ys. rewrite list_lookup_insert_ne by done. destruct (Hoth k Hne) as [-> ->]. by rewrite app_nil_r. }
  destruct op as [ok key job|i]; cbn [pool_step op_ok] in *.
  - destruct (submit_ok ok h p qs lss job key Hp Hn) as (xs & rc & h' & p' & Hx & -> & [Hnt _] & Hres); [lia|].
    cbn [mbind outcome_bind default].
    destruct (ok && _).
    + destruct Hres as [-> [lss' Hp']]. do 5 eexists. split; [reflexivity|]. split; [exact Hp'|]. split; [done|].
      apply (Hupd (shard_of p key) xs _ (fun k => given p k [Accepted key job]) (fun k => executed k [Accepted key job]) Hx).
      * cbn. by rewrite decide_True.
      * intros k Hk. cbn. by rewrite decide_False.
    + destruct Hres as (-> & -> & ->). exists [], h, p, qs, lss. done.
  - destruct (take_ok h p qs lss i Hp Hop) as (xs & r & h' & p' & Hx & -> & [Hnt _] & Hres).
    cbn [mbind outcome_bind]. destruct xs as [|x xs].
    + destruct Hres as (-> & -> & ->). exists [], h, p, qs, lss. split; [by destruct (shutdown p)|]. done.
    + destruct Hres as [-> [lss' Hp']]. do 5 eexists. split; [reflexivity|]. split; [exact Hp'|]. split; [done|].
      apply (Hupd i (x :: xs) _ (fun k => given p k [Executed i x]) (fun k => executed k [Executed i x]) Hx).
      * cbn. rewrite decide_True by done. by rewrite app_nil_r.
      * intros k Hk. cbn. by rewrite decide_False.
Qed.

Lemma pool_run_ok ops h p qs lss :
  pool_rep h p qs lss -> 0 < num_threads p -> Forall (op_ok p) ops ->
  exists es h' p' qs' lss', pool_run h p ops = Ok (es, h', p') /\ pool_rep h' p' qs' lss' /\
    num_threads p' = num_threads p /\
    forall k, (k < length (shards p))%nat -> exists xs xs', qs !! k = Some xs /\ qs' !! k = Some xs' /\
      xs ++ given p k es = executed k es ++ xs'.
Proof.
  revert h p qs lss. induction ops as [|op ops IH]; intros h p qs lss Hp Hn Hops; cbn [pool_run].
  { exists [], h, p, qs, lss. split; [done|]. split; [done|]. split; [done|]. intros k Hk.
    destruct (lookup_lt_is_Some_2 qs k) as [xs Hx]; [rewrite (pr_qs _ _ _ _ Hp); lia|].
    exists xs, xs. by rewrite app_nil_r. }
  apply Forall_cons in Hops as [Hop Hops].
  destruct (pool_step_ok h p qs lss op Hp Hn Hop) as (es & h1 & p1 & qs1 & lss1 & -> & Hp1 & Hn1 & Hk1).
  assert (Hlen : length (shards p1) = length (shards p)).
  { apply Nat2Z.inj. rewrite <- (pr_threads _ _ _ _ Hp1), <- (pr_threads _ _ _ _ Hp). done. }
  destruct (IH h1 p1 qs1 lss1 Hp1) as (es' & h2 & p2 & qs2 & lss2 & E & Hp2 & Hn2 & Hk2).
  { by rewrite Hn1. }
  { eapply Forall_impl; [exact Hops|]. intros [ok key job|i]; cbn; [done|by rewrite Hlen]. }
  cbn [mbind outcome_bind]. rewrite E. exists (es ++ es'), h2, p2, qs2, lss2. split; [done|]. split; [done|].
  split; [congruence|]. intros k Hk. destruct (Hk1 k Hk) as (xs & xs1 & Hx & Hx1 & E1).
  destruct (Hk2 k) as (ys & xs2 & Hy & Hx2 & E2); [by rewrite Hlen|]. simplify_eq.
  exists xs, xs2. split; [done|]. split; [done|].
  assert (Hg : given p1 k es' = given p k es') by (unfold given, shard_of; by rewrite Hn1).
  unfold given, executed in *. rewrite !omap_app, app_assoc, E1, <- !app_assoc, <- E2. by rewrite Hg.
Qed.

Lemma create_rep n a b c ws p :
  thread_pool_create n a b c ws = Some p ->
  pool_rep ∅ p (replicate (length (shards p)) []) (replicate (length (shards p)) []) /\ 0 < num_threads p.
Proof.
  unfold thread_pool_create. set (m := if n <=? 0 then 4 else n).
  assert (Hm : 0 < m) by (subst m; destruct (Z.leb_spec n 0); lia).
  destruct (negb a); [done|]. destruct (negb b || negb c); [done|]. destruct (forallb _ _); [|done].
  intros [= <-]. split; [|done]. cbn [shards]. rewrite length_replicate. constructor; cbn; rewrite ?length_replicate; try lia.
  - intros i q ls xs Hq Hl Hx. apply lookup_replicate in Hq as [-> _]. apply lookup_replicate in Hl as [-> _].
    apply lookup_replicate in Hx as [-> _]. split; [apply fifo_rep_empty|]. split; [done|]. cbn. unfold shard_cap. lia.
  - intros i j ls ls' l _ Hl _ Hin. apply lookup_replicate in Hl as [-> _]. by apply elem_of_nil in Hin.
  - intros l [? Hl]. by rewrite lookup_empty in Hl.
Qed.

(** C23: the thread pool is a FIFO per worker: after creation, any sequence of
    submissions and dequeues, with any allocations failing, stays inside the
    queues; each worker executes exactly the accepted jobs whose shard key selects
    it, in the order they were accepted, save those still pending, at most
    4096. *)
Theorem pool_fifo_per_worker n a b c ws p ops :
  thread_pool_create n a b c ws = Some p -> Forall (op_ok p) ops ->
  exists es h' p', pool_run ∅ p ops = Ok (es, h', p') /\
    forall k, Z.of_nat k < num_threads p ->
      exists pending, given p k es = executed k es ++ pending /\ Z.of_nat (length pending) <= shard_cap.
Proof.
  intros Hc Hops. destruct (create_rep _ _ _ _ _ _ Hc) as [Hp Hn].
  destruct (pool_run_ok ops ∅ p _ _ Hp Hn Hops) as (es & h' & p' & qs' & lss' & E & Hp' & Hn' & Hk).
  exists es, h', p'. split; [done|]. intros k Hlt.
  assert (Hlt' : (k < length (shards p))%nat) by (rewrite (pr_threads _ _ _ _ Hp) in Hlt; lia).
  destruct (Hk k Hlt') as (xs & pending & Hx & Hpen & Eq).
  apply lookup_replicate in Hx as [-> _]. exists pending. split; [done|].
  destruct (pool_shard h' p' qs' lss' k Hp') as (? & ? & xs' & _ & _ & Hx' & _ & _ & Hl); [|by simplify_eq].
  apply Nat2Z.inj_lt. rewrite <- (pr_threads _ _ _ _ Hp'), Hn'. done.
Qed.

(** Two workers; the second allocation fails; keys 7 and 9 share worker 1. *)
Definition two_workers : thread_pool_t :=
  {| shards := replicate 2 {| jobs := fifo_empty; max_size := shard_cap |}; num_threads := 2; shutdown := false |}.
Definition outbound (n : Z) : job_t := JOB_TYPE_OUTBOUND_CRYPTO [z2b n] 5.
Definition pool_ops : list pool_op :=
  [Submit true 7 (outbound 1); Submit false 8 (outbound 2); Submit true 9 (outbound 3); Take 0; Take 1; Submit true 4 (outbound 4)].

Lemma pool_fifo_per_worker_witness :
  exists es h' p', pool_run ∅ two_workers pool_ops = Ok (es, h', p') /\
    exists pending, given two_workers 1 es = executed 1 es ++ pending.
Proof.
  destruct (pool_fifo_per_worker 2 true true true [true; true] two_workers pool_ops) as (es & h' & p' & E & Hk).
  - reflexivity.
  - repeat constructor; cbn; lia.
  - exists es, h', p'. split; [exact E|]. destruct (Hk 1%nat) as (pending & Hp & _); [reflexivity|].
    exists pending. exact Hp.
Defined.

(** ** Destruction *)

Lemma drain_shards_ok ss : forall h lss,
  length lss = length ss ->
  (forall i q ls, ss !! i = Some q -> lss !! i = Some ls -> exists xs, fifo_rep h (jobs q) ls xs) ->
  (forall i j ls ls' l, i <> j -> lss !! i = Some ls -> lss !! j = Some ls' -> l ∈ ls -> l ∉ ls') ->
  exists h', drain_shards h ss = Ok h' /\
    (forall l i ls, lss !! i = Some ls -> l ∈ ls -> h' !! l = None) /\
    (forall l, (forall i ls, lss !! i = Some ls -> l ∉ ls) -> h' !! l = h !! l).
Proof.
  induction ss as [|q ss IH]; intros h [|ls lss] Hlen Hf Hd; try done; cbn [drain_shards].
  { exists h. split; [done|]. split; [intros ? [] ?|]; done. }
  destruct (Hf 0%nat q ls eq_refl eq_refl) as [xs Hrep].
  destruct (free_chain_rep h (jobs q) ls xs (base.size h) Hrep) as (h1 & -> & Hd1 & Hk1).
  { apply length_le_size; [by eapply rep_nodup|]. intros l [i Hl]%list_elem_of_lookup_1.
    destruct (rep_nodes _ _ _ _ Hrep i l Hl) as (x & _ & ->). by eexists. }
  cbn [mbind outcome_bind]. destruct (IH h1 lss) as (h' & -> & Hd2 & Hk2); [by injection Hlen| | |].
  - intros i q' ls' Hq' Hls'. destruct (Hf (S i) q' ls' Hq' Hls') as [xs' Hrep']. exists xs'.
    eapply fifo_rep_frame; [exact Hrep'|]. intros l Hl. apply Hk1. by apply (Hd (S i) 0%nat ls' ls l).
  - intros i j ls1 ls2 l Hij. by apply (Hd (S i) (S j)), not_eq_S.
  - exists h'. split; [done|]. split.
    + intros l [|i] ls' Hls' Hl; [|by eapply Hd2]. injection Hls' as <-.
      rewrite Hk2; [by apply Hd1|]. intros i ls' Hls'. by apply (Hd 0%nat (S i) ls ls' l).
    + intros l Hl. rewrite Hk2 by (intros i; apply (Hl (S i))). apply Hk1. by apply (Hl 0%nat).
Qed.

(** Destroying the pool frees every node there is. *)
Lemma destroy_rep h p qs lss : pool_rep h p qs lss -> thread_pool_destroy h (Some p) = Ok ∅.
Proof.
  intros Hp. unfold thread_pool_destroy. rewrite (pr_threads _ _ _ _ Hp), Nat2Z.id, firstn_all.
  destruct (drain_shards_ok (shards p) h lss) as (h' & -> & Hgone & Hkeep).
  - apply (pr_lss _ _ _ _ Hp).
  - intros i q ls Hq Hls. destruct (pool_shard h p qs lss i Hp) as (q' & ls' & xs & Hq' & Hls' & _ & Hrep & _);
      [by eapply lookup_lt_Some|]. simplify_eq. by exists xs.
  - apply (pr_disjoint _ _ _ _ Hp).
  - f_equal. apply map_eq. intros l. rewrite lookup_empty. destruct (h' !! l) eqn:E; [exfalso|done].
    destruct (h !! l) as [n'|] eqn:Eh.
    + destruct (pr_only _ _ _ _ Hp l) as (i & ls & Hi & Hl); [by rewrite Eh|]. by rewrite (Hgone l i ls Hi Hl) in E.
    + rewrite Hkeep in E; [congruence|]. intros i ls Hi Hl. assert (Hlt : (i < length (shards p))%nat).
      { rewrite <- (pr_lss _ _ _ _ Hp). by eapply lookup_lt_Some. }
      destruct (pool_shard h p qs lss i Hp Hlt) as (q & ls' & xs & _ & Hls' & _ & Hrep & _). simplify_eq.
      apply list_elem_of_lookup_1 in Hl as [j Hj]. destruct (rep_nodes _ _ _ _ Hrep j l Hj) as (x & _ & ?). congruence.
Qed.

(** ** Other operations *)

Lemma count_jobs_ok h p qs lss :
  pool_rep h p qs lss -> num_threads p * shard_cap <= INT_MAX ->
  thread_pool_pending_jobs (Some p) = Ok (Z.of_nat (length (concat qs))).
Proof.
  intros Hp Hmax. unfold thread_pool_pending_jobs. rewrite (pr_threads _ _ _ _ Hp) in *. rewrite Nat2Z.id, firstn_all.
  assert (Hgen : forall (ss : list shard_queue_t) (xss : list (list job_t)) total,
    Forall2 (fun q xs => size (jobs q) = Z.of_nat (length xs) /\ Z.of_nat (length xs) <= shard_cap) ss xss ->
    0 <= total -> total + Z.of_nat (length ss) * shard_cap <= INT_MAX ->
    count_jobs total ss = Ok (total + Z.of_nat (length (concat xss)))).
  { intros ss xss total Hf. revert total. induction Hf as [|q xs ss xss [Hs Hle] _ IH]; intros total H0 Hub; cbn.
    - f_equal. lia.
    - rewrite int_of_Ok by (unfold in_int, INT_MIN; cbn in Hub; unfold shard_cap in *; lia). cbn [mbind outcome_bind].
      rewrite IH by (cbn in Hub; unfold shard_cap in *; lia). rewrite length_app, Hs. f_equal. lia. }
  rewrite (Hgen _ qs); [done| |lia|done]. apply Forall2_same_length_lookup_2; [by rewrite (pr_qs _ _ _ _ Hp)|].
  intros i q xs Hq Hx. destruct (pool_shard h p qs lss i Hp) as (q' & ls & xs' & Hq' & _ & Hx' & Hrep & _ & Hl);
    [by eapply lookup_lt_Some|]. simplify_eq. rewrite (rep_size _ _ _ _ Hrep), (rep_length _ _ _ _ Hrep). split; [done|].
  by rewrite <- (rep_length _ _ _ _ Hrep).
Qed.
