(* ===== verification/EventLoop.v ===== *)
(** The event loop and start-up: main of chamlon_server/src/vpn_server.c and
    init_global_scheduler of scheduler.c.

    The loop hands each packet to a worker of the thread pool; a step of the
    transition system below is one such job, one slot of a scheduler shard, or one
    tick of the periodic work, each run to completion.  The environment (clocks,
    results of allocations and sends, contents of fresh stack memory) may change
    arbitrarily between steps. *)

From stdpp Require Import list gmap.
From S2P Require Import Prelude State ReplayWindow LinkedQueue OutQueue TaskHeap RateLimiter Metrics Crypto Wire Fragment Server.
From S2P Require Import Handshake PacketProcessor Scheduler ThreadPool.
Local Open Scope Z_scope.

(** ** Start-up *)

(** The loop over the shards; each entry of [rs] is the outcome of the two
    allocations of [pq_create] and of starting the worker thread. *)
Fixpoint init_shards (cap : Z) (i : nat) (rs : list (bool * bool * bool))
    (shards : list (option priority_queue_t)) : list (option priority_queue_t) :=
  match rs with
  | [] => shards
  | (mq, mn, thread_ok) :: rs =>
      let pq := pq_create mq mn cap in
      let shards := <[i := pq]> shards in
      if negb (bool_decide (is_Some pq)) || negb thread_ok then shards
      else init_shards cap (S i) rs shards
  end.

Definition init_global_scheduler (initial_capacity : Z) (rs : list (bool * bool * bool))
    : list (option priority_queue_t) :=
  let cap := if (initial_capacity <? 128) || (65536 <? initial_capacity) then 1024 else initial_capacity in
  init_shards cap 0 rs (replicate (Z.to_nat NUM_SHARDS) None).

(** The state when the loop starts, with every initialisation successful, at time
    [t] with signing key [sk]. *)
Definition boot (t : Z) (sk junk : list byte) : world :=
  {| sessions := replicate MAX_CLIENTS session_zero; g_next_packet_id_atomic := 1;
     global_metrics := metrics_init t; metrics_lock := true; rl := started t;
     g_shards := init_global_scheduler 1024 (replicate (Z.to_nat NUM_SHARDS) (true, true, true));
     g_sign_sk := Some sk; now := t; mono := {| tv_sec := 0; tv_nsec := 0 |};
     mallocs := []; sends := []; stack_junk := junk; trace := [] |}.

(** ** The loop *)

(** The minimal header check before a packet is handed to a worker, and the shard
    key that selects the worker; [None] when the packet is dropped. *)
Definition dispatch (buf : list byte) : outcome (option Z) :=
  if decide (length buf < sizeof_proto_header)%nat then Ok None
  else
    ph ← read_proto buf;
    if negb (magic ph =? PKT_MAGIC) || negb (version ph =? PKT_VERSION) then Ok None
    else if (type ph =? PKT_TYPE_DATA) && bool_decide (sizeof_proto_header + SESSION_ID_LEN <= length buf)%nat then
      b ← byte_at buf sizeof_proto_header; Ok (Some b)
    else Ok (Some 0).

(** [handle_outbound_tun]: [tmp] holds the bytes read from the tunnel, [None] when
    there were none; the result is the return value and the job submitted to the
    pool, with its shard key. *)
Definition handle_outbound_tun (tmp : option (list byte)) (udp_sock : Z) : M (Z * option (Z * job_t)) :=
  match tmp with
  | None => mret (0, None)
  | Some tmp =>
      if decide (length tmp < 20)%nat then mret (1, None)
      else
        found ← session_by_vpnip (take 4 (drop 16 tmp));
        match found with
        | None => mret (1, None)
        | Some _ =>
            ok ← malloc;
            if negb ok then mret (1, None)
            else
              ok ← malloc;
              if negb ok then mret (1, None)
              else
                shard_key ← lift (byte_at tmp 19);
                mret (1, Some (shard_key, JOB_TYPE_OUTBOUND_CRYPTO tmp udp_sock))
        end
  end.

(** The event loop's part of the inbound path: the header check, the two heap
    allocations, and the job submitted to the pool with its shard key. *)
Definition recv_inbound (udp_sock : Z) (buf : list byte) (src : sockaddr_in) (server_sk : list byte)
    : M (option (Z * job_t)) :=
  key ← lift (dispatch buf);
  match key with
  | None => mret None
  | Some shard_key =>
      ok ← malloc;
      if negb ok then mret None
      else
        ok ← malloc;
        if negb ok then mret None
        else mret (Some (shard_key, JOB_TYPE_INBOUND_CRYPTO buf src udp_sock server_sk))
  end.

Section loop.
Context `{Sod : Sodium}.

(** What a worker does with a job; [e] and [e'] are the randomness it draws.  The job
    and its buffer are freed afterwards. *)
Definition do_inbound_crypto (e e' : ephemeral) (udp_sock : Z) (buf : list byte) (src : sockaddr_in) (server_sk : list byte)
    : M unit :=
  handle_inbound_udp e e' udp_sock buf src server_sk.
Definition do_outbound_crypto (buf : list byte) : M unit := handle_outbound_tun_buf buf.

Definition run_job (e e' : ephemeral) (job : job_t) : M unit :=
  match job with
  | JOB_TYPE_INBOUND_CRYPTO buf src udp_sock server_sk => do_inbound_crypto e e' udp_sock buf src server_sk
  | JOB_TYPE_OUTBOUND_CRYPTO buf _ => do_outbound_crypto buf
  | JOB_TYPE_SHUTDOWN => mret tt
  end.

(** The work done every five seconds. *)
Definition periodic_work (udp_sock : Z) : M unit :=
  _ ← perform_maintenance udp_sock;
  t ← get now;
  r ← get rl;
  r ← lift (rate_limiter_cleanup t r);
  _ ← modify (fun w => w <| rl := r |>);
  ss ← get sessions;
  metric (metrics_set_active_connections (Z.of_nat (length (List.filter active ss)))).

(** What the program reacts to: a datagram, a packet from the tunnel, the deadline
    of a shard, the timer. *)
Inductive input :=
  | Datagram (e e' : ephemeral) (udp_sock : Z) (buf : list byte) (src : sockaddr_in) (server_sk : list byte)
  | Tunnel (e e' : ephemeral) (udp_sock : Z) (ip : option (list byte))
  | Deadline (shard : nat)
  | Timer (udp_sock : Z).

Definition serve (i : input) : M unit :=
  match i with
  | Datagram e e' udp_sock buf src server_sk =>
      r ← recv_inbound udp_sock buf src server_sk;
      match r with
      | None => mret tt
      | Some (_, job) => run_job e e' job
      end
  | Tunnel e e' udp_sock ip =>
      r ← handle_outbound_tun ip udp_sock;
      match r.2 with
      | None => mret tt
      | Some (_, job) => run_job e e' job
      end
  | Deadline k => _ ← scheduler_turn k; mret tt
  | Timer udp_sock => periodic_work udp_sock
  end.

(** A change of the environment. *)
Record env := {
  e_now : Z; e_mono : timespec; e_mallocs : list bool; e_sends : list bool; e_junk : list byte;
}.
Definition enter (v : env) (w : world) : world :=
  w <| now := e_now v |> <| mono := e_mono v |> <| mallocs := e_mallocs v |> <| sends := e_sends v |>
    <| stack_junk := e_junk v |>.

End loop.

(** ** Which worker a packet goes to *)

Lemma dispatch_data sid sq ct :
  length sid = SESSION_ID_LEN -> in_u64 sq ->
  exists b, sid !! 0%nat = Some b /\ dispatch (data_packet sid sq ct) = Ok (Some (b2z b)).
Proof.
  intros Hsid Hsq. destruct (data_packet_fields sid sq ct Hsid Hsq) as (Hph & Hs & _).
  pose proof (length_data_packet sid sq ct Hsid) as Hl.
  unfold DATA_HEADER_LEN, sizeof_proto_header, SESSION_ID_LEN in *.
  destruct sid as [|b sid]; [done|]. exists b. split; [done|]. unfold dispatch, sizeof_proto_header, SESSION_ID_LEN.
  rewrite decide_False by lia. rewrite Hph. cbn [mbind outcome_bind]. change (magic data_header) with PKT_MAGIC.
  change (version data_header) with PKT_VERSION. rewrite !Z.eqb_refl. cbn [negb orb].
  change (type data_header =? PKT_TYPE_DATA) with true. rewrite bool_decide_true by lia. cbn [andb].
  assert (Hb : data_packet (b :: sid) sq ct !! 6%nat = Some b).
  { unfold data_packet. rewrite lookup_app_r by (rewrite length_proto_bytes; unfold sizeof_proto_header; lia). by rewrite length_proto_bytes. }
  unfold byte_at. by rewrite Hb.
Qed.
