(* ===== verification/Pacing.v ===== *)
(** Pacing: the deadlines of constant-bitrate sessions, computed in binary64
    ([add_mbps_interval_to_timespec] and the drift correction of the worker). *)

From Stdlib Require Import Floats.SpecFloat.
From stdpp Require Import list gmap.
From S2P Require Import Prelude State ReplayWindow OutQueue TaskHeap RateLimiter Metrics Crypto Wire Fragment Server Handshake.
From S2P Require Import PacketProcessor Clock Scheduler.
Local Open Scope Z_scope.

(** ** Time *)

Lemma carry_loop_ok fuel ts :
  0 <= tv_nsec ts -> tv_nsec ts / NSEC_PER_SEC <= Z.of_nat fuel ->
  exists ts', carry_loop fuel ts = Ok ts' /\ total_ns ts' = total_ns ts /\ normal_ts ts'.
Proof.
  revert ts. induction fuel as [|fuel IH]; intros ts H0 Hf; cbn [carry_loop]; unfold normal_ts, total_ns, NSEC_PER_SEC in *.
  - destruct (Z.leb_spec 1000000000 (tv_nsec ts)) as [Hge|Hlt]; [|by exists ts].
    pose proof (Z.div_le_lower_bound (tv_nsec ts) 1000000000 1). lia.
  - destruct (Z.leb_spec 1000000000 (tv_nsec ts)) as [Hge|Hlt]; [|by exists ts].
    edestruct (IH {| tv_sec := tv_sec ts + 1; tv_nsec := tv_nsec ts - 1000000000 |}) as (ts' & E & Ht & Hn); cbn.
    + lia.
    + replace (tv_nsec ts - 1000000000) with (tv_nsec ts + (-1) * 1000000000) by lia.
      rewrite Z.div_add by lia. lia.
    + exists ts'. split; [exact E|]. split; [cbn in Ht; lia|done].
Qed.

(** The carry loop ends, with the same instant and a normal nanosecond field. *)
Lemma carry_ok ts :
  0 <= tv_nsec ts -> exists ts', carry ts = Ok ts' /\ total_ns ts' = total_ns ts /\ normal_ts ts'.
Proof.
  intros H. apply carry_loop_ok; [done|]. rewrite Z2Nat.id; [done|]. apply Z.div_pos; [done|by vm_compute].
Qed.

Lemma carry_total ts : exists ts', carry ts = Ok ts'.
Proof.
  destruct (decide (0 <= tv_nsec ts)) as [H|H].
  - destruct (carry_ok ts H) as (ts' & E & _). by exists ts'.
  - exists ts. unfold carry. replace (Z.to_nat (tv_nsec ts / NSEC_PER_SEC)) with 0%nat.
    + cbn [carry_loop]. destruct (Z.leb_spec NSEC_PER_SEC (tv_nsec ts)); [unfold NSEC_PER_SEC in *; lia|done].
    + pose proof (Z.div_lt_upper_bound (tv_nsec ts) NSEC_PER_SEC 0 ltac:(by vm_compute)). lia.
Qed.

(** ** The pacing interval *)

(** Bits a full fragment occupies on an Ethernet link: headers of the packet (30
    less the 6 the code leaves out), of UDP, IP and Ethernet, and the MAC. *)
Definition paced_bits (frag : Z) : Z := (frag + 82) * 8.

Definition interval_close (mbps frag : Z) : bool :=
  let n := interval_ns mbps frag in
  (n * mbps <=? paced_bits frag * 1000) && (paced_bits frag * 1000 <=? (n + 1) * mbps) && (10000 <=? n).

Definition config_pairs : list (Z * Z) :=
  m ← seqZ CONFIG_MIN_MBPS (CONFIG_MAX_MBPS - CONFIG_MIN_MBPS + 1);
  f ← seqZ CONFIG_MIN_FRAG_PARAM (CONFIG_MAX_FRAG_PARAM - CONFIG_MIN_FRAG_PARAM + 1);
  [(m, f)].

Lemma intervals_close : forallb (fun p => interval_close p.1 p.2) config_pairs = true.
Proof. by vm_compute. Qed.

Lemma interval_in_config mbps frag :
  CONFIG_MIN_MBPS <= mbps <= CONFIG_MAX_MBPS -> CONFIG_MIN_FRAG_PARAM <= frag <= CONFIG_MAX_FRAG_PARAM ->
  let n := interval_ns mbps frag in
  n * mbps <= paced_bits frag * 1000 <= (n + 1) * mbps /\ 10000 <= n.
Proof.
  intros Hm Hf n. pose proof intervals_close as H. rewrite forallb_forall in H.
  specialize (H (mbps, frag)). cbn [fst snd] in H. unfold interval_close in H. fold n in H.
  assert (Hin : In (mbps, frag) config_pairs).
  { apply list_elem_of_In. unfold config_pairs. apply list_elem_of_bind. exists mbps. split.
    - apply list_elem_of_bind. exists frag. split; [by left|]. apply elem_of_seqZ. lia.
    - apply elem_of_seqZ. lia. }
  specialize (H Hin). bprop. lia.
Qed.

Lemma pacing_step ts mbps frag :
  CONFIG_MIN_MBPS <= mbps <= CONFIG_MAX_MBPS -> CONFIG_MIN_FRAG_PARAM <= frag <= CONFIG_MAX_FRAG_PARAM ->
  normal_ts ts ->
  exists ts' n, add_mbps_interval_to_timespec ts mbps frag = Ok ts' /\ normal_ts ts' /\
    total_ns ts' = total_ns ts + n /\ 10000 <= n /\
    n * mbps <= paced_bits frag * 1000 <= (n + 1) * mbps.
Proof.
  intros Hm Hf [Hts _]. destruct (interval_in_config mbps frag Hm Hf) as [Hn Hlo].
  destruct (carry_ok {| tv_sec := tv_sec ts; tv_nsec := tv_nsec ts + interval_ns mbps frag |}) as (ts' & E & Ht & Hno).
  { cbn. lia. }
  exists ts', (interval_ns mbps frag). split; [exact E|]. split; [done|]. split; [|done].
  rewrite Ht. unfold total_ns. cbn. lia.
Qed.


(** At 1 Mbps a fragment of 167 bytes takes 1992000 nanoseconds. *)
Lemma pacing_loses_one : interval_ns 1 167 = 1991999 /\ paced_bits 167 * 1000 = 1992000.
Proof. by vm_compute. Qed.

Lemma catch_up_total mbps frag now next : exists ts', catch_up mbps frag now next = Ok ts'.
Proof.
  unfold catch_up. destruct (0 <? _); [|by exists next]. destruct (0 <? _); [|by exists next]. apply carry_total.
Qed.

