(* ===== verification/ServerLogic.v ===== *)
(** Reasoning about the server's operations: total-correctness rules for the state
    transformers of [Server], the well-formedness invariant of the server's state,
    and its preservation by the operations of session.c, fragment.c, packet.c and
    the queue and scheduler entry points. *)

From stdpp Require Import list gmap.
From S2P Require Import Prelude State ReplayWindow OutQueue TaskHeap RateLimiter Metrics Crypto Wire Fragment Server Handshake.
Local Open Scope Z_scope.

(** ** Rules for the server's primitives *)

Lemma runs_session i w s Q : sessions w !! i = Some s -> Q s w -> runs (session i) w Q.
Proof. intros E H. exists s, w. unfold session. by rewrite E. Qed.

Lemma runs_update i f w s Q :
  sessions w !! i = Some s -> Q tt (w <| sessions ::= <[i := f s]> |>) -> runs (update i f) w Q.
Proof. intros E H. exists tt, (w <| sessions ::= <[i := f s]> |>). unfold update. by rewrite E. Qed.

Lemma runs_malloc w Q :
  (forall b bs, (mallocs w = [] -> b = true /\ bs = []) -> Q b (w <| mallocs := bs |>)) -> runs malloc w Q.
Proof.
  intros H. unfold runs, malloc. destruct (mallocs w) as [|b bs] eqn:E.
  - exists true, w. split; [done|]. specialize (H true [] (fun _ => conj eq_refl eq_refl)).
    by destruct w; cbn in *; subst.
  - do 2 eexists. split; [done|]. by apply H.
Qed.

(** The result of the next allocation. *)
Definition next_alloc (w : world) : bool := match mallocs w with [] => true | b :: _ => b end.

Lemma runs_malloc_next w (Q : bool -> world -> Prop) :
  (forall bs, Q (next_alloc w) (w <| mallocs := bs |>)) -> runs malloc w Q.
Proof.
  intros H. unfold runs, malloc. unfold next_alloc in H. destruct (mallocs w) as [|b bs] eqn:E; (do 2 eexists; split; [done|]).
  - specialize (H []). by destruct w; cbn in *; subst.
  - apply H.
Qed.

Lemma runs_sendto sock data dst w Q :
  (forall b bs, (sends w = [] -> b = true /\ bs = []) ->
     Q b (w <| trace := if b : bool then trace w ++ [UdpSend sock dst data] else trace w |> <| sends := bs |>)) ->
  runs (sendto sock data dst) w Q.
Proof.
  intros H. unfold runs, sendto. destruct (sends w) as [|b bs] eqn:E.
  - do 2 eexists. split; [done|]. specialize (H true [] (fun _ => conj eq_refl eq_refl)).
    by destruct w; cbn in *; subst.
  - specialize (H b bs ltac:(done)). destruct b; do 2 eexists; (split; [done|]); by destruct w; cbn in *; subst.
Qed.

Lemma runs_lock_metrics w Q : metrics_lock w = true -> Q tt w -> runs lock_metrics w Q.
Proof. intros Hl HQ. exists tt, w. unfold lock_metrics. by rewrite Hl. Qed.

Lemma runs_metric f w Q : metrics_lock w = true -> Q tt (w <| global_metrics ::= f |>) -> runs (metric f) w Q.
Proof. intros Hl HQ. unfold metric. apply runs_bind, runs_lock_metrics; [done|]. by apply runs_modify. Qed.

(** ** The invariant *)

Definition ip_of (i : nat) : list byte := [z2b 10; z2b 10; z2b 0; z2b (u8 (2 + Z.of_nat i))].

Record params_ok (s : session_t) : Prop := {
  ok_mbps : CONFIG_MIN_MBPS <= argv_MBPS s <= CONFIG_MAX_MBPS;
  ok_frag : CONFIG_MIN_FRAG_PARAM <= argv_FRAG s <= CONFIG_MAX_FRAG_PARAM;
  ok_cbr : argv_CBR s = ch_Y \/ argv_CBR s = ch_N;
  ok_pad : argv_PAD s = ch_Y \/ argv_PAD s = ch_N;
}.

(** The length on the wire of a full fragment. *)
Definition wire_size (s : session_t) : nat := DATA_HEADER_LEN + Z.to_nat (argv_FRAG s) + MAC_LEN.

(** In constant-bitrate mode every queued packet has the full length. *)
Definition queue_uniform (s : session_t) : Prop :=
  argv_CBR s = ch_Y ->
  forall q, outq s = Some q -> Forall (fun d => length (pkt d) = wire_size s) (packets q).

(** What holds of every slot, used or not. *)
Record slot_ok (s : session_t) : Prop := {
  ok_sid : length (session_id s) = SESSION_ID_LEN;
  ok_kr : length (k_recv s) = AEAD_KEY_LEN;
  ok_ks : length (k_send s) = AEAD_KEY_LEN;
  ok_seq : in_u64 (send_seq s);
  ok_table : Forall entry_ok (g_reassembly_table s);
  ok_window : exists S, window_rep (rw s) S;
  ok_dummy : Z.of_nat (length (dummy_payload s)) = MAX_FRAG;
  ok_final : Z.of_nat (length (final_pkt_dummy s)) = MAX_FRAG;
}.

(** The pre-built dummy packet starts with the header and the session's id, and its
    plaintext carries the DUMMY flag. *)
Definition dummy_ready (s : session_t) : Prop :=
  take 22 (final_pkt_dummy s) = proto_bytes data_header ++ session_id s /\ u16_at (dummy_payload s) 6 = Ok PKT_DUMMY.

(** What holds of a session in use. *)
Record live_ok (i : nat) (s : session_t) : Prop := {
  ok_ip : vpn_ip s = ip_of i;
  ok_params : params_ok s;
  ok_static : static_hdr_len s = 22;
  ok_queue : queue_uniform s;
  ok_ready : dummy_ready s;
}.

Definition sess_ok (i : nat) (s : session_t) : Prop := slot_ok s /\ (active s = true -> live_ok i s).

Definition live_count (ss : list session_t) : Z := Z.of_nat (length (List.filter active ss)).

Record world_ok (w : world) : Prop := {
  ok_len : length (sessions w) = MAX_CLIENTS;
  ok_sess i s : sessions w !! i = Some s -> sess_ok i s;
  ok_rl : exists m, table_rep (rl w) m;
  ok_id : in_u16 (g_next_packet_id_atomic w);
  ok_shards : length (g_shards w) = 4%nat /\ Forall (fun o => exists pq, o = Some pq /\ pq_wf pq) (g_shards w);
  ok_gauge : 0 <= active_connections (global_metrics w) <= live_count (sessions w);
  ok_junk : length (stack_junk w) = SESSION_ID_LEN;
  ok_lock : metrics_lock w = true;
}.

(** ** Counting live sessions *)

Lemma live_count_insert ss i s s' :
  ss !! i = Some s ->
  live_count (<[i := s']> ss) =
    live_count ss - (if active s then 1 else 0) + (if active s' then 1 else 0).
Proof.
  unfold live_count. revert i. induction ss as [|x ss IH]; intros [|i] H; simplify_eq/=.
  - destruct (active s), (active s'); cbn; lia.
  - specialize (IH i H). destruct (active x); cbn; lia.
Qed.

Lemma live_count_pos ss i s : ss !! i = Some s -> active s = true -> 1 <= live_count ss.
Proof.
  intros H Ha. assert (Hin : s ∈ ss) by (by eapply list_elem_of_lookup_2).
  unfold live_count. assert (Hf : In s (List.filter active ss)).
  { apply filter_In. by rewrite <- list_elem_of_In. }
  destruct (List.filter active ss); [done|]. cbn. lia.
Qed.

Lemma live_count_le ss : 0 <= live_count ss <= Z.of_nat (length ss).
Proof. unfold live_count. pose proof (filter_length_le active ss). lia. Qed.

Lemma live_count_fmap f ss : (forall s, active (f s) = active s) -> live_count (f <$> ss) = live_count ss.
Proof.
  intros Hf. unfold live_count. f_equal. induction ss as [|x ss IH]; [done|]. cbn. rewrite Hf.
  destruct (active x); cbn; congruence.
Qed.

(** ** Updates that keep the invariant *)

Lemma world_ok_sent w t bs : world_ok w -> world_ok (w <| trace := t |> <| sends := bs |>).
Proof. intros []. constructor; done. Qed.
Lemma world_ok_alloc w bs : world_ok w -> world_ok (w <| mallocs := bs |>).
Proof. intros []. constructor; done. Qed.

Lemma world_ok_update w i s s' :
  world_ok w -> sessions w !! i = Some s -> sess_ok i s' -> active s' = active s ->
  world_ok (w <| sessions ::= <[i := s']> |>).
Proof.
  intros [Hlen Hs Hrl Hid Hsh Hg Hj] Hi Hok Ha. constructor; cbn; try done.
  - by rewrite length_insert.
  - intros j t Hj'. destruct (decide (i = j)) as [<-|Hne].
    + rewrite list_lookup_insert_eq in Hj' by (by eapply lookup_lt_Some). by simplify_eq.
    + rewrite list_lookup_insert_ne in Hj' by done. eauto.
  - rewrite (live_count_insert _ _ _ _ Hi), Ha. lia.
Qed.

Lemma update_get w i s s' :
  sessions w !! i = Some s -> sessions (w <| sessions ::= <[i := s']> |>) !! i = Some s'.
Proof. intros H. cbn. apply list_lookup_insert_eq. by eapply lookup_lt_Some. Qed.

Lemma world_ok_metric w f :
  world_ok w -> (forall m, active_connections (f m) = active_connections m) ->
  world_ok (w <| global_metrics ::= f |>).
Proof. intros [] Hf. constructor; cbn; try done. by rewrite Hf. Qed.

(** Giving up a live slot and recording the closed connection. *)
Lemma world_ok_close w i s s' :
  world_ok w -> sessions w !! i = Some s -> active s = true -> sess_ok i s' -> active s' = false ->
  world_ok (w <| global_metrics ::= metrics_record_connection_closed |> <| sessions ::= <[i := s']> |>).
Proof.
  intros [Hlen Hs Hrl Hid Hsh Hg Hj] Hi Ha Hok Ha'. constructor; cbn; try done.
  - by rewrite length_insert.
  - intros j t Hj'. destruct (decide (i = j)) as [<-|Hne].
    + rewrite list_lookup_insert_eq in Hj' by (by eapply lookup_lt_Some). by simplify_eq.
    + rewrite list_lookup_insert_ne in Hj' by done. eauto.
  - rewrite (live_count_insert _ _ _ _ Hi), Ha, Ha'. pose proof (live_count_pos _ _ _ Hi Ha).
    destruct (Z.ltb_spec 0 (active_connections (global_metrics w))); cbn; lia.
Qed.

(** ** Tactics *)

(** Solves [sessions w' !! i = Some ?s] after updates of [w]. *)
Ltac look :=
  cbn [sessions set eta_of eta_world];
  repeat first
    [ eassumption
    | rewrite list_lookup_insert_eq by (rewrite ?length_insert; eapply lookup_lt_Some; eassumption); reflexivity
    | rewrite list_lookup_insert_ne by done ].

(** Solves [metrics_lock w = true] where [w] differs from a well-formed state in other
    fields. *)
Ltac lock_held :=
  solve [ assumption | match goal with H : world_ok ?w |- _ => exact (ok_lock w H) end
        | match goal with H : metrics_lock _ = true |- _ => exact H end ].

(** One symbolic step. *)
Ltac rstep :=
  lazymatch goal with
  | |- runs (_ ≫= _) _ _ => apply runs_bind
  | |- runs (mret _) _ _ => apply runs_ret
  | |- runs (get _) _ _ => apply runs_get
  | |- runs (modify _) _ _ => apply runs_modify
  | |- runs (metric _) _ _ => apply runs_metric; [lock_held|]
  | |- runs lock_metrics _ _ => apply runs_lock_metrics; [lock_held|]
  | |- runs (emit _) _ _ => apply runs_modify
  | |- runs malloc _ _ => apply runs_malloc; intros ? ? ?
  | |- runs (sendto _ _ _) _ _ => apply runs_sendto; intros ? ? ?
  | |- runs (session _) _ _ => eapply runs_session; [look|]
  | |- runs (update _ _) _ _ => eapply runs_update; [look|]
  end; cbv beta match.
Ltac rlift H := eapply runs_lift; [exact H|]; cbv beta match.
Ltac rsteps := repeat rstep.

(** A slot whose changed fields do not matter to the invariant. *)
Ltac frame_session :=
  match goal with
  | H : sess_ok ?i ?s |- sess_ok ?i _ =>
      destruct H as [[] Hlive];
      split; [constructor; cbn; assumption
             |intros Ha; destruct (Hlive Ha) as [? [] ? ? ?]; constructor; cbn; try assumption;
              constructor; cbn; assumption]
  end.

(** ** Packets *)

Section packets.
Context `{Sod : Sodium} `{!SodiumLaws Sod}.

Lemma next_seq_run w i s :
  sessions w !! i = Some s ->
  next_seq i w = Ok (send_seq s, w <| sessions ::= <[i := s <| send_seq := u64 (send_seq s + 1) |>]> |>).
Proof. intros H. unfold next_seq, mbind, ST_bind, session, update. rewrite H, H. done. Qed.

Lemma runs_next_seq i w s Q :
  sessions w !! i = Some s ->
  Q (send_seq s) (w <| sessions ::= <[i := s <| send_seq := u64 (send_seq s + 1) |>]> |>) ->
  runs (next_seq i) w Q.
Proof. intros H HQ. do 2 eexists. split; [by apply next_seq_run|done]. Qed.

Lemma sess_ok_seq i s q : sess_ok i s -> in_u64 q -> sess_ok i (s <| send_seq := q |>).
Proof. intros H ?. frame_session. Qed.

Lemma frag_size_ok s : params_ok s -> frag_size s = argv_FRAG s.
Proof.
  intros [_ Hf _ _]. unfold frag_size, CONFIG_MIN_FRAG_PARAM, CONFIG_MAX_FRAG_PARAM in *.
  apply u64_small. unfold in_u64. lia.
Qed.

(** Only the sequence number of session [i] changes, whatever [m] sends. *)
Definition seq_only (i : nat) (s : session_t) (w w' : world) : Prop :=
  exists q t bs ms, in_u64 q /\
    w' = w <| sessions ::= <[i := s <| send_seq := q |>]> |> <| trace := t |> <| sends := bs |> <| mallocs := ms |>.

Lemma seq_only_intro i s w q t bs :
  in_u64 q -> seq_only i s w (w <| sessions ::= <[i := s <| send_seq := q |>]> |> <| trace := t |> <| sends := bs |>).
Proof. intros Hq. exists q, t, bs, (mallocs w). split; [done|]. by destruct w. Qed.

Lemma seq_only_ok i s w w' :
  world_ok w -> sessions w !! i = Some s -> seq_only i s w w' ->
  world_ok w' /\ exists q, sessions w' !! i = Some (s <| send_seq := q |>).
Proof.
  intros Hw Hi (q & t & bs & ms & Hq & ->). split.
  - apply (world_ok_update w i s (s <| send_seq := q |>)) in Hi as H; [|done| |done].
    + destruct H. constructor; done.
    + apply sess_ok_seq; [|done]. by eapply ok_sess.
  - exists q. cbn. apply list_lookup_insert_eq. by eapply lookup_lt_Some.
Qed.

Lemma send_control_packet_ok sock i ctrl w s :
  world_ok w -> sessions w !! i = Some s -> active s = true ->
  runs (send_control_packet sock i ctrl) w (fun _ w' => seq_only i s w w').
Proof.
  intros Hw Hi Ha. destruct (ok_sess w Hw i s Hi) as [Hslot Hlive]. pose proof (Hlive Ha) as [_ Hp _ _ _].
  pose proof (ok_frag s Hp) as Hf. pose proof (frag_size_ok s Hp) as Hfs. pose proof (ok_junk w Hw) as Hj.
  unfold CONFIG_MIN_FRAG_PARAM, CONFIG_MAX_FRAG_PARAM in *.
  unfold send_control_packet. rsteps. rewrite Ha. cbn [negb]. rewrite Hfs.
  destruct (Z.ltb_spec MAX_FRAG (argv_FRAG s)); [unfold MAX_FRAG in *; lia|].
  destruct (Z.ltb_spec (argv_FRAG s) 64); [lia|]. cbn [orb].
  rstep. eapply runs_next_seq; [done|]. rsteps.
  match goal with |- context [encrypt _ _ _ ?pt] => set (buf2 := pt) end.
  assert (Hlen : length buf2 = Z.to_nat (argv_FRAG s)).
  { subst buf2. cbn [stack_junk set]. rewrite length_app, length_replicate, length_tunnel_bytes by done.
    unfold sizeof_tunnel_header. lia. }
  destruct (encrypt_ok (k_send s) (session_id s) (send_seq s) buf2) as (ct & Hct & _ & Hctl);
    [apply Hslot|unfold BUFFER_SIZE, MAC_LEN; lia|].
  rlift Hct. unfold MAC_LEN in Hctl.
  destruct (Z.ltb_spec BUFFER_SIZE (Z.of_nat (DATA_HEADER_LEN + length ct))).
  { unfold BUFFER_SIZE, DATA_HEADER_LEN, sizeof_proto_header, SESSION_ID_LEN in *. lia. }
  rsteps. apply seq_only_intro. apply u64_range.
Qed.

Lemma wipe_ok i s : slot_ok s -> sess_ok i (wipe s).
Proof. intros []. split; [constructor; cbn; done|done]. Qed.

Lemma wipe_queue_ok i s : slot_ok s -> sess_ok i (wipe (s <| outq := None |>)).
Proof. intros []. split; [constructor; cbn; done|done]. Qed.

Lemma free_session_ok i w s :
  world_ok w -> sessions w !! i = Some s ->
  runs (free_session i) w (fun _ w' => world_ok w' /\
    exists s', sessions w' = <[i := s']> (sessions w) /\ active s' = false).
Proof.
  intros Hw Hi. unfold free_session. rsteps. destruct (active s) eqn:Ha; cbn [negb]; rsteps.
  - split; [|eauto]. apply (world_ok_close w i s); [done..| |done]. apply wipe_queue_ok. by eapply ok_sess.
  - split; [done|]. exists s. split; [|done]. by rewrite list_insert_id.
Qed.

Lemma expire_session_ok sock i w :
  world_ok w -> (i < MAX_CLIENTS)%nat -> runs (expire_session sock i) w (fun _ w' => world_ok w').
Proof.
  intros Hw Hi. destruct (lookup_lt_is_Some_2 (sessions w) i) as [s Hs]; [by rewrite (ok_len w Hw)|].
  unfold expire_session. rsteps. destruct (active s) eqn:Ha; cbn [negb]; [|by rstep].
  destruct (SESSION_TIMEOUT_SEC <? now w - last_activity s); [|by rstep].
  rstep. eapply runs_conseq; [by apply send_control_packet_ok|]. intros [] w' Hsq.
  destruct (seq_only_ok i s w w' Hw Hs Hsq) as (Hw' & q & Hs').
  rsteps. apply (world_ok_close w' i (s <| send_seq := q |>)); [done..| |done].
  apply wipe_ok. by eapply ok_sess.
Qed.

Lemma cleanup_expired_sessions_ok sock w :
  world_ok w -> runs (cleanup_expired_sessions sock) w (fun _ w' => world_ok w').
Proof.
  intros Hw. apply runs_for; [done|]. intros j w' Hj Hw'. apply expire_session_ok; [done|lia].
Qed.

End packets.

(** ** Reassembly tables *)

Lemma sess_ok_table i s tbl : sess_ok i s -> Forall entry_ok tbl -> sess_ok i (s <| g_reassembly_table := tbl |>).
Proof. intros H ?. frame_session. Qed.

Lemma sweep_ok w : world_ok w -> runs sweep_reassembly_table w (fun _ w' => world_ok w').
Proof.
  intros Hw. unfold sweep_reassembly_table. rsteps. destruct Hw as [Hlen Hs Hrl Hid Hsh Hg Hj].
  constructor; cbn; try done.
  - by rewrite length_fmap.
  - intros i s' Hi. apply list_lookup_fmap_Some in Hi as (s & -> & Hi). apply sess_ok_table; [by apply Hs|].
    apply Forall_fmap. eapply Forall_impl; [apply (Hs i s Hi)|]. intros e. apply expire_entry_ok.
  - by rewrite live_count_fmap.
Qed.

(** ** Dummy packets *)

(** The dummy packet starts with the header and id of its session and its
    plaintext carries the DUMMY flag. *)
Lemma dummy_parts_ok s :
  slot_ok s -> params_ok s ->
  exists p d, dummy_parts s = Ok (s <| final_pkt_dummy := p |> <| dummy_payload := d |> <| static_hdr_len := 22 |>) /\
    Z.of_nat (length p) = MAX_FRAG /\ Z.of_nat (length d) = MAX_FRAG /\
    take 22 p = proto_bytes data_header ++ session_id s /\ u16_at d 6 = Ok PKT_DUMMY.
Proof.
  intros [Hsid _ _ _ _ _ Hd Hp] Hpar. pose proof (frag_size_ok s Hpar) as Hfs. destruct Hpar as [_ Hf _ _].
  unfold CONFIG_MIN_FRAG_PARAM, CONFIG_MAX_FRAG_PARAM, MAX_FRAG in *. unfold dummy_parts. rewrite Hfs.
  destruct (Z.ltb_spec MAX_FRAG (argv_FRAG s)); [unfold MAX_FRAG in *; lia|].
  destruct (Z.ltb_spec (argv_FRAG s) 64); [lia|]. cbn [orb].
  destruct (static_header_ok (final_pkt_dummy s) (session_id s) Hsid) as (p1 & p2 & E1 & E2 & Hl2 & Hr2); [lia|].
  rewrite E1. cbn [mbind outcome_bind]. rewrite E2. cbn [mbind outcome_bind].
  set (th := {| packet_id := 1; fragment_offset := 1; total_ip_len := 1; flags := PKT_DUMMY; th_session_id := zeros SESSION_ID_LEN |}).
  destruct (filled_buffer_ok (dummy_payload s) th (Z.to_nat (argv_FRAG s)) (z2b 0x99)) as (d1 & d2 & E3 & E4 & Hl4 & Hf4);
    [by split|lia|].
  rewrite E3. cbn [mbind outcome_bind].
  destruct (Z.ltb_spec (Z.of_nat sizeof_tunnel_header) (argv_FRAG s)); [|unfold sizeof_tunnel_header in *; lia].
  rewrite E4. exists p2, d2. split; [done|]. rewrite Hl2, Hl4. done.
Qed.

(** ** Queues *)

Lemma queue_push_ok i pk sq ip w s :
  world_ok w -> sessions w !! i = Some s -> active s = true ->
  (argv_CBR s = ch_Y -> length pk = wire_size s) ->
  is_ok (classify_packet (Some ip) (length ip)) = true ->
  runs (queue_push i pk sq ip) w (fun _ w' => world_ok w' /\
    exists o, sessions w' = <[i := s <| outq := o |>]> (sessions w)).
Proof.
  intros Hw Hi Ha Hlen Hcl. unfold queue_push. rsteps. destruct (outq s) as [q|] eqn:Hq.
  2:{ rsteps. split; [done|]. exists None. rewrite list_insert_id; [done|].
      rewrite Hi. f_equal. destruct s. cbn in *. by subst. }
  destruct (classify_packet (Some ip) (length ip)) as [prio|] eqn:Hc; [|done].
  rstep. rlift (eq_refl (@Ok pkt_priority_t prio)). rsteps.
  assert (Hsame : <[i := s <| outq := Some q |>]> (sessions w) = sessions w).
  { rewrite list_insert_id; [done|]. rewrite Hi. f_equal. destruct s. cbn in *. by subst. }
  match goal with |- runs (if negb ?b then _ else _) _ _ => destruct b end; cbn [negb].
  2:{ rsteps. split; [by apply world_ok_alloc|]. exists (Some q). by rewrite Hsame. }
  rstep. unfold when.
  assert (Hfin : forall m, active_connections m = active_connections (global_metrics w) ->
    world_ok (w <| global_metrics := m |> <| sessions ::= <[i := s <| outq :=
      Some (aq_push {| pkt := pk; pktlen := Z.of_nat (length pk); seq := sq; priority := prio |} q) |>]> |>)).
  { intros m Hm. destruct (ok_sess w Hw i s Hi) as [Hsl Hlive].
    assert (Hw1 : world_ok (w <| global_metrics := m |>)) by (destruct Hw; constructor; cbn; try done; by rewrite Hm).
    apply (world_ok_update _ i s); [done..| |done]. split; [destruct Hsl; by constructor|].
    intros _. destruct (Hlive Ha) as [? [] ? Hu ?]. constructor; try done. intros Hy q' [= <-].
    eapply Forall_impl; [apply aq_push_packets|]. cbn. intros x [->|Hx]; [by apply Hlen|].
    specialize (Hu Hy q Hq). rewrite Forall_forall in Hu. by apply Hu. }
  destruct (aq_full prio q); rsteps.
  - split; [|eauto]. specialize (Hfin (metrics_record_queue_drop (global_metrics w)) eq_refl).
    destruct Hfin; constructor; done.
  - split; [|eauto]. specialize (Hfin (global_metrics w) eq_refl). destruct Hfin; constructor; done.
Qed.

(** ** The scheduler's shards *)

Definition shards_small (w : world) : Prop :=
  Forall (fun o => forall pq, o = Some pq -> 2 * Z.of_nat (TaskHeap.size pq) <= INT_MAX) (g_shards w).

(** Nothing but the scheduler's heaps and the allocator changes. *)
Definition shards_only (w w' : world) : Prop :=
  exists sh ms, w' = w <| g_shards := sh |> <| mallocs := ms |> /\ (mallocs w = [] -> ms = []).

Lemma shard_push_ok k task w :
  world_ok w -> shards_small w -> (k < 4)%nat ->
  runs (shard_push k task) w (fun _ w' => world_ok w' /\ shards_only w w').
Proof.
  intros Hw Hsm Hk. destruct (ok_shards w Hw) as [Hl Hsh].
  destruct (lookup_lt_is_Some_2 (g_shards w) k) as [o Ho]; [lia|].
  destruct (proj1 (Forall_lookup _ _) Hsh k o Ho) as (pq & -> & Hpq).
  pose proof (proj1 (Forall_lookup _ _) Hsm k _ Ho pq eq_refl) as Hsz.
  unfold shard_push. rsteps. rewrite Ho.
  assert (Hpush : forall grown bs, runs (pq ← lift (pq_push grown pq task); modify (fun w => w <| g_shards ::= <[k := Some pq]> |>))
    (w <| mallocs := bs |>)
    (fun _ w' => world_ok w' /\ shards_only (w <| mallocs := bs |>) w')).
  { intros grown bs. destruct (pq_push_ok grown pq task Hpq Hsz) as (pq' & Hp & Hwf & _).
    rstep. rlift Hp. rsteps. split; [|exists (<[k := Some pq']> (g_shards w)), bs; by split]. destruct Hw. constructor; cbn; try done.
    split; [by rewrite length_insert|]. apply Forall_insert; [done|]. eauto. }
  destruct (Z.of_nat (TaskHeap.size pq) =? TaskHeap.capacity pq).
  - rstep. rstep. eapply runs_conseq; [apply Hpush|]. cbv beta. intros [] w' [? (sh & ms & -> & Hms)].
    split; [done|]. eexists _, _. split; [done|]. cbn in Hms. naive_solver.
  - rstep. rstep. specialize (Hpush true (mallocs w)).
    replace (w <| mallocs := mallocs w |>) with w in Hpush by (by destruct w). exact Hpush.
Qed.

Lemma scheduler_add_session_ok sid w :
  world_ok w -> shards_small w -> length sid = SESSION_ID_LEN ->
  runs (scheduler_add_session sid) w (fun _ w' => world_ok w' /\ shards_only w w').
Proof.
  intros Hw Hsm Hsid. unfold scheduler_add_session. rsteps.
  match goal with |- runs (if negb ?b then _ else _) (w <| mallocs := ?bs |>) _ =>
    destruct b; cbn [negb]; pose proof (world_ok_alloc w bs Hw) as Hw1 end.
  - rsteps. destruct (byte_at_lt sid 0) as (b & _ & Hb); [rewrite Hsid; unfold SESSION_ID_LEN; lia|].
    rlift Hb. eapply runs_conseq; [apply shard_push_ok; try done|].
    + pose proof (Z.mod_pos_bound (b2z b) NUM_SHARDS). unfold NUM_SHARDS in *. lia.
    + cbv beta. intros [] w' [? (sh & ms & -> & Hms)]. split; [done|]. eexists _, _. split; [done|].
      cbn in Hms. naive_solver.
  - rsteps. split; [done|]. eexists (g_shards w), _. split; [by destruct w|naive_solver].
Qed.
