(* ===== verification/HandshakeProofs.v ===== *)
(** The handshake handlers keep the server's invariant, and a successful handshake
    installs exactly the keys, id and parameters the peer derives. *)

From stdpp Require Import list gmap.
From S2P Require Import Prelude State ReplayWindow OutQueue TaskHeap RateLimiter Metrics Crypto Wire Fragment Server Handshake.
From S2P Require Import ServerLogic.
Local Open Scope Z_scope.

(** ** One slot aside

    While a handshake fills slot [i] the slot need not satisfy the invariant; the
    state with that slot blanked does. *)
Definition blank (i : nat) (w : world) : world := w <| sessions ::= <[i := session_zero]> |>.

Lemma session_zero_ok i : sess_ok i session_zero.
Proof.
  split; [|done]. constructor; cbn [session_zero]; try reflexivity.
  - by vm_compute.
  - apply Forall_replicate, entry_zero_ok.
  - exists ∅. apply window_zero_rep.
Qed.
Lemma session_zero_idle : active session_zero = false.
Proof. done. Qed.
#[local] Opaque session_zero.

(** [w] with slot [i] holding [s]. *)
Definition upd (i : nat) (s : session_t) (w : world) : world := w <| sessions ::= <[i := s]> |>.

#[global] Arguments upd : simpl never.

Lemma upd_upd i s s' w : upd i s' (upd i s w) = upd i s' w.
Proof. unfold upd. cbn. by rewrite list_insert_insert_eq. Qed.

Lemma upd_lookup i s s0 w : sessions w !! i = Some s0 -> sessions (upd i s w) !! i = Some s.
Proof. intros H. apply list_lookup_insert_eq. by eapply lookup_lt_Some. Qed.

(** Updating the slot again replaces it. *)
Lemma runs_upd i f w s s0 (Q : unit -> world -> Prop) :
  sessions w !! i = Some s0 -> Q tt (upd i (f s) w) -> runs (update i f) (upd i s w) Q.
Proof.
  intros Hi HQ. eapply runs_update; [by eapply upd_lookup|].
  by replace (upd i s w <| sessions ::= <[i := f s]> |>) with (upd i (f s) w) by (symmetry; apply upd_upd).
Qed.

Lemma upd_id i s w : sessions w !! i = Some s -> upd i s w = w.
Proof. intros H. unfold upd. destruct w. cbn in *. by rewrite list_insert_id. Qed.

Lemma blank_update i w s : blank i (w <| sessions ::= <[i := s]> |>) = blank i w.
Proof. unfold blank. cbn. by rewrite list_insert_insert_eq. Qed.

(** Blanking a slot that is not in use. *)
Lemma blank_ok i w s : world_ok w -> sessions w !! i = Some s -> active s = false -> world_ok (blank i w).
Proof. intros Hw Hi Ha. apply (world_ok_update w i s); [done..|apply session_zero_ok|by rewrite session_zero_idle]. Qed.

Lemma unblank_gauge i w s :
  world_ok (blank i w) -> sessions w !! i = Some s ->
  0 <= active_connections (global_metrics w) /\
  active_connections (global_metrics w) + (if active s then 1 else 0) <= live_count (sessions w).
Proof.
  intros Hw Hi. pose proof (ok_gauge _ Hw) as Hg. cbn in Hg.
  rewrite (live_count_insert _ _ _ _ Hi), session_zero_idle in Hg. lia.
Qed.

Lemma unblank_ok i w s :
  world_ok (blank i w) -> sessions w !! i = Some s -> sess_ok i s -> world_ok w.
Proof.
  intros Hw Hi Hs. pose proof (unblank_gauge _ _ _ Hw Hi) as Hg.
  destruct Hw as [Hlen Hss Hrl Hid Hsh _ Hj]. cbn in *. rewrite length_insert in Hlen.
  constructor; try done.
  - intros j t Hj'. destruct (decide (i = j)) as [<-|Hne]; [by simplify_eq|].
    apply Hss. by rewrite list_lookup_insert_ne.
  - destruct (active s); lia.
Qed.

Lemma clamp_ok m f c p s :
  params_ok (s <| argv_MBPS := clamp_mbps m |> <| argv_FRAG := clamp_frag f |>
               <| argv_CBR := clamp_flag c |> <| argv_PAD := clamp_flag p |>).
Proof.
  assert (Hflag : forall b, clamp_flag b = ch_Y \/ clamp_flag b = ch_N).
  { intros b. unfold clamp_flag. repeat case_bool_decide; cbn; auto. }
  constructor; cbn; [| |apply Hflag|apply Hflag].
  - unfold clamp_mbps, CONFIG_MIN_MBPS, CONFIG_MAX_MBPS, CONFIG_DEFAULT_MBPS.
    destruct (Z.ltb_spec m 1), (Z.ltb_spec 15 m); cbn; lia.
  - unfold clamp_frag, CONFIG_MIN_FRAG_PARAM, CONFIG_MAX_FRAG_PARAM, CONFIG_DEFAULT_FRAG_PARAM.
    destruct (Z.ltb_spec f 64), (Z.ltb_spec 1200 f); cbn; lia.
Qed.

Section proofs.
Context `{Sod : Sodium} `{!SodiumLaws Sod}.

Lemma session_secrets_lengths e sk c_pub c_nonce k1 k2 sid :
  session_secrets e sk c_pub c_nonce = Some (k1, k2, sid) ->
  length k1 = AEAD_KEY_LEN /\ length k2 = AEAD_KEY_LEN /\ length sid = SESSION_ID_LEN.
Proof.
  unfold session_secrets. intros H. apply bind_Some in H as (dh1 & _ & H). apply bind_Some in H as (dh2 & _ & H).
  pose proof (length_derive_two_keys (dh1 ++ dh2) (c_nonce ++ s_nonce e)) as [? ?].
  destruct (derive_two_keys _ _) as [a b]. simplify_eq.
  repeat split; try done. apply generichash_length. unfold SESSION_ID_LEN. lia.
Qed.

(** The loop over the other sessions closes at most one, never slot [i]. *)
Lemma replace_old_session_ok i src w s :
  world_ok (blank i w) -> sessions w !! i = Some s ->
  runs (replace_old_session i src) w (fun _ w' => world_ok (blank i w') /\ sessions w' !! i = Some s /\
    exists ss m, w' = w <| sessions := ss |> <| global_metrics := m |>).
Proof.
  intros Hw Hi. unfold replace_old_session. rsteps.
  destruct (first_index _ _) as [j|] eqn:E.
  2:{ rsteps. split; [done|]. split; [done|]. exists (sessions w), (global_metrics w). by destruct w. }
  apply first_index_Some in E as ([j' t] & Hj & Hp & _).
  rewrite list_lookup_imap in Hj. apply fmap_Some in Hj as (t' & Ht & [= -> ->]).
  apply andb_true_iff in Hp as [Hne Hpeer]. cbn in Hne, Hpeer. apply negb_true_iff, bool_decide_eq_false in Hne.
  assert (Hact : active t' = true) by (unfold same_peer in Hpeer; bprop; done).
  assert (Htb : sessions (blank i w) !! j = Some t') by (cbn; by rewrite list_lookup_insert_ne).
  rsteps. split; [|split; [|by eexists _, _]].
  - match goal with |- world_ok (blank i (_ <| sessions ::= <[j := ?t'']> |> <| global_metrics ::= _ |>)) =>
      assert (Hok : sess_ok j t'') end.
    { split; [|done]. destruct (ok_sess _ Hw j t' Htb) as [[] _]. by constructor. }
    pose proof (world_ok_close _ j t' _ Hw Htb Hact Hok eq_refl) as Hc.
    unfold blank in *. cbn in *. rewrite list_insert_insert_ne in Hc by done. exact Hc.
  - cbn. by rewrite list_lookup_insert_ne.
Qed.

Lemma allocate_session_ok w :
  runs allocate_session w (fun o w' =>
    match o with
    | None => w' = w /\ first_index (fun s => negb (active s)) (sessions w) = None
    | Some i => exists s, sessions w !! i = Some s /\ active s = false /\
                  w' = w <| sessions ::= <[i := s <| rw := window_zero |>]> |>
    end).
Proof.
  unfold allocate_session. rsteps. destruct (first_index _ _) as [i|] eqn:E; [|by rsteps].
  apply first_index_Some in E as (s & Hs & Ha & _). apply negb_true_iff in Ha. rstep. rsteps. eauto.
Qed.

Lemma check_handshake_ok t1 t2 t3 r ip :
  (exists m, table_rep r m) ->
  exists res r', check_handshake_rate_limit t1 t2 t3 r ip = Ok (res, r') /\ exists m, table_rep r' m.
Proof.
  intros [m Hm]. destruct (with_entry_refines t1 r m ip RATE_LIMIT_EXCEEDED (handshake_entry t2 t3) Hm)
    as (es & n & E & Hr); [apply handshake_entry_ip|]. unfold check_handshake_rate_limit. rewrite E. eauto 6.
Qed.

Lemma check_packet_ok t1 t2 t3 r ip :
  (exists m, table_rep r m) ->
  exists res r', check_packet_rate_limit t1 t2 t3 r ip = Ok (res, r') /\ exists m, table_rep r' m.
Proof.
  intros [m Hm]. destruct (with_entry_refines t1 r m ip RATE_LIMIT_EXCEEDED (packet_entry t2 t3) Hm)
    as (es & n & E & Hr); [apply packet_entry_ip|]. unfold check_packet_rate_limit. rewrite E. eauto 6.
Qed.

Lemma world_ok_rl w r : world_ok w -> (exists m, table_rep r m) -> world_ok (w <| rl := r |>).
Proof. intros [] ?. by constructor. Qed.

Lemma world_ok_gauge w m :
  world_ok w -> 0 <= active_connections m <= live_count (sessions w) -> world_ok (w <| global_metrics := m |>).
Proof. intros [] ?. by constructor. Qed.

Definition client_pub (msg1 : list byte) : list byte := take PUBKEY_LEN (drop sizeof_proto_header msg1).
Definition client_nonce (msg1 : list byte) : list byte := take 8 (drop (sizeof_proto_header + PUBKEY_LEN) msg1).

(** The parameters at the end of MSG1, and a session's address and parameters. *)
Definition request (msg1 : list byte) : list byte := drop (sizeof_proto_header + PUBKEY_LEN + 8) msg1.
Definition granted (s : session_t) : list byte * Z * Z * byte * byte :=
  (vpn_ip s, argv_MBPS s, argv_FRAG s, argv_CBR s, argv_PAD s).

(** What a completed handshake on server [w] leaves behind in slot [i]. *)
Record established (e : ephemeral) (sock : Z) (msg1 : list byte) (src : sockaddr_in) (sk : list byte)
    (i : nat) (w w' : world) : Prop := {
  est_session : exists s k1 k2 sid sig cbr pad,
    sessions w' !! i = Some s /\ active s = true /\
    session_secrets e sk (client_pub msg1) (client_nonce msg1) = Some (k1, k2, sid) /\
    k_recv s = k1 /\ k_send s = k2 /\ session_id s = sid /\
    send_seq s = 0 /\ rw s = window_zero /\ outq s = Some aq_empty /\ client_addr s = src /\
    request msg1 !! 8%nat = Some cbr /\ request msg1 !! 9%nat = Some pad /\
    granted s = (ip_of i, clamp_mbps (int_value (take 4 (request msg1))),
      clamp_frag (int_value (take 4 (drop 4 (request msg1)))), clamp_flag cbr, clamp_flag pad) /\
    sign_detached (default [] (g_sign_sk w)) (to_sign e (client_pub msg1) (client_nonce msg1)) = Some sig /\
    List.In (UdpSend sock src (msg2_packet e (ip_of i) sig)) (trace w');
}.

Lemma fail_dh_ok i w s :
  world_ok w -> sessions w !! i = Some s ->
  runs (fail_dh i) w (fun r w' => r = -1 /\ world_ok w').
Proof.
  intros Hw Hi. unfold fail_dh. rstep. eapply runs_conseq; [by eapply free_session_ok|].
  intros [] w' [Hw' _]. by rsteps.
Qed.

Lemma finish_msg1_ok i udp_sock sid msg2 src t w s :
  world_ok (blank i w) -> shards_small w -> sessions w !! i = Some s -> active s = true ->
  slot_ok s -> vpn_ip s = ip_of i -> params_ok s -> static_hdr_len s = 22 -> dummy_ready s ->
  length sid = SESSION_ID_LEN ->
  runs (finish_msg1 i udp_sock sid msg2 src t) w (fun r w' => world_ok w' /\
    (r = -1 \/ r = 0 /\ exists s', sessions w' !! i = Some s' /\ active s' = true /\
      k_recv s' = k_recv s /\ k_send s' = k_send s /\ session_id s' = session_id s /\ send_seq s' = send_seq s /\
      rw s' = rw s /\ outq s' = Some aq_empty /\ client_addr s' = src /\ granted s' = granted s /\
      List.In (UdpSend udp_sock src msg2) (trace w')) /\
    (mallocs w = [] -> sends w = [] -> r = 0)).
Proof.
  intros Hb Hsm Hi Ha Hslot Hip Hpar Hst Hrd Hsid. unfold finish_msg1. rstep.
  eapply runs_conseq; [by eapply replace_old_session_ok|]. intros [] w1 (Hb1 & Hi1 & ss & m & ->).
  assert (Hok : forall o b, (o = Some aq_empty \/ o = None) ->
    sess_ok i (s <| client_addr := src |> <| client_addrlen := 16 |> <| last_activity := t |>
                 <| outq := o |> <| last_activity_keepalive := b |>)).
  { intros o b Ho. split; [by destruct Hslot; constructor|]. intros _. constructor; try done.
    - by destruct Hpar; constructor.
    - intros _ q Hq. cbn in Hq. destruct Ho; simplify_eq; constructor. }
  rstep. rstep. set (w1 := w <| sessions := ss |> <| global_metrics := m |>) in *.
  rstep. rstep.
  match goal with |- runs (if negb ?b then _ else _) ?w2 _ => set (w2' := w2); rename b into ok end.
  set (s2 := s <| client_addr := src |> <| client_addrlen := 16 |> <| last_activity := t |>
               <| outq := if ok then Some aq_empty else None |> <| last_activity_keepalive := last_activity_keepalive s |>).
  assert (Hi2 : sessions w2' !! i = Some s2).
  { change (<[i := s2]> ss !! i = Some s2). apply list_lookup_insert_eq. exact (lookup_lt_Some _ _ _ Hi1). }
  assert (Hs2 : sess_ok i s2) by (apply Hok; destruct ok; auto).
  assert (Hb2 : world_ok (blank i w2')).
  { subst w2'. rewrite blank_update. by apply (world_ok_alloc (blank i w1)). }
  assert (Hw2 : world_ok w2') by (by eapply unblank_ok).
  assert (Hsm2 : shards_small w2') by exact Hsm.
  assert (Hm2 : mallocs w = [] -> ok = true /\ mallocs w2' = []) by (intros Hm; destruct (H Hm); by subst).
  assert (Hd2 : sends w2' = sends w) by done.
  clearbody w2'. destruct ok; cbn [negb].
  - rstep. eapply runs_conseq; [apply scheduler_add_session_ok; [done|exact Hsm2|done]|].
    intros [] w3 [Hw3 (sh & ms & -> & Hms)]. rstep. rstep.
    match goal with |- runs (if negb ?b then _ else _) _ _ => destruct b end; cbn [negb].
    + pose proof (unblank_gauge i w2' s2 Hb2 Hi2) as [Hg0 Hg1].
      change (active s2) with (active s) in Hg1. rewrite Ha in Hg1.
      pose proof (live_count_le (sessions w2')) as Hle. rewrite (ok_len _ Hw2) in Hle.
      do 7 rstep. eapply runs_lift.
      { unfold metrics_record_connection_established. cbn. rewrite int_of_Ok; [reflexivity|].
        unfold in_int, INT_MIN, INT_MAX, MAX_CLIENTS in *. lia. }
      cbv beta. rsteps. split; [|split; [|done]].
      * eapply world_ok_update; [|look| |done].
        -- eapply (world_ok_gauge (w2' <| g_shards := sh |> <| mallocs := ms |> <| trace := _ |> <| sends := _ |>));
             [by apply world_ok_sent|]. cbn. lia.
        -- subst s2. by apply Hok; left.
      * right. split; [done|]. eexists. split; [look|]. subst s2. cbn. repeat split; try done.
        apply in_app_iff. right. by left.
    + eapply runs_conseq; [eapply fail_dh_ok; [by apply world_ok_sent|look]|]. cbv beta. cbn in *.
      intros r w' [-> Hw']. split; [done|]. split; [by left|]. intros _ Hs. rewrite Hd2 in *. naive_solver.
  - eapply runs_conseq; [by eapply fail_dh_ok|]. cbv beta. naive_solver.
Qed.

Lemma dummy_fields_ok s pd dp n :
  slot_ok s -> params_ok s -> Z.of_nat (length pd) = MAX_FRAG -> Z.of_nat (length dp) = MAX_FRAG ->
  slot_ok (s <| final_pkt_dummy := pd |> <| dummy_payload := dp |> <| static_hdr_len := n |>) /\
  params_ok (s <| final_pkt_dummy := pd |> <| dummy_payload := dp |> <| static_hdr_len := n |>).
Proof. intros [] [] ? ?. split; by constructor. Qed.

(** The slot as [handle_msg1] fills it, before it is marked active. *)
Lemma fill_slot_ok s k1 k2 sid m f c p sock :
  slot_ok s -> length k1 = AEAD_KEY_LEN -> length k2 = AEAD_KEY_LEN -> length sid = SESSION_ID_LEN ->
  exists pd dp s',
    dummy_parts (s <| argv_MBPS := clamp_mbps m |> <| argv_FRAG := clamp_frag f |>
      <| argv_CBR := clamp_flag c |> <| argv_PAD := clamp_flag p |>
      <| k_recv := k1 |> <| k_send := k2 |> <| s_udp_sock := sock |> <| session_id := sid |>) = Ok s' /\
    s' = s <| argv_MBPS := clamp_mbps m |> <| argv_FRAG := clamp_frag f |>
      <| argv_CBR := clamp_flag c |> <| argv_PAD := clamp_flag p |>
      <| k_recv := k1 |> <| k_send := k2 |> <| s_udp_sock := sock |> <| session_id := sid |>
      <| final_pkt_dummy := pd |> <| dummy_payload := dp |> <| static_hdr_len := 22 |> /\
    slot_ok s' /\ params_ok s' /\ dummy_ready s'.
Proof.
  intros Hs H1 H2 H3. pose proof (clamp_ok m f c p s) as Hc.
  match goal with |- context [dummy_parts ?s1] => set (s1' := s1) end.
  assert (Hs1 : slot_ok s1') by (destruct Hs; by constructor).
  assert (Hp1 : params_ok s1') by (destruct Hc; by constructor).
  destruct (dummy_parts_ok s1' Hs1 Hp1) as (pd & dp & E & Hl1 & Hl2 & Hr).
  exists pd, dp. eexists. split; [exact E|]. split; [reflexivity|].
  destruct (dummy_fields_ok s1' pd dp 22 Hs1 Hp1 Hl1 Hl2). done.
Qed.

Lemma slot_ok_seq s : slot_ok s -> slot_ok (s <| send_seq := 0 |> <| last_recv_seq := 0 |> <| active := true |>).
Proof. intros []. by constructor. Qed.

(** Everything after a slot was found: parameters, keys, message, activation. *)
Lemma handle_msg1_slot_ok e sock msg1 src sk sign_sk w i s :
  world_ok w -> shards_small w -> sessions w !! i = Some s -> active s = false -> rw s = window_zero ->
  g_sign_sk w = Some sign_sk -> length msg1 = MSG1_PACKET_LEN ->
  runs (handle_msg1_slot e sock msg1 src sk sign_sk i) w
    (fun r w' => world_ok w' /\ (r = -1 \/ r = 0 /\ established e sock msg1 src sk i w w') /\
      (mallocs w = [] -> sends w = [] -> is_Some (session_secrets e sk (client_pub msg1) (client_nonce msg1)) -> r = 0)).
Proof.
  intros Hw Hsm Hi Ha Hrw Hk Hlen. pose proof (blank_ok i w s Hw Hi Ha) as Hb.
  destruct (ok_sess w Hw i s Hi) as [Hslot _]. unfold handle_msg1_slot. cbv zeta.
  fold (request msg1). set (params := request msg1).
  assert (Hpl : length params = 10%nat) by (subst params; unfold request; rewrite length_drop, Hlen; done).
  destruct (slot_read_lt params 8) as (cbr & Hcbr & Hcbr'); [lia|].
  destruct (slot_read_lt params 9) as (pad & Hpad & Hpad'); [lia|].
  rstep. rstep. unfold assign_vpn_ip_to_session. fold (ip_of i). rewrite <- (upd_id i s w Hi) at 1.
  rstep. eapply runs_upd; [exact Hi|]. rstep. rlift Hcbr. rstep. rlift Hpad. rstep. eapply runs_upd; [exact Hi|].
  set (s1 := s <| vpn_ip := ip_of i |> <| argv_MBPS := _ |> <| argv_FRAG := _ |> <| argv_CBR := _ |> <| argv_PAD := _ |>).
  assert (Hs1 : slot_ok s1) by (destruct Hslot; by constructor).
  assert (Hb1 : forall s', world_ok (blank i (upd i s' w))) by (intros; unfold upd; by rewrite blank_update).
  assert (Hw1 : world_ok (upd i s1 w)).
  { eapply unblank_ok; [apply Hb1|by eapply upd_lookup|]. split; [done|]. by replace (active s1) with false. }
  assert (Hfail : runs (fail_dh i) (upd i s1 w) (fun r w' => r = -1 /\ world_ok w'))
    by (eapply fail_dh_ok; [done|by eapply upd_lookup]).
  fold (client_pub msg1) (client_nonce msg1).
  destruct (sign_total sign_sk (to_sign e (client_pub msg1) (client_nonce msg1))) as [sig Hsig]. rewrite Hsig.
  rstep. eapply runs_session; [by eapply upd_lookup|]. cbv beta. change (vpn_ip s1) with (ip_of i).
  destruct (session_secrets e sk _ _) as [[[k1 k2] sid]|] eqn:Hsec.
  2:{ eapply runs_conseq; [exact Hfail|]. cbv beta. intros r w' [-> Hw']. split; [done|]. split; [by left|].
      intros _ _ [? ?]. done. }
  destruct (session_secrets_lengths _ _ _ _ _ _ _ Hsec) as (Hk1 & Hk2 & Hsid).
  rstep. eapply runs_upd; [exact Hi|]. rstep. unfold prepare_dummy_static_parts. rstep.
  eapply runs_session; [by eapply upd_lookup|]. cbv beta. rstep.
  destruct (fill_slot_ok (s <| vpn_ip := ip_of i |>) k1 k2 sid (int_value (take 4 params)) (int_value (take 4 (drop 4 params)))
    cbr pad sock) as (pd & dp & s2 & Hd & Es2 & Hs2 & Hp2 & Hrd2); [destruct Hslot; by constructor|done..|].
  rlift Hd. eapply runs_upd; [exact Hi|]. rstep. eapply runs_upd; [exact Hi|].
  eapply runs_conseq; [eapply finish_msg1_ok|].
  - apply Hb1.
  - exact Hsm.
  - by eapply upd_lookup.
  - done.
  - by apply slot_ok_seq.
  - by rewrite Es2.
  - destruct Hp2. by constructor.
  - by rewrite Es2.
  - exact Hrd2.
  - done.
  - cbv beta. intros r w' (Hw' & [->|(-> & s' & Hi' & Ha' & Hkr & Hks & Hid & Hsq & Hrw' & Hq & Hadr & Hgr & Htr)] & Hz);
      split; try done; split; try (intros; by apply Hz); [by left|]. right. split; [done|]. constructor.
    exists s', k1, k2, sid, sig, cbr, pad. rewrite Hkr, Hks, Hid, Hsq, Hrw', Hgr, Es2, Hk.
    repeat split; try done.
Qed.

(** Nothing stands in the way of the handshake: the signing key is loaded, the
    limiter lets the address through, the message has its length, a slot is free,
    the key exchange succeeds and no allocation or send fails. *)
Definition admissible (e : ephemeral) (sock : Z) (msg1 : list byte) (src : sockaddr_in) (sk : list byte)
    (w : world) : Prop :=
  is_Some (g_sign_sk w) /\
  (fst <$> check_handshake_rate_limit (now w) (now w) (now w) (rl w) (sin_addr src)) = Ok RATE_LIMIT_OK /\
  length msg1 = MSG1_PACKET_LEN /\
  (exists i s, sessions w !! i = Some s /\ active s = false) /\
  is_Some (session_secrets e sk (client_pub msg1) (client_nonce msg1)) /\
  mallocs w = [] /\ sends w = [].

(** [handle_msg1] is defined on every message and every well-formed server
    state, keeps the state well-formed, and returns -1 or 0.  When it returns 0
    it has installed, in a slot that was free, an active session with the keys
    and id both Diffie-Hellman results determine, a zero sequence number, an
    empty replay window and queue and the sender's address, with its parameters
    clamped, and has sent the signed MSG2 naming the slot's address. *)
Lemma handle_msg1_runs e sock msg1 src sk w :
  world_ok w -> shards_small w ->
  runs (handle_msg1 e sock msg1 src sk) w (fun r w' => world_ok w' /\
    (r = -1 \/ r = 0 /\ exists i s, sessions w !! i = Some s /\ active s = false /\
                        established e sock msg1 src sk i w w') /\
    (admissible e sock msg1 src sk w -> r = 0)).
Proof.
  intros Hw Hsm. unfold handle_msg1. rstep. rstep. destruct (g_sign_sk w) as [ssk|] eqn:Hk.
  2:{ rstep. split; [done|]. split; [by left|]. intros [[? ?] _]. congruence. }
  rstep. rstep. rstep. rstep. rstep. rstep. rstep.
  destruct (check_handshake_ok (now w) (now w) (now w) (rl w) (sin_addr src) (ok_rl w Hw)) as (res & r' & Hrc & Hr').
  rlift Hrc. rstep. rstep. cbn [fst snd].
  set (w1 := w <| global_metrics ::= metrics_record_handshake_initiated |> <| rl := r' |>).
  assert (Hw1 : world_ok w1) by (apply world_ok_rl; [by apply world_ok_metric|done]).
  assert (Hres : admissible e sock msg1 src sk w -> res = RATE_LIMIT_OK).
  { intros (_ & Ho & _). rewrite Hrc in Ho. by injection Ho. }
  destruct res.
  - case_bool_decide as Hlen; cbn [negb].
    2:{ rstep. split; [done|]. split; [by left|]. by intros (_ & _ & ? & _). }
    rstep. eapply runs_conseq; [apply allocate_session_ok|]. cbv beta. intros [i|] w2.
    + intros (s & Hi & Ha & ->).
      eapply runs_conseq; [eapply (handle_msg1_slot_ok e sock msg1 src sk ssk)|].
      * eapply world_ok_update; [done|exact Hi| |done]. destruct (ok_sess w1 Hw1 i s Hi) as [Hsl Hl].
        split; [|cbn; by rewrite Ha]. destruct Hsl. constructor; try done. exists ∅. apply window_zero_rep.
      * exact Hsm.
      * eapply update_get. exact Hi.
      * done.
      * done.
      * done.
      * done.
      * cbv beta. intros r w' (Hw' & Hr & Hz). split; [done|]. split.
        -- destruct Hr as [->|[-> [Hest]]]; [by left|]. right. split; [done|]. exists i, s. split; [exact Hi|]. split; [done|]. by constructor.
        -- intros (_ & _ & _ & _ & Hs & Hm & Hd). by apply Hz.
    + intros [-> Hnone]. rsteps. split; [by apply world_ok_metric|]. split; [by left|].
      intros (_ & _ & _ & (i & s & Hi & Ha) & _). apply first_index_None in Hnone.
      eapply Forall_lookup_1 in Hnone; [|exact Hi]. by rewrite Ha in Hnone.
  - rsteps. split; [by apply world_ok_metric|]. split; [by left|]. by intros Hz%Hres.
  - rsteps. split; [|split; [by left|]]; [|by intros Hz%Hres]. apply world_ok_metric; [|done]. by apply world_ok_metric.
Qed.

(** C15: on every message and every well-formed server state [handle_msg1] is
    defined, keeps the state well-formed and returns -1 or 0; it returns 0 when
    nothing stands in the way.  When it returns 0 it has installed, in a slot that
    was free, an active session with the keys and id the two Diffie-Hellman
    results determine, a zero sequence number, an empty replay window and queue,
    the sender's address and the parameters it asked for, clamped, and has sent the
    MSG2, signed with the server's key, that names the slot's VPN address. *)
Theorem handle_msg1_correct e sock msg1 src sk w :
  world_ok w -> shards_small w ->
  exists r w', handle_msg1 e sock msg1 src sk w = Ok (r, w') /\ world_ok w' /\ (r = -1 \/ r = 0) /\
    (admissible e sock msg1 src sk w -> r = 0) /\
    (r = 0 -> exists i s, sessions w !! i = Some s /\ active s = false /\ established e sock msg1 src sk i w w').
Proof.
  intros Hw Hsm. destruct (handle_msg1_runs e sock msg1 src sk w Hw Hsm) as (r & w' & E & Hw' & Hr & Hz).
  exists r, w'. split; [done|]. split; [done|]. split; [naive_solver|]. split; [done|].
  intros ->. destruct Hr as [|[_ ?]]; done.
Qed.

(** Session [s] after its keys were rotated to [k1], [k2] and its id to [sid]; [got] is
    the result of allocating its new queue. *)
Record rotated (got : bool) (s s' : session_t) (k1 k2 sid : list byte) : Prop := {
  rot_keys : k_recv s' = k1 /\ k_send s' = k2 /\ session_id s' = sid;
  rot_fresh : send_seq s' = 0 /\ rw s' = window_zero;
  rot_queue : outq s' = if got then Some aq_empty else None;
  rot_same : active s' = active s /\ vpn_ip s' = vpn_ip s /\ client_addr s' = client_addr s /\
    argv_MBPS s' = argv_MBPS s /\ argv_FRAG s' = argv_FRAG s /\ argv_CBR s' = argv_CBR s /\
    argv_PAD s' = argv_PAD s /\ g_reassembly_table s' = g_reassembly_table s;
}.

(** The last thing sent is the signed MSG2, with the session's address. *)
Definition answered (e : ephemeral) (sock : Z) (msg1 : list byte) (src : sockaddr_in) (s : session_t) (w w' : world) : Prop :=
  exists sig, sign_detached (default (zeros 64) (g_sign_sk w)) (to_sign e (client_pub msg1) (client_nonce msg1)) = Some sig /\
    trace w' = trace w ++ [UdpSend sock src (msg2_packet e (vpn_ip s) sig)].

(** The rotated session is again well-formed. *)
Lemma rotate_slot_ok i s k1 k2 sid (got : bool) t :
  let o := if got then Some aq_empty else None in
  sess_ok i s -> active s = true -> length k1 = AEAD_KEY_LEN -> length k2 = AEAD_KEY_LEN ->
  length sid = SESSION_ID_LEN ->
  exists s1, dummy_parts (s <| k_recv := k1 |> <| k_send := k2 |> <| session_id := sid |> <| outq := o |>) = Ok s1 /\
    let s' := s1 <| send_seq := 0 |> <| rw := window_zero |> <| last_recv_seq := 0 |> <| last_activity := t |> in
    sess_ok i s' /\ rotated got s s' k1 k2 sid.
Proof.
  intros o [Hslot Hlive] Ha H1 H2 H3. destruct (Hlive Ha) as [Hip Hp Hst Hq _].
  match goal with |- context [dummy_parts ?s0] => set (s0' := s0) end.
  assert (Hs0 : slot_ok s0') by (destruct Hslot; by constructor).
  assert (Hp0 : params_ok s0') by (destruct Hp; by constructor).
  destruct (dummy_parts_ok s0' Hs0 Hp0) as (pd & dp & E & Hl1 & Hl2 & Hr).
  eexists. split; [exact E|]. cbv zeta. split; [|by constructor].
  destruct (dummy_fields_ok s0' pd dp 22 Hs0 Hp0 Hl1 Hl2) as [Hs1 Hp1]. split.
  - destruct Hs1. constructor; try done. exists ∅. apply window_zero_rep.
  - intros _. constructor; try done; [by destruct Hp1; constructor|].
    intros _ q Hq'. change (o = Some q) in Hq'. subst o. destruct got; simplify_eq. constructor.
Qed.

(** The handler does not rotate: the peer is unknown, or no secrets can be computed. *)
Definition no_rotation (e : ephemeral) (msg1 : list byte) (src : sockaddr_in) (sk : list byte) (w : world) : Prop :=
  first_index (fun s => same_peer s src) (sessions w) = None \/
  session_secrets e sk (client_pub msg1) (client_nonce msg1) = None.

Lemma handle_rehandshake_full e e' sock msg1 src sk w :
  length msg1 = MSG1_PACKET_LEN -> no_rotation e msg1 src sk w ->
  handle_rehandshake_msg1 e e' sock msg1 src sk w = handle_msg1 e' sock msg1 src sk w.
Proof.
  intros Hl Hno. unfold handle_rehandshake_msg1. rewrite bool_decide_true by done. cbn [negb]. unfold mbind, ST_bind, get.
  fold (client_pub msg1) (client_nonce msg1). destruct Hno as [-> | ->]; [done|]. by destruct (first_index _ _).
Qed.

Lemma handle_rehandshake_runs e e' sock msg1 src sk w :
  world_ok w -> shards_small w ->
  runs (handle_rehandshake_msg1 e e' sock msg1 src sk) w (fun r w' => world_ok w' /\
    (length msg1 <> MSG1_PACKET_LEN -> r = -1 /\ w' = w) /\
    forall i k1 k2 sid, length msg1 = MSG1_PACKET_LEN ->
      first_index (fun s => same_peer s src) (sessions w) = Some i ->
      session_secrets e sk (client_pub msg1) (client_nonce msg1) = Some (k1, k2, sid) ->
      r = 0 /\ exists s s', sessions w !! i = Some s /\ sessions w' = <[i := s']> (sessions w) /\
        rotated (next_alloc w) s s' k1 k2 sid /\ (sends w = [] -> answered e sock msg1 src s w w')).
Proof.
  intros Hw Hsm. unfold handle_rehandshake_msg1. case_bool_decide as Hlen; cbn [negb].
  2:{ rstep. split; [done|]. split; [done|]. intros. congruence. }
  assert (Hfull : runs (handle_msg1 e' sock msg1 src sk) w (fun _ w' => world_ok w')).
  { eapply runs_conseq; [by apply handle_msg1_runs|]. naive_solver. }
  rstep. rstep. fold (client_pub msg1) (client_nonce msg1). cbv zeta.
  destruct (first_index _ (sessions w)) as [i|] eqn:Hfi.
  2:{ eapply runs_conseq; [exact Hfull|]. cbv beta. intros. split; [done|]. split; [done|]. intros. congruence. }
  rstep. rstep. destruct (session_secrets e sk _ _) as [[[k1 k2] sid]|] eqn:Hsec.
  2:{ eapply runs_conseq; [exact Hfull|]. cbv beta. intros. split; [done|]. split; [done|]. intros. congruence. }
  destruct (sign_total (default (zeros 64) (g_sign_sk w)) (to_sign e (client_pub msg1) (client_nonce msg1))) as [sig Hsig]. rewrite Hsig.
  apply first_index_Some in Hfi as (s & Hi & Hp & _).
  assert (Ha : active s = true) by (unfold same_peer in Hp; bprop; done).
  destruct (session_secrets_lengths _ _ _ _ _ _ _ Hsec) as (Hk1 & Hk2 & Hsid).
  rstep. eapply runs_session; [exact Hi|]. cbv beta. rstep. apply runs_malloc_next. intros bs. rstep. rstep.
  match goal with |- runs _ ?w1 _ => set (w1' := w1) end.
  assert (Hi1 : sessions w1' !! i = Some s) by done. assert (Hw1 : world_ok w1') by (by apply world_ok_alloc).
  destruct (rotate_slot_ok i s k1 k2 sid (next_alloc w) (now w)) as (s1 & Hd & Hs' & Hrot); [by eapply ok_sess|done..|].
  rewrite <- (upd_id i s w1' Hi1). rstep. eapply runs_upd; [exact Hi1|]. unfold prepare_dummy_static_parts.
  rstep. rstep. eapply runs_session; [by eapply upd_lookup|]. cbv beta. rstep. rlift Hd.
  eapply runs_upd; [exact Hi1|]. rstep. eapply runs_upd; [exact Hi1|].
  match type of Hs' with sess_ok _ ?s2 => set (s2' := s2) in * end.
  assert (Hw2 : world_ok (upd i s2' w1')).
  { apply (world_ok_update w1' i s); [done..|]. apply Hrot. }
  rstep. eapply runs_conseq; [apply scheduler_add_session_ok; [done|exact Hsm|done]|].
  intros [] w3 [Hw3 (sh & ms & -> & _)]. rsteps. split; [by apply world_ok_sent|].
  split; [done|]. intros j k1' k2' sid' _ [= <-] [= <- <- <-]. split; [done|]. exists s, s2'. split; [done|]. split; [done|]. split; [done|].
  intros Hsd. exists sig. split; [done|].
  match goal with H : sends _ = [] -> _ = true /\ _ = [] |- _ => destruct (H Hsd) as [-> ->] end. done.
Qed.

(** C16: a key rotation on a known peer is defined, keeps the state well-formed,
    and changes only that peer's slot in the session table: new keys and id, a zero
    sequence number, an empty replay window, an empty queue if it can be allocated and
    none otherwise, with its address, VPN address, reassembly table and parameters as
    they were; it answers, if sending succeeds, with the signed MSG2.  A message of the
    wrong length changes nothing, and when the peer is unknown or the secrets cannot be
    computed the handler does exactly what the full handshake does. *)
Theorem handle_rehandshake_correct e e' sock msg1 src sk w :
  world_ok w -> shards_small w ->
  exists r w', handle_rehandshake_msg1 e e' sock msg1 src sk w = Ok (r, w') /\ world_ok w' /\
    (length msg1 <> MSG1_PACKET_LEN -> r = -1 /\ w' = w) /\
    (length msg1 = MSG1_PACKET_LEN -> no_rotation e msg1 src sk w -> handle_msg1 e' sock msg1 src sk w = Ok (r, w')) /\
    forall i k1 k2 sid, length msg1 = MSG1_PACKET_LEN ->
      first_index (fun s => same_peer s src) (sessions w) = Some i ->
      session_secrets e sk (client_pub msg1) (client_nonce msg1) = Some (k1, k2, sid) ->
      r = 0 /\ exists s s', sessions w !! i = Some s /\ sessions w' = <[i := s']> (sessions w) /\
        rotated (next_alloc w) s s' k1 k2 sid /\ (sends w = [] -> answered e sock msg1 src s w w').
Proof.
  intros Hw Hsm. destruct (handle_rehandshake_runs e e' sock msg1 src sk w Hw Hsm) as (r & w' & E & Hw' & Hbad & Hrot).
  exists r, w'. split; [done|]. split; [done|]. split; [done|]. split; [|exact Hrot].
  intros Hl Hno. by rewrite <- (handle_rehandshake_full e e' sock msg1 src sk w Hl Hno).
Qed.

End proofs.
