(* ===== verification/DataPath.v ===== *)
(** Properties of the data path: every packet handler of packet_processor.c keeps
    the server's invariant and stays defined on packets of an honest peer. *)

From stdpp Require Import list gmap.
From S2P Require Import Prelude State ReplayWindow OutQueue TaskHeap RateLimiter Metrics Crypto Wire Fragment Server Handshake.
From S2P Require Import PacketProcessor ServerLogic HandshakeProofs.
Local Open Scope Z_scope.

(** ** Inbound *)

(** The packets that carry [pts], numbered from the session's sequence number on. *)
Abbreviation sealed s := (seal (k_send s) (session_id s)).
Abbreviation seal_all s := (seal_each (k_send s) (session_id s)).

Section datapath.
Context `{Sod : Sodium} `{!SodiumLaws Sod}.

Lemma sess_ok_activity i s t : sess_ok i s -> sess_ok i (s <| last_activity := t |>).
Proof. intros H. frame_session. Qed.

Lemma sess_ok_rw i s r S : sess_ok i s -> window_rep r S -> sess_ok i (s <| rw := r |>).
Proof. intros H Hr. assert (exists S, window_rep r S) by eauto. frame_session. Qed.

Lemma handle_plain_ok i plain w s :
  world_ok w -> sessions w !! i = Some s -> honest plain -> Z.of_nat (length plain) <= BUFFER_SIZE ->
  runs (handle_plain i plain) w (fun _ w' => world_ok w').
Proof.
  intros Hw Hi Hh Hbuf. destruct (u16_at_ok plain 6) as (fl & Hfl & _).
  { destruct Hh as [Hl _]. unfold sizeof_tunnel_header in Hl. lia. }
  pose proof (ok_sess w Hw i s Hi) as Hs. unfold handle_plain. rstep. rstep. rstep. rlift Hfl.
  destruct (fl =? PKT_DUMMY); [by rstep|].
  destruct (fl =? PKT_CTRL_KEEPALIVE).
  { rstep. apply (world_ok_update w i s); [done..| |done]. by apply sess_ok_activity. }
  destruct (fl =? PKT_CTRL_DISCONNECT).
  { eapply runs_conseq; [by eapply free_session_ok|]. cbv beta. naive_solver. }
  destruct (accept_fragment_ok (now w) (g_reassembly_table s) plain) as (tbl & o & Ho & Htbl & _); [apply Hs|done..|].
  rstep. eapply runs_session; [exact Hi|]. cbv beta. rstep. rlift Ho. cbn [fst snd]. rstep.
  eapply runs_update; [exact Hi|].
  assert (Hw1 : world_ok (upd i (s <| g_reassembly_table := tbl |>) w)).
  { apply (world_ok_update w i s); [done..| |done]. by apply sess_ok_table. }
  destruct o; rstep; [|exact Hw1]. destruct Hw1. by constructor.
Qed.

(** The sequence number of a packet. *)
Definition packet_seq (buf : list byte) : Z := be_value (take 8 (drop (sizeof_proto_header + SESSION_ID_LEN) buf)).

Lemma packet_seq_range buf : in_u64 (packet_seq buf).
Proof.
  unfold packet_seq. pose proof (be_value_range (take 8 (drop (sizeof_proto_header + SESSION_ID_LEN) buf))) as Hr.
  rewrite length_take in Hr. unfold in_u64.
  assert (256 ^ Z.of_nat (8 `min` length (drop (sizeof_proto_header + SESSION_ID_LEN) buf)) <= 256 ^ 8).
  { apply Z.pow_le_mono_r; lia. }
  change (256 ^ 8) with (2 ^ 64) in *. lia.
Qed.

(** Whatever session the packet belongs to, it decrypts to an honest packet. *)
Definition honest_packet (w : world) (buf : list byte) : Prop :=
  forall i s plain, sessions w !! i = Some s -> active s = true ->
    aead_decrypt (k_recv s) (session_id s) (packet_seq buf) (drop DATA_HEADER_LEN buf) = Some plain -> honest plain.

Lemma handle_data_ok i buf w s :
  world_ok w -> sessions w !! i = Some s -> active s = true -> honest_packet w buf ->
  (DATA_HEADER_LEN <= length buf)%nat -> Z.of_nat (length buf) <= BUFFER_SIZE ->
  runs (handle_data i buf) w (fun _ w' => world_ok w').
Proof.
  intros Hw Hi Ha Hh Hlo Hhi. pose proof (ok_sess w Hw i s Hi) as Hs. unfold handle_data.
  rstep. rstep. rewrite <- (upd_id i s w Hi). rstep. eapply runs_upd; [exact Hi|].
  set (s1 := s <| last_activity := _ |>). assert (Hs1 : sess_ok i s1) by (by apply sess_ok_activity).
  assert (Hw1 : world_ok (upd i s1 w)) by (by apply (world_ok_update w i s)).
  assert (Hi1 : sessions (upd i s1 w) !! i = Some s1) by (by eapply upd_lookup).
  rstep. eapply runs_lift.
  { unfold buf_read. rewrite decide_True; [reflexivity|].
    unfold DATA_HEADER_LEN, sizeof_proto_header, SESSION_ID_LEN in *. lia. }
  cbv beta zeta. fold (packet_seq buf). rstep. eapply runs_session; [exact Hi1|]. cbv beta.
  pose proof (packet_seq_range buf) as Hseq. destruct (ok_window s (proj1 Hs)) as [S HS].
  rstep. eapply runs_lift; [by apply (check_replay_rep (rw s1) S)|]. cbv beta.
  case_bool_decide as Hf; cbn [negb].
  2:{ rstep. by apply world_ok_metric. }
  rewrite (u64_small (Z.of_nat (length buf) - _)).
  2:{ unfold in_u64, DATA_HEADER_LEN, sizeof_proto_header, SESSION_ID_LEN, BUFFER_SIZE in *. lia. }
  destruct (Z.ltb_spec (BUFFER_SIZE - Z.of_nat DATA_HEADER_LEN) (Z.of_nat (length buf) - Z.of_nat DATA_HEADER_LEN)); [by rstep|].
  destruct (aead_decrypt _ _ _ _) as [plain|] eqn:Hdec; [|by rstep].
  destruct (Z.ltb_spec BUFFER_SIZE (Z.of_nat (length plain))); [by rstep|].
  destruct (update_window_rep (rw s1) S (packet_seq buf)) as (w' & Hu & HS' & _); [done..|].
  rstep. rlift Hu. rstep. eapply runs_upd; [exact Hi|].
  eapply (handle_plain_ok i plain _ (s1 <| rw := w' |>)); [|by eapply upd_lookup| |done].
  - apply (world_ok_update w i s); [done..| |done]. by eapply sess_ok_rw.
  - by eapply (Hh i s).
Qed.

Lemma scan_id_found sid ss i :
  scan_id (Ok sid) ss = Ok (Some i) -> exists s, ss !! i = Some s /\ active s = true /\ session_id s = sid.
Proof.
  revert i. induction ss as [|s ss IH]; intros i; cbn [scan_id]; [done|].
  destruct (active s) eqn:Ha; cbn [mbind outcome_bind].
  - case_bool_decide as Hid; [intros [= <-]; by exists s|].
    destruct (scan_id (Ok sid) ss) as [[j|]|]; cbn; intros [= <-]. by apply IH.
  - destruct (scan_id (Ok sid) ss) as [[j|]|]; cbn; intros [= <-]. by apply IH.
Qed.

Lemma scan_id_total sid ss : exists o, scan_id (Ok sid) ss = Ok o.
Proof.
  induction ss as [|s ss [o IH]]; cbn [scan_id]; [eauto|].
  destruct (active s); cbn [mbind outcome_bind]; [case_bool_decide; [eauto|]|]; rewrite IH; cbn; eauto.
Qed.

Lemma limit_packet_ok ph src w :
  world_ok w -> runs (limit_packet ph src) w (fun _ w' => world_ok w' /\ sessions w' = sessions w /\ g_shards w' = g_shards w).
Proof.
  intros Hw. unfold limit_packet. destruct (type ph =? PKT_TYPE_DATA); [|by rstep].
  rstep. rstep. rstep. rstep. rstep.
  destruct (check_packet_ok (now w) (now w) (now w) (rl w) (sin_addr src) (ok_rl w Hw)) as (res & r' & Hrc & Hr').
  rlift Hrc. rstep. rstep. rstep. split; [by apply world_ok_rl|done].
Qed.

Lemma handle_admitted_ok e e' sock buf src sk ph w :
  world_ok w -> shards_small w -> (DATA_HEADER_LEN <= length buf)%nat -> Z.of_nat (length buf) <= BUFFER_SIZE ->
  honest_packet w buf -> runs (handle_admitted e e' sock buf src sk ph) w (fun _ w' => world_ok w').
Proof.
  intros Hw Hsm Hlen Hmax Hh. unfold handle_admitted. destruct (type ph =? PKT_TYPE_HANDSHAKE).
  { case_bool_decide; [|by rstep]. rstep. rstep. rstep. destruct (first_index _ _).
    - eapply runs_conseq; [by apply handle_rehandshake_runs|]. cbv beta. intros r w' [? _]. by rstep.
    - eapply runs_conseq; [by apply handle_msg1_runs|]. cbv beta. intros r w' [? _]. by rstep. }
  rstep. rstep. rstep. unfold session_by_id. rstep. rstep.
  assert (Hrd : buf_read buf sizeof_proto_header SESSION_ID_LEN = Ok (take SESSION_ID_LEN (drop sizeof_proto_header buf))).
  { unfold buf_read. rewrite decide_True; [done|]. unfold DATA_HEADER_LEN, sizeof_proto_header, SESSION_ID_LEN in *. lia. }
  rewrite Hrd. set (w2 := w <| global_metrics ::= _ |>).
  assert (Hw2 : world_ok w2) by (by apply world_ok_metric). change (sessions w2) with (sessions w).
  destruct (scan_id_total (take SESSION_ID_LEN (drop sizeof_proto_header buf)) (sessions w)) as [[i|] Hsc];
    rlift Hsc; [|by rstep].
  destruct (scan_id_found _ _ _ Hsc) as (s & Hi & Ha & _). by apply (handle_data_ok i buf w2 s).
Qed.

Lemma handle_inbound_runs e e' sock buf src sk w :
  world_ok w -> shards_small w ->
  (length buf < sizeof_proto_header \/ DATA_HEADER_LEN <= length buf)%nat -> honest_packet w buf ->
  runs (handle_inbound_udp e e' sock buf src sk) w (fun _ w' => world_ok w').
Proof.
  intros Hw Hsm Hlen Hh. unfold handle_inbound_udp. cbv zeta. case_decide as Hshort; [by rstep|].
  destruct Hlen as [|Hlen]; [done|].
  destruct (Z.ltb_spec BUFFER_SIZE (Z.of_nat (length buf))); [by rstep|].
  assert (Hph : exists ph, read_proto buf = Ok ph).
  { unfold DATA_HEADER_LEN, sizeof_proto_header in *. unfold read_proto, buf_read. rewrite decide_True by lia.
    cbn [mbind outcome_bind]. destruct (byte_at_lt buf 4) as (? & _ & ->); [lia|].
    destruct (byte_at_lt buf 5) as (? & _ & ->); [lia|]. cbn. eauto. }
  destruct Hph as [ph Hph]. rstep. rlift Hph. destruct (_ || _); [by rstep|].
  rstep. eapply runs_conseq; [by apply limit_packet_ok|]. cbv beta. intros [] w1 (Hw1 & Hss & Hsh).
  - rstep. rstep. rstep. apply world_ok_metric; [|done]. by apply world_ok_metric.
  - apply handle_admitted_ok; try done.
    + unfold shards_small. by rewrite Hsh.
    + intros j t plain Hj. apply (Hh j t plain). by rewrite <- Hss.
Qed.

(** C17: on every well-formed server state, a packet shorter than its protocol
    header or at least as long as a data header, whose decryption (if any session
    accepts it) an honest peer could have produced, is handled without undefined
    behaviour and leaves the state well-formed: handshake, data, control, forged,
    replayed and malformed packets alike. *)
Theorem handle_inbound_safe e e' sock buf src sk w :
  world_ok w -> shards_small w ->
  (length buf < sizeof_proto_header \/ DATA_HEADER_LEN <= length buf)%nat -> honest_packet w buf ->
  exists w', handle_inbound_udp e e' sock buf src sk w = Ok (tt, w') /\ world_ok w'.
Proof.
  intros Hw Hsm Hlen Hh. destruct (handle_inbound_runs e e' sock buf src sk w Hw Hsm Hlen Hh) as ([] & w' & ? & ?).
  eauto.
Qed.

(** ** Outbound *)

(** A fragment buffer is its meaningful bytes followed by zeros up to the fragment
    size; what is encrypted is those bytes, or all of it when padding is on. *)
Definition padded (s : session_t) : bool := bool_decide (argv_PAD s = ch_Y) || bool_decide (argv_CBR s = ch_Y).

Lemma padding_id body n frag :
  (length body + n)%nat = Z.to_nat frag -> 0 < frag <= MAX_FRAG ->
  packet_padding (body ++ zeros n) (Z.of_nat (length body)) frag = Ok (body ++ zeros n).
Proof.
  intros Hl Hf. rewrite packet_padding_fill.
  - rewrite Nat2Z.id, take_app_length. do 2 f_equal. unfold zeros. f_equal. lia.
  - lia.
  - lia.
  - rewrite length_app. unfold zeros. rewrite length_replicate. lia.
  - lia.
Qed.

(** The plaintext [send_outbound_packet] encrypts. *)
Lemma outbound_plain s body n real :
  params_ok s -> (length body + n)%nat = Z.to_nat (argv_FRAG s) ->
  (real = Z.of_nat (length body) \/ real = argv_FRAG s) ->
  (p ← (if bool_decide (argv_CBR s = ch_Y) && (real <? frag_size s) then
          b ← packet_padding (body ++ zeros n) real (argv_FRAG s); Ok (b, frag_size s)
        else Ok (body ++ zeros n, real));
   buf_read p.1 0 (Z.to_nat p.2)) =
  Ok (if bool_decide (argv_CBR s = ch_Y) || bool_decide (real = argv_FRAG s) then body ++ zeros n else body).
Proof.
  intros Hp Hl Hreal. pose proof (frag_size_ok s Hp) as Hfs. destruct Hp as [_ Hf _ _].
  unfold CONFIG_MIN_FRAG_PARAM, CONFIG_MAX_FRAG_PARAM in Hf. rewrite Hfs.
  assert (Hlen : length (body ++ zeros n) = Z.to_nat (argv_FRAG s)).
  { rewrite length_app. unfold zeros. rewrite length_replicate. lia. }
  assert (Hall : buf_read (body ++ zeros n) 0 (Z.to_nat (argv_FRAG s)) = Ok (body ++ zeros n)).
  { unfold buf_read. rewrite decide_True by lia. by rewrite drop_0, take_ge by lia. }
  case_bool_decide as Hc; cbn [andb orb].
  - destruct (Z.ltb_spec real (argv_FRAG s)) as [Hlt|Hge].
    + destruct Hreal as [->| ->]; [|lia]. rewrite padding_id by (unfold MAX_FRAG; lia). cbn. exact Hall.
    + cbn. replace real with (argv_FRAG s) by lia. exact Hall.
  - cbn. case_bool_decide as Hr; [by rewrite Hr|]. destruct Hreal as [->|]; [|done].
    unfold buf_read. rewrite decide_True by lia. by rewrite drop_0, Nat2Z.id, take_app_length.
Qed.

Definition max_payload (s : session_t) : nat := Z.to_nat (argv_FRAG s) - sizeof_tunnel_header.
Definition pad_to (s : session_t) : nat := if padded s then Z.to_nat (argv_FRAG s) else 0.

Definition fragments (s : session_t) (id : Z) (ip : list byte) : list (list byte) :=
  pieces (zeros SESSION_ID_LEN) (max_payload s) (pad_to s) id ip.

Abbreviation body_at := (fragment_body (zeros SESSION_ID_LEN)).
Abbreviation plain_of s := (fragment_plain (zeros SESSION_ID_LEN) (pad_to s)).

(** One turn of the fragmentation loop, up to the call that sends it. *)
Lemma fragment_step fuel i id off ip w s (Q : unit -> world -> Prop) c :
  sessions w !! i = Some s -> params_ok s -> (off < length ip)%nat -> c = take (max_payload s) (drop off ip) ->
  let real := if bool_decide (argv_PAD s = ch_Y) then argv_FRAG s else 24 + Z.of_nat (length c) in
  let body := body_at id (length ip) off c in
  runs (_ ← send_outbound_packet i (body ++ zeros (Z.to_nat (argv_FRAG s) - length body)) real ip;
        fragment_loop fuel i id (Z.of_nat (off + length c)) ip) w Q ->
  runs (fragment_loop (Datatypes.S fuel) i id (Z.of_nat off) ip) w Q.
Proof.
  intros Hi Hp Hoff Hc real body Hrun. pose proof (frag_size_ok s Hp) as Hfs. destruct Hp as [_ Hf _ _].
  unfold CONFIG_MIN_FRAG_PARAM, CONFIG_MAX_FRAG_PARAM in Hf. cbn [fragment_loop].
  destruct (Z.ltb_spec (Z.of_nat off) (Z.of_nat (length ip))); [|lia].
  rstep. eapply runs_session; [exact Hi|]. cbv beta. rewrite Hfs.
  destruct (Z.ltb_spec MAX_FRAG (argv_FRAG s)); [unfold MAX_FRAG in *; lia|].
  rewrite (u64_small (argv_FRAG s - _)) by (unfold in_u64, sizeof_tunnel_header; lia).
  assert (Hcl : Z.of_nat (length c) = if argv_FRAG s - Z.of_nat sizeof_tunnel_header <? Z.of_nat (length ip) - Z.of_nat off
    then argv_FRAG s - Z.of_nat sizeof_tunnel_header else Z.of_nat (length ip) - Z.of_nat off).
  { rewrite Hc, length_take, length_drop. unfold max_payload, sizeof_tunnel_header in *.
    destruct (Z.ltb_spec (argv_FRAG s - Z.of_nat 24) (Z.of_nat (length ip) - Z.of_nat off)); lia. }
  cbv zeta. rewrite <- Hcl.
  assert (Hle : (24 + length c <= Z.to_nat (argv_FRAG s))%nat).
  { rewrite Hc, length_take. unfold max_payload, sizeof_tunnel_header. lia. }
  set (th := tunnel_bytes (fragment_header (zeros SESSION_ID_LEN) id (Z.of_nat off) (Z.of_nat (length c)) (Z.of_nat (length ip)))).
  assert (Hth : length th = 24%nat) by (by apply length_tunnel_bytes).
  assert (Hz : forall n, length (zeros n) = n) by (intros; apply length_replicate).
  assert (Hck : take (Z.to_nat (Z.of_nat (length c))) (drop (Z.to_nat (Z.of_nat off)) ip) = c).
  { rewrite !Nat2Z.id, Hc. apply take_len_take. }
  rstep. eapply runs_lift; [apply memcpy_Ok; rewrite Hz; lia|]. cbv beta.
  rewrite take_0, Hck, Hth. cbn [app Nat.add]. unfold zeros at 1. rewrite drop_replicate.
  rstep. eapply runs_lift; [apply memcpy_Ok; simpl_len; rewrite Hth; unfold sizeof_tunnel_header; lia|]. cbv beta.
  rewrite (take_app_length' th) by (by rewrite Hth).
  rewrite (drop_app_ge th) by (rewrite Hth; unfold sizeof_tunnel_header; lia). rewrite drop_replicate, Hth.
  assert (Hbuf : th ++ c ++ replicate (Z.to_nat (argv_FRAG s) - 24 - (sizeof_tunnel_header + length c - 24)) (z2b 0) =
    body ++ zeros (Z.to_nat (argv_FRAG s) - length body)).
  { subst body. rewrite length_fragment_body by done. unfold fragment_body, zeros. fold th. rewrite <- app_assoc. do 3 f_equal.
    unfold sizeof_tunnel_header. lia. }
  rewrite Hbuf. assert (Hbl : length body = (24 + length c)%nat) by (subst body; by apply length_fragment_body).
  assert (Hoff' : Z.of_nat off + Z.of_nat (length c) = Z.of_nat (off + length c)) by lia. rewrite Hoff'.
  replace (Z.of_nat sizeof_tunnel_header + Z.of_nat (length c)) with (Z.of_nat (length body)) by (unfold sizeof_tunnel_header; lia).
  subst real. rstep. case_bool_decide.
  - eapply runs_lift; [rewrite padding_id by (unfold MAX_FRAG; lia); reflexivity|exact Hrun].
  - eapply runs_lift; [done|]. cbv beta. cbn [fst snd].
    replace (Z.of_nat (length body)) with (24 + Z.of_nat (length c)) by lia. exact Hrun.
Qed.

(** ** Direct sending *)

(** Without constant-bitrate pacing and with no allocation or send failing, one
    fragment is one datagram with the next sequence number. *)
Lemma send_outbound_direct i body n real ip w s (Q : unit -> world -> Prop) :
  sessions w !! i = Some s -> slot_ok s -> params_ok s -> argv_CBR s = ch_N -> mallocs w = [] -> sends w = [] ->
  (length body + n)%nat = Z.to_nat (argv_FRAG s) -> (real = Z.of_nat (length body) \/ real = argv_FRAG s) ->
  Q tt (upd i (s <| send_seq := u64 (send_seq s + 1) |>) w <| trace := trace w ++
    [UdpSend (s_udp_sock s) (client_addr s)
       (sealed s (if bool_decide (real = argv_FRAG s) then body ++ zeros n else body) (send_seq s))] |>) ->
  runs (send_outbound_packet i (body ++ zeros n) real ip) w Q.
Proof.
  intros Hi Hslot Hp Hcbr Hm Hsd Hl Hreal HQ. unfold send_outbound_packet. rstep.
  eapply runs_next_seq; [exact Hi|]. rstep. eapply runs_session; [by eapply upd_lookup|]. cbv beta.
  set (s1 := s <| send_seq := _ |>). pose proof (outbound_plain s body n real Hp Hl Hreal) as Hpt.
  rewrite Hcbr in Hpt. rewrite bool_decide_false in Hpt by (by vm_compute). cbn [andb orb mbind outcome_bind fst snd] in Hpt.
  change (argv_CBR s1) with (argv_CBR s). rewrite Hcbr. rewrite bool_decide_false by (by vm_compute). cbn [andb].
  rstep. eapply runs_lift; [done|]. cbv beta. cbn [fst snd]. rstep. rlift Hpt.
  set (pt := if bool_decide (real = argv_FRAG s) then _ else _) in *.
  destruct (encrypt_ok (k_send s) (session_id s) (send_seq s) pt) as (ct & Hct & _ & _).
  { apply Hslot. }
  { destruct Hp as [_ Hf _ _]. unfold CONFIG_MIN_FRAG_PARAM, CONFIG_MAX_FRAG_PARAM, BUFFER_SIZE, MAC_LEN in *.
    subst pt. case_bool_decide; simpl_len; unfold zeros; simpl_len; lia. }
  rstep. rlift Hct.
  assert (Hseal : sealed s pt (send_seq s) = data_packet (session_id s) (send_seq s) ct).
  { unfold seal. unfold encrypt in Hct. destruct (aead_encrypt _ _ _ _); [|done]. case_match; by simplify_eq. }
  rewrite Hseal in HQ. rstep. apply runs_malloc. intros b bs Hb. destruct (Hb Hm) as [-> ->]. cbn [negb].
  rstep. apply runs_sendto. intros b' bs' Hb'. destruct (Hb' Hsd) as [-> ->]. rstep.
  unfold upd in HQ. destruct w; cbn in *; subst; exact HQ.
Qed.

Lemma max_payload_pos s : params_ok s -> (40 <= max_payload s <= 1176)%nat.
Proof. intros [_ Hf _ _]. unfold CONFIG_MIN_FRAG_PARAM, CONFIG_MAX_FRAG_PARAM, max_payload, sizeof_tunnel_header in *. lia. Qed.

Lemma upd_upd_trace i s s' w t t' : upd i s' (upd i s w <| trace := t |>) <| trace := t' |> = upd i s' w <| trace := t' |>.
Proof. unfold upd. cbn. by rewrite list_insert_insert_eq. Qed.

(** The padding the loop and the sender apply amounts to [pad_to]. *)
Lemma fragment_plain_direct s id (ip : list byte) off c :
  argv_CBR s = ch_N -> (24 + length c <= Z.to_nat (argv_FRAG s))%nat ->
  let body := body_at id (length ip) off c in
  let real := if bool_decide (argv_PAD s = ch_Y) then argv_FRAG s else 24 + Z.of_nat (length c) in
  (if bool_decide (real = argv_FRAG s) then body ++ zeros (Z.to_nat (argv_FRAG s) - length body) else body) =
  plain_of s id (length ip) (off, c).
Proof.
  intros Hcbr Hle body real. unfold fragment_plain, pad_to, padded. cbn [fst snd]. fold body. rewrite Hcbr.
  rewrite (bool_decide_false (ch_N = ch_Y)) by (by vm_compute). rewrite orb_false_r. subst real.
  assert (Hbl : length body = (24 + length c)%nat) by (subst body; by apply length_fragment_body).
  destruct (bool_decide (argv_PAD s = ch_Y)).
  - by rewrite bool_decide_true by done.
  - cbn [Nat.sub zeros replicate]. rewrite app_nil_r. case_bool_decide; [|done].
    replace (Z.to_nat (argv_FRAG s) - length body)%nat with 0%nat by lia. apply app_nil_r.
Qed.

Lemma fragment_loop_direct fuel i id off ip w s :
  sessions w !! i = Some s -> slot_ok s -> params_ok s -> argv_CBR s = ch_N -> mallocs w = [] -> sends w = [] ->
  (off <= length ip)%nat -> (length ip - off <= fuel)%nat ->
  let pts := plain_of s id (length ip) <$> chunks fuel (max_payload s) off (drop off ip) in
  runs (fragment_loop fuel i id (Z.of_nat off) ip) w (fun _ w' =>
    w' = upd i (s <| send_seq := u64 (send_seq s + Z.of_nat (length pts)) |>) w
         <| trace := trace w ++ (UdpSend (s_udp_sock s) (client_addr s) <$> seal_all s (send_seq s) pts) |>).
Proof.
  revert off w s. induction fuel as [|fuel IH]; intros off w s Hi Hslot Hp Hcbr Hm Hsd Hoff Hfuel pts.
  - assert (off = length ip) as -> by lia. cbn [fragment_loop].
    destruct (Z.ltb_spec (Z.of_nat (length ip)) (Z.of_nat (length ip))); [lia|]. rstep.
    subst pts. rewrite drop_all, chunks_nil. cbn. rewrite Z.add_0_r, app_nil_r, u64_small by apply Hslot.
    rewrite upd_id; [by destruct w|]. rewrite Hi. f_equal. by destruct s.
  - destruct (decide (off = length ip)) as [->|Hne].
    { cbn [fragment_loop]. destruct (Z.ltb_spec (Z.of_nat (length ip)) (Z.of_nat (length ip))); [lia|]. rstep.
      subst pts. rewrite drop_all, chunks_nil. cbn. rewrite Z.add_0_r, app_nil_r, u64_small by apply Hslot.
      rewrite upd_id; [by destruct w|]. rewrite Hi. f_equal. by destruct s. }
    pose proof (max_payload_pos s Hp) as HP. set (c := take (max_payload s) (drop off ip)).
    assert (Hcl : (0 < length c <= max_payload s /\ off + length c <= length ip)%nat).
    { subst c. rewrite length_take, length_drop. lia. }
    assert (Hle : (24 + length c <= Z.to_nat (argv_FRAG s))%nat).
    { unfold max_payload, sizeof_tunnel_header in *. lia. }
    eapply fragment_step; [exact Hi|done|lia|done|]. fold c. cbv zeta.
    rstep. eapply send_outbound_direct; try done.
    { rewrite length_fragment_body by done. lia. }
    { case_bool_decide; [by right|left; rewrite length_fragment_body by done; lia]. }
    pose proof (fragment_plain_direct s id ip off c Hcbr Hle) as Hpl. cbv zeta in Hpl. rewrite Hpl.
    set (s1 := s <| send_seq := u64 (send_seq s + 1) |>). set (w1 := upd i s1 w <| trace := _ |>).
    assert (Hpts : pts = plain_of s id (length ip) (off, c) ::
      (plain_of s1 id (length ip) <$> chunks fuel (max_payload s1) (off + length c) (drop (off + length c) ip))).
    { subst pts. rewrite chunks_cons by lia. fold c. rewrite chunks_next. fold c. done. }
    eapply runs_conseq; [apply (IH (off + length c)%nat w1 s1)|]; try done.
    + by eapply upd_lookup.
    + destruct Hslot. constructor; try done. apply u64_range.
    + by destruct Hp; constructor.
    + lia.
    + lia.
    + cbv beta. intros _ w' ->. rewrite Hpts. cbn [length seal_all fmap list_fmap].
      set (rest := plain_of s1 id (length ip) <$> _).
      assert (Hu : u64 (send_seq s1 + Z.of_nat (length rest)) = u64 (send_seq s + Z.of_nat (Datatypes.S (length rest)))).
      { change (send_seq s1) with (u64 (send_seq s + 1)). rewrite u64_add_l. f_equal. lia. }
      rewrite Hu. subst w1. rewrite upd_upd_trace. subst s1. cbn [trace set].
      by rewrite <- app_assoc.
Qed.

(** ** Routing *)

Lemma ip_of_inj i j : (i < MAX_CLIENTS)%nat -> (j < MAX_CLIENTS)%nat -> ip_of i = ip_of j -> i = j.
Proof.
  intros Hi Hj. unfold ip_of. intros [= E]. apply (f_equal b2z) in E. rewrite !b2z_z2b in E.
  unfold u8, MAX_CLIENTS in *. rewrite !Z.mod_small in E by (rewrite ?Z.mod_small; lia).
  lia.
Qed.

Lemma session_lt w i s : world_ok w -> sessions w !! i = Some s -> (i < MAX_CLIENTS)%nat.
Proof. intros Hw H. apply lookup_lt_Some in H. by rewrite (ok_len w Hw) in H. Qed.

Lemma vpnip_index w i s :
  world_ok w -> sessions w !! i = Some s -> active s = true ->
  first_index (fun s => active s && bool_decide (vpn_ip s = ip_of i)) (sessions w) = Some i.
Proof.
  intros Hw Hi Ha. apply first_index_Some. exists s. split; [done|]. rewrite Ha.
  split; [apply bool_decide_true, (ok_sess w Hw i s Hi), Ha|].
  intros j t Hj Ht. destruct (active t) eqn:Hat; [|done]. apply bool_decide_false.
  rewrite (ok_ip j t) by (by apply (ok_sess w Hw j t Ht)). intros E.
  apply ip_of_inj in E; [lia|by eapply session_lt..].
Qed.

(** Routing by destination address is exact: [session_by_vpnip] of the address
    of slot [i] finds that slot whenever it is in use; of any address, it finds
    only a session in use that owns the address, and it finds nothing only when no
    session in use owns it. *)
Theorem session_by_vpnip_correct w ip :
  world_ok w ->
  exists o, session_by_vpnip ip w = Ok (o, w) /\
    (forall i s, sessions w !! i = Some s -> active s = true -> ip = ip_of i -> o = Some i) /\
    match o with
    | Some i => exists s, sessions w !! i = Some s /\ active s = true /\ vpn_ip s = ip /\ ip = ip_of i
    | None => forall i s, sessions w !! i = Some s -> active s = true -> vpn_ip s <> ip
    end.
Proof.
  intros Hw. eexists. split; [reflexivity|]. split.
  - intros i s Hi Ha ->. by eapply vpnip_index.
  - destruct (first_index _ _) as [i|] eqn:E.
    + apply first_index_Some in E as (s & Hi & Hp & _). bprop. apply bool_decide_eq_true in H0.
      exists s. repeat split; try done. rewrite <- H0. apply (ok_ip i s). by apply (ok_sess w Hw i s Hi).
    + apply first_index_None in E. intros i s Hi Ha Hip. eapply Forall_lookup_1 in E; [|exact Hi].
      rewrite Ha, bool_decide_true in E by done. done.
Qed.

Lemma next_packet_id_ok w :
  in_u16 (g_next_packet_id_atomic w) ->
  exists id w', fragment_next_packet_id w = Ok (id, w') /\ 0 < id < 2 ^ 16 /\
    w' = w <| g_next_packet_id_atomic := u16 (id + 1) |>.
Proof.
  intros H. unfold fragment_next_packet_id. destruct (Z.eqb_spec (g_next_packet_id_atomic w) 0) as [E|E].
  - eexists _, _. split; [done|]. cbn. rewrite E. done.
  - eexists _, _. split; [done|]. unfold in_u16 in H. split; [lia|done].
Qed.

(** A packet for a session without pacing leaves at once, as its fragments. *)
Lemma handle_outbound_direct ip i w s :
  world_ok w -> sessions w !! i = Some s -> active s = true -> argv_CBR s = ch_N ->
  mallocs w = [] -> sends w = [] -> (20 <= length ip)%nat -> take 4 (drop 16 ip) = ip_of i ->
  exists id, 0 < id < 2 ^ 16 /\ runs (handle_outbound_tun_buf ip) w (fun _ w' => w' = upd i
      (s <| send_seq := u64 (send_seq s + Z.of_nat (length (fragments s id ip))) |>)
      (w <| g_next_packet_id_atomic := u16 (id + 1) |>) <| trace := trace w ++
        (UdpSend (s_udp_sock s) (client_addr s) <$> seal_all s (send_seq s) (fragments s id ip)) |>).
Proof.
  intros Hw Hi Ha Hcbr Hm Hsd Hlen Hdst.
  destruct (next_packet_id_ok w (ok_id w Hw)) as (id & w1 & Hid & Hr & ->).
  destruct (ok_sess w Hw i s Hi) as [Hslot Hlive]. exists id. split; [done|].
  unfold handle_outbound_tun_buf. rewrite decide_False by lia. rewrite Hdst. unfold session_by_vpnip.
  rstep. rstep. rstep. rewrite (vpnip_index w i s) by done. rstep. rstep. eexists _, _. split; [exact Hid|].
  change 0 with (Z.of_nat 0). eapply runs_conseq; [eapply (fragment_loop_direct (length ip) i id 0 ip _ s)|]; try done.
  - by apply (Hlive Ha).
  - lia.
  - lia.
Qed.

(** C22: a packet read from the tunnel for a session without pacing, when no allocation
    and no send fails, leaves as the fragments of that packet, in order, each sealed
    under the session's key with the next sequence number; of the server's state only
    that session's sequence number and the counter of packet ids change, and the
    packet's id is never 0. *)
Theorem outbound_emits_fragments ip i w s :
  world_ok w -> sessions w !! i = Some s -> active s = true -> argv_CBR s = ch_N ->
  mallocs w = [] -> sends w = [] -> (20 <= length ip)%nat -> take 4 (drop 16 ip) = ip_of i ->
  exists id, 0 < id < 2 ^ 16 /\
    handle_outbound_tun_buf ip w = Ok (tt, w
      <| sessions ::= <[i := s <| send_seq := u64 (send_seq s + Z.of_nat (length (fragments s id ip))) |>]> |>
      <| g_next_packet_id_atomic := u16 (id + 1) |>
      <| trace ::= (fun t => t ++ (UdpSend (s_udp_sock s) (client_addr s) <$> seal_all s (send_seq s) (fragments s id ip))) |>).
Proof.
  intros Hw Hi Ha Hcbr Hm Hsd Hlen Hdst.
  destruct (handle_outbound_direct ip i w s) as (id & Hid & [] & w' & E & ->); [done..|].
  exists id. split; [exact Hid|exact E].
Qed.

End datapath.
