(* ===== verification/Refused.v ===== *)
(** What the server does with datagrams it must not accept: malformed, for no session,
    replayed, or forged. *)

From stdpp Require Import list gmap.
From S2P Require Import Prelude State ReplayWindow OutQueue TaskHeap RateLimiter Metrics Crypto Wire Fragment Server Handshake.
From S2P Require Import PacketProcessor ServerLogic HandshakeProofs DataPath.
Local Open Scope Z_scope.

Section refused.
Context `{Sod : Sodium} `{!SodiumLaws Sod}.

(** The session id of a data packet. *)
Definition packet_id (buf : list byte) : list byte := take SESSION_ID_LEN (drop sizeof_proto_header buf).

(** Each session the packet names has seen its number, or cannot open it. *)
Definition no_session_accepts (w : world) (buf : list byte) : Prop :=
  forall i s, sessions w !! i = Some s -> active s = true -> session_id s = packet_id buf ->
    check_replay (packet_seq buf) (rw s) = Ok true \/
    aead_decrypt (k_recv s) (session_id s) (packet_seq buf) (drop DATA_HEADER_LEN buf) = None.

(** Every session in use makes the lookup read an id, and none has the packet's. *)
Definition unaddressed (w : world) (buf : list byte) : Prop :=
  forall i s, sessions w !! i = Some s -> active s = true ->
    (sizeof_proto_header + SESSION_ID_LEN <= length buf)%nat /\ session_id s <> packet_id buf.

(** Too short for a header, too long, another protocol, a handshake of the wrong length,
    a packet for no session, or one that is not authentic. *)
Definition refused (w : world) (buf : list byte) : Prop :=
  (length buf < sizeof_proto_header)%nat \/ BUFFER_SIZE < Z.of_nat (length buf) \/
  exists ph, read_proto buf = Ok ph /\
    (magic ph <> PKT_MAGIC \/ version ph <> PKT_VERSION \/
     (type ph = PKT_TYPE_HANDSHAKE /\ length buf <> MSG1_PACKET_LEN) \/
     (type ph <> PKT_TYPE_HANDSHAKE /\ (unaddressed w buf \/ (DATA_HEADER_LEN <= length buf)%nat /\ no_session_accepts w buf))).

(** Nothing has changed but the limiter, the metrics, and the time of activity of a
    session the packet [buf] names. *)
Definition untouched (buf : list byte) (w w' : world) : Prop :=
  exists ss m r, w' = w <| sessions := ss |> <| global_metrics := m |> <| rl := r |> /\
    (ss = sessions w \/ exists i s, sessions w !! i = Some s /\ active s = true /\ session_id s = packet_id buf /\
       ss = <[i := s <| last_activity := now w |>]> (sessions w)).

Lemma untouched_refl buf w : untouched buf w w.
Proof. exists (sessions w), (global_metrics w), (rl w). split; [by destruct w|by left]. Qed.

Lemma untouched_metric buf w w' f : untouched buf w w' -> untouched buf w (w' <| global_metrics ::= f |>).
Proof. intros (ss & m & r & -> & H). by exists ss, (f m), r. Qed.

Lemma untouched_limiter buf w w' r : untouched buf w w' -> untouched buf w (w' <| rl := r |>).
Proof. intros (ss & m & r0 & -> & H). by exists ss, m, r. Qed.

Lemma limit_packet_exact ph src w :
  world_ok w -> runs (limit_packet ph src) w (fun _ w' => exists r, w' = w <| rl := r |> /\ exists m, table_rep r m).
Proof.
  intros Hw. unfold limit_packet. destruct (type ph =? PKT_TYPE_DATA).
  2:{ rstep. exists (rl w). split; [by destruct w|apply Hw]. }
  do 5 rstep. destruct (check_packet_ok (now w) (now w) (now w) (rl w) (sin_addr src) (ok_rl w Hw)) as (res & r' & Hrc & Hr').
  rlift Hrc. do 3 rstep. by exists r'.
Qed.

(** The lookup and the two checks, on a packet no session accepts. *)
Lemma handle_data_refused i s buf w :
  world_ok w -> sessions w !! i = Some s -> active s = true ->
  session_id s = packet_id buf ->
  (DATA_HEADER_LEN <= length buf)%nat -> no_session_accepts w buf ->
  runs (handle_data i buf) w (fun _ w' => world_ok w' /\ untouched buf w w').
Proof.
  intros Hw Hi Ha Hid Hlen Hno. unfold handle_data. do 3 rstep. eapply runs_update; [exact Hi|].
  set (s1 := s <| last_activity := now w |>). set (w1 := w <| sessions ::= _ |>).
  assert (Hs1 : sess_ok i s1) by (apply (sess_ok_activity i s); by eapply ok_sess).
  assert (Hw1 : world_ok w1) by (by apply (world_ok_update w i s)).
  assert (Hu : untouched buf w w1).
  { exists (<[i := s1]> (sessions w)), (global_metrics w), (rl w). split; [by destruct w|]. right. by exists i, s. }
  rstep. eapply runs_lift.
  { unfold buf_read. rewrite decide_True; [reflexivity|]. unfold DATA_HEADER_LEN, sizeof_proto_header, SESSION_ID_LEN in *. lia. }
  cbv beta zeta. fold (packet_seq buf). rstep. eapply runs_session; [eapply update_get; exact Hi|]. cbv beta. fold s1. rstep.
  destruct (Hno i s Hi Ha Hid) as [Hrep|Hdec].
  - change (rw s1) with (rw s). rlift Hrep. rstep. split; [by apply world_ok_metric|by apply untouched_metric].
  - destruct (ok_window s (proj1 (ok_sess w Hw i s Hi))) as [S HS].
    eapply runs_lift; [by apply (check_replay_rep (rw s1) S), packet_seq_range|]. cbv beta.
    destruct (negb _); [rstep; split; [by apply world_ok_metric|by apply untouched_metric]|].
    destruct (_ <? _); [by rstep|]. change (k_recv s1) with (k_recv s). change (session_id s1) with (session_id s).
    rewrite Hdec. by rstep.
Qed.

Lemma untouched_trans_data buf w w1 w' :
  (exists m r, w1 = w <| global_metrics := m |> <| rl := r |>) -> untouched buf w1 w' -> untouched buf w w'.
Proof. intros (m1 & r1 & ->) (ss & m & r & -> & H). by exists ss, m, r. Qed.

(** The lookup of a packet for no session. *)
Lemma scan_unaddressed buf w : unaddressed w buf -> scan_id (buf_read buf sizeof_proto_header SESSION_ID_LEN) (sessions w) = Ok None.
Proof.
  unfold unaddressed. induction (sessions w) as [|s ss IH]; intros H; cbn [scan_id]; [done|].
  assert (Hss : scan_id (buf_read buf sizeof_proto_header SESSION_ID_LEN) ss = Ok None) by (apply IH; intros i; apply (H (S i))).
  destruct (active s) eqn:Ha; [|by rewrite Hss]. destruct (H 0%nat s eq_refl Ha) as [Hl Hne].
  assert (Hrd : buf_read buf sizeof_proto_header SESSION_ID_LEN = Ok (packet_id buf)) by (unfold buf_read; by rewrite decide_True).
  rewrite Hrd in Hss |- *. cbn [mbind outcome_bind]. rewrite (bool_decide_false _ Hne). by rewrite Hss.
Qed.

(** A refused datagram, through the whole handler. *)
Lemma refused_runs e e' sock buf src sk w :
  world_ok w -> refused w buf ->
  runs (handle_inbound_udp e e' sock buf src sk) w (fun _ w' => world_ok w' /\ untouched buf w w').
Proof.
  intros Hw Href. pose proof (untouched_refl buf w) as H0. unfold handle_inbound_udp. cbv zeta. case_decide as Hs; [by rstep|].
  destruct (Z.ltb_spec BUFFER_SIZE (Z.of_nat (length buf))); [by rstep|].
  destruct Href as [?|[?|(ph & Hph & Href)]]; [done|lia|]. rstep. rlift Hph.
  destruct (negb (magic ph =? PKT_MAGIC) || negb (version ph =? PKT_VERSION)) eqn:Hmv; [by rstep|].
  apply orb_false_iff in Hmv as [Hm%negb_false_iff%Z.eqb_eq Hv%negb_false_iff%Z.eqb_eq].
  destruct Href as [?|[?|Href]]; [done|done|]. rstep. eapply runs_conseq; [by apply limit_packet_exact|]. cbv beta.
  intros limited w1 (r & -> & Hr). assert (Hw1 : world_ok (w <| rl := r |>)) by (by apply world_ok_rl).
  assert (Hu1 : untouched buf w (w <| rl := r |>)) by (by apply untouched_limiter).
  destruct limited.
  { do 3 rstep. split; [by do 2 (apply world_ok_metric; [|done])|by do 2 apply untouched_metric]. }
  unfold handle_admitted. destruct Href as [[Ht Hl]|(Ht & Hno)].
  { rewrite Ht, Z.eqb_refl, bool_decide_false by done. by rstep. }
  rewrite (proj2 (Z.eqb_neq _ _) Ht). do 3 rstep. unfold session_by_id. do 2 rstep.
  set (w2 := (w <| rl := r |>) <| global_metrics ::= _ |>).
  assert (Hw2 : world_ok w2) by (by apply world_ok_metric). assert (Hu2 : untouched buf w w2) by (by apply untouched_metric).
  change (sessions w2) with (sessions w). destruct Hno as [Hno|[Hl Hno]].
  { rlift (scan_unaddressed buf w Hno). by rstep. }
  assert (Hrd : buf_read buf sizeof_proto_header SESSION_ID_LEN = Ok (packet_id buf)).
  { unfold buf_read. rewrite decide_True; [done|]. unfold DATA_HEADER_LEN, sizeof_proto_header, SESSION_ID_LEN in *. lia. }
  rewrite Hrd. destruct (scan_id_total (packet_id buf) (sessions w)) as [[i|] Hsc];
    rlift Hsc; [|by rstep].
  destruct (scan_id_found _ _ _ Hsc) as (s & Hi & Ha & Hid).
  eapply runs_conseq; [by apply (handle_data_refused i s)|]. cbv beta. intros _ w' [Hw' Hu']. split; [done|].
  eapply untouched_trans_data; [|exact Hu']. eexists _, r. by destruct w.
Qed.

(** C10: a datagram the server must not accept has no effect: one shorter than the
    protocol header or longer than the receive buffer, of another protocol or version, a
    handshake of the wrong length, a packet that names no session, or a packet with a
    whole data header that repeats a number or does not authenticate, is handled without
    undefined behaviour, and afterwards no session's keys, numbers, window, table, queue
    or parameters, nothing sent or written, and nothing scheduled has changed, whatever
    its sender: at most the rate limiter, the metrics, and the activity time of the
    session it names.  Not among them are the packets of 6 to 29 bytes that name a session
    in use, or are too short for an id while one is in use: past the limiter, the handler
    reads beyond their end. *)
Theorem refused_no_effect e e' sock buf src sk w :
  world_ok w -> refused w buf ->
  exists w', handle_inbound_udp e e' sock buf src sk w = Ok (tt, w') /\ world_ok w' /\ untouched buf w w'.
Proof.
  intros Hw Href. destruct (refused_runs e e' sock buf src sk w Hw Href) as ([] & w' & E & H). eauto.
Qed.

End refused.
