(* ===== verification/Reassembly.v ===== *)
(** The server as a receiver: the fragments a sender cuts a packet into, sealed and
    received in order, put the packet back together. *)

From stdpp Require Import list gmap.
From S2P Require Import Prelude State ReplayWindow OutQueue TaskHeap RateLimiter Metrics Crypto Wire Fragment.
From S2P Require Import Server Handshake PacketProcessor ServerLogic HandshakeProofs DataPath.
Local Open Scope Z_scope.

Section reassembly.
Context `{Sod : Sodium} `{!SodiumLaws Sod}.

(** ** One sealed packet *)

(** Session [s], in slot [i], receives under [key] and [sid], which select it. *)
Record linked (key sid : list byte) (s : session_t) (i : nat) (w : world) : Prop := {
  lk_here : sessions w !! i = Some s;
  lk_active : active s = true;
  lk_key : k_recv s = key;
  lk_kr : length key = AEAD_KEY_LEN;
  lk_id : session_id s = sid;
  lk_sid : length sid = SESSION_ID_LEN;
  lk_found : scan_id (Ok sid) (sessions w) = Ok (Some i);
}.

(** The limiter lets [n] data packets from the address through at time [t]; the result
    is what they leave of it. *)
Fixpoint lets_through (n : nat) (t ip : Z) (r : rate_limiter_t) : option rate_limiter_t :=
  match n with
  | O => Some r
  | S n =>
      match check_packet_rate_limit t t t r ip with
      | Ok (RATE_LIMIT_OK, r) => lets_through n t ip r
      | _ => None
      end
  end.

(** What the metrics record of the datagrams received. *)
Definition count_received (ds : list (list byte)) (m : metrics_t) : metrics_t :=
  foldl (fun m d => metrics_record_packet_received (Z.of_nat (length d)) m) m ds.

(** A packet sealed with the next sequence number, from an address within its limit, is
    authenticated and accepted, and its plaintext handled. *)
Lemma handle_sealed e e' sock src sk i w s key sid q S pt l (Q : unit -> world -> Prop) :
  linked key sid s i w -> metrics_lock w = true -> window_rep (rw s) S -> recv_max (rw s) < q < 2 ^ 64 ->
  Z.of_nat (length pt) <= MAX_FRAG - 70 ->
  check_packet_rate_limit (now w) (now w) (now w) (rl w) (sin_addr src) = Ok (RATE_LIMIT_OK, l) ->
  (forall r, window_rep r ({[q]} ∪ S) -> recv_max r = q ->
     runs (handle_plain i pt) (upd i (s <| last_activity := now w |> <| rw := r |>) w
       <| global_metrics ::= count_received [seal key sid pt q] |> <| rl := l |>) Q) ->
  runs (handle_inbound_udp e e' sock (seal key sid pt q) src sk) w Q.
Proof.
  intros [Hi Ha <- Hkey <- Hsid Hscan] Hlock HS Hq Hpt Hrl HQ. unfold seal in *.
  destruct (aead_roundtrip (k_recv s) (session_id s) q pt Hkey) as (ct & Ect & Hdec & Hlen). rewrite Ect in HQ |- *.
  change (default [] (Some ct)) with ct in *. pose proof (rep_max _ _ HS) as Hm. unfold in_u64 in Hm.
  destruct (data_packet_fields (session_id s) q ct Hsid ltac:(split; lia)) as (Fph & Fsid & Fseq & Fct).
  set (buf := data_packet (session_id s) q ct) in *.
  assert (Hbl : length buf = (30 + length ct)%nat) by (by apply length_data_packet).
  unfold handle_inbound_udp. cbv zeta. rewrite decide_False by (unfold sizeof_proto_header; lia).
  destruct (Z.ltb_spec BUFFER_SIZE (Z.of_nat (length buf))); [unfold BUFFER_SIZE, MAX_FRAG in *; change MAC_LEN with 16%nat in *; lia|].
  rstep. rlift Fph. change (negb (magic data_header =? PKT_MAGIC) || negb (version data_header =? PKT_VERSION)) with false.
  cbv iota. rstep. unfold limit_packet.
  change (type data_header =? PKT_TYPE_DATA) with true. cbv iota. do 5 rstep. rlift Hrl. do 3 rstep. cbn [fst snd].
  change (negb (bool_decide (RATE_LIMIT_OK = RATE_LIMIT_OK))) with false. cbv iota.
  unfold handle_admitted. change (type data_header =? PKT_TYPE_HANDSHAKE) with false. cbv iota.
  rstep. rstep. rstep. unfold session_by_id. rstep. rstep.
  assert (Hrd : buf_read buf sizeof_proto_header SESSION_ID_LEN = Ok (session_id s)).
  { unfold buf_read. rewrite decide_True; [by rewrite Fsid|]. unfold sizeof_proto_header, SESSION_ID_LEN. lia. }
  rewrite Hrd. match goal with |- context [scan_id _ (sessions ?x)] => change (sessions x) with (sessions w) end. rlift Hscan.
  unfold handle_data. rstep. rstep. rstep. eapply runs_update; [exact Hi|].
  set (s1 := s <| last_activity := _ |>). set (w1 := set sessions _ _).
  assert (Hi1 : sessions w1 !! i = Some s1) by (apply list_lookup_insert_eq; by eapply lookup_lt_Some).
  rstep. eapply runs_lift.
  { unfold buf_read. rewrite decide_True; [reflexivity|]. unfold sizeof_proto_header, SESSION_ID_LEN. lia. }
  cbv beta zeta. rstep. eapply runs_session; [exact Hi1|]. cbv beta.
  assert (Hf : fresh S (recv_max (rw s)) q).
  { split; [lia|]. split; [|lia]. intros Hin. apply (rep_bound _ _ HS) in Hin. lia. }
  assert (Hq64 : in_u64 q) by (split; lia).
  rstep. rewrite Fseq. eapply runs_lift; [by apply (check_replay_rep (rw s1) S)|]. cbv beta.
  change (rw s1) with (rw s). rewrite (bool_decide_true _ Hf). cbn [negb].
  assert (Hml : MAC_LEN = 16%nat) by done. rewrite (u64_small (Z.of_nat (length buf) - _)).
  2:{ unfold in_u64, DATA_HEADER_LEN, sizeof_proto_header, SESSION_ID_LEN, MAX_FRAG in *. lia. }
  destruct (Z.ltb_spec (BUFFER_SIZE - Z.of_nat DATA_HEADER_LEN) (Z.of_nat (length buf) - Z.of_nat DATA_HEADER_LEN)).
  { unfold BUFFER_SIZE, MAX_FRAG in *. lia. }
  rewrite Fct. change (k_recv s1) with (k_recv s). change (session_id s1) with (session_id s). rewrite Hdec.
  destruct (Z.ltb_spec BUFFER_SIZE (Z.of_nat (length pt))); [unfold BUFFER_SIZE, MAX_FRAG in *; lia|].
  destruct (update_window_rep (rw s) S q) as (r & Hu & HS' & Hr); [done..|].
  rstep. rlift Hu. rstep. eapply runs_update; [exact Hi1|].
  subst w1. unfold upd in HQ. eapply runs_conseq; [|done]. cbn -[handle_plain] in HQ |- *.
  rewrite list_insert_insert_eq. apply HQ; [done|lia].
Qed.

Lemma scan_id_update sid ss i s s' :
  ss !! i = Some s -> active s' = active s -> session_id s' = session_id s ->
  scan_id (Ok sid) (<[i := s']> ss) = scan_id (Ok sid) ss.
Proof.
  intros Hi Ha Hid. revert i Hi. induction ss as [|x ss IH]; intros [|i] Hi; simplify_eq/=.
  - by rewrite Ha, Hid.
  - by rewrite (IH i Hi).
Qed.

(** ** A sequence of packets *)

(** The fields of a session that receiving fragments changes. *)
Definition received (s : session_t) (tbl : list reassembly_entry_t) (t : Z) (r : replay_window_t) : session_t :=
  s <| g_reassembly_table := tbl |> <| last_activity := t |> <| rw := r |>.

Lemma linked_received key sid s i w w' tbl t r :
  linked key sid s i w -> sessions w' = <[i := received s tbl t r]> (sessions w) -> linked key sid (received s tbl t r) i w'.
Proof.
  intros [Hi Ha Hk Hkl Hid Hsl Hf] E. constructor; try done; rewrite E.
  - apply list_lookup_insert_eq. by eapply lookup_lt_Some.
  - rewrite <- Hf. by apply (scan_id_update _ _ _ s).
Qed.

(** A data packet's plaintext goes through the reassembly table. *)
Lemma handle_data_plain i w s pt tbl o (Q : unit -> world -> Prop) :
  sessions w !! i = Some s -> data_plain pt -> accept_fragment (now w) (g_reassembly_table s) pt = Ok (tbl, o) ->
  Q tt (upd i (s <| g_reassembly_table := tbl |>) w <| trace := trace w ++ (TunWrite <$> option_list o) |>) ->
  runs (handle_plain i pt) w Q.
Proof.
  intros Hi [_ [_ (fl & Hfl & H1 & H2 & H3)]] Ho HQ. unfold handle_plain. rstep. rstep. rstep. rlift Hfl.
  rewrite H1, H2, H3. rstep. eapply runs_session; [exact Hi|]. cbv beta. rstep. rlift Ho. rstep.
  eapply runs_update; [exact Hi|]. cbn [fst snd]. unfold upd in HQ.
  destruct o as [d|]; rstep; cbn [option_list fmap list_fmap] in HQ; [exact HQ|].
  rewrite app_nil_r in HQ. by destruct w.
Qed.

(** Fragments received in order go through the reassembly table. *)
Lemma receive_sealed e e' sock src sk i key sid pts : forall w s q S tbl outs l,
  linked key sid s i w -> metrics_lock w = true ->
  lets_through (length pts) (now w) (sin_addr src) (rl w) = Some l -> window_rep (rw s) S -> recv_max (rw s) < q -> q + Z.of_nat (length pts) <= 2 ^ 64 ->
  Forall data_plain pts -> accept_all (now w) (g_reassembly_table s) pts = Ok (tbl, outs) ->
  runs (run_all (fun buf => handle_inbound_udp e e' sock buf src sk) (seal_each key sid q pts)) w (fun _ w' =>
    exists s', (pts = [] /\ s' = s \/ exists r, s' = received s tbl (now w) r) /\
      w' = w <| sessions ::= <[i := s']> |> <| global_metrics ::= count_received (seal_each key sid q pts) |>
             <| rl := l |> <| trace ::= (fun t => t ++ (TunWrite <$> outs)) |>).
Proof.
  induction pts as [|pt pts IH]; intros w s q S tbl outs l Hlk Hlock Hl HS Hq Hub Hd Hacc; cbn [accept_all seal_each run_all lets_through length] in *.
  { simplify_eq. rstep. exists s. split; [by left|]. destruct w; cbn in *. rewrite app_nil_r, list_insert_id by apply Hlk. done. }
  apply Forall_cons in Hd as [Hpt Hd].
  apply bind_Ok in Hacc as ([tbl1 o] & Hone & Hacc). apply bind_Ok in Hacc as ([tbl2 outs2] & Hrest & Hacc). simplify_eq/=.
  destruct (check_packet_rate_limit _ _ _ _ _) as [[[] l1]|] eqn:Hrl; [|done..].
  pose proof (rep_max _ _ HS) as Hmax. unfold in_u64 in Hmax. rstep.
  eapply (handle_sealed e e' sock src sk i w s); [done..|lia|apply Hpt|exact Hrl|]. intros r HS' Hr.
  eapply handle_data_plain; [by eapply upd_lookup; apply Hlk|done..|].
  set (w1 := upd i _ _ <| trace := _ |>). set (s1 := received s tbl1 (now w) r).
  assert (Hss : sessions w1 = <[i := s1]> (sessions w)) by (apply list_insert_insert_eq).
  assert (Hw1 : metrics_lock w1 = true /\ now w1 = now w /\ rl w1 = l1 /\ trace w1 = trace w ++ (TunWrite <$> option_list o)) by done.
  assert (Ew1 : w1 = w <| sessions := sessions w1 |> <| global_metrics ::= count_received [seal key sid pt q] |> <| rl := l1 |> <| trace := trace w1 |>) by done.
  destruct Hw1 as (Hk1 & Hn1 & Hl1 & Ht1). clearbody w1. destruct pts as [|pt' pts'].
  { cbn [accept_all lets_through length] in Hrest, Hl. simplify_eq. cbn [seal_each run_all]. rstep. rewrite app_nil_r.
    exists s1. split; [right; by exists r|]. rewrite Ew1, Hss, Ht1. done. }
  rewrite (u64_small (q + 1)) by (unfold in_u64; cbn in Hub; lia).
  eapply runs_conseq; [apply (IH w1 s1 (q + 1) ({[q]} ∪ S) tbl outs2 l)|]; try done.
  - by eapply linked_received.
  - by rewrite Hn1, Hl1.
  - cbn. lia.
  - cbn in Hub |- *. lia.
  - by rewrite Hn1.
  - cbv beta. rewrite Hn1. intros _ w' (s' & [[? _]|(r' & ->)] & ->); [done|]. exists (received s tbl (now w) r'). split; [right; by exists r'|].
    rewrite Ew1. cbn [sessions trace global_metrics set]. rewrite Hss, Ht1, fmap_app. cbn. by rewrite list_insert_insert_eq, <- app_assoc.
Qed.

(** The server after the datagrams [ds] for session [s] in slot [i] were received and
    [ip] was written to the tunnel device. *)
Definition delivered (i : nat) (s : session_t) (ds : list (list byte)) (ip : list byte)
    (tbl : list reassembly_entry_t) (r : replay_window_t) (l : rate_limiter_t) (w : world) : world :=
  w <| sessions ::= <[i := received s tbl (now w) r]> |> <| global_metrics ::= count_received ds |> <| rl := l |>
    <| trace ::= (fun t => t ++ [TunWrite ip]) |>.

Lemma server_receives e e' sock src sk i w s key sid q S tag P padto id ip l :
  linked key sid s i w -> metrics_lock w = true ->
  lets_through (length (pieces tag P padto id ip)) (now w) (sin_addr src) (rl w) = Some l ->
  window_rep (rw s) S -> recv_max (rw s) < q ->
  q + Z.of_nat (length ip) <= 2 ^ 64 ->
  (40 <= P <= 1176)%nat -> (padto <= 24 + P)%nat -> length tag = SESSION_ID_LEN ->
  0 < id < 2 ^ 16 -> (0 < length ip <= 1600)%nat ->
  (forall x, x ∈ g_reassembly_table s -> is_active x = true -> re_packet_id x <> id) ->
  (exists x, x ∈ g_reassembly_table s /\ is_active x = false) ->
  let ds := seal_each key sid q (pieces tag P padto id ip) in
  exists tbl r, run_all (fun buf => handle_inbound_udp e e' sock buf src sk) ds w = Ok (tt, delivered i s ds ip tbl r l w).
Proof.
  intros Hlk Hlock Hl HS Hq Hub HP Hpad Htag Hid Hip Hno Hidle ds.
  destruct (accept_pieces (now w) (g_reassembly_table s) tag P padto id ip) as (Hd & tbl & Hacc); [done..|].
  pose proof (length_pieces tag P padto id ip).
  destruct (receive_sealed e e' sock src sk i key sid (pieces tag P padto id ip) w s q S tbl [ip] l)
    as ([] & w' & E & s' & [[Hnil _]|(r & ->)] & ->); [done..|lia|done|done| |by exists tbl, r].
  rewrite Hnil in Hacc. done.
Qed.

(** C21: fragmentation and reassembly are inverse: if the packets that carry [ip]
    (cut into pieces of 40 to 1176 bytes, padded or not, sealed and numbered from
    [q] on) arrive in order at the running server, from an address whose limit lets them through, at the
    session with the same key and id, whose replay window is below [q] and whose
    reassembly table has a free entry and none for that packet id, then exactly [ip] is
    written to the tunnel device, nothing is sent, and of the server's state only the
    receiving session's table, window and activity time change, the limiter by those
    packets, and the metrics' counts of packets and bytes received. *)
Theorem reassembly_roundtrip e e' sock src sk i w s key sid q S tag P padto id ip l :
  linked key sid s i w -> metrics_lock w = true ->
  lets_through (length (pieces tag P padto id ip)) (now w) (sin_addr src) (rl w) = Some l ->
  window_rep (rw s) S -> recv_max (rw s) < q ->
  q + Z.of_nat (length ip) <= 2 ^ 64 ->
  (40 <= P <= 1176)%nat -> (padto <= 24 + P)%nat -> length tag = SESSION_ID_LEN ->
  0 < id < 2 ^ 16 -> (0 < length ip <= 1600)%nat ->
  (forall x, x ∈ g_reassembly_table s -> is_active x = true -> re_packet_id x <> id) ->
  (exists x, x ∈ g_reassembly_table s /\ is_active x = false) ->
  let ds := seal_each key sid q (pieces tag P padto id ip) in
  exists tbl r, run_all (fun buf => handle_inbound_udp e e' sock buf src sk) ds w = Ok (tt, delivered i s ds ip tbl r l w).
Proof. apply server_receives. Qed.

End reassembly.
