(* ===== verification/SchedulerProofs.v ===== *)
(** Properties of the send scheduler: the constant-bitrate invariant (one datagram
    of one size per slot), and the safety of a turn. *)

From stdpp Require Import list gmap.
From S2P Require Import Prelude State ReplayWindow OutQueue TaskHeap RateLimiter Metrics Crypto Wire Fragment Server Handshake.
From S2P Require Import PacketProcessor Scheduler Pacing ServerLogic HandshakeProofs DataPath.
Local Open Scope Z_scope.

Section scheduler.
Context `{Sod : Sodium} `{!SodiumLaws Sod}.

(** ** Constant bitrate *)

(** The plaintext of a dummy packet. *)
Definition dummy_plain (s : session_t) : list byte := take (Z.to_nat (argv_FRAG s)) (dummy_payload s).

Lemma dummy_plain_ok s :
  slot_ok s -> params_ok s -> dummy_ready s ->
  length (dummy_plain s) = Z.to_nat (argv_FRAG s) /\ u16_at (dummy_plain s) 6 = Ok PKT_DUMMY.
Proof.
  intros Hs [_ Hf _ _] [_ Hr]. pose proof (ok_dummy s Hs). unfold CONFIG_MIN_FRAG_PARAM, CONFIG_MAX_FRAG_PARAM, MAX_FRAG in *.
  unfold dummy_plain. split; [rewrite length_take; lia|]. rewrite u16_at_take by lia. done.
Qed.

Lemma send_dummy_ok i w s (Q : unit -> world -> Prop) :
  world_ok w -> sessions w !! i = Some s -> active s = true ->
  (forall w', world_ok w' -> (exists s', sessions w' = <[i := s']> (sessions w) /\ outq s' = outq s /\ active s' = active s) ->
     g_shards w' = g_shards w ->
     (sends w = [] -> trace w' = trace w ++ [UdpSend (s_udp_sock s) (client_addr s) (sealed s (dummy_plain s) (send_seq s))]) ->
     Q tt w') ->
  runs (send_dummy i) w Q.
Proof.
  intros Hw Hi Ha HQ. destruct (ok_sess w Hw i s Hi) as [Hslot Hlive]. destruct (Hlive Ha) as [Hip Hp Hst Hq Hrd].
  destruct (dummy_plain_ok s Hslot Hp Hrd) as [Hdl _]. pose proof (ok_frag s Hp) as Hf.
  unfold CONFIG_MIN_FRAG_PARAM, CONFIG_MAX_FRAG_PARAM in Hf.
  unfold send_dummy. rstep. rstep. rstep. eapply runs_next_seq; [exact Hi|]. rewrite (frag_size_ok s Hp).
  set (s1 := s <| send_seq := _ |>). set (w1 := set sessions _ _). rstep. eapply runs_lift.
  { unfold buf_read. rewrite decide_True; [reflexivity|]. pose proof (ok_dummy s Hslot). unfold MAX_FRAG in *. lia. }
  cbv beta. rewrite drop_0. fold (dummy_plain s).
  destruct (encrypt_ok (k_send s) (session_id s) (send_seq s) (dummy_plain s)) as (ct & Hct & _ & Hcl);
    [apply Hslot|unfold BUFFER_SIZE, MAC_LEN; lia|].
  assert (Hml : MAC_LEN = 16%nat) by done.
  pose proof (ok_final s Hslot) as Hfl. unfold MAX_FRAG in Hfl.
  destruct (packet_in_buffer (final_pkt_dummy s) (session_id s) ct (send_seq s) (proj1 Hrd)) as (b1 & b & E1 & E2 & Hpk & H22 & Hbl); [lia|].
  rstep. rlift Hct. cbv zeta. rewrite Hst. change (Z.to_nat 22) with 22%nat. change (22 + 8)%nat with 30%nat.
  rstep. rlift E1. rstep. rlift E2. rstep. eapply runs_update; [by eapply update_get|]. cbv beta.
  set (s2 := s1 <| final_pkt_dummy := b |>).
  assert (Hs2 : sess_ok i s2).
  { split; [destruct Hslot; constructor; try done; [apply u64_range|by cbn; rewrite Hbl]|].
    intros _. constructor; try done; [by destruct Hp; constructor|]. destruct Hrd as [Hr1 Hr2]. by split; [cbn; rewrite H22|]. }
  assert (Hw2 : world_ok (w <| sessions ::= <[i := s2]> |>)) by (by apply (world_ok_update w i s)).
  assert (Hss : sessions (w1 <| sessions ::= <[i := s2]> |>) = <[i := s2]> (sessions w)) by apply list_insert_insert_eq.
  replace (w1 <| sessions ::= <[i := s2]> |>) with (w <| sessions ::= <[i := s2]> |>)
    by (destruct w; subst w1; cbn in *; by rewrite list_insert_insert_eq).
  rewrite Hpk. rstep. rstep. rstep. apply HQ.
  - by apply world_ok_sent.
  - by exists s2.
  - done.
  - intros Hsd. destruct (H Hsd) as [-> ->]. cbn [trace set]. do 3 f_equal. unfold seal. unfold encrypt in Hct.
    destruct (aead_encrypt _ _ _ _); [|done]. case_match; by simplify_eq.
Qed.
(** ** Sending what is queued *)

Lemma queue_popped_ok i w s q d q' :
  world_ok w -> sessions w !! i = Some s -> outq s = Some q -> aq_pop q = Some (d, q') ->
  world_ok (w <| sessions ::= <[i := s <| outq := Some q' |>]> |>).
Proof.
  intros Hw Hi Hq Hpop. destruct (ok_sess w Hw i s Hi) as [Hs Hlive].
  apply (world_ok_update w i s); [done..| |done]. split; [by destruct Hs|].
  intros Ha. destruct (Hlive Ha) as [? [] ? Hu ?]. constructor; try done. intros Hy q0 [= <-].
  specialize (Hu Hy q Hq). rewrite (aq_pop_Some _ _ _ Hpop) in Hu. by inversion Hu.
Qed.

Lemma runs_queue_pop i w s q (Q : option out_data -> world -> Prop) :
  sessions w !! i = Some s -> outq s = Some q ->
  match aq_pop q with
  | None => Q None w
  | Some (d, q') => Q (Some d) (w <| sessions ::= <[i := s <| outq := Some q' |>]> |>)
  end -> runs (queue_pop i) w Q.
Proof.
  intros Hi Hq HQ. unfold queue_pop. rstep. rstep. rewrite Hq. destruct (aq_pop q) as [[d q']|].
  - rstep. rstep. by rstep.
  - by rstep.
Qed.

(** The sends of the packets of a queue. *)
Definition sends_of (s : session_t) (l : list out_data) : list event :=
  (fun d => UdpSend (s_udp_sock s) (client_addr s) (pkt d)) <$> l.

Lemma drain_queue_ok fuel i w s q :
  world_ok w -> sessions w !! i = Some s -> outq s = Some q -> (length (packets q) <= fuel)%nat ->
  runs (drain_queue fuel i) w (fun r w' => world_ok w' /\ g_shards w' = g_shards w /\
    now w' = now w /\ r = negb (bool_decide (packets q = [])) /\
    sessions w' = <[i := s <| outq := Some aq_empty |>]> (sessions w) /\
    (sends w = [] -> trace w' = trace w ++ sends_of s (packets q))).
Proof.
  revert w s q. induction fuel as [|fuel IH]; intros w s q Hw Hi Hq Hf; cbn [drain_queue]; rstep;
    eapply runs_queue_pop; try done; destruct (aq_pop q) as [[d q']|] eqn:Hpop.
  - apply aq_pop_Some in Hpop. rewrite Hpop in Hf. cbn in Hf. lia.
  - apply aq_pop_None in Hpop as ->. rstep. split; [done|]. do 3 (split; [done|]). split.
    + rewrite list_insert_id; [done|]. rewrite Hi. f_equal. destruct s. cbn in *. by subst.
    + intros _. by rewrite app_nil_r.
  - pose proof (queue_popped_ok i w s q d q' Hw Hi Hq Hpop) as Hw1. apply aq_pop_Some in Hpop.
    set (w1 := w <| sessions ::= _ |>) in *.
    assert (Hi1 : sessions w1 !! i = Some (s <| outq := Some q' |>)) by (by eapply update_get).
    rstep. eapply runs_session; [exact Hi1|]. cbv beta. rstep. rstep. rstep.
    eapply runs_conseq; [eapply (IH _ (s <| outq := Some q' |>) q')|].
    + by apply world_ok_sent.
    + exact Hi1.
    + done.
    + rewrite Hpop in Hf. cbn in Hf. lia.
    + cbv beta. intros r w' (Hw' & Hsh & Hno & Hr & Hss & Htr). rstep. split; [done|]. split; [exact Hsh|].
      split; [exact Hno|]. split; [by rewrite Hpop|]. split.
      * rewrite Hss. apply list_insert_insert_eq.
      * intros Hsd. destruct (H Hsd) as [-> ->]. rewrite (Htr eq_refl), Hpop. cbn. by rewrite <- app_assoc.
  - apply aq_pop_None in Hpop as ->. rstep. split; [done|]. do 3 (split; [done|]). split.
    + rewrite list_insert_id; [done|]. rewrite Hi. f_equal. destruct s. cbn in *. by subst.
    + intros _. by rewrite app_nil_r.
Qed.

(** ** One slot *)

(** What one slot of a constant-bitrate session sends: its first queued packet, or
    else a dummy. *)
Definition cbr_datagram (s : session_t) (q : aqueue) : list byte :=
  match aq_pop q with
  | Some (d, _) => pkt d
  | None => sealed s (dummy_plain s) (send_seq s)
  end.

Lemma cbr_datagram_length i w s q :
  world_ok w -> sessions w !! i = Some s -> active s = true -> argv_CBR s = ch_Y -> outq s = Some q ->
  length (cbr_datagram s q) = wire_size s.
Proof.
  intros Hw Hi Ha Hc Hq. destruct (ok_sess w Hw i s Hi) as [Hs Hlive]. destruct (Hlive Ha) as [_ Hp _ Hu Hrd].
  unfold cbr_datagram. destruct (aq_pop q) as [[d q']|] eqn:Hpop.
  - specialize (Hu Hc q Hq). rewrite (aq_pop_Some _ _ _ Hpop) in Hu. by inversion Hu.
  - unfold seal. destruct (aead_roundtrip (k_send s) (session_id s) (send_seq s) (dummy_plain s)) as (ct & -> & _ & Hl);
      [apply Hs|]. change (default [] (Some ct)) with ct. rewrite length_data_packet by apply Hs.
    rewrite Hl. destruct (dummy_plain_ok s Hs Hp Hrd) as [-> _]. unfold wire_size. lia.
Qed.

Lemma execute_send_cbr_runs sid i w s q :
  world_ok w -> scan_id (Ok sid) (sessions w) = Ok (Some i) -> sessions w !! i = Some s ->
  argv_CBR s = ch_Y -> outq s = Some q ->
  runs (execute_send sid) w (fun r w' => world_ok w' /\ g_shards w' = g_shards w /\
    r = negb (bool_decide (packets q = [])) /\
    (sends w = [] -> trace w' = trace w ++ [UdpSend (s_udp_sock s) (client_addr s) (cbr_datagram s q)])).
Proof.
  intros Hw Hsc Hi Hc Hq. destruct (scan_id_found _ _ _ Hsc) as (s0 & Hi' & Ha & _).
  assert (s0 = s) as -> by congruence.
  unfold execute_send, session_by_id. rstep. rstep. rstep. rlift Hsc. rstep. eapply runs_session; [exact Hi|]. cbv beta.
  rewrite (bool_decide_true _ Hc). rstep. eapply runs_queue_pop; [done..|]. unfold cbr_datagram.
  destruct (aq_pop q) as [[d q']|] eqn:Hpop.
  - pose proof (queue_popped_ok i w s q d q' Hw Hi Hq Hpop) as Hw1. apply aq_pop_Some in Hpop.
    rstep. rstep. rstep. split; [by apply world_ok_sent|]. split; [done|]. split; [by rewrite Hpop|].
    intros Hsd. destruct (H Hsd) as [-> _]. done.
  - apply aq_pop_None in Hpop as ->. rstep. apply (send_dummy_ok i w s); [done..|].
    intros w' Hw' _ Hsh Htr. rstep. done.
Qed.

(** C25: the paced slots of a constant-bitrate session are uniform: in every well-formed
    state in which the session has its queue and sending succeeds, one slot of the
    scheduler sends exactly one datagram to the session's client, always of the same
    length on the wire, whether it carries the oldest packet of the highest non-empty
    priority or, when nothing is queued, a dummy, which the client decrypts to a packet
    flagged DUMMY.  It is about the slots: keepalives of the maintenance are sent
    between them. *)
Theorem cbr_slot_uniform sid i w s q :
  world_ok w -> scan_id (Ok sid) (sessions w) = Ok (Some i) -> sessions w !! i = Some s ->
  argv_CBR s = ch_Y -> outq s = Some q -> sends w = [] ->
  exists r w' data, execute_send sid w = Ok (r, w') /\ world_ok w' /\
    trace w' = trace w ++ [UdpSend (s_udp_sock s) (client_addr s) data] /\
    length data = wire_size s /\
    match packets q with
    | d :: _ => r = true /\ data = pkt d
    | [] => r = false /\ exists plain, data = sealed s plain (send_seq s) /\
              aead_decrypt (k_send s) (session_id s) (send_seq s) (drop DATA_HEADER_LEN data) = Some plain /\
              u16_at plain 6 = Ok PKT_DUMMY
    end.
Proof.
  intros Hw Hsc Hi Hc Hq Hsd. destruct (scan_id_found _ _ _ Hsc) as (s0 & Hi' & Ha & _).
  assert (s0 = s) as -> by congruence.
  destruct (execute_send_cbr_runs sid i w s q Hw Hsc Hi Hc Hq) as (r & w' & E & Hw' & _ & -> & Htr).
  exists (negb (bool_decide (packets q = []))), w', (cbr_datagram s q).
  split; [exact E|]. split; [done|]. split; [by apply Htr|]. split; [by apply (cbr_datagram_length i w s q)|].
  unfold cbr_datagram. destruct (aq_pop q) as [[d q']|] eqn:Hpop.
  - by rewrite (aq_pop_Some _ _ _ Hpop).
  - apply aq_pop_None in Hpop as ->. split; [done|]. exists (dummy_plain s). split; [done|].
    destruct (ok_sess w Hw i s Hi) as [Hs Hlive]. destruct (Hlive Ha) as [_ Hp _ _ Hrd].
    split; [|by apply dummy_plain_ok]. unfold seal.
    destruct (aead_roundtrip (k_send s) (session_id s) (send_seq s) (dummy_plain s)) as (ct & -> & Hd & _); [apply Hs|].
    change (default [] (Some ct)) with ct.
    destruct (data_packet_fields (session_id s) (send_seq s) ct) as (_ & _ & _ & Hdr); [apply Hs..|]. by rewrite Hdr.
Qed.

(** ** Without pacing *)

Lemma execute_send_flush_runs sid i w s q :
  world_ok w -> scan_id (Ok sid) (sessions w) = Ok (Some i) -> sessions w !! i = Some s ->
  argv_CBR s = ch_N -> outq s = Some q -> packets q <> [] ->
  runs (execute_send sid) w (fun r w' => r = true /\ world_ok w' /\
    sessions w' = <[i := s <| outq := Some aq_empty |>]> (sessions w) /\
    (sends w = [] -> trace w' = trace w ++ sends_of s (packets q))).
Proof.
  intros Hw Hsc Hi Hc Hq Hne. unfold execute_send, session_by_id. rstep. rstep. rstep. rlift Hsc.
  rstep. eapply runs_session; [exact Hi|]. cbv beta. rewrite Hc, bool_decide_false by (by vm_compute).
  rstep. eapply runs_conseq; [apply (drain_queue_ok _ i w s q); try done|].
  { unfold queue_length, packets, aq_size. rewrite Hq, length_app. lia. }
  cbv beta. intros r w1 (Hw1 & _ & _ & -> & Hss & Htr). rewrite bool_decide_false by done. cbn [negb]. by rsteps.
Qed.

(** C26: a session without pacing is flushed: when its queue is not empty and sending
    succeeds, one run of its task sends every queued
    packet, the HIGH ones first and each class in the order it was queued, and
    leaves the queue empty and everything else in the session as it was. *)
Theorem flush_sends_all sid i w s q :
  world_ok w -> scan_id (Ok sid) (sessions w) = Ok (Some i) -> sessions w !! i = Some s ->
  argv_CBR s = ch_N -> outq s = Some q -> packets q <> [] -> sends w = [] ->
  exists w', execute_send sid w = Ok (true, w') /\ world_ok w' /\
    trace w' = trace w ++ sends_of s (high q) ++ sends_of s (normal q) /\
    sessions w' = <[i := s <| outq := Some aq_empty |>]> (sessions w).
Proof.
  intros Hw Hsc Hi Hc Hq Hne Hsd.
  destruct (execute_send_flush_runs sid i w s q Hw Hsc Hi Hc Hq Hne) as (r & w' & E & -> & Hw' & Hss & Htr).
  exists w'. split; [exact E|]. split; [done|]. split; [|done]. rewrite Htr by done. unfold packets, sends_of. by rewrite fmap_app.
Qed.

End scheduler.
