(* ===== verification/Safety.v ===== *)
(** Safety of the whole server: every handler (inbound and outbound packets, slots of
    the scheduler, maintenance) keeps the state well-formed in both traffic modes,
    whatever allocations and sends fail; a transition system over the handlers
    then never reaches undefined behaviour. *)

From stdpp Require Import list gmap.
From S2P Require Import Prelude State ReplayWindow OutQueue TaskHeap RateLimiter Metrics Crypto Wire Fragment Server Handshake.
From S2P Require Import PacketProcessor Scheduler ThreadPool EventLoop Pacing ServerLogic HandshakeProofs DataPath SchedulerProofs.
Local Open Scope Z_scope.

Section safety.
Context `{Sod : Sodium} `{!SodiumLaws Sod}.

(** ** Outbound packets, in either mode *)

(** [w'] is well-formed and slot [i] is still in use. *)
Definition still_live (i : nat) (w' : world) : Prop :=
  world_ok w' /\ exists s', sessions w' !! i = Some s' /\ active s' = true.

Lemma still_live_intro i w s : world_ok w -> sessions w !! i = Some s -> active s = true -> still_live i w.
Proof. intros. split; eauto. Qed.

Lemma send_outbound_ok i body n real ip w s :
  world_ok w -> sessions w !! i = Some s -> active s = true ->
  (length body + n)%nat = Z.to_nat (argv_FRAG s) -> (real = Z.of_nat (length body) \/ real = argv_FRAG s) ->
  runs (send_outbound_packet i (body ++ zeros n) real ip) w (fun _ w' => still_live i w').
Proof.
  intros Hw Hi Ha Hl Hreal. destruct (ok_sess w Hw i s Hi) as [Hslot Hlive].
  destruct (Hlive Ha) as [_ Hp _ _ _]. pose proof (ok_frag s Hp) as Hf.
  unfold CONFIG_MIN_FRAG_PARAM, CONFIG_MAX_FRAG_PARAM in Hf.
  unfold send_outbound_packet. rstep. eapply runs_next_seq; [exact Hi|]. set (s1 := s <| send_seq := _ |>).
  assert (Hs1 : sess_ok i s1) by (apply sess_ok_seq; [by eapply ok_sess|apply u64_range]).
  pose proof (world_ok_update w i s s1 Hw Hi Hs1 eq_refl) as Hw1. set (w1 := set sessions _ _) in *.
  assert (Hi1 : sessions w1 !! i = Some s1) by (by eapply update_get).
  rstep. eapply runs_session; [exact Hi1|]. cbv beta.
  pose proof (outbound_plain s body n real Hp Hl Hreal) as Hpt.
  change (argv_CBR s1) with (argv_CBR s). change (frag_size s1) with (frag_size s). change (argv_FRAG s1) with (argv_FRAG s).
  match type of Hpt with (p ← ?o; _) = _ => destruct o as [p|] eqn:Ho; [|done] end. cbn [mbind outcome_bind] in Hpt.
  rstep. eapply runs_lift; [reflexivity|]. cbv beta. rstep. rlift Hpt. set (pt := if _ : bool then body ++ zeros n else body) in *.
  assert (Hptl : (length pt <= Z.to_nat (argv_FRAG s))%nat).
  { subst pt. destruct (_ || _); simpl_len; unfold zeros; simpl_len; lia. }
  destruct (encrypt_ok (k_send s1) (session_id s1) (send_seq s) pt) as (ct & Hct & _ & Hcl);
    [apply Hslot|unfold BUFFER_SIZE, MAC_LEN; lia|].
  rstep. rlift Hct. rstep. apply runs_malloc. intros b bs _. destruct b; cbn [negb].
  2:{ rstep. eapply still_live_intro; [by apply world_ok_alloc|exact Hi1|exact Ha]. }
  set (w2 := w1 <| mallocs := bs |>). assert (Hw2 : world_ok w2) by (by apply world_ok_alloc).
  case_bool_decide as Hc.
  - eapply runs_conseq; [apply (queue_push_ok i _ _ ip w2 s1)|]; try done.
    + intros _. assert (Hptf : length pt = Z.to_nat (argv_FRAG s)).
      { subst pt. cbn [orb]. simpl_len. unfold zeros. by simpl_len. }
      rewrite length_data_packet by apply Hs1. rewrite Hcl, Hptf. unfold wire_size. change (argv_FRAG s1) with (argv_FRAG s). lia.
    + by rewrite classify_eq.
    + cbv beta. intros [] w' [Hw' [o Ho']]. eapply still_live_intro; [done| |].
      * rewrite Ho'. apply list_lookup_insert_eq. exact (lookup_lt_Some _ _ _ Hi1).
      * done.
  - rstep. rstep. rstep. eapply still_live_intro; [by apply world_ok_sent|exact Hi1|exact Ha].
Qed.

Lemma fragment_loop_ok fuel i id off ip w :
  still_live i w -> (off <= length ip)%nat -> (length ip - off <= fuel)%nat ->
  runs (fragment_loop fuel i id (Z.of_nat off) ip) w (fun _ w' => still_live i w').
Proof.
  revert off w. induction fuel as [|fuel IH]; intros off w Hl Hoff Hfuel.
  - cbn [fragment_loop]. destruct (Z.ltb_spec (Z.of_nat off) (Z.of_nat (length ip))); [lia|]. by rstep.
  - destruct (decide (off = length ip)) as [->|Hne].
    { cbn [fragment_loop]. destruct (Z.ltb_spec (Z.of_nat (length ip)) (Z.of_nat (length ip))); [lia|]. by rstep. }
    destruct Hl as [Hw (s & Hi & Ha)]. destruct (ok_sess w Hw i s Hi) as [Hslot Hlive].
    destruct (Hlive Ha) as [_ Hp _ _ _]. pose proof (max_payload_pos s Hp) as HP.
    set (c := take (max_payload s) (drop off ip)).
    assert (Hcl : (0 < length c <= max_payload s /\ off + length c <= length ip)%nat).
    { subst c. rewrite length_take, length_drop. lia. }
    assert (Hle : (24 + length c <= Z.to_nat (argv_FRAG s))%nat).
    { unfold max_payload, sizeof_tunnel_header in *. lia. }
    eapply fragment_step; [exact Hi|done|lia|done|]. fold c. cbv zeta.
    rstep. eapply runs_conseq; [eapply send_outbound_ok; try done|].
    + rewrite length_fragment_body by done. lia.
    + case_bool_decide; [by right|left; rewrite length_fragment_body by done; lia].
    + cbv beta. intros [] w' Hw'. apply IH; [done|lia|lia].
Qed.

Lemma handle_outbound_runs ip w :
  world_ok w -> runs (handle_outbound_tun_buf ip) w (fun _ w' => world_ok w').
Proof.
  intros Hw. unfold handle_outbound_tun_buf. case_decide; [by rstep|].
  unfold session_by_vpnip. rstep. rstep. rstep. rstep.
  destruct (first_index _ _) as [i|] eqn:E; [|by rstep].
  apply first_index_Some in E as (s & Hi & Hp & _). bprop.
  destruct (next_packet_id_ok w (ok_id w Hw)) as (id & w1 & Hid & _ & ->).
  rstep. eexists _, _. split; [exact Hid|]. change 0 with (Z.of_nat 0).
  eapply runs_conseq; [apply fragment_loop_ok|]; [|lia|lia|by intros ? ? []].
  eapply still_live_intro; [|exact Hi|done]. destruct Hw. constructor; try done. apply u16_range.
Qed.
(** ** Slots of the scheduler *)

(** Every session in use has its queue. *)
Definition queues_present (w : world) : Prop :=
  forall i s, sessions w !! i = Some s -> active s = true -> exists q, outq s = Some q.

Lemma sess_ok_keepalive i s t : sess_ok i s -> sess_ok i (s <| last_activity_keepalive := t |>).
Proof. intros H. frame_session. Qed.

Lemma seq_only_shards i s w w' : seq_only i s w w' -> g_shards w' = g_shards w.
Proof. by intros (q & t & bs & ms & _ & ->). Qed.

Lemma execute_send_ok sid w :
  world_ok w -> queues_present w -> runs (execute_send sid) w (fun _ w' => world_ok w' /\ g_shards w' = g_shards w).
Proof.
  intros Hw Hqs. destruct (scan_id_total sid (sessions w)) as [[i|] Hsc].
  2:{ unfold execute_send, session_by_id. rstep. rstep. rstep. rlift Hsc. by rstep. }
  destruct (scan_id_found _ _ _ Hsc) as (s & Hi & Ha & _). destruct (Hqs i s Hi Ha) as [q Hq].
  destruct (decide (argv_CBR s = ch_Y)) as [Hc|Hc].
  { eapply runs_conseq; [by apply (execute_send_cbr_runs sid i w s q)|]. cbv beta. naive_solver. }
  unfold execute_send, session_by_id. rstep. rstep. rstep. rlift Hsc. rstep. eapply runs_session; [exact Hi|]. cbv beta.
  rewrite (bool_decide_false _ Hc). rstep.
  eapply runs_conseq; [apply (drain_queue_ok _ i w s q); try done|].
  { unfold queue_length, packets, aq_size. rewrite Hq, length_app. lia. }
  cbv beta. intros r w1 (Hw1 & Hsh & _ & _ & Hss & _). set (s1 := s <| outq := Some aq_empty |>).
  assert (Hi1 : sessions w1 !! i = Some s1) by (rewrite Hss; apply list_lookup_insert_eq; by eapply lookup_lt_Some).
  rstep. destruct r; [by rsteps|]. rstep. rstep.
  destruct (_ && _); [|by rsteps].
  rstep. eapply runs_conseq; [by apply (send_control_packet_ok _ i _ w1 s1)|]. cbv beta. intros [] w2 Hsq.
  destruct (seq_only_ok i s1 w1 w2 Hw1 Hi1 Hsq) as (Hw2 & sq & Hi2). pose proof (seq_only_shards _ _ _ _ Hsq) as Hsh2.
  rstep. rstep. split; [|cbn; congruence].
  apply (world_ok_update w2 i _ _ Hw2 Hi2); [|done]. apply sess_ok_keepalive. by eapply ok_sess.
Qed.

Lemma size_pop pq t pq' : pq_wf pq -> pq_wf pq' -> TaskHeap.live pq ≡ₚ t :: TaskHeap.live pq' -> (TaskHeap.size pq' < TaskHeap.size pq)%nat.
Proof.
  intros H H' Hp. apply Permutation_length in Hp. cbn in Hp. rewrite !length_live in Hp by done. lia.
Qed.

(** The deadline the worker computes for a session's next run is defined. *)
Lemma next_deadline_total s clock run :
  exists ts, (if bool_decide (argv_CBR s = ch_Y) then
                n ← add_mbps_interval_to_timespec run (argv_MBPS s) (argv_FRAG s);
                catch_up (argv_MBPS s) (argv_FRAG s) clock n
              else Ok {| tv_sec := tv_sec clock + KEEPALIVE_INTERVAL_SEC; tv_nsec := tv_nsec clock |}) = Ok ts.
Proof.
  case_bool_decide; [|by eexists]. unfold add_mbps_interval_to_timespec.
  match goal with |- context [carry ?t] => destruct (carry_total t) as [ts ->] end. apply catch_up_total.
Qed.

Lemma scheduler_turn_runs k w :
  world_ok w -> shards_small w -> queues_present w -> (k < 4)%nat ->
  runs (scheduler_turn k) w (fun r w' => world_ok w' /\
    match r with
    | Waiting | Early => w' = w
    | Ran task => timespec_compare (mono w) (next_run task) >= 0 /\
        exists pq, g_shards w !! k = Some (Some pq) /\ task ∈ TaskHeap.live pq /\ Forall (task_le task) (TaskHeap.live pq)
    end).
Proof.
  intros Hw Hsm Hqs Hk. destruct (ok_shards w Hw) as [Hl Hsh].
  destruct (lookup_lt_is_Some_2 (g_shards w) k) as [o Ho]; [lia|].
  destruct (proj1 (Forall_lookup _ _) Hsh k o Ho) as (pq & -> & Hpq).
  pose proof (proj1 (Forall_lookup _ _) Hsm k _ Ho pq eq_refl) as Hsz.
  destruct (pq_pop_ok pq Hpq) as (top & pq' & Hpop & Hpq' & _ & Hpeek & Htop).
  unfold scheduler_turn. rstep. rstep. rstep. rstep. rewrite Ho. rstep. rlift Hpeek.
  destruct top as [task|]; [|by rstep]. destruct Htop as [Hperm Hle].
  destruct (Z.ltb_spec (timespec_compare (mono w) (next_run task)) 0); [by rstep|].
  rstep. rlift Hpop. rstep. rstep. cbn [fst snd]. rstep.
  set (w1 := w <| g_shards ::= <[k := Some pq']> |>).
  assert (Hw1 : world_ok w1).
  { destruct Hw. constructor; try done. split; [by cbn; rewrite length_insert|]. cbn. apply Forall_insert; [done|]. eauto. }
  eapply runs_conseq; [apply execute_send_ok; [exact Hw1|exact Hqs]|]. cbv beta. intros sent w2 [Hw2 Hsh2].
  assert (Hmin : timespec_compare (mono w) (next_run task) >= 0 /\
    exists pq, g_shards w !! k = Some (Some pq) /\ task ∈ TaskHeap.live pq /\ Forall (task_le task) (TaskHeap.live pq)).
  { split; [lia|]. exists pq. split; [done|]. rewrite Hperm. split; [by left|]. by constructor. }
  unfold session_by_id. rstep. rstep. rstep.
  destruct (scan_id_total (TaskHeap.session_id task) (sessions w2)) as [[i|] Hsc]; rlift Hsc; [|rstep; split; [done|]; by rewrite Ho in Hmin].
  destruct (scan_id_found _ _ _ Hsc) as (s & Hi & _). rstep. eapply runs_session; [exact Hi|]. cbv beta.
  destruct (next_deadline_total s (mono w) (next_run task)) as [ts Hts]. rstep. rlift Hts. rstep.
  eapply runs_conseq; [apply shard_push_ok; [done| |done]|].
  { unfold shards_small. rewrite Hsh2. apply Forall_insert; [exact Hsm|]. intros ? [= <-].
    pose proof (size_pop pq task pq' Hpq Hpq' Hperm). lia. }
  cbv beta. intros [] w3 [Hw3 _]. rstep. split; [done|]. by rewrite Ho in Hmin.
Qed.

(** ** Maintenance *)

Lemma send_keepalive_ok i w s :
  world_ok w -> sessions w !! i = Some s ->
  runs (send_keepalive_to_client i) w (fun _ w' => seq_only i s w w').
Proof.
  intros Hw Hi. destruct (ok_sess w Hw i s Hi) as [Hslot _].
  unfold send_keepalive_to_client. rstep. eapply runs_session; [exact Hi|]. cbv beta zeta. rstep.
  eapply runs_next_seq; [exact Hi|].
  match goal with |- context [encrypt _ _ _ ?pt] => destruct (encrypt_ok (k_send s) (session_id s) (send_seq s) pt)
    as (ct & Hct & _ & _); [apply Hslot|rewrite length_tunnel_bytes by done; by vm_compute|] end.
  rstep. rlift Hct. rstep. apply runs_malloc. intros b bs _. destruct b; cbn [negb].
  - rstep. rstep. rstep. exists (u64 (send_seq s + 1)). eexists _, _, _. split; [apply u64_range|reflexivity].
  - rstep. exists (u64 (send_seq s + 1)), (trace w), (sends w), bs. split; [apply u64_range|]. by destruct w.
Qed.

Lemma keepalive_session_ok t i w :
  world_ok w -> (i < MAX_CLIENTS)%nat -> runs (keepalive_session t i) w (fun _ w' => world_ok w').
Proof.
  intros Hw Hi. destruct (lookup_lt_is_Some_2 (sessions w) i) as [s Hs]; [by rewrite (ok_len w Hw)|].
  unfold keepalive_session. rstep. eapply runs_session; [exact Hs|]. cbv beta.
  destruct (active s); cbn [negb]; [|by rstep]. destruct (_ <=? _); [|by rstep].
  rstep. eapply runs_conseq; [by apply send_keepalive_ok|]. cbv beta. intros [] w' Hsq.
  destruct (seq_only_ok i s w w' Hw Hs Hsq) as (Hw' & sq & Hs').
  eapply runs_update; [exact Hs'|]. cbv beta. apply (world_ok_update w' i _ _ Hw' Hs'); [|done].
  apply sess_ok_activity, sess_ok_keepalive. by eapply ok_sess.
Qed.

Lemma perform_maintenance_runs sock w :
  world_ok w -> runs (perform_maintenance sock) w (fun _ w' => world_ok w').
Proof.
  intros Hw. unfold perform_maintenance. rstep. eapply runs_conseq; [by apply cleanup_expired_sessions_ok|].
  intros [] w1 Hw1. cbv beta in Hw1 |- *. rstep. eapply runs_conseq; [by apply sweep_ok|].
  intros [] w2 Hw2. cbv beta in Hw2 |- *. rstep. rstep. apply runs_for; [done|].
  intros j w3 Hj Hw3. apply keepalive_session_ok; [done|lia].
Qed.

(** A session idle for too long, at time [t]. *)
Definition idle (t : Z) (s : session_t) : bool := active s && (SESSION_TIMEOUT_SEC <? t - last_activity s).

(** What expiry makes of a slot. *)
Definition expired (t : Z) (s s' : session_t) : Prop :=
  if idle t s then active s' = false /\ k_recv s' = zeros AEAD_KEY_LEN /\ k_send s' = zeros AEAD_KEY_LEN /\
                   session_id s' = zeros SESSION_ID_LEN
  else s' = s.

Lemma expire_session_spec sock i w s :
  world_ok w -> sessions w !! i = Some s ->
  runs (expire_session sock i) w (fun _ w' => world_ok w' /\ now w' = now w /\
    exists s', sessions w' = <[i := s']> (sessions w) /\ expired (now w) s s').
Proof.
  intros Hw Hs. unfold expire_session, expired, idle. rsteps. destruct (active s) eqn:Ha; cbn [negb andb].
  2:{ rstep. split; [done|]. split; [done|]. exists s. by rewrite list_insert_id. }
  destruct (SESSION_TIMEOUT_SEC <? now w - last_activity s).
  2:{ rstep. split; [done|]. split; [done|]. exists s. by rewrite list_insert_id. }
  rstep. eapply runs_conseq; [by apply send_control_packet_ok|]. intros [] w' Hsq.
  destruct (seq_only_ok i s w w' Hw Hs Hsq) as (Hw' & q & Hs'). destruct Hsq as (q' & t & bs & ms & _ & ->).
  rsteps. split; [|split; [done|]].
  - apply (world_ok_close _ i (s <| send_seq := q |>)); [done..| |done]. apply wipe_ok. by eapply ok_sess.
  - exists (wipe (s <| send_seq := q |>)). split; [apply list_insert_insert_eq|done].
Qed.

(** C37: expiry is exact: the sweep of the session table is defined, clears the keys
    and id of every session idle for more than the timeout and marks its slot
    free, and leaves every other slot untouched, whatever sends fail. *)
Theorem expiry_exact sock w :
  world_ok w ->
  exists w', cleanup_expired_sessions sock w = Ok (tt, w') /\ world_ok w' /\
    Forall2 (expired (now w)) (sessions w) (sessions w').
Proof.
  intros Hw. set (I := fun n w' => world_ok w' /\ now w' = now w /\ forall j s, sessions w !! j = Some s ->
    exists s', sessions w' !! j = Some s' /\ if decide (j < n)%nat then expired (now w) s s' else s' = s).
  destruct (runs_for_upto MAX_CLIENTS 0 (expire_session sock) w I) as ([] & w' & E & Hw' & Hn & Hall).
  - split; [done|]. split; [done|]. intros j s Hj. exists s. by rewrite decide_False by lia.
  - intros j w1 Hj (Hw1 & Hn1 & Hall). destruct (lookup_lt_is_Some_2 (sessions w) j) as [s Hs]; [rewrite (ok_len w Hw); lia|].
    destruct (Hall j s Hs) as (s1 & Hs1 & Hd). rewrite decide_False in Hd by lia. subst s1.
    eapply runs_conseq; [by apply (expire_session_spec sock j w1 s)|]. cbv beta.
    intros _ w2 (Hw2 & Hn2 & s' & Hss & Hexp). split; [done|]. split; [congruence|]. intros k t Hk.
    destruct (decide (k = j)) as [->|Hne].
    + assert (t = s) as -> by congruence. exists s'. rewrite Hss, decide_True by lia.
      split; [apply list_lookup_insert_eq; by eapply lookup_lt_Some|]. by rewrite <- Hn1.
    + destruct (Hall k t Hk) as (t' & Ht' & Hd). exists t'. rewrite Hss, list_lookup_insert_ne by done. split; [done|].
      destruct (decide (k < j)%nat), (decide (k < Datatypes.S j)%nat); try done; lia.
  - exists w'. split; [exact E|]. split; [done|]. apply Forall2_same_length_lookup_2.
    { by rewrite (ok_len w Hw), (ok_len w' Hw'). }
    intros j s s' Hs Hs'. destruct (Hall j s Hs) as (s1 & Hs1 & Hd). rewrite decide_True in Hd.
    + congruence.
    + apply lookup_lt_Some in Hs. rewrite (ok_len w Hw) in Hs. lia.
Qed.

Lemma periodic_work_runs sock w :
  world_ok w -> runs (periodic_work sock) w (fun _ w' => world_ok w').
Proof.
  intros Hw. unfold periodic_work. rstep. eapply runs_conseq; [by apply perform_maintenance_runs|].
  intros [] w1 Hw1. cbv beta in Hw1 |- *. rstep. rstep. rstep. rstep.
  destruct (ok_rl w1 Hw1) as [m Hm]. destruct (cleanup_refines (now w1) (rl w1) m Hm) as (r & Hr & _ & Hm').
  rstep. rlift Hr. rstep. rstep. rstep. rstep. rstep.
  apply (world_ok_gauge (w1 <| rl := r |>)); [by apply world_ok_rl; eauto|]. cbn.
  fold (live_count (sessions w1)). pose proof (live_count_le (sessions w1)). lia.
Qed.

(** ** The server as a transition system *)

(** What is asked of an input for the handler to be defined: a datagram that is
    not cut inside the data header and whose decryption an honest peer could have
    made; for a deadline, one of the four shards, and a queue for every session
    (its allocation by a key rotation may have failed). *)
Definition allowed (w : world) (i : input) : Prop :=
  match i with
  | Datagram _ _ _ buf _ _ =>
      (length buf < sizeof_proto_header \/ DATA_HEADER_LEN <= length buf)%nat /\ honest_packet w buf
  | Deadline k => (k < 4)%nat /\ queues_present w
  | Tunnel _ _ _ _ | Timer _ => True
  end.

(** What is asked of the environment: the size of a stack object, and heaps that
    have not outgrown an [int]. *)
Definition env_ok (v : env) (w : world) : Prop := length (e_junk v) = SESSION_ID_LEN /\ shards_small w.

Inductive step (w w' : world) : Prop :=
  | step_serve v i :
      env_ok v w -> allowed (enter v w) i -> serve i (enter v w) = Ok (tt, w') -> step w w'.

Lemma enter_ok v w : world_ok w -> length (e_junk v) = SESSION_ID_LEN -> world_ok (enter v w).
Proof. intros [] Hj. by constructor. Qed.

Lemma dispatch_ok buf :
  (length buf < sizeof_proto_header \/ DATA_HEADER_LEN <= length buf)%nat -> exists o, dispatch buf = Ok o.
Proof.
  intros H. unfold dispatch. case_decide; [eauto|]. destruct H as [|H]; [done|].
  unfold DATA_HEADER_LEN, sizeof_proto_header, SESSION_ID_LEN in *.
  assert (Hph : exists ph, read_proto buf = Ok ph).
  { unfold read_proto, buf_read. rewrite decide_True by lia.
    cbn [mbind outcome_bind]. destruct (byte_at_lt buf 4) as (? & _ & ->); [lia|].
    destruct (byte_at_lt buf 5) as (? & _ & ->); [lia|]. cbn. eauto. }
  destruct Hph as [ph ->]. cbn [mbind outcome_bind]. destruct (_ || _); [eauto|]. destruct (_ && _); [|eauto].
  destruct (byte_at_lt buf 6) as (b & _ & ->); [lia|]. cbn. eauto.
Qed.

(** A job in the pool's queues: an inbound one holds a whole data header. *)
Definition job_ok (job : job_t) : Prop :=
  match job with
  | JOB_TYPE_INBOUND_CRYPTO buf _ _ _ => (DATA_HEADER_LEN <= length buf)%nat
  | JOB_TYPE_OUTBOUND_CRYPTO _ _ => True
  | JOB_TYPE_SHUTDOWN => False
  end.

(** ... and decrypts to something an honest peer could have made. *)
Definition honest_job (w : world) (job : job_t) : Prop :=
  match job with JOB_TYPE_INBOUND_CRYPTO buf _ _ _ => honest_packet w buf | _ => True end.

(** The job submitted for a packet, and its shard key. *)
Definition submitted (r : option (Z * job_t)) (P : job_t -> Prop) : Prop :=
  match r with Some (key, job) => 0 <= key < 256 /\ P job | None => True end.

(** Nothing but the results of allocations has been used up. *)
Definition only_mallocs (w w' : world) : Prop := exists bs, w' = w <| mallocs := bs |>.

Lemma byte_at_range buf i b : byte_at buf i = Ok b -> 0 <= b < 256.
Proof. unfold byte_at. destruct (buf !! i); [|done]. intros [= <-]. apply b2z_range. Qed.

Lemma dispatch_key buf key : dispatch buf = Ok (Some key) -> (sizeof_proto_header <= length buf)%nat /\ 0 <= key < 256.
Proof.
  unfold dispatch. case_decide; [done|]. intros (ph & _ & H1)%bind_Ok. split; [lia|]. destruct (_ || _); [done|].
  destruct (_ && _); [|by injection H1 as <-]. apply bind_Ok in H1 as (b & Hb & [= <-]). by eapply byte_at_range.
Qed.

Lemma recv_inbound_runs sock buf src sk w :
  (length buf < sizeof_proto_header \/ DATA_HEADER_LEN <= length buf)%nat ->
  runs (recv_inbound sock buf src sk) w (fun r w' => only_mallocs w w' /\
    submitted r (fun job => job_ok job /\ job = JOB_TYPE_INBOUND_CRYPTO buf src sock sk)).
Proof.
  intros Hlen. destruct (dispatch_ok buf Hlen) as [o Ho]. unfold recv_inbound. rstep. rlift Ho.
  destruct o as [key|]; [|rstep; split; [exists (mallocs w); by destruct w|done]].
  destruct (dispatch_key _ _ Ho) as [Hshort Hkey]. rstep. apply runs_malloc. intros b bs _.
  destruct b; cbn [negb]; [|rstep; split; [by eexists|done]]. rstep. apply runs_malloc. intros b bs' _.
  destruct b; cbn [negb]; rstep; (split; [by exists bs'|]); [|done]. cbn [submitted job_ok]. split; [done|]. split; [lia|done].
Qed.

Lemma handle_outbound_tun_runs ip sock w :
  runs (handle_outbound_tun ip sock) w (fun r w' => only_mallocs w w' /\
    submitted r.2 (fun job => exists pk, ip = Some pk /\ job = JOB_TYPE_OUTBOUND_CRYPTO pk sock) /\
    (ip = None -> r.1 = 0)).
Proof.
  assert (Hw : only_mallocs w w) by (exists (mallocs w); by destruct w).
  unfold handle_outbound_tun. destruct ip as [ip|]; [|by rstep]. case_decide; [by rstep|].
  unfold session_by_vpnip. rstep. rstep. rstep. rstep. destruct (first_index _ _); [|by rstep]. rstep. apply runs_malloc. intros b bs _.
  destruct b; cbn [negb]; [|rstep; split; [by eexists|done]]. rstep. apply runs_malloc. intros b bs' _.
  destruct b; cbn [negb]; [|rstep; split; [by exists bs'|done]].
  destruct (byte_at_lt ip 19) as (key & _ & Hkey); [lia|]. rstep. rlift Hkey. rstep. split; [by exists bs'|].
  split; [|done]. cbn. split; [by eapply byte_at_range|]. eauto.
Qed.

Lemma run_job_runs e e' job w :
  world_ok w -> shards_small w -> job_ok job -> honest_job w job -> runs (run_job e e' job) w (fun _ w' => world_ok w').
Proof.
  intros Hw Hsm Hj Hh. destruct job as [buf src sock sk|buf sock|]; cbn in *; [|by apply handle_outbound_runs|done].
  apply handle_inbound_runs; auto.
Qed.

Lemma serve_runs v i w :
  world_ok w -> env_ok v w -> allowed (enter v w) i -> runs (serve i) (enter v w) (fun _ w' => world_ok w').
Proof.
  intros Hw [Hj Hsm] Hal. pose proof (enter_ok v w Hw Hj) as Hw1.
  destruct i as [e e' sock buf src sk|e e' sock ip|k|sock]; cbn [serve].
  - destruct Hal as [Hlen Hh]. rstep. eapply runs_conseq; [by apply recv_inbound_runs|]. cbv beta.
    intros [[key job]|] w' [[bs ->] Hsub]; [|rstep; by apply world_ok_alloc]. destruct Hsub as (_ & Hjob & ->).
    apply run_job_runs; [by apply world_ok_alloc|done..].
  - rstep. eapply runs_conseq; [apply handle_outbound_tun_runs|]. cbv beta.
    intros [rc [[key job]|]] w' ([bs ->] & Hsub & _); cbn [snd]; [|rstep; by apply world_ok_alloc].
    destruct Hsub as (_ & pk & _ & ->). apply handle_outbound_runs. by apply world_ok_alloc.
  - destruct Hal as [Hk Hq]. rstep. eapply runs_conseq; [by apply scheduler_turn_runs|].
    cbv beta. intros t w' [Hw' _]. by rstep.
  - by apply periodic_work_runs.
Qed.

Lemma boot_ok t sk junk : length junk = SESSION_ID_LEN -> world_ok (boot t sk junk) /\ shards_small (boot t sk junk).
Proof.
  intros Hj. split; [constructor|].
  - apply length_replicate.
  - intros i s Hi. apply lookup_replicate in Hi as [-> _]. apply session_zero_ok.
  - exists ∅. apply started_rep.
  - by vm_compute.
  - split; [done|]. repeat constructor; eexists; (split; [reflexivity|]); eapply (pq_create_wf 1024); by vm_compute.
  - split; [done|]. cbn. apply live_count_le.
  - done.
  - done.
  - repeat constructor; intros ? [= <-]; by vm_compute.
Qed.

(** The server never reaches undefined behaviour: from its initial state, by
    any sequence of datagrams, tunnel packets, deadlines and timer ticks that are
    allowed, with any clock readings and any allocations and sends failing, every
    reached state is well-formed, and every further allowed input is served to
    completion. *)
Theorem server_safe t sk junk w :
  length junk = SESSION_ID_LEN -> rtc step (boot t sk junk) w ->
  world_ok w /\
  forall v i, env_ok v w -> allowed (enter v w) i -> exists w', serve i (enter v w) = Ok (tt, w') /\ step w w'.
Proof.
  intros Hj Hr. assert (Hw : world_ok w).
  { destruct (boot_ok t sk junk Hj) as [Hb _]. induction Hr as [|w1 w2 w3 [v i Hv Ha E] _ IH]; [done|]. apply IH.
    destruct (serve_runs v i w1 Hb Hv Ha) as ([] & w' & E' & Hw'). congruence. }
  split; [done|]. intros v i Hv Ha. destruct (serve_runs v i w Hw Hv Ha) as ([] & w' & E & _).
  exists w'. split; [done|]. by econstructor.
Qed.

(** The packets of one session go to one worker: every data packet of a session
    id gets that id's first byte as its shard key, and every packet from the
    tunnel for a session the last byte of the session's VPN address. *)
Theorem packets_keep_worker :
  (forall sid sq ct, length sid = SESSION_ID_LEN -> in_u64 sq ->
     exists b, sid !! 0%nat = Some b /\ dispatch (data_packet sid sq ct) = Ok (Some (b2z b))) /\
  (forall w i s ip sock r w', sessions w !! i = Some s -> vpn_ip s = ip_of i ->
     take 4 (drop 16 ip) = vpn_ip s -> handle_outbound_tun (Some ip) sock w = Ok (r, w') ->
     match r.2 with
     | None => True
     | Some (key, job) => key = u8 (2 + Z.of_nat i) /\ job = JOB_TYPE_OUTBOUND_CRYPTO ip sock
     end).
Proof.
  split; [intros; by apply dispatch_data|]. intros w i s ip sock r w' Hi Hip Hdst. rewrite Hip in Hdst.
  assert (Hkey : byte_at ip 19 = Ok (u8 (2 + Z.of_nat i))).
  { unfold byte_at. assert (H19 : take 4 (drop 16 ip) !! 3%nat = Some (z2b (u8 (2 + Z.of_nat i)))) by (by rewrite Hdst).
    rewrite lookup_take_Some, lookup_drop in H19. destruct H19 as [H19 _]. cbn in H19. rewrite H19, b2z_z2b.
    f_equal. unfold u8. by rewrite Z.mod_mod. }
  unfold handle_outbound_tun. case_decide; [by intros [= <- <-]|].
  unfold session_by_vpnip, mbind, ST_bind, get, mret, ST_ret, malloc, lift.
  destruct (first_index _ _); [|by intros [= <- <-]].
  destruct (mallocs w) as [|[] bs]; cbn [negb]; [| |by intros [= <- <-]].
  - destruct (mallocs w) as [|[] ?]; rewrite ?Hkey; cbn [negb]; intros [= <- <-]; done.
  - cbn [mallocs set]. destruct bs as [|[] ?]; rewrite ?Hkey; cbn [negb]; intros [= <- <-]; done.
Qed.

(** C24: a turn of a shard's worker, in every well-formed state with queues in
    place, is defined and keeps the state well-formed; it runs a task only when
    the task's deadline has passed and no task of the shard is due earlier, and
    otherwise changes nothing. *)
Theorem scheduler_turn_correct k w :
  world_ok w -> shards_small w -> queues_present w -> (k < 4)%nat ->
  exists r w', scheduler_turn k w = Ok (r, w') /\ world_ok w' /\
    match r with
    | Waiting | Early => w' = w
    | Ran task => timespec_compare (mono w) (next_run task) >= 0 /\
        exists pq, g_shards w !! k = Some (Some pq) /\ task ∈ TaskHeap.live pq /\ Forall (task_le task) (TaskHeap.live pq)
    end.
Proof. apply scheduler_turn_runs. Qed.

End safety.
