(* ===== verification/Shutdown.v ===== *)
(** Graceful shutdown: chamlon_server/src/graceful_shutdown.c. *)

From stdpp Require Import list gmap.
From S2P Require Import Prelude State ReplayWindow OutQueue TaskHeap RateLimiter Metrics Crypto Wire Fragment Server Handshake.
From S2P Require Import ServerLogic HandshakeProofs DataPath Safety.
Local Open Scope Z_scope.

Inductive shutdown_state_t :=
  SHUTDOWN_IDLE | SHUTDOWN_INITIATED | SHUTDOWN_DRAINING | SHUTDOWN_FORCE_TIMEOUT | SHUTDOWN_COMPLETE.
#[global] Instance shutdown_state_eq_dec : EqDecision shutdown_state_t.
Proof. solve_decision. Defined.

Record graceful_shutdown_t := {
  state : shutdown_state_t;
  shutdown_started : Z;
  shutdown_timeout_sec : Z;
  session_disconnect_count : Z;
  session_closed_count : Z;
}.
#[global] Instance eta_shutdown : Settable graceful_shutdown_t := fun g =>
  {| state := state g; shutdown_started := shutdown_started g; shutdown_timeout_sec := shutdown_timeout_sec g;
     session_disconnect_count := session_disconnect_count g; session_closed_count := session_closed_count g |}.

Definition CONFIG_GRACEFUL_SHUTDOWN_TIMEOUT_SEC : Z := 10.

Definition graceful_shutdown_init (timeout_sec : Z) : graceful_shutdown_t :=
  {| state := SHUTDOWN_IDLE; shutdown_started := 0;
     shutdown_timeout_sec := if 0 <? timeout_sec then timeout_sec else CONFIG_GRACEFUL_SHUTDOWN_TIMEOUT_SEC;
     session_disconnect_count := 0; session_closed_count := 0 |}.

Definition graceful_shutdown_initiate (now : Z) (g : graceful_shutdown_t) : graceful_shutdown_t :=
  if bool_decide (state g = SHUTDOWN_IDLE) then g <| state := SHUTDOWN_INITIATED |> <| shutdown_started := now |> else g.

Definition graceful_shutdown_should_continue (g : graceful_shutdown_t) : bool := bool_decide (state g = SHUTDOWN_IDLE).

(** The result says whether the timeout has been exceeded. *)
Definition graceful_shutdown_timeout_exceeded (now : Z) (g : graceful_shutdown_t) : bool * graceful_shutdown_t :=
  if shutdown_started g =? 0 then (false, g)
  else if shutdown_timeout_sec g <? now - shutdown_started g then
    (true, if bool_decide (state g = SHUTDOWN_FORCE_TIMEOUT) then g else g <| state := SHUTDOWN_FORCE_TIMEOUT |>)
  else (false, g).

Section shutdown.
Context `{Sod : Sodium}.

(** The loop over the session table, from slot [i], with the count so far. *)
Fixpoint notify_sessions (udp_sock : Z) (i n : nat) (count : Z) : M Z :=
  match n with
  | O => mret count
  | S n =>
      s ← session i;
      if active s then
        _ ← send_control_packet udp_sock i PKT_CTRL_DISCONNECT;
        notify_sessions udp_sock (S i) n (count + 1)
      else notify_sessions udp_sock (S i) n count
  end.

Definition graceful_shutdown_drain_sessions (udp_sock : Z) (g : graceful_shutdown_t) : M (Z * graceful_shutdown_t) :=
  let g := if negb (bool_decide (state g = SHUTDOWN_DRAINING)) && negb (bool_decide (state g = SHUTDOWN_INITIATED))
           then g <| state := SHUTDOWN_DRAINING |> else g in
  n ← notify_sessions udp_sock 0 MAX_CLIENTS 0;
  mret (n, g <| session_disconnect_count := n |>).

(** The result lists the descriptors closed. *)
Definition graceful_shutdown_cleanup (udp_sock tun_fd : Z) (g : graceful_shutdown_t) : M (list Z * graceful_shutdown_t) :=
  ss ← get sessions;
  let still_active := length (List.filter active ss) in
  _ ← when (bool_decide (0 < still_active)%nat)
        (for_from 0 MAX_CLIENTS (fun i => s ← session i; if active s then free_session i else mret tt));
  mret ((if 0 <=? tun_fd then [tun_fd] else []) ++ (if 0 <=? udp_sock then [udp_sock] else []),
        g <| state := SHUTDOWN_COMPLETE |>).

Context `{!SodiumLaws Sod}.

(** ** Draining *)

(** [ev] is a control packet of type [ctrl] for session [s]. *)
Definition control_event (sock ctrl : Z) (s : session_t) (ev : event) : Prop :=
  exists pt, ev = UdpSend sock (client_addr s) (sealed s pt (send_seq s)) /\ u16_at pt 6 = Ok ctrl.

(** A control packet is sent, sealed under the session's key, and decrypts to its
    control type. *)
Lemma send_control_spec sock i ctrl w s :
  world_ok w -> sessions w !! i = Some s -> active s = true -> in_u16 ctrl -> sends w = [] ->
  runs (send_control_packet sock i ctrl) w (fun _ w' => seq_only i s w w' /\ sends w' = [] /\
    exists ev, control_event sock ctrl s ev /\ trace w' = trace w ++ [ev]).
Proof.
  intros Hw Hi Ha Hctrl Hsd. destruct (ok_sess w Hw i s Hi) as [Hslot Hlive]. destruct (Hlive Ha) as [_ Hp _ _ _].
  pose proof (ok_frag s Hp) as Hf. pose proof (frag_size_ok s Hp) as Hfs. pose proof (ok_junk w Hw) as Hj.
  unfold CONFIG_MIN_FRAG_PARAM, CONFIG_MAX_FRAG_PARAM in *.
  unfold send_control_packet. rsteps. rewrite Ha. cbn [negb]. rewrite Hfs.
  destruct (Z.ltb_spec MAX_FRAG (argv_FRAG s)); [unfold MAX_FRAG in *; lia|].
  destruct (Z.ltb_spec (argv_FRAG s) 64); [lia|]. cbn [orb].
  rstep. eapply runs_next_seq; [done|]. rsteps. change (stack_junk (set sessions _ _)) with (stack_junk w).
  set (th := {| packet_id := 1; fragment_offset := 1; total_ip_len := 1; flags := ctrl; th_session_id := stack_junk w |}).
  set (buf2 := tunnel_bytes th ++ _).
  assert (Hlen : length buf2 = Z.to_nat (argv_FRAG s)).
  { subst buf2. rewrite length_app, length_replicate, length_tunnel_bytes by done. unfold sizeof_tunnel_header. lia. }
  assert (Hflag : u16_at buf2 6 = Ok ctrl).
  { subst buf2. destruct (tunnel_fields th (replicate (Z.to_nat (argv_FRAG s) - sizeof_tunnel_header) (z2b 119))) as (_ & _ & _ & E);
      [by constructor|]. exact E. }
  destruct (encrypt_ok (k_send s) (session_id s) (send_seq s) buf2) as (ct & Hct & _ & Hctl);
    [apply Hslot|unfold BUFFER_SIZE, MAC_LEN; lia|].
  rlift Hct. unfold MAC_LEN in Hctl.
  destruct (Z.ltb_spec BUFFER_SIZE (Z.of_nat (DATA_HEADER_LEN + length ct))).
  { unfold BUFFER_SIZE, DATA_HEADER_LEN, sizeof_proto_header, SESSION_ID_LEN in *. lia. }
  rsteps. destruct (H2 Hsd) as [-> ->]. split; [apply seq_only_intro, u64_range|]. split; [done|].
  eexists. split; [|reflexivity]. exists buf2. split; [|done]. f_equal. unfold seal. unfold encrypt in Hct.
  destruct (aead_encrypt _ _ _ _); [|done]. case_match; by simplify_eq.
Qed.

Lemma notify_ok sock n : forall i count w,
  world_ok w -> (i + n = MAX_CLIENTS)%nat -> sends w = [] ->
  runs (notify_sessions sock i n count) w (fun c w' => world_ok w' /\ exists evs,
    trace w' = trace w ++ evs /\ c = count + Z.of_nat (length evs) /\
    Forall2 (control_event sock PKT_CTRL_DISCONNECT) (List.filter active (drop i (sessions w))) evs).
Proof.
  induction n as [|n IH]; intros i count w Hw Hn Hsd; cbn [notify_sessions].
  { rstep. split; [done|]. exists []. rewrite app_nil_r, drop_ge by (rewrite (ok_len w Hw); lia). cbn.
    split; [done|]. split; [lia|constructor]. }
  destruct (lookup_lt_is_Some_2 (sessions w) i) as [s Hs]; [rewrite (ok_len w Hw); lia|].
  rstep. eapply runs_session; [exact Hs|]. cbv beta. rewrite (drop_S _ _ _ Hs). cbn [List.filter].
  destruct (active s) eqn:Ha; [|apply IH; [done|lia|done]].
  rstep. eapply runs_conseq; [by apply send_control_spec|]. cbv beta. intros _ w1 (Hsq & Hsd1 & ev & Hev & Ht).
  destruct (seq_only_ok i s w w1 Hw Hs Hsq) as [Hw1 _].
  eapply runs_conseq; [apply IH; [done|lia|done]|]. cbv beta. intros c w2 (Hw2 & evs & Ht2 & -> & Hf).
  split; [done|]. exists (ev :: evs). rewrite Ht2, Ht, <- app_assoc. split; [done|]. split; [cbn [length]; lia|].
  constructor; [done|]. destruct Hsq as (q & t & bs & ms & _ & ->). cbn in Hf. by rewrite drop_insert_lt in Hf by lia.
Qed.

(** Draining keeps the state well-formed whatever sends fail. *)
Lemma notify_runs sock n : forall i count w,
  world_ok w -> (i + n = MAX_CLIENTS)%nat -> runs (notify_sessions sock i n count) w (fun _ w' => world_ok w').
Proof.
  induction n as [|n IH]; intros i count w Hw Hn; cbn [notify_sessions]; [by rstep|].
  destruct (lookup_lt_is_Some_2 (sessions w) i) as [s Hs]; [rewrite (ok_len w Hw); lia|].
  rstep. eapply runs_session; [exact Hs|]. cbv beta. destruct (active s) eqn:Ha; [|apply IH; [done|lia]].
  rstep. eapply runs_conseq; [by apply send_control_packet_ok|]. cbv beta. intros _ w' Hsq. apply IH; [|lia].
  by eapply seq_only_ok.
Qed.

Lemma drain_runs sock g w :
  world_ok w -> runs (graceful_shutdown_drain_sessions sock g) w (fun _ w' => world_ok w').
Proof.
  intros Hw. unfold graceful_shutdown_drain_sessions. rstep. eapply runs_conseq; [by apply notify_runs|]. cbv beta.
  intros c w' Hw'. by rstep.
Qed.

(** C38: draining tells every client: when sends succeed, one DISCONNECT packet goes to each session in
    use, in table order, sealed under its key, and nothing else is sent; the count
    returned and recorded is the number of sessions in use. *)
Theorem drain_notifies_all sock g w :
  world_ok w -> sends w = [] ->
  exists n g' w' evs, graceful_shutdown_drain_sessions sock g w = Ok ((n, g'), w') /\ world_ok w' /\
    trace w' = trace w ++ evs /\
    Forall2 (control_event sock PKT_CTRL_DISCONNECT) (List.filter active (sessions w)) evs /\
    n = live_count (sessions w) /\ session_disconnect_count g' = n.
Proof.
  intros Hw Hsd. destruct (notify_ok sock MAX_CLIENTS 0 0 w Hw eq_refl Hsd) as (c & w' & E & Hw' & evs & Ht & Hc & Hf).
  unfold graceful_shutdown_drain_sessions, mbind, ST_bind. rewrite E. eexists _, _, _, evs. split; [reflexivity|].
  split; [done|]. split; [done|]. split; [done|]. split; [|done].
  rewrite Hc. unfold live_count. rewrite drop_0 in Hf. by rewrite (Forall2_length _ _ _ Hf).
Qed.

(** ** Clean-up *)

Lemma free_session_trace i w s : metrics_lock w = true -> sessions w !! i = Some s -> runs (free_session i) w (fun _ w' => trace w' = trace w).
Proof. intros Hl Hi. unfold free_session. rsteps. destruct (active s); cbn [negb]; rsteps; done. Qed.

(** The descriptors the clean-up closes. *)
Definition to_close (sock tun : Z) : list Z := (if 0 <=? tun then [tun] else []) ++ (if 0 <=? sock then [sock] else []).

Lemma cleanup_runs sock tun g w :
  world_ok w ->
  runs (graceful_shutdown_cleanup sock tun g) w (fun r w' =>
    r = (to_close sock tun, g <| state := SHUTDOWN_COMPLETE |>) /\ world_ok w' /\ trace w' = trace w /\
    Forall (fun s => active s = false) (sessions w')).
Proof.
  intros Hw. unfold graceful_shutdown_cleanup. rstep. rstep. rstep.
  case_bool_decide as Hlive; cbn [when].
  2:{ rstep. rstep. split; [done|]. split; [done|]. split; [done|]. apply Forall_forall. intros s Hin. destruct (active s) eqn:Ha; [|done].
      assert (In s (List.filter active (sessions w))) by (apply filter_In; by rewrite <- list_elem_of_In).
      destruct (List.filter active (sessions w)); cbn in *; [done|lia]. }
  eapply runs_conseq; [apply (runs_for_upto MAX_CLIENTS 0 _ w (fun n w' => world_ok w' /\ trace w' = trace w /\
    forall j s, (j < n)%nat -> sessions w' !! j = Some s -> active s = false))|].
  - split; [done|]. split; [done|]. intros. lia.
  - intros j w1 Hj (Hw1 & Ht1 & Hall). destruct (lookup_lt_is_Some_2 (sessions w1) j) as [s Hsj]; [rewrite (ok_len w1 Hw1); lia|].
    rstep. eapply runs_session; [exact Hsj|]. cbv beta. destruct (active s) eqn:Ha.
    + eapply runs_conseq; [by apply runs_and; [eapply free_session_ok|eapply free_session_trace; [apply Hw1|]]|]. cbv beta.
      intros _ w2 [(Hw2 & s' & Hss & Ha') Ht2]. split; [done|]. split; [congruence|]. intros k t Hk. rewrite Hss. destruct (decide (k = j)) as [->|Hne].
      * rewrite list_lookup_insert_eq by (by eapply lookup_lt_Some). congruence.
      * rewrite list_lookup_insert_ne by done. apply Hall. lia.
    + rstep. split; [done|]. split; [done|]. intros k t Hk Ht'. destruct (decide (k = j)) as [->|Hne]; [congruence|].
      apply (Hall k t); [lia|done].
  - cbv beta. intros _ w' (Hw' & Ht' & Hall). rstep. split; [done|]. split; [done|]. split; [done|]. apply Forall_lookup. intros k s Hk.
    apply (Hall k s); [|done]. apply lookup_lt_Some in Hk. rewrite (ok_len w' Hw') in Hk. done.
Qed.

(** With no session in use it only closes. *)
Lemma cleanup_idle sock tun g w :
  Forall (fun s => active s = false) (sessions w) ->
  graceful_shutdown_cleanup sock tun g w = Ok ((to_close sock tun, g <| state := SHUTDOWN_COMPLETE |>), w).
Proof.
  intros Hidle. assert (Hnil : List.filter active (sessions w) = []).
  { induction Hidle as [|s ss Hs _ IH]; [done|]. cbn. by rewrite Hs. }
  unfold graceful_shutdown_cleanup, mbind, ST_bind, get. by rewrite Hnil.
Qed.

(** Closing a session needs the metrics' mutex. *)
Lemma close_destroyed n : forall i w,
  metrics_lock w = false -> (length (sessions w) <= i + n)%nat ->
  (exists j s, (i <= j)%nat /\ sessions w !! j = Some s /\ active s = true) ->
  for_from i n (fun i => s ← session i; if active s then free_session i else mret tt) w = Err DestroyedMutex.
Proof.
  induction n as [|n IH]; intros i w Hl Hn (j & s & Hj & Hs & Ha); pose proof (lookup_lt_Some _ _ _ Hs); [lia|].
  cbn [for_from]. unfold mbind at 1, ST_bind at 1, mbind at 1, ST_bind at 1, session at 1.
  destruct (lookup_lt_is_Some_2 (sessions w) i) as [t Ht]; [lia|]. rewrite Ht. destruct (active t) eqn:Hat.
  - unfold free_session, metric, lock_metrics, mbind, ST_bind, session. rewrite Ht, Hat. cbn [negb]. by rewrite Hl.
  - apply IH; [done|lia|]. exists j, s. split; [|done]. destruct (decide (i = j)) as [->|]; [congruence|lia].
Qed.

Lemma cleanup_destroyed sock tun g w :
  length (sessions w) = MAX_CLIENTS -> metrics_lock w = false -> ~ Forall (fun s => active s = false) (sessions w) ->
  graceful_shutdown_cleanup sock tun g w = Err DestroyedMutex.
Proof.
  intros Hlen Hl Hact. apply not_Forall_Exists, Exists_exists in Hact as (s & Hin & Ha%not_false_is_true); [|apply _].
  apply list_elem_of_lookup in Hin as [j Hj].
  assert (E := close_destroyed MAX_CLIENTS 0 w Hl ltac:(lia) ltac:(exists j, s; by split; [lia|])).
  unfold graceful_shutdown_cleanup, mbind, ST_bind, get in *. rewrite bool_decide_true.
  - cbn [when]. by rewrite E.
  - pose proof (live_count_pos _ _ _ Hj Ha) as Hc. unfold live_count in Hc. lia.
Qed.

(** The clean-up itself, while the metrics exist, leaves no session in use, closes both
    descriptors, and ends in the final state. *)
Theorem cleanup_closes_all sock tun g w :
  world_ok w -> 0 <= sock -> 0 <= tun ->
  exists g' w', graceful_shutdown_cleanup sock tun g w = Ok (([tun; sock], g'), w') /\ world_ok w' /\
    state g' = SHUTDOWN_COMPLETE /\ Forall (fun s => active s = false) (sessions w').
Proof.
  intros Hw Hs Ht. destruct (cleanup_runs sock tun g w Hw) as (r & w' & E & -> & Hw' & _ & Hall).
  unfold to_close in E. rewrite (proj2 (Z.leb_le 0 tun) Ht), (proj2 (Z.leb_le 0 sock) Hs) in E. eauto 10.
Qed.

End shutdown.

(** The timeout counts from [graceful_shutdown_initiate]; draining alone does not
    start it, so a drain that was not initiated never times out. *)
Theorem drain_never_times_out timeout now g :
  g = graceful_shutdown_init timeout <| state := SHUTDOWN_DRAINING |> ->
  graceful_shutdown_timeout_exceeded now g = (false, g).
Proof. by intros ->. Qed.
