(* ===== verification/ServerMain.v ===== *)
(** The server's program: main of chamlon_server/src/vpn_server.c and the commands of
    chamlon_server/src/vpn_tun.c.

    Start-up runs on the state [host] and takes the results of its system calls as a
    record.  The running program is the state [program]: the server's state, the
    thread pool with its heap of job nodes, the shutdown manager, and main's own
    variables.  Its steps are those of main, of the pool's workers and of the
    scheduler's; main's step is an iteration of the event loop or of the drain loop,
    with what [epoll_wait] and the reads return as its input. *)

From Stdlib Require Import Strings.String.
From stdpp Require Import list gmap.
From S2P Require Import Prelude State LinkedQueue OutQueue TaskHeap RateLimiter Metrics Crypto Wire Text Fragment Report.
From S2P Require Import Server Handshake Scheduler ThreadPool EventLoop.
From S2P Require ServerKey Shutdown.
Local Open Scope Z_scope.

Definition MAX_BURST : nat := 64.
Definition IFNAMSIZ : nat := 16.
Definition MAX_CIDR_LEN : nat := 64.
Definition CMD_LEN : nat := 256.


(** ** Start-up *)

(** The state of start-up: the key file and the signing key, the exit statuses of the
    commands to come (0 once used up), what was run and closed, and what was printed
    on standard output. *)
Record host := {
  keys : ServerKey.key_world;
  statuses : list Z;
  log : list event;
  printed : list byte;
}.
#[global] Instance eta_host : Settable host := fun h =>
  {| keys := keys h; statuses := statuses h; log := log h; printed := printed h |}.

Definition note (e : event) : ST host unit := modify (fun h => h <| log ::= (fun l => l ++ [e]) |>).
Definition print (s : list byte) : ST host unit := modify (fun h => h <| printed ::= (fun l => l ++ s) |>).

Definition on_keys {A} (m : ST ServerKey.key_world A) : ST host A := fun h =>
  match m (keys h) with Ok (a, w) => Ok (a, h <| keys := w |>) | Err e => Err e end.

(** [system(cmd)] *)
Definition system (cmd : list byte) : ST host Z :=
  _ ← note (System cmd);
  st ← get statuses;
  _ ← modify (fun h => h <| statuses ::= (fun l => List.tl l) |>);
  mret (default 0 (hd_error st)).

(** *** vpn_tun.c *)

Definition setup_ip_forward (sw : Z) : ST host Z :=
  if sw =? 1 then st ← system (bytes "sysctl -w net.ipv4.ip_forward=1"); mret (if st =? 0 then 0 else -1)
  else if sw =? 0 then st ← system (bytes "sysctl -w net.ipv4.ip_forward=0"); mret (if st =? 0 then 0 else -1)
  else mret (-2).

(** [route] is what the [ip route] pipe prints, [None] when it cannot be opened. *)
Definition setup_nat (route : option (list byte)) : ST host Z :=
  match route ≫= fgets 64 with
  | None => mret (-1)
  | Some line =>
      let iface := cut_newline line in
      st ← system (snprintf CMD_LEN (bytes "iptables -t nat -A POSTROUTING -s 10.10.0.0/24 -o " ++ iface ++
                                     bytes " -j MASQUERADE"));
      if negb (st =? 0) then mret (-1)
      else _ ← print (bytes "[NAT] Masquerade rule set on interface: " ++ iface ++ [ch_newline]); mret 0
  end.

(** [opened] is the descriptor of /dev/net/tun and [named] the name the kernel gives
    the device.  [None] when the process exits. *)
Definition tun_alloc (opened : option Z) (named : option (list byte)) : ST host (option (Z * list byte)) :=
  match opened with
  | None => mret None
  | Some fd =>
      match named with
      | None => _ ← note (Close fd); mret None
      | Some name => mret (Some (fd, snprintf IFNAMSIZ name))
      end
  end.

(** [None] is the null pointer. *)
Definition setup_interface (ifname ip_cidr : option (list byte)) : ST host unit :=
  match ifname, ip_cidr with
  | Some ifname, Some ip_cidr =>
      if decide (IFNAMSIZ <= length ifname)%nat then mret tt
      else if decide (MAX_CIDR_LEN <= length ip_cidr)%nat then mret tt
      else
        let cmd := bytes "ip addr add " ++ ip_cidr ++ bytes " dev " ++ ifname in
        if decide (CMD_LEN <= length cmd)%nat then mret tt
        else
          _ ← system cmd;
          let cmd := bytes "ip link set " ++ ifname ++ bytes " up" in
          if decide (CMD_LEN <= length cmd)%nat then mret tt
          else _ ← system cmd; mret tt
  | _, _ => mret tt
  end.

(** *** main, up to the event loop *)

(** The port, if the second argument is one. *)
Definition parse_port (s : list byte) : option Z :=
  let '(v, rest, range) := strtol s in
  if range || negb (is_empty rest) || (v <? 1) || (65535 <? v) then None else Some (u16 v).

(** What the operator copies to the clients. *)
Definition key_banner (sign_pk : list byte) : list byte :=
  bytes "=== SERVER PUBLIC KEY (pass this to clients) ===" ++ [ch_newline] ++ concat (hex2 <$> sign_pk) ++
  [ch_newline] ++ bytes "================================================" ++ [ch_newline].

(** What the calls of start-up return; [cpus] is [sysconf(_SC_NPROCESSORS_ONLN)], and
    [shard_starts] the allocations and threads of the scheduler's shards; [time_zone]
    writes a time as [strftime] does in the local time zone. *)
Record replies := {
  sodium_init : Z;
  limiter_alloc : bool;
  mutex_init : bool;
  default_route : option (list byte);
  tun_opened : option Z;
  tun_named : option (list byte);
  key_pair : option (list byte * list byte);
  socket : Z;
  reuse_addr : bool;
  bind : bool;
  cpus : Z;
  pool_allocs : bool * bool * bool;
  pool_threads : list bool;
  epoll_create : Z;
  add_udp : bool;
  add_tun : bool;
  shard_starts : list (bool * bool * bool);
  time_zone : Z -> list byte;
}.

Inductive phase_t :=
  | Looping
  | Draining (drain_start outstanding : Z)
  | Joining
  | Finished.

#[global] Instance phase_eq_dec : EqDecision phase_t.
Proof. solve_decision. Defined.

(** [exited] holds the workers that have returned. *)
Record program := {
  server : world;
  job_nodes : job_heap;
  g_thread_pool : option thread_pool_t;
  g_shutdown : Shutdown.graceful_shutdown_t;
  g_server_sk : list byte;
  bind_addr : sockaddr_in;
  udp_sock : Z;
  tun_fd : Z;
  epoll_fd : Z;
  last_cleanup : Z;
  last_metric_report : Z;
  phase : phase_t;
  exited : list nat;
  local_time : Z -> list byte;
}.
#[global] Instance eta_program : Settable program := fun p =>
  {| server := server p; job_nodes := job_nodes p; g_thread_pool := g_thread_pool p; g_shutdown := g_shutdown p;
     g_server_sk := g_server_sk p; bind_addr := bind_addr p; udp_sock := udp_sock p; tun_fd := tun_fd p;
     epoll_fd := epoll_fd p; last_cleanup := last_cleanup p; last_metric_report := last_metric_report p;
     phase := phase p; exited := exited p; local_time := local_time p |}.

Section start.
Context `{Sod : Sodium} (inet_aton : list byte -> option Z).

(** What the socket's part of start-up leaves to the next: the socket. *)
Definition open_socket (r : replies) : ST host (option Z) :=
  let sock := socket r in
  if sock <? 0 then mret None
  else if negb (reuse_addr r) then _ ← note (Close sock); mret None
  else if negb (bind r) then mret None
  else mret (Some sock).

(** The pool and the epoll instance. *)
Definition open_pool (r : replies) : option (thread_pool_t * Z) :=
  let ncpus := if cpus r <? 2 then 2 else cpus r in
  let '(pool_ok, threads_ok, shards_ok) := pool_allocs r in
  match thread_pool_create ncpus pool_ok threads_ok shards_ok (pool_threads r) with
  | None => None
  | Some pool =>
      if epoll_create r =? -1 then None
      else if negb (add_udp r) || negb (add_tun r) then None
      else Some (pool, epoll_create r)
  end.

(** [main] up to the event loop, at time [t]: its exit status when it gives up, or the
    program that enters the loop. *)
Definition server_main (argv : list (list byte)) (r : replies) (t : Z) (junk : list byte) : ST host (Z + program) :=
  match argv with
  | [_; ip; port] =>
      match inet_aton ip, parse_port port with
      | Some addr, Some port =>
          if (sodium_init r <? 0) || negb (limiter_alloc r) || negb (mutex_init r) then mret (inl 1)
          else
            rc ← setup_ip_forward 1;
            if rc <? 0 then mret (inl (-1))
            else
              rc ← setup_nat (default_route r);
              if rc <? 0 then mret (inl (-1))
              else
                tun ← tun_alloc (tun_opened r) (tun_named r);
                match tun with
                | None => mret (inl 1)
                | Some (tun_fd, tun_name) =>
                    _ ← setup_interface (Some tun_name) (Some (bytes "10.10.0.1/24"));
                    k ← on_keys (ServerKey.load_or_create_server_key (key_pair r));
                    match k with
                    | None => mret (inl 1)
                    | Some k =>
                        _ ← print (key_banner (ServerKey.sign_pk k));
                        sock ← open_socket r;
                        match sock, open_pool r with
                        | Some sock, Some (pool, epfd) =>
                            sign_sk ← get (fun h => ServerKey.g_sign_sk (keys h));
                            mret (inr {|
                              server := boot t (default [] sign_sk) junk
                                          <| g_shards := init_global_scheduler 1024 (shard_starts r) |>
                                          <| g_sign_sk := sign_sk |>;
                              job_nodes := ∅; g_thread_pool := Some pool;
                              g_shutdown := Shutdown.graceful_shutdown_init Shutdown.CONFIG_GRACEFUL_SHUTDOWN_TIMEOUT_SEC;
                              g_server_sk := ServerKey.sk k;
                              bind_addr := {| sin_family := AF_INET; sin_addr := addr; sin_port := htons port |};
                              udp_sock := sock; tun_fd := tun_fd; epoll_fd := epfd;
                              last_cleanup := t; last_metric_report := t; phase := Looping; exited := [];
                              local_time := time_zone r |})
                        | _, _ => mret (inl 1)
                        end
                    end
                end
      | _, _ => mret (inl 1)
      end
  | _ => mret (inl 1)
  end.

End start.

(** ** The event loop *)

Section main.
Context `{Sod : Sodium}.


(** An operation of the server inside the program. *)
Definition in_server {A} (m : ST world A) : ST program A := fun p =>
  match m (server p) with Ok (a, w) => Ok (a, p <| server := w |>) | Err e => Err e end.

(** The node is allocated only when the shard has room. *)
Definition shard_full (p : program) (key : Z) : bool :=
  match g_thread_pool p with
  | Some pool =>
      match shards pool !! Z.to_nat (Z.rem key (num_threads pool)) with
      | Some q => max_size q <=? LinkedQueue.size (jobs q)
      | None => true
      end
  | None => true
  end.

(** [thread_pool_submit_sharded(g_thread_pool, job, shard_key)]; a job refused is
    freed with its buffer. *)
Definition submit (key : Z) (job : job_t) : ST program unit :=
  full ← get (fun p => shard_full p key);
  ok ← (if full : bool then mret true else in_server malloc);
  p ← state;
  r ← lift (thread_pool_submit_sharded ok (job_nodes p) (g_thread_pool p) (Some job) key);
  let '(_, h, pool) := r in
  modify (fun p => p <| job_nodes := h |> <| g_thread_pool := pool |>).

(** The burst of reads from the socket: [rs] holds the datagrams that are there, the
    socket is empty when they are used up.  An empty datagram ends the burst too. *)
Fixpoint udp_burst (n : nat) (rs : list (list byte * sockaddr_in)) : ST program unit :=
  match n, rs with
  | S n, (d, src) :: rs =>
      let tmp := take (Z.to_nat (BUFFER_SIZE - 1)) d in
      if is_empty tmp then mret tt
      else
        p ← state;
        r ← in_server (recv_inbound (udp_sock p) tmp src (g_server_sk p));
        _ ← (match r with None => mret tt | Some (key, job) => submit key job end);
        udp_burst n rs
  | _, _ => mret tt
  end.

(** The burst of reads from the tunnel device. *)
Fixpoint tun_burst (n : nat) (rs : list (list byte)) : ST program unit :=
  match n with
  | O => mret tt
  | S n =>
      sock ← get udp_sock;
      r ← in_server (handle_outbound_tun (take (Z.to_nat BUFFER_SIZE) <$> hd_error rs) sock);
      _ ← (match r.2 with None => mret tt | Some (key, job) => submit key job end);
      if r.1 =? 0 then mret tt else tun_burst n (List.tl rs)
  end.

(** A descriptor that is ready, and what can be read from it. *)
Record ready := { fd : Z; datagrams : list (list byte * sockaddr_in); packets : list (list byte) }.

Definition handle_event (ev : ready) : ST program unit :=
  p ← state;
  if fd ev =? udp_sock p then udp_burst MAX_BURST (datagrams ev)
  else if fd ev =? tun_fd p then tun_burst MAX_BURST (packets ev)
  else mret tt.

(** What [epoll_wait] returns. *)
Inductive wait_result := WaitError (e : Z) | Ready (evs : list ready).

(** [metrics_print_status] and [metrics_print_detailed_report] *)
Definition print_status : ST world unit :=
  _ ← lock_metrics; w ← state; emit (Print (metrics_print_status (now w) (global_metrics w))).
Definition print_report (strftime : Z -> list byte) : ST world unit :=
  _ ← lock_metrics; w ← state; emit (Print (metrics_print_detailed_report strftime (now w) (global_metrics w))).

(** Why an iteration is the last. *)
Inductive flow := Next | Break.

Definition loop_turn (waited : wait_result) : ST program flow :=
  match waited with
  | WaitError e => mret (if e =? EINTR then Next else Break)
  | Ready evs =>
      p ← state;
      let t := now (server p) in
      _ ← when (5 <=? t - last_cleanup p)
            (_ ← in_server (periodic_work (udp_sock p)); modify (fun p => p <| last_cleanup := t |>));
      _ ← when (30 <=? t - last_metric_report p) (_ ← in_server print_status; modify (fun p => p <| last_metric_report := t |>));
      _ ← run_all handle_event evs;
      mret Next
  end.

(** ** Shutdown *)

Definition count_active : ST program Z := get (fun p => Z.of_nat (length (List.filter active (sessions (server p))))).

(** The beginning of [thread_pool_destroy]: no worker waits any longer. *)
Definition stop_pool : ST program unit :=
  modify (fun p => p <| g_thread_pool ::= option_map (fun pool => pool <| shutdown := true |>) |> <| phase := Joining |>).

(** From the end of the event loop to the drain loop. *)
Definition leave_loop : ST program unit :=
  n ← count_active;
  if 0 <? n then
    p ← state;
    r ← in_server (Shutdown.graceful_shutdown_drain_sessions (udp_sock p) (g_shutdown p));
    modify (fun p => p <| g_shutdown := r.2 |> <| phase := Draining (now (server p)) n |>)
  else stop_pool.

(** The body of the drain loop: only datagrams are read. *)
Definition drain_event (ev : ready) : ST program unit :=
  p ← state;
  if fd ev =? udp_sock p then udp_burst MAX_BURST (datagrams ev) else mret tt.

Definition drain_turn (start : Z) (waited : wait_result) : ST program unit :=
  _ ← (match waited with Ready evs => run_all drain_event evs | WaitError _ => mret tt end);
  n ← count_active;
  modify (fun p => p <| phase := Draining start n |>).

(** The end of [main], when every worker has been joined. *)
Definition finish : ST program unit :=
  p ← state;
  h ← lift (thread_pool_destroy (job_nodes p) (g_thread_pool p));
  _ ← modify (fun p => p <| job_nodes := h |> <| g_thread_pool := None |>);
  _ ← in_server (emit (Close (epoll_fd p)));
  _ ← in_server (print_report (local_time p));
  _ ← in_server metrics_destroy;
  _ ← in_server (modify (fun w => w <| rl ::= rate_limiter_destroy |>));
  r ← in_server (Shutdown.graceful_shutdown_cleanup (udp_sock p) (tun_fd p) (g_shutdown p));
  _ ← in_server (run_all (fun fd => emit (Close fd)) r.1);
  modify (fun p => p <| g_shutdown := r.2 |> <| phase := Finished |>).

Definition all_left (p : program) : bool :=
  bool_decide (Forall (fun k => k ∈ exited p) (List.seq 0 (Z.to_nat (thread_pool_num_threads (g_thread_pool p))))).

(** A step of main. *)
Definition main_step (waited : wait_result) : ST program unit :=
  p ← state;
  match phase p with
  | Looping =>
      if Shutdown.graceful_shutdown_should_continue (g_shutdown p) then
        f ← loop_turn waited;
        match f with Next => mret tt | Break => leave_loop end
      else leave_loop
  | Draining start n =>
      if 0 <? n then
        let '(exceeded, g) := Shutdown.graceful_shutdown_timeout_exceeded (now (server p)) (g_shutdown p) in
        _ ← modify (fun p => p <| g_shutdown := g |>);
        if exceeded : bool then stop_pool else drain_turn start waited
      else stop_pool
  | Joining => if all_left p then finish else mret tt
  | Finished => mret tt
  end.

(** A step of worker [k]: it waits, returns, or runs its oldest job, drawing [e] and
    [e'] as randomness. *)
Definition worker_step (k : nat) (e e' : ephemeral) : ST program unit :=
  p ← state;
  if bool_decide (k ∈ exited p) then mret tt
  else
    match g_thread_pool p with
    | None => mret tt
    | Some pool =>
        r ← lift (worker_take (job_nodes p) pool k);
        let '(t, h, pool) := r in
        _ ← modify (fun p => p <| job_nodes := h |> <| g_thread_pool := Some pool |>);
        match t with
        | Wait => mret tt
        | Exit | Run JOB_TYPE_SHUTDOWN => modify (fun p => p <| exited ::= cons k |>)
        | Run job => in_server (run_job e e' job)
        end
    end.

(** A step of the program, in environment [v]. *)
Inductive action :=
  | Main (waited : wait_result)
  | Worker (k : nat) (e e' : ephemeral)
  | Shard (k : nat).

Definition act (v : env) (a : action) : ST program unit :=
  _ ← in_server (modify (enter v));
  match a with
  | Main waited => main_step waited
  | Worker k e e' => worker_step k e e'
  | Shard k => in_server (_ ← scheduler_turn k; mret tt)
  end.

End main.
