(* ===== verification/ServerRun.v ===== *)
(** The running server: main, the workers of the pool and those of the scheduler, in
    any interleaving of their steps, keep the program well-formed, and an orderly
    shutdown runs every job that was accepted and frees what the pool holds. *)

From stdpp Require Import list gmap relations.
From S2P Require Import Prelude State LinkedQueue TaskHeap RateLimiter Metrics Crypto Wire Text Report Server Handshake.
From S2P Require Import PacketProcessor Scheduler ThreadPool EventLoop ServerLogic HandshakeProofs DataPath SchedulerProofs Safety ServerMain.
From S2P Require ServerKey Shutdown.
Local Open Scope Z_scope.

(** ** Rules *)

Section rules.

(** Printing leaves the state well-formed. *)
Lemma world_ok_trace w t : world_ok w -> world_ok (w <| trace := t |>).
Proof. intros []. by constructor. Qed.

Lemma runs_in_server {A} (m : ST world A) p Q :
  runs m (server p) (fun a w => Q a (p <| server := w |>)) -> runs (in_server m) p Q.
Proof. intros (a & w & E & H). exists a, (p <| server := w |>). unfold in_server. by rewrite E. Qed.

Lemma runs_program (p : program) (Q : program -> program -> Prop) : Q p p -> runs state p Q.
Proof. apply runs_state. Qed.

End rules.

(** One symbolic step of the program. *)
Ltac pstep :=
  lazymatch goal with
  | |- runs (_ ≫= _) _ _ => apply runs_bind
  | |- runs (mret _) _ _ => apply runs_ret
  | |- runs (get _) _ _ => apply runs_get
  | |- runs (modify _) _ _ => apply runs_modify
  | |- runs state _ _ => apply runs_state
  | |- runs (in_server _) _ _ => apply runs_in_server
  end; cbv beta match.
Ltac plift H := eapply runs_lift; [exact H|]; cbv beta match.

(** ** The invariant *)

(** The pool is there and [qs] are its workers' pending jobs. *)
Record pool_ok (p : program) (pool : thread_pool_t) (qs : list (list job_t)) : Prop := {
  pk_some : g_thread_pool p = Some pool;
  pk_rep : exists lss, pool_rep (job_nodes p) pool qs lss;
  pk_threads : 0 < num_threads pool;
  pk_jobs : Forall (Forall job_ok) qs;
  pk_exited k : k ∈ exited p -> shutdown pool = true /\ qs !! k = Some [];
}.

(** The workers wait for jobs until main joins them; when main has returned the process
    is gone, and of its state only the pool's memory is of interest. *)
Record program_ok (p : program) : Prop := {
  po_server : phase p <> Finished -> world_ok (server p);
  po_pool : if bool_decide (phase p = Finished) then g_thread_pool p = None /\ job_nodes p = ∅
            else exists pool qs, pool_ok p pool qs /\ shutdown pool = bool_decide (phase p = Joining);
}.

(** What holds while main accepts jobs, in phase [ph]. *)
Definition accepting (ph : phase_t) (p : program) : Prop :=
  phase p = ph /\ world_ok (server p) /\ exists pool qs, pool_ok p pool qs /\ shutdown pool = false.

Lemma accepting_ok ph p : ph <> Joining -> ph <> Finished -> accepting ph p -> program_ok p.
Proof.
  intros HJ HF (Hph & Hw & pool & qs & Hp & Hs). constructor; [by intros _|]. rewrite Hph, !bool_decide_false by done. eauto.
Qed.

Lemma ok_accepting p : phase p <> Joining -> phase p <> Finished -> program_ok p -> accepting (phase p) p.
Proof.
  intros HJ HF [Hw Hp]. rewrite !bool_decide_false in Hp by done. destruct Hp as (pool & qs & Hp & Hs). split; [done|]. split; [auto|]. eauto.
Qed.

(** Replacing the server's state keeps the rest. *)
Lemma accepting_server ph p w : accepting ph p -> world_ok w -> accepting ph (p <| server := w |>).
Proof. intros (Hph & _ & pool & qs & [] & Hs) Hw. split; [done|]. split; [done|]. exists pool, qs. split; [by constructor|done]. Qed.

Lemma only_mallocs_ok w w' : world_ok w -> only_mallocs w w' -> world_ok w'.
Proof. intros Hw [bs ->]. by apply world_ok_alloc. Qed.

(** ** Submitting *)

Lemma submit_runs ph key job p :
  accepting ph p -> 0 <= key < 256 -> job_ok job -> runs (submit key job) p (fun _ p' => accepting ph p').
Proof.
  intros Hp Hkey Hjob. unfold submit. pstep. pstep. pstep.
  assert (Hm : runs (if shard_full p key then mret true else in_server malloc) p (fun ok p' => accepting ph p')).
  { destruct (shard_full p key); [by pstep|]. pstep. apply runs_malloc. intros b bs _.
    apply accepting_server; [done|]. apply world_ok_alloc, Hp. }
  eapply runs_conseq; [exact Hm|]. cbv beta. clear p Hp Hm. intros ok p (Hph & Hw & pool & qs & [Hsome [lss Hrep] Hn Hjobs Hex] & Hs).
  pstep. pstep. pstep.
  destruct (submit_ok ok (job_nodes p) pool qs lss job key Hrep Hn) as (xs & rc & h' & pool' & Hx & E & [Hnt Hsd] & Hres); [lia|].
  rewrite Hsome. plift E. pstep. split; [done|]. split; [done|]. exists pool'.
  assert (Hno : forall k, k ∈ exited p -> False) by (intros k Hk; destruct (Hex k Hk); congruence).
  destruct (ok && _).
  - destruct Hres as (_ & lss' & Hrep'). eexists. split; [|congruence]. constructor; [done|by exists lss'|lia| |].
    + apply Forall_insert; [done|]. apply Forall_app. split; [|by apply Forall_singleton].
      exact (proj1 (Forall_lookup _ _) Hjobs _ _ Hx).
    + intros k Hk. by destruct (Hno k).
  - destruct Hres as (_ & -> & ->). exists qs. split; [|done]. constructor; [done|by exists lss|done|done|].
    intros k Hk. by destruct (Hno k).
Qed.

(** The jobs main submits, or none. *)
Lemma submit_all_runs ph (r : option (Z * job_t)) p :
  accepting ph p -> submitted r job_ok ->
  runs (match r with None => mret tt | Some (key, job) => submit key job end) p (fun _ p' => accepting ph p').
Proof. intros Hp Hr. destruct r as [[key job]|]; [by apply submit_runs; destruct Hr|by pstep]. Qed.

Lemma submitted_impl r (P P' : job_t -> Prop) : submitted r P -> (forall job, P job -> P' job) -> submitted r P'.
Proof. intros H HP. destruct r as [[key job]|]; [|done]. destruct H. split; auto. Qed.

(** ** Main *)

(** A datagram that is not cut inside the data header. *)
Definition whole (d : list byte) : Prop := (length d < sizeof_proto_header \/ DATA_HEADER_LEN <= length d)%nat.
Definition whole_event (ev : ready) : Prop := Forall (fun d => whole d.1) (datagrams ev).

Lemma whole_take n d : (DATA_HEADER_LEN <= n)%nat -> whole d -> whole (take n d).
Proof. unfold whole. rewrite length_take. intros Hn [H|H]; [left|right]; lia. Qed.

Section main.
Context `{Sod : Sodium} `{!SodiumLaws Sod}.

Lemma udp_burst_runs ph n rs : forall p,
  accepting ph p -> Forall (fun d => whole d.1) rs -> runs (udp_burst n rs) p (fun _ p' => accepting ph p').
Proof.
  revert rs. induction n as [|n IH]; intros rs p Hp Hrs; cbn [udp_burst]; [destruct rs as [|[] ?]; by pstep|].
  destruct rs as [|[d src] rs]; [by pstep|]. apply Forall_cons in Hrs as [Hd Hrs]. cbv zeta.
  destruct (is_empty _); [by pstep|]. pstep. pstep. pstep. pstep.
  eapply runs_conseq; [apply recv_inbound_runs, whole_take; [by apply Nat.leb_le; vm_compute|exact Hd]|]. cbv beta.
  intros r w' [Hw' Hr]. pstep. eapply runs_conseq; [apply (submit_all_runs ph r)|].
  - apply accepting_server; [done|]. eapply only_mallocs_ok; [apply Hp|done].
  - eapply submitted_impl; [exact Hr|]. by intros job [? _].
  - cbv beta. intros _ p' Hp'. by apply IH.
Qed.

Lemma tun_burst_runs ph n : forall rs p, accepting ph p -> runs (tun_burst n rs) p (fun _ p' => accepting ph p').
Proof.
  induction n as [|n IH]; intros rs p Hp; cbn [tun_burst]; [by pstep|]. pstep. pstep. pstep. pstep.
  eapply runs_conseq; [apply handle_outbound_tun_runs|]. cbv beta. intros r w' (Hw' & Hr & _). pstep.
  eapply runs_conseq; [apply (submit_all_runs ph r.2)|].
  - apply accepting_server; [done|]. eapply only_mallocs_ok; [apply Hp|done].
  - eapply submitted_impl; [exact Hr|]. by intros job (pk & _ & ->).
  - cbv beta. intros _ p' Hp'. destruct (r.1 =? 0); [by pstep|by apply IH].
Qed.

Lemma run_all_runs {A} (f : A -> ST program unit) (P : A -> Prop) (I : program -> Prop) l :
  (forall a p, P a -> I p -> runs (f a) p (fun _ p' => I p')) ->
  forall p, Forall P l -> I p -> runs (run_all f l) p (fun _ p' => I p').
Proof.
  intros Hf. induction l as [|a l IH]; intros p Hl Hp; cbn [run_all]; [by pstep|]. apply Forall_cons in Hl as [Ha Hl].
  pstep. eapply runs_conseq; [by apply Hf|]. cbv beta. intros _ p' Hp'. by apply IH.
Qed.

Lemma handle_event_runs ph ev p : whole_event ev -> accepting ph p -> runs (handle_event ev) p (fun _ p' => accepting ph p').
Proof.
  intros Hev Hp. unfold handle_event. pstep. pstep. destruct (_ =? _); [by apply udp_burst_runs|].
  destruct (_ =? _); [by apply tun_burst_runs|by pstep].
Qed.

Lemma drain_event_runs ph ev p : whole_event ev -> accepting ph p -> runs (drain_event ev) p (fun _ p' => accepting ph p').
Proof. intros Hev Hp. unfold drain_event. pstep. pstep. destruct (_ =? _); [by apply udp_burst_runs|by pstep]. Qed.

(** What is asked of the datagrams of an iteration. *)
Definition whole_wait (waited : wait_result) : Prop :=
  match waited with Ready evs => Forall whole_event evs | WaitError _ => True end.

Lemma accepting_times ph p t1 t2 : accepting ph p -> accepting ph (p <| last_cleanup := t1 |> <| last_metric_report := t2 |>).
Proof. intros (Hph & Hw & pool & qs & [] & Hs). split; [done|]. split; [done|]. exists pool, qs. split; [by constructor|done]. Qed.

Lemma loop_turn_runs ph waited p :
  accepting ph p -> whole_wait waited -> runs (loop_turn waited) p (fun _ p' => accepting ph p').
Proof.
  intros Hp Hwh. destruct waited as [e|evs]; cbn [loop_turn]; [by pstep|]. pstep. pstep. cbv zeta. pstep.
  apply runs_conseq with (Q := fun _ p' => accepting ph p').
  { apply runs_when; [done|]. pstep. pstep. eapply runs_conseq; [apply periodic_work_runs, Hp|]. cbv beta. intros _ w' Hw'.
    pstep. pose proof (accepting_server ph p w' Hp Hw') as Hp'. by apply (accepting_times ph _ (now (server p)) (last_metric_report p)) in Hp'. }
  cbv beta. intros _ p1 Hp1. pstep. apply runs_conseq with (Q := fun _ p' => accepting ph p').
  { apply runs_when; [done|]. pstep. pstep. unfold print_status. pstep.
    eapply runs_lock_metrics; [apply (ok_lock _ (proj1 (proj2 Hp1)))|]. pstep. pstep. apply runs_modify. pstep.
    refine (accepting_times ph (p1 <| server := _ |>) (last_cleanup p1) (now (server p)) _). apply accepting_server; [done|].
    apply (world_ok_trace (server p1)), Hp1. }
  cbv beta. intros _ p2 Hp2. pstep. eapply runs_conseq; [by apply (run_all_runs handle_event whole_event (accepting ph)); [intros; apply handle_event_runs|..]|].
  cbv beta. intros _ p3 Hp3. by pstep.
Qed.

Lemma phase_ok ph ph' p : accepting ph p -> accepting ph' (p <| phase := ph' |>).
Proof. intros (Hph & Hw & pool & qs & [] & Hs). split; [done|]. split; [done|]. exists pool, qs. split; [by constructor|done]. Qed.

Lemma shutdown_ok ph p g : accepting ph p -> accepting ph (p <| g_shutdown := g |>).
Proof. intros (Hph & Hw & pool & qs & [] & Hs). split; [done|]. split; [done|]. exists pool, qs. split; [by constructor|done]. Qed.

(** Stopping the pool: the jobs stay. *)
Lemma pool_rep_shutdown h pool qs lss b : pool_rep h pool qs lss -> pool_rep h (pool <| shutdown := b |>) qs lss.
Proof. intros []. by constructor. Qed.

Lemma stop_pool_runs ph p : accepting ph p -> runs stop_pool p (fun _ p' => program_ok p' /\ phase p' = Joining).
Proof.
  intros (Hph & Hw & pool & qs & [Hsome [lss Hrep] Hn Hjobs Hex] & Hs). unfold stop_pool. pstep. split; [|done].
  constructor; [by intros _|]. cbn [phase set]. rewrite bool_decide_false, bool_decide_true by done.
  exists (pool <| shutdown := true |>), qs. split; [|done]. constructor; cbn; [by rewrite Hsome|exists lss; by apply pool_rep_shutdown|done|done|].
  intros k Hk. destruct (Hex k Hk). congruence.
Qed.

Lemma leave_loop_runs ph p : accepting ph p -> runs leave_loop p (fun _ p' => program_ok p').
Proof.
  intros Hp. unfold leave_loop, count_active. pstep. pstep. destruct (0 <? _).
  - pstep. pstep. pstep. pstep. eapply runs_conseq; [apply Shutdown.drain_runs, Hp|]. cbv beta. intros r w' Hw'. pstep.
    set (n := Z.of_nat _). apply (accepting_ok (Draining (now w') n)); [done..|].
    by apply (phase_ok ph _ (p <| server := w' |> <| g_shutdown := r.2 |>)), shutdown_ok, accepting_server.
  - eapply runs_conseq; [by eapply stop_pool_runs|]. cbv beta. by intros _ p' [? _].
Qed.

Lemma drain_turn_runs ph start waited p :
  accepting ph p -> whole_wait waited -> runs (drain_turn start waited) p (fun _ p' => program_ok p').
Proof.
  intros Hp Hwh. unfold drain_turn. pstep. apply runs_conseq with (Q := fun _ p' => accepting ph p').
  { destruct waited as [e|evs]; [by pstep|]. by apply (run_all_runs drain_event whole_event (accepting ph)); [intros; apply drain_event_runs|..]. }
  cbv beta. intros _ p1 Hp1. unfold count_active. pstep. pstep. pstep. eapply accepting_ok; [| |by eapply phase_ok]; done.
Qed.

(** ** The end *)

Lemma emit_all_runs fds : forall p,
  runs (in_server (run_all (fun fd => emit (Close fd)) fds)) p
    (fun _ p' => p' = p <| server ::= (fun w => w <| trace ::= (fun t => t ++ (Close <$> fds)) |>) |>).
Proof.
  intros p. pstep. assert (H : forall w, runs (run_all (fun fd => emit (Close fd)) fds) w
    (fun _ w' => w' = w <| trace ::= (fun t => t ++ (Close <$> fds)) |>)).
  { induction fds as [|fd fds IH]; intros w; cbn [run_all fmap list_fmap].
    - apply runs_ret. rewrite (app_nil_r (trace w)) || idtac. destruct w; cbn. by rewrite app_nil_r.
    - apply runs_bind, runs_modify. eapply runs_conseq; [apply IH|]. cbv beta. intros _ w' ->. destruct w; cbn.
      by rewrite <- app_assoc. }
  eapply runs_conseq; [apply H|]. cbv beta. intros _ w' ->. done.
Qed.

Definition no_session (w : world) : Prop := Forall (fun s => active s = false) (sessions w).

(** What the end of main leaves: no session in use, nothing allocated by the pool or the
    limiter, the report printed, every descriptor closed. *)
Record ended (p p' : program) : Prop := {
  en_pool : g_thread_pool p' = None /\ job_nodes p' = ∅;
  en_sessions : no_session (server p');
  en_freed : entries (rl (server p')) = None /\ metrics_lock (server p') = false;
  en_trace : trace (server p') = trace (server p) ++
    [Close (epoll_fd p); Print (metrics_print_detailed_report (local_time p) (now (server p)) (global_metrics (server p)))] ++
    (Close <$> Shutdown.to_close (udp_sock p) (tun_fd p));
  en_state : Shutdown.state (g_shutdown p') = Shutdown.SHUTDOWN_COMPLETE /\ phase p' = Finished;
}.

(** The end of main as far as the clean-up. *)
Definition torn_down (p : program) : world :=
  server p <| trace ::= (fun t => t ++ [Close (epoll_fd p);
                Print (metrics_print_detailed_report (local_time p) (now (server p)) (global_metrics (server p)))]) |>
           <| metrics_lock := false |> <| rl ::= rate_limiter_destroy |>.

Lemma finish_tears_down p pool qs :
  metrics_lock (server p) = true -> pool_ok p pool qs ->
  finish p = (r ← in_server (Shutdown.graceful_shutdown_cleanup (udp_sock p) (tun_fd p) (g_shutdown p));
              _ ← in_server (run_all (fun fd => emit (Close fd)) r.1);
              modify (fun p => p <| g_shutdown := r.2 |> <| phase := Finished |>))
             (p <| job_nodes := ∅ |> <| g_thread_pool := None |> <| server := torn_down p |>).
Proof.
  intros Hl [Hsome [lss Hrep] _ _ _]. unfold finish, mbind, ST_bind, State.state, lift, modify. rewrite Hsome, (destroy_rep _ _ _ _ Hrep).
  unfold in_server at 1, emit, modify. cbn [server set]. unfold in_server at 1, print_report, lock_metrics, mbind, ST_bind.
  cbn [server set metrics_lock]. rewrite Hl. unfold State.state, emit, modify, in_server at 1 2, metrics_destroy, modify.
  cbn [server set trace now global_metrics]. unfold torn_down. by rewrite <- app_assoc.
Qed.

(** It completes when no session is in use; otherwise it closes one, which locks the
    metrics' mutex that has just been destroyed. *)
Lemma finish_runs p pool qs :
  world_ok (server p) -> pool_ok p pool qs -> no_session (server p) -> runs finish p (fun _ p' => program_ok p' /\ ended p p').
Proof.
  intros Hw Hq Hno. unfold runs. rewrite (finish_tears_down p pool qs (ok_lock _ Hw) Hq). set (p1 := p <| job_nodes := _ |> <| g_thread_pool := _ |> <| server := _ |>).
  match goal with |- exists a w', ?m p1 = _ /\ _ => change (runs m p1 (fun _ p' => program_ok p' /\ ended p p')) end.
  pstep. apply runs_in_server. eexists _, _. split; [by apply (Shutdown.cleanup_idle (udp_sock p) (tun_fd p) (g_shutdown p) (torn_down p))|]. cbv beta. cbn [fst snd]. pstep.
  eapply runs_conseq; [apply emit_all_runs|]. cbv beta. intros _ p' ->. pstep. split.
  - by constructor.
  - constructor; try done. cbn. by rewrite <- !app_assoc.
Qed.

Lemma finish_undefined p pool qs :
  world_ok (server p) -> pool_ok p pool qs -> ~ no_session (server p) -> finish p = Err DestroyedMutex.
Proof.
  intros Hw Hq Hact. rewrite (finish_tears_down p pool qs (ok_lock _ Hw) Hq).
  assert (E : Shutdown.graceful_shutdown_cleanup (udp_sock p) (tun_fd p) (g_shutdown p) (torn_down p) = Err DestroyedMutex)
    by (apply Shutdown.cleanup_destroyed; [apply (ok_len _ Hw)|done|done]).
  unfold mbind, ST_bind, in_server at 1. cbn [server set]. by rewrite E.
Qed.

(** A step of main. *)
Lemma main_step_runs waited p :
  program_ok p -> whole_wait waited -> (phase p = Joining -> all_left p = true -> no_session (server p)) ->
  runs (main_step waited) p (fun _ p' => program_ok p').
Proof.
  intros Hp Hwh Hend. unfold main_step. pstep. pstep. destruct (phase p) as [|start n| |] eqn:Hph.
  - assert (Ha : accepting Looping p) by (rewrite <- Hph; apply ok_accepting; [by rewrite Hph..|done]).
    destruct (Shutdown.graceful_shutdown_should_continue _); [|by eapply leave_loop_runs]. pstep.
    eapply runs_conseq; [by eapply loop_turn_runs|]. cbv beta. intros f p' Hp'. destruct f; [|by eapply leave_loop_runs].
    pstep. by eapply accepting_ok; [| |exact Hp'].
  - assert (Ha : accepting (Draining start n) p) by (rewrite <- Hph; apply ok_accepting; [by rewrite Hph..|done]).
    assert (Hstop : runs stop_pool p (fun _ p' => program_ok p')).
    { eapply runs_conseq; [by eapply stop_pool_runs|]. by intros _ p' [? _]. }
    destruct (0 <? n); [|done]. destruct (Shutdown.graceful_shutdown_timeout_exceeded _ _) as [ex g]. pstep. pstep.
    apply (shutdown_ok _ _ g) in Ha. destruct ex; [|by eapply drain_turn_runs].
    eapply runs_conseq; [by eapply stop_pool_runs|]. by intros _ p' [? _].
  - destruct (all_left p) eqn:Hal; [|by pstep]. pose proof (po_pool p Hp) as Hpool. rewrite Hph, bool_decide_false in Hpool by done.
    destruct Hpool as (pool & qs & Hq & _). assert (Hw : world_ok (server p)) by (apply Hp; by rewrite Hph).
    eapply runs_conseq; [eapply finish_runs; [exact Hw|exact Hq|by apply Hend]|]. by intros _ p' [? _].
  - by pstep.
Qed.

(** ** Workers *)

(** The job worker [k] takes next. *)
Definition next_job (p : program) (k : nat) : option job_t :=
  match g_thread_pool p with
  | None => None
  | Some pool =>
      match worker_take (job_nodes p) pool k with Ok (Run job, _, _) => Some job | _ => None end
  end.

(** The pending jobs of each worker. *)
Definition pending (p : program) (qs : list (list job_t)) : Prop :=
  exists pool lss, g_thread_pool p = Some pool /\ pool_rep (job_nodes p) pool qs lss.

(** What a worker's step does to its queue: it takes the oldest job and runs it, waits
    for one, or returns. *)
Lemma worker_runs k e e' p pool qs :
  world_ok (server p) -> shards_small (server p) -> pool_ok p pool qs -> (k < length qs)%nat ->
  (forall job, next_job p k = Some job -> honest_job (server p) job) ->
  runs (worker_step k e e') p (fun _ p' => world_ok (server p') /\ phase p' = phase p /\
    g_shutdown p' = g_shutdown p /\ epoll_fd p' = epoll_fd p /\ udp_sock p' = udp_sock p /\ tun_fd p' = tun_fd p /\
    exists pool' qs', pool_ok p' pool' qs' /\ same_pool pool pool' /\
      match qs !! k with
      | Some (x :: xs) => next_job p k = Some x /\ qs' = <[k := xs]> qs /\ exited p' = exited p
      | _ => next_job p k = None /\ qs' = qs /\ exited p' = if shutdown pool && negb (bool_decide (k ∈ exited p)) then k :: exited p else exited p
      end).
Proof.
  intros Hw Hsm [Hsome [lss Hrep] Hn Hjobs Hex] Hk Hh. unfold worker_step. pstep. pstep.
  destruct (take_ok (job_nodes p) pool qs lss k Hrep) as (xs & r & h' & pool' & Hx & E & Hsame & Hres).
  { by rewrite <- (pr_qs _ _ _ _ Hrep). }
  assert (Hnext : next_job p k = hd_error xs).
  { unfold next_job. rewrite Hsome, E. destruct xs; destruct Hres as [-> _]; [by destruct (shutdown pool)|done]. }
  case_bool_decide as Hin.
  { destruct (Hex k Hin) as [Hsd Hnil]. pstep. do 5 (split; [done|]). split; [done|]. exists pool, qs. split; [by constructor; eauto|].
    split; [done|]. rewrite Hnil, andb_false_r. rewrite Hnext. simplify_eq. done. }
  rewrite Hsome. rewrite Hnext in Hh |- *. pstep. plift E. rewrite Hx. destruct xs as [|x xs].
  - destruct Hres as (-> & -> & ->). pstep. pstep. rewrite andb_true_r. destruct (shutdown pool) eqn:Hsd in |- *; pstep.
    + do 5 (split; [done|]). split; [done|]. exists pool, qs. split; [|done]. constructor; cbn; [done|by exists lss|done|done|].
      intros j [->|Hj]%elem_of_cons; [done|by apply Hex].
    + do 5 (split; [done|]). split; [done|]. exists pool, qs. split; [|done]. constructor; cbn; [done|by exists lss|done|done|done].
  - destruct Hres as (-> & lss' & Hrep'). pstep. pstep.
    pose proof (proj1 (Forall_lookup _ _) Hjobs _ _ Hx) as [Hjx Hjxs]%Forall_cons. destruct Hsame as [Hnt Hsd].
    assert (Hpool : forall w, pool_ok (p <| job_nodes := h' |> <| g_thread_pool := Some pool' |> <| server := w |>) pool' (<[k := xs]> qs)).
    { intros w. constructor; cbn; [done|by exists lss'|lia|by apply Forall_insert|]. intros j Hj. destruct (Hex j Hj) as [Hs Hjn].
      split; [congruence|]. rewrite list_lookup_insert_ne; [done|]. by intros <-. }
    assert (Hrun : runs (in_server (run_job e e' x)) (p <| job_nodes := h' |> <| g_thread_pool := Some pool' |>) (fun _ p' =>
      exists w, world_ok w /\ p' = p <| job_nodes := h' |> <| g_thread_pool := Some pool' |> <| server := w |>)).
    { pstep. eapply runs_conseq; [apply run_job_runs; [exact Hw|exact Hsm|exact Hjx|by apply Hh]|]. cbv beta. intros _ w' Hw'. by exists w'. }
    destruct x; [| |done]; (eapply runs_conseq; [exact Hrun|]); cbv beta; intros _ p' (w & Hw' & ->); do 5 (split; [done|]);
      (split; [done|]); exists pool', (<[k := xs]> qs); (split; [apply Hpool|]); done.
Qed.

(** ** The pipeline of a datagram *)

(** The worker a datagram goes to: that of its session id's first byte, and worker 0
    for handshakes and for what is dropped. *)
Definition worker_for (pool : thread_pool_t) (tmp : list byte) : nat :=
  match dispatch tmp with Ok (Some key) => shard_of pool key | _ => 0%nat end.

Lemma malloc_free w : mallocs w = [] -> malloc w = Ok (true, w).
Proof. intros H. unfold malloc. by rewrite H. Qed.

(** What main passes on is what the handler itself would not drop at once. *)
Lemma dispatch_dropped e e' sock tmp src sk w :
  dispatch tmp = Ok None -> handle_inbound_udp e e' sock tmp src sk w = Ok (tt, w).
Proof.
  unfold dispatch, handle_inbound_udp, mbind, ST_bind, lift, outcome_bind. cbv zeta. case_decide; [done|].
  destruct (_ <? _); [done|]. destruct (read_proto tmp) as [ph|]; [|done]. destruct (_ || _); [done|].
  destruct (_ && _); [|done]. by destruct (byte_at _ _).
Qed.

Lemma dispatch_undefined e e' sock tmp src sk w err :
  dispatch tmp = Err err -> (length tmp <= Z.to_nat (BUFFER_SIZE - 1))%nat -> exists err', handle_inbound_udp e e' sock tmp src sk w = Err err'.
Proof.
  unfold dispatch, handle_inbound_udp, mbind, ST_bind, lift, outcome_bind. cbv zeta. case_decide; [done|]. intros H0 Hl.
  destruct (Z.ltb_spec BUFFER_SIZE (Z.of_nat (length tmp))) as [?|_].
  { unfold BUFFER_SIZE in *. lia. }
  destruct (read_proto tmp) as [ph|]; [|by eexists]. destruct (_ || _); [done|]. destruct (_ && bool_decide _) eqn:Hb; [|done].
  apply andb_true_iff in Hb as [_ Hb%bool_decide_eq_true]. unfold sizeof_proto_header, SESSION_ID_LEN in Hb.
  destruct (byte_at_lt tmp 6) as (b & _ & Eb); [lia|]. unfold sizeof_proto_header in H0. by rewrite Eb in H0.
Qed.

(** Submitting to empty queues, then a step of the worker. *)
Lemma submit_then_run p pool qs key job e e' w' :
  pool_ok p pool qs -> Forall (fun xs => xs = []) qs -> exited p = [] -> mallocs (server p) = [] -> 0 <= key < 256 ->
  job <> JOB_TYPE_SHUTDOWN -> run_job e e' job (server p) = Ok (tt, w') ->
  exists p1 p2, submit key job p = Ok (tt, p1) /\ server p1 = server p /\
    worker_step (shard_of pool key) e e' p1 = Ok (tt, p2) /\ server p2 = w'.
Proof.
  intros [Hsome [lss Hrep] Hn _ _] Hempty Hex Hm Hkey Hns Hrun.
  destruct (submit_ok true (job_nodes p) pool qs lss job key Hrep Hn) as (xs & rc & h1 & pool1 & Hx & E & [Hnt Hsd] & Hres); [lia|].
  assert (xs = []) as -> by (exact (proj1 (Forall_lookup _ _) Hempty _ _ Hx)). cbn in Hres. destruct Hres as (-> & lss1 & Hrep1).
  destruct (take_ok h1 pool1 _ lss1 (shard_of pool key) Hrep1) as (xs1 & r & h2 & pool2 & Hx1 & E2 & _ & Hres2).
  { rewrite <- (pr_qs _ _ _ _ Hrep1), length_insert. by eapply lookup_lt_Some. }
  rewrite list_lookup_insert_eq in Hx1 by (by eapply lookup_lt_Some). injection Hx1 as <-. destruct Hres2 as [-> _].
  assert (Es : submit key job p = Ok (tt, p <| job_nodes := h1 |> <| g_thread_pool := Some pool1 |>)).
  { unfold submit, mbind, ST_bind, get, state, lift. destruct (shard_full p key); [|unfold in_server; rewrite malloc_free by done];
      cbn -[thread_pool_submit_sharded]; destruct p; cbn -[thread_pool_submit_sharded] in *; subst; rewrite E; done. }
  do 2 eexists. split; [exact Es|]. split; [done|]. unfold worker_step, mbind, ST_bind, state, lift. cbn -[worker_take run_job].
  rewrite Hex, bool_decide_false by (by intros ?%elem_of_nil). rewrite E2. destruct job; [| |done];
    cbn -[run_job]; unfold in_server; cbn -[run_job]; rewrite Hrun; done.
Qed.

(** C18: the pipeline changes nothing: with the workers idle and memory to be had, what
    main does with a datagram, followed by one step of the worker it goes to, leaves the
    server exactly as the handler called on the datagram would, whatever the datagram
    is. *)
Theorem pipeline_equivalent p pool qs d src e e' w' :
  pool_ok p pool qs -> Forall (fun xs => xs = []) qs -> exited p = [] -> shutdown pool = false -> mallocs (server p) = [] ->
  handle_inbound_udp e e' (udp_sock p) (take (Z.to_nat (BUFFER_SIZE - 1)) d) src (g_server_sk p) (server p) = Ok (tt, w') ->
  exists p1 p2, udp_burst MAX_BURST [(d, src)] p = Ok (tt, p1) /\ server p1 = server p /\
    worker_step (worker_for pool (take (Z.to_nat (BUFFER_SIZE - 1)) d)) e e' p1 = Ok (tt, p2) /\ server p2 = w'.
Proof.
  intros Hp Hempty Hex Hsd Hm Hrun. set (tmp := take _ d) in *.
  assert (Hl : (length tmp <= Z.to_nat (BUFFER_SIZE - 1))%nat) by (subst tmp; rewrite length_take; lia).
  assert (Hidle : forall k, (k < length qs)%nat -> worker_step k e e' p = Ok (tt, p)).
  { intros k Hk. destruct Hp as [Hsome [lss Hrep] _ _ _]. destruct (take_ok (job_nodes p) pool qs lss k Hrep) as (xs & r & h' & pool' & Hx & E & _ & Hres).
    { by rewrite <- (pr_qs _ _ _ _ Hrep). }
    assert (xs = []) as -> by (exact (proj1 (Forall_lookup _ _) Hempty _ _ Hx)). destruct Hres as (-> & -> & ->).
    unfold worker_step, mbind, ST_bind, state, lift. rewrite Hex, bool_decide_false by (by intros ?%elem_of_nil).
    rewrite Hsome, E, Hsd. cbn. destruct p; cbn in *; by subst. }
  assert (Hpos : (0 < length qs)%nat).
  { destruct Hp as [_ [lss Hrep] Hn _ _]. rewrite (pr_qs _ _ _ _ Hrep). rewrite (pr_threads _ _ _ _ Hrep) in Hn. lia. }
  unfold MAX_BURST. cbn [udp_burst]. fold tmp. unfold worker_for. destruct (dispatch tmp) as [[key|]|err] eqn:Hd.
  3:{ destruct (dispatch_undefined e e' (udp_sock p) tmp src (g_server_sk p) (server p) err Hd Hl) as [? ?]. congruence. }
  2:{ rewrite (dispatch_dropped e e' (udp_sock p) tmp src (g_server_sk p) (server p) Hd) in Hrun. injection Hrun as <-.
      exists p, p. split; [|by eauto]. destruct (is_empty tmp); [done|]. unfold recv_inbound, mbind, ST_bind, state, lift, in_server. rewrite Hd.
      cbn. by destruct p. }
  destruct (dispatch_key _ _ Hd) as [Hlen Hkey]. assert (Hne : is_empty tmp = false).
  { unfold is_empty. apply bool_decide_eq_false. intros ->. cbn in Hlen. unfold sizeof_proto_header in Hlen. lia. }
  rewrite Hne. destruct (submit_then_run p pool qs key (JOB_TYPE_INBOUND_CRYPTO tmp src (udp_sock p) (g_server_sk p)) e e' w')
    as (p1 & p2 & E1 & Hs1 & E2 & Hs2); [done..|]. exists p1, p2. split; [|done].
  unfold recv_inbound, mbind, ST_bind, state, lift, in_server. rewrite Hd. cbn -[submit malloc].
  rewrite malloc_free by done. cbn -[submit malloc]. rewrite malloc_free by done. cbn -[submit].
  match goal with |- context [submit _ _ ?q] => replace q with p by (by destruct p) end. by rewrite E1.
Qed.

(** ** The program as a transition system *)

(** What is asked of a step: that main has not returned; datagrams that are not cut
    inside the data header, and, when main tears the program down, no session in use;
    jobs that decrypt to what an honest peer could have sent, one of the workers; one of
    the shards with a queue for every session. *)
Definition permitted (p : program) (a : action) : Prop :=
  phase p <> Finished /\
  match a with
  | Main waited => whole_wait waited /\ (phase p = Joining -> all_left p = true -> no_session (server p))
  | Worker k _ _ => Z.of_nat k < thread_pool_num_threads (g_thread_pool p) /\
      forall job, next_job p k = Some job -> honest_job (server p) job
  | Shard k => (k < 4)%nat /\ queues_present (server p)
  end.

Definition entered (v : env) (p : program) : program := p <| server := enter v (server p) |>.

Lemma entered_pool v p pool qs : pool_ok p pool qs -> pool_ok (entered v p) pool qs.
Proof. intros []. by constructor. Qed.

Lemma entered_ok v p : program_ok p -> length (e_junk v) = SESSION_ID_LEN -> program_ok (entered v p).
Proof.
  intros [Hw Hp] Hj. constructor; [intros Hf; apply enter_ok; auto|]. cbn [phase entered set]. case_bool_decide; [done|].
  destruct Hp as (pool & qs & Hq & Hs). exists pool, qs. split; [by apply entered_pool|done].
Qed.

Lemma act_runs v a p :
  program_ok p -> env_ok v (server p) -> permitted p a -> runs (act v a) p (fun _ p' => program_ok p').
Proof.
  intros Hp [Hj Hsm] [Hf Ha]. pose proof (entered_ok v p Hp Hj) as Hp1. unfold act. pstep. pstep. pstep.
  change (p <| server := enter v (server p) |>) with (entered v p). destruct a as [waited|k e e'|k].
  - destruct Ha as [Hwh Hend]. by apply main_step_runs.
  - destruct Ha as [Hk Hh]. pose proof (po_pool _ Hp1) as Hpool. change (phase (entered v p)) with (phase p) in Hpool.
    rewrite bool_decide_false in Hpool by done. destruct Hpool as (pool & qs & Hq & Hs).
    eapply runs_conseq; [apply (worker_runs k e e' _ pool qs)|].
    + by apply Hp1.
    + exact Hsm.
    + done.
    + destruct Hq as [Hsome [lss Hrep] _ _ _]. cbn in Hsome. rewrite Hsome in Hk. cbn in Hk.
      rewrite (pr_qs _ _ _ _ Hrep). rewrite (pr_threads _ _ _ _ Hrep) in Hk. lia.
    + exact Hh.
    + cbv beta. intros _ p' (Hw' & Hph & _ & _ & _ & _ & pool' & qs' & Hq' & [_ Hsd] & _). constructor; [done|].
      rewrite Hph. change (phase (entered v p)) with (phase p). rewrite bool_decide_false by done. exists pool', qs'. split; [done|]. congruence.
  - destruct Ha as [Hk Hqs]. pstep. pstep. eapply runs_conseq; [apply scheduler_turn_runs; [by apply Hp1|done..]|]. cbv beta.
    intros r w' [Hw' _]. pstep. destruct Hp1 as [_ Hpool]. constructor; [done|]. cbn [phase set] in *. case_bool_decide; [done|].
    destruct Hpool as (pool & qs & [] & Hs). exists pool, qs. split; [by constructor|done].
Qed.

Inductive program_step (p p' : program) : Prop :=
  | program_act v a : env_ok v (server p) -> permitted p a -> act v a p = Ok (tt, p') -> program_step p p'.

Lemma steps_ok p p' : rtc program_step p p' -> program_ok p -> program_ok p'.
Proof.
  induction 1 as [|p p1 p2 [v a Hv Ha E] _ IH]; [done|]. intros Hp. apply IH.
  destruct (act_runs v a p Hp Hv Ha) as ([] & p' & E' & Hp'). congruence.
Qed.

(** ** Shutdown *)

(** Workers' runs of jobs in a step: who takes what. *)
Definition took (p : program) (a : action) : list (nat * job_t) :=
  match a with
  | Worker k _ _ => match next_job p k with Some job => [(k, job)] | None => [] end
  | _ => []
  end.

(** A run of permitted steps, with the jobs its workers ran. *)
Inductive run : list (env * action) -> list (nat * job_t) -> program -> program -> Prop :=
  | run_nil p : run [] [] p p
  | run_cons v a acts js p p1 p2 :
      env_ok v (server p) -> permitted p a -> act v a p = Ok (tt, p1) -> run acts js p1 p2 ->
      run ((v, a) :: acts) (took p a ++ js) p p2.

(** How often worker [k] is scheduled, and the jobs it runs. *)
Definition turns_of (k : nat) (acts : list (env * action)) : nat :=
  length (List.filter (fun va => match va.2 with Worker j _ _ => bool_decide (j = k) | _ => false end) acts).
Definition ran_by (k : nat) (js : list (nat * job_t)) : list job_t :=
  omap (fun j => if decide (j.1 = k) then Some j.2 else None) js.

(** When main has finished nothing more happens. *)
Lemma finished_run acts js p p' : run acts js p p' -> phase p = Finished -> p' = p /\ js = [].
Proof. intros Hr Hph. by destruct Hr as [p|v a acts js p p1 p2 _ [Hf _] _ _]. Qed.

(** Main, joining the workers. *)
Lemma joining_main waited v p :
  phase p = Joining -> all_left p = true -> main_step waited (entered v p) = finish (entered v p).
Proof. intros Hph Hal. unfold main_step, mbind, ST_bind, state. cbn [phase entered set]. rewrite Hph. unfold all_left in *. cbn in *. by rewrite Hal. Qed.
Lemma joining_waits waited v p :
  phase p = Joining -> all_left p = false -> main_step waited (entered v p) = Ok (tt, entered v p).
Proof. intros Hph Hal. unfold main_step, mbind, ST_bind, state. cbn [phase entered set]. rewrite Hph. unfold all_left in *. cbn in *. by rewrite Hal. Qed.

(** Main waits for the workers, whose pending jobs are [qs]. *)
Definition joining (p : program) (pool : thread_pool_t) (qs : list (list job_t)) : Prop :=
  program_ok p /\ phase p = Joining /\ pool_ok p pool qs.

Lemma joining_shutdown p pool qs : joining p pool qs -> shutdown pool = true.
Proof.
  intros (Hp & Hph & Hq). pose proof (po_pool p Hp) as Hpool. rewrite Hph, bool_decide_false in Hpool by done.
  destruct Hpool as (pool0 & qs0 & Hq0 & Hs0). rewrite bool_decide_true in Hs0 by done.
  pose proof (pk_some _ _ _ Hq0). pose proof (pk_some _ _ _ Hq). congruence.
Qed.

Lemma worker_index p pool qs k :
  pool_ok p pool qs -> Z.of_nat k < thread_pool_num_threads (g_thread_pool p) <-> (k < length qs)%nat.
Proof.
  intros [Hsome [lss Hrep] _ _ _]. rewrite Hsome. cbn. rewrite (pr_qs _ _ _ _ Hrep), (pr_threads _ _ _ _ Hrep). lia.
Qed.

Lemma all_left_spec p pool qs : pool_ok p pool qs -> all_left p = true <-> forall k, (k < length qs)%nat -> k ∈ exited p.
Proof.
  intros Hq. unfold all_left. rewrite bool_decide_eq_true, Forall_forall. split; intros H k Hk; apply H.
  - apply elem_of_seq. apply (worker_index p pool qs k Hq) in Hk. lia.
  - apply elem_of_seq in Hk. apply (worker_index p pool qs k Hq). lia.
Qed.

(** A worker's turn while main joins: it leaves, or runs its oldest job. *)
Lemma joining_worker v k e e' p p1 pool qs :
  joining p pool qs -> env_ok v (server p) -> permitted p (Worker k e e') -> act v (Worker k e e') p = Ok (tt, p1) ->
  exists pool' xs, qs !! k = Some xs /\
    match xs with
    | [] => joining p1 pool' qs /\ took p (Worker k e e') = [] /\ k ∈ exited p1 /\ (forall j, j ∈ exited p -> j ∈ exited p1)
    | x :: xs => joining p1 pool' (<[k := xs]> qs) /\ took p (Worker k e e') = [(k, x)] /\ exited p1 = exited p
    end.
Proof.
  intros Hj He Ha E. pose proof (joining_shutdown p pool qs Hj) as Hsd. destruct Hj as (Hp & Hph & Hq).
  destruct (act_runs v _ p Hp He Ha) as ([] & p1' & E1 & Hp1). rewrite E in E1. injection E1 as <-.
  destruct He as [Hjunk Hsm]. destruct Ha as [Hf [Hk Hh]]. apply (worker_index p pool qs k Hq) in Hk.
  change (act v (Worker k e e') p) with (worker_step k e e' (entered v p)) in E.
  destruct (worker_runs k e e' (entered v p) pool qs (po_server _ (entered_ok v p Hp Hjunk) Hf) Hsm (entered_pool v p pool qs Hq) Hk Hh)
    as ([] & p1' & E1 & _ & Hph1 & _ & _ & _ & _ & pool' & qs' & Hq' & _ & Hcase).
  rewrite E in E1. injection E1 as <-. destruct (lookup_lt_is_Some_2 qs k Hk) as [xs Hx]. rewrite Hx in Hcase.
  cbn [exited entered set] in Hcase. change (next_job (entered v p) k) with (next_job p k) in Hcase.
  exists pool', xs. split; [done|]. unfold took. assert (Hph' : phase p1 = Joining) by exact (eq_trans Hph1 Hph).
  destruct xs as [|x xs]; destruct Hcase as (-> & -> & Hexit).
  - split; [by split|]. split; [done|]. rewrite Hexit, Hsd. cbn [andb]. case_bool_decide; cbn [negb]; [by split|].
    split; [by left|by right].
  - split; [by split|]. by split.
Qed.

(** The other steps: main finishes when every worker has left, and nothing else
    concerns the pool. *)
Lemma joining_other v a p p1 pool qs :
  joining p pool qs -> env_ok v (server p) -> permitted p a -> act v a p = Ok (tt, p1) ->
  match a with
  | Worker _ _ _ => True
  | _ => took p a = [] /\ ((joining p1 pool qs /\ exited p1 = exited p) \/
           (program_ok p1 /\ ended (entered v p) p1 /\ forall k, (k < length qs)%nat -> k ∈ exited p))
  end.
Proof.
  intros (Hp & Hph & Hq) He Ha E. destruct (act_runs v a p Hp He Ha) as ([] & p1' & E1 & Hp1). rewrite E in E1. injection E1 as <-.
  destruct He as [Hj _]. destruct Ha as [Hf Ha]. destruct a as [waited|k e e'|k]; [|done|]; (split; [done|]).
  - change (act v (Main waited) p) with (main_step waited (entered v p)) in E.
    destruct (all_left p) eqn:Hal; [rewrite joining_main in E by done|rewrite joining_waits in E by done].
    + right. destruct (finish_runs (entered v p) pool qs (po_server _ (entered_ok v p Hp Hj) Hf) (entered_pool v p pool qs Hq))
        as ([] & p1' & E1 & _ & Hend); [by apply Ha|]. rewrite E in E1. injection E1 as <-. split; [done|]. split; [done|].
      by apply (all_left_spec p pool qs Hq).
    + left. injection E as <-. by destruct Hq.
  - left. unfold act, mbind, ST_bind, in_server, modify in E. cbn in E. destruct (scheduler_turn _ _) as [[? ?]|]; [|done].
    cbn in E. injection E as <-. split; [|done]. split; [done|]. split; [done|]. destruct Hq. by constructor.
Qed.

Lemma turns_of_cons v a acts j :
  turns_of j ((v, a) :: acts) = ((match a with Worker k _ _ => if decide (k = j) then 1 else 0 | _ => 0 end) + turns_of j acts)%nat.
Proof.
  unfold turns_of. cbn [List.filter snd]. destruct a as [|k e e'|]; [done| |done].
  destruct (decide (k = j)); [rewrite bool_decide_true by done|rewrite bool_decide_false by done]; reflexivity.
Qed.

(** Each worker has left, or has more turns to come than jobs. *)
Definition enough_turns (p : program) (qs : list (list job_t)) (acts : list (env * action)) : Prop :=
  forall k xs, qs !! k = Some xs -> k ∈ exited p \/ (length xs < turns_of k acts)%nat.

(** A worker's turn uses up one of its turns and at most one of its jobs. *)
Lemma enough_leaves v k e e' p p1 qs acts :
  enough_turns p qs ((v, Worker k e e') :: acts) -> k ∈ exited p1 -> (forall j, j ∈ exited p -> j ∈ exited p1) -> enough_turns p1 qs acts.
Proof.
  intros H Hk Hmono j ys Hy. destruct (decide (k = j)) as [->|Hne]; [by left|].
  destruct (H j ys Hy) as [?|Hlt]; [left; by apply Hmono|right]. by rewrite turns_of_cons, decide_False in Hlt.
Qed.

Lemma enough_runs v k e e' p p1 pool qs x xs acts :
  pool_ok p pool qs -> enough_turns p qs ((v, Worker k e e') :: acts) -> qs !! k = Some (x :: xs) -> exited p1 = exited p ->
  enough_turns p1 (<[k := xs]> qs) acts.
Proof.
  intros Hq H Hx Hex j ys Hy. rewrite Hex. destruct (decide (k = j)) as [->|Hne].
  - rewrite list_lookup_insert_eq in Hy by (by eapply lookup_lt_Some). injection Hy as <-. destruct (H j _ Hx) as [Hin|Hlt].
    + destruct (pk_exited _ _ _ Hq j Hin). congruence.
    + right. rewrite turns_of_cons, decide_True in Hlt by done. cbn [length] in Hlt. lia.
  - rewrite list_lookup_insert_ne in Hy by done. destruct (H j ys Hy) as [?|Hlt]; [by left|right].
    by rewrite turns_of_cons, decide_False in Hlt.
Qed.

Lemma joining_run acts js p p' :
  run acts js p p' -> forall pool qs, joining p pool qs -> enough_turns p qs acts ->
  (forall k xs, qs !! k = Some xs -> ran_by k js = xs) /\
  program_ok p' /\ ((exists q, ended q p') \/ phase p' = Joining /\ all_left p' = true).
Proof.
  intros Hr. induction Hr as [p|v a acts js p p1 p2 He Ha E Hr IH]; intros pool qs Hj Hturns.
  - pose proof Hj as (Hp & Hph & Hq). assert (Hex : forall k xs, qs !! k = Some xs -> k ∈ exited p).
    { intros k xs Hk. destruct (Hturns k xs Hk) as [?|?]; [done|]. cbn in *. lia. }
    split; [|split; [done|right; split; [done|]]].
    + intros k xs Hk. destruct (pk_exited _ _ _ Hq k (Hex k xs Hk)) as [_ Hk']. cbn. congruence.
    + apply (all_left_spec p pool qs Hq). intros k [xs Hx]%lookup_lt_is_Some_2. by eapply Hex.
  - pose proof (joining_other v a p p1 pool qs Hj He Ha E) as Hother. destruct a as [waited|k e e'|k].
    1,3: destruct Hother as [-> [[Hj1 Hex1]|(Hp1 & Hfin & Hall)]];
      [apply (IH pool qs Hj1); intros j ys Hy; rewrite Hex1; by apply Hturns|];
      destruct (finished_run _ _ _ _ Hr (proj2 (en_state _ _ Hfin))) as [-> ->]; (split; [|by split; [|left; eexists]]);
      intros j ys Hy; destruct Hj as (_ & _ & Hq); pose proof (Hall j ltac:(by eapply lookup_lt_Some)) as Hin;
      destruct (pk_exited _ _ _ Hq j Hin) as [_ Hj']; cbn; congruence.
    destruct (joining_worker v k e e' p p1 pool qs Hj He Ha E) as (pool' & xs & Hx & Hcase). destruct xs as [|x xs].
    + destruct Hcase as (Hj1 & -> & Hk & Hmono). apply (IH pool' qs Hj1). by eapply enough_leaves.
    + destruct Hcase as (Hj1 & -> & Hex). destruct (IH pool' (<[k := xs]> qs) Hj1) as [Hran Hend]; [by eapply enough_runs; [apply Hj|..]|].
      split; [|exact Hend]. intros j ys Hy. unfold ran_by. cbn [omap list_omap app fst snd]. destruct (decide (k = j)) as [->|Hne].
      * assert (ys = x :: xs) as -> by congruence. f_equal. apply Hran. apply list_lookup_insert_eq. by eapply lookup_lt_Some.
      * apply Hran. by rewrite list_lookup_insert_ne.
Qed.

(** C19: an orderly shutdown empties the pool: once main has stopped it, in every run of
    permitted steps, of whatever threads in whatever order, that schedules each worker
    once more than it has jobs pending, each worker runs exactly its pending jobs,
    oldest first, and returns (a worker's turn is one step: that between its last test and
    its wait it can miss the broadcast is shown apart).  Either main has then finished, or it is joining and its
    next step is the last.  When that step finds no session in use it finishes: the pool,
    its job nodes and the limiter are freed, the metrics' mutex destroyed, the report
    printed and every descriptor closed.  When a session is in use (one of the jobs
    just run was a handshake, say) that step locks the mutex it has just destroyed, which
    is undefined. *)
Theorem shutdown_completes acts js p p' pool qs :
  program_ok p -> phase p = Joining -> pool_ok p pool qs -> run acts js p p' ->
  (forall k xs, qs !! k = Some xs -> (length xs < turns_of k acts)%nat) ->
  (forall k xs, qs !! k = Some xs -> ran_by k js = xs) /\
  ((exists q, ended q p') \/
   phase p' = Joining /\ forall v waited, env_ok v (server p') ->
     (no_session (server p') -> exists p2, act v (Main waited) p' = Ok (tt, p2) /\ ended (entered v p') p2) /\
     (~ no_session (server p') -> act v (Main waited) p' = Err DestroyedMutex)).
Proof.
  intros Hp Hph Hq Hr Hturns. destruct (joining_run acts js p p' Hr pool qs) as (Hran & Hp' & Hend); [by split|by right; eauto|].
  split; [done|]. destruct Hend as [Hfin|[Hph' Hal]]; [by left|]. right. split; [done|]. intros v waited [Hj Hsm].
  pose proof (entered_ok v p' Hp' Hj) as Hpe. pose proof (po_pool p' Hp') as Hpool.
  assert (Hf : phase p' <> Finished) by congruence. rewrite bool_decide_false in Hpool by done. destruct Hpool as (pool' & qs' & Hq' & _).
  change (act v (Main waited) p') with (main_step waited (entered v p')). rewrite joining_main by done. split; intros Hno.
  - destruct (finish_runs (entered v p') pool' qs' (po_server _ Hpe Hf) (entered_pool v p' pool' qs' Hq') Hno) as ([] & p2 & E & _ & Hend).
    by exists p2.
  - by apply (finish_undefined (entered v p') pool' qs' (po_server _ Hpe Hf) (entered_pool v p' pool' qs' Hq')).
Qed.

End main.
