(* ===== verification/ServerStart.v ===== *)
(** The server's start-up: it enters the event loop exactly when every call it needs
    succeeds, and then in a well-formed state, with the port and address of its
    command line, the identity of the key file and the commands run once each. *)

From Stdlib Require Import Strings.String.
From stdpp Require Import list gmap relations.
From S2P Require Import Prelude State LinkedQueue TaskHeap RateLimiter Metrics Crypto Wire Text Server Handshake.
From S2P Require Import Scheduler ThreadPool EventLoop ServerLogic HandshakeProofs DataPath SchedulerProofs Safety ServerMain.
From S2P Require Import ServerRun.
From S2P Require ServerKey Shutdown.
Local Open Scope Z_scope.

(** ** The port *)

(** [main] takes the second argument for a port exactly when all of it is a number of
    the range. *)
Lemma parse_port_spec s v : parse_port s = Some v <-> numeral s v /\ 1 <= v <= 65535.
Proof.
  unfold parse_port. destruct (strtol s) as [[n rest] range] eqn:E. split.
  - destruct range; [done|]. unfold is_empty. case_bool_decide as Hr; cbn [orb negb]; [subst rest|done].
    destruct (Z.ltb_spec n 1), (Z.ltb_spec 65535 n); cbn [orb]; try done. unfold u16. rewrite Z.mod_small by lia.
    intros [= <-]. split; [|lia]. apply strtol_numeral; [unfold LONG_MIN, LONG_MAX; lia|]. split; [done|].
    intros ->. cbn in E. by injection E as <-.
  - intros [Hn Hv]. apply strtol_numeral in Hn as [Hn _]; [|unfold LONG_MIN, LONG_MAX; lia].
    rewrite E in Hn. injection Hn as -> -> ->. cbn. destruct (Z.ltb_spec v 1), (Z.ltb_spec 65535 v); cbn; try lia.
    unfold u16. by rewrite Z.mod_small by lia.
Qed.

(** ** The commands of vpn_tun.c *)

Ltac hstep :=
  lazymatch goal with
  | |- runs (_ ≫= _) _ _ => apply runs_bind
  | |- runs (mret _) _ _ => apply runs_ret
  | |- runs (get _) _ _ => apply runs_get
  | |- runs (modify _) _ _ => apply runs_modify
  | |- runs (note _) _ _ => apply runs_modify
  | |- runs (print _) _ _ => apply runs_modify
  end; cbv beta match.

(** The exit status of the next command, and of the one after it. *)
Definition status (n : nat) (h : host) : Z := default 0 (statuses h !! n).
Definition ran (cmd : list byte) (h : host) : host :=
  h <| log ::= (fun l => l ++ [System cmd]) |> <| statuses ::= (fun l => List.tl l) |>.

Lemma runs_system cmd h Q : Q (status 0 h) (ran cmd h) -> runs (system cmd) h Q.
Proof. intros H. unfold system. do 7 hstep. unfold status in H. destruct h as [k st l pr]; cbn in *. by destruct st. Qed.

Lemma status_ran n cmd h : status n (ran cmd h) = status (S n) h.
Proof. unfold status, ran. cbn. by destruct (statuses h). Qed.

(** The truncation checks of [setup_interface] pass for every device name the kernel
    can give. *)
Lemma setup_interface_runs name h Q :
  (length name < IFNAMSIZ)%nat ->
  Q tt (ran (bytes "ip link set " ++ name ++ bytes " up")
         (ran (bytes "ip addr add " ++ bytes "10.10.0.1/24" ++ bytes " dev " ++ name) h)) ->
  runs (setup_interface (Some name) (Some (bytes "10.10.0.1/24"))) h Q.
Proof.
  unfold IFNAMSIZ. intros Hl HQ. unfold setup_interface. rewrite decide_False by (unfold IFNAMSIZ; lia).
  rewrite decide_False by (apply Nat.leb_nle; by vm_compute). cbv zeta.
  assert (H1 : forall s : list byte, (length s <= 100)%nat -> ~ (CMD_LEN <= length s)%nat) by (unfold CMD_LEN; intros; lia).
  rewrite decide_False; [|apply H1; rewrite !length_app; change (length (bytes "ip addr add ")) with 12%nat;
    change (length (bytes "10.10.0.1/24")) with 12%nat; change (length (bytes " dev ")) with 5%nat; lia].
  hstep. apply runs_system. rewrite decide_False; [|apply H1; rewrite !length_app; change (length (bytes "ip link set ")) with 12%nat;
    change (length (bytes " up")) with 3%nat; lia].
  hstep. apply runs_system. by hstep.
Qed.

Lemma setup_ip_forward_runs h Q :
  Q (if status 0 h =? 0 then 0 else -1) (ran (bytes "sysctl -w net.ipv4.ip_forward=1") h) -> runs (setup_ip_forward 1) h Q.
Proof. intros HQ. unfold setup_ip_forward. cbn [Z.eqb Pos.eqb]. hstep. apply runs_system. by hstep. Qed.

Definition nat_command (line : list byte) : list byte :=
  snprintf CMD_LEN (bytes "iptables -t nat -A POSTROUTING -s 10.10.0.0/24 -o " ++ cut_newline line ++ bytes " -j MASQUERADE").

Lemma setup_nat_runs route h Q :
  (forall line, route ≫= fgets 64 = Some line -> status 0 h = 0 -> forall text, Q 0 (ran (nat_command line) h <| printed ::= (fun l => l ++ text) |>)) ->
  (~ (is_Some (route ≫= fgets 64) /\ status 0 h = 0) -> forall h', Q (-1) h') -> runs (setup_nat route) h Q.
Proof.
  intros Hyes Hno. unfold setup_nat. destruct (route ≫= fgets 64) as [line|].
  2:{ hstep. apply Hno. by intros [[? ?] _]. }
  hstep. apply runs_system. destruct (Z.eqb_spec (status 0 h) 0) as [Hst|Hst]; cbn [negb]; hstep; [|apply Hno; by intros [_ ?]].
  hstep. hstep. by apply Hyes.
Qed.

Lemma tun_alloc_runs opened named h Q :
  (forall fd name, opened = Some fd -> named = Some name -> Q (Some (fd, snprintf IFNAMSIZ name)) h) ->
  (~ (is_Some opened /\ is_Some named) -> forall h', Q None h') -> runs (tun_alloc opened named) h Q.
Proof.
  intros Hyes Hno. unfold tun_alloc. destruct opened as [fd|]; [|hstep; apply Hno; by intros [[? ?] _]].
  destruct named as [name|]; [hstep; by apply Hyes|]. hstep. hstep. hstep. apply Hno. by intros [_ [? ?]].
Qed.

(** ** The key *)

Section start.
Context `{Sod : Sodium}.

Lemma write_all_total parts : forall w, runs (ServerKey.write_all parts) w (fun _ _ => True).
Proof.
  induction parts as [|q parts IH]; intros w; cbn [ServerKey.write_all]; [by apply runs_ret|].
  apply runs_bind. unfold ServerKey.fwrite. eexists _, _. split; [reflexivity|]. cbv beta. case_decide; [apply IH|by apply runs_ret].
Qed.

Lemma load_key_total drawn w : runs (ServerKey.load_or_create_server_key drawn) w (fun _ _ => True).
Proof.
  assert (Hc : forall w, runs (ServerKey.create_key drawn) w (fun _ _ => True)).
  { clear w. intros w. unfold ServerKey.create_key. destruct drawn as [[ed_sk ed_pk]|]; [|by apply runs_ret].
    destruct (sk_to_curve25519 ed_sk); [|by apply runs_ret]. destruct (pk_to_curve25519 ed_pk); [|by apply runs_ret].
    destruct (bool_decide _); [by apply runs_ret|]. apply runs_bind, runs_get. destruct (negb _); [by apply runs_ret|].
    apply runs_bind. unfold ServerKey.fopen_wb. apply runs_modify, runs_bind. eapply runs_conseq; [apply write_all_total|].
    intros ok w' _. cbv beta. apply runs_bind. unfold runs at 1, ServerKey.fclose. do 2 eexists. split; [reflexivity|]. cbv beta.
    destruct (negb _); [by apply runs_ret|]. by apply runs_bind, runs_modify, runs_ret. }
  unfold ServerKey.load_or_create_server_key. apply runs_bind, runs_get. destruct (ServerKey.key_file w); [|apply Hc].
  case_decide; [|apply Hc]. cbv zeta. destruct (sk_to_curve25519 _); [|by apply runs_ret].
  by apply runs_bind, runs_modify, runs_ret.
Qed.

(** ** main *)

Context `{!SodiumLaws Sod} (inet_aton : list byte -> option Z).

(** What start-up needs. *)
Record can_start (argv : list (list byte)) (r : replies) (h : host) : Prop := {
  cs_args : exists name ip port, argv = [name; ip; port] /\ is_Some (inet_aton ip) /\ exists n, numeral port n /\ 1 <= n <= 65535;
  cs_init : 0 <= sodium_init r /\ limiter_alloc r = true /\ mutex_init r = true;
  cs_forward : status 0 h = 0;
  cs_nat : is_Some (default_route r ≫= fgets 64) /\ status 1 h = 0;
  cs_tun : is_Some (tun_opened r) /\ is_Some (tun_named r);
  cs_key : exists k w, ServerKey.load_or_create_server_key (key_pair r) (keys h) = Ok (Some k, w);
  cs_socket : 0 <= socket r /\ reuse_addr r = true /\ bind r = true;
  cs_pool : is_Some (open_pool r);
}.

(** What the running program starts with. *)
Record launched (argv : list (list byte)) (r : replies) (h h' : host) (p : program) : Prop := {
  st_bind : exists name ip port a n, argv = [name; ip; port] /\ inet_aton ip = Some a /\ numeral port n /\ 1 <= n <= 65535 /\
    bind_addr p = {| sin_family := AF_INET; sin_addr := a; sin_port := htons n |};
  st_key : exists k w before, ServerKey.load_or_create_server_key (key_pair r) (keys h) = Ok (Some k, w) /\ keys h' = w /\
    g_server_sk p = ServerKey.sk k /\ Server.g_sign_sk (server p) = ServerKey.g_sign_sk w /\
    printed h' = before ++ key_banner (ServerKey.sign_pk k);
  st_commands : exists line name, default_route r ≫= fgets 64 = Some line /\ tun_named r = Some name /\
    log h' = log h ++ (System <$> [bytes "sysctl -w net.ipv4.ip_forward=1";
      snprintf CMD_LEN (bytes "iptables -t nat -A POSTROUTING -s 10.10.0.0/24 -o " ++ cut_newline line ++ bytes " -j MASQUERADE");
      bytes "ip addr add " ++ bytes "10.10.0.1/24" ++ bytes " dev " ++ take 15 name;
      bytes "ip link set " ++ take 15 name ++ bytes " up"]);
  st_pool : exists pool, g_thread_pool p = Some pool /\ num_threads pool = Z.max 2 (cpus r);
  st_loop : phase p = Looping /\ udp_sock p = socket r /\ tun_opened r = Some (tun_fd p) /\ epoll_fd p = epoll_create r;
  st_empty : sessions (server p) = replicate MAX_CLIENTS session_zero /\ trace (server p) = [];
}.

(** Every shard of the scheduler starts, which main does not check. *)
Definition shards_start (r : replies) : Prop := shard_starts r = replicate (Z.to_nat NUM_SHARDS) (true, true, true).

Lemma open_socket_runs r h Q :
  (forall h', keys h' = keys h -> printed h' = printed h -> ~ (0 <= socket r /\ reuse_addr r = true /\ bind r = true) -> Q None h') ->
  (0 <= socket r /\ reuse_addr r = true /\ bind r = true -> Q (Some (socket r)) h) -> runs (open_socket r) h Q.
Proof.
  intros Hno Hyes. unfold open_socket. destruct (Z.ltb_spec (socket r) 0); [hstep; apply Hno; [done..|lia]|].
  destruct (reuse_addr r); cbn [negb]; [|hstep; hstep; hstep; apply Hno; [done..|naive_solver]].
  destruct (bind r); cbn [negb]; hstep; [by apply Hyes|apply Hno; [done..|naive_solver]].
Qed.

Lemma open_pool_spec r pool epfd :
  open_pool r = Some (pool, epfd) ->
  epfd = epoll_create r /\ num_threads pool = Z.max 2 (cpus r) /\
  pool_rep ∅ pool (replicate (length (shards pool)) []) (replicate (length (shards pool)) []) /\ shutdown pool = false.
Proof.
  unfold open_pool. destruct (pool_allocs r) as [[a b] c]. set (n := if cpus r <? 2 then 2 else cpus r).
  assert (Hn : n = Z.max 2 (cpus r)) by (subst n; destruct (Z.ltb_spec (cpus r) 2); lia).
  destruct (thread_pool_create n a b c (pool_threads r)) as [pl|] eqn:E; [|done].
  destruct (_ =? -1); [done|]. destruct (_ || _); [done|]. intros [= <- <-]. split; [done|].
  destruct (create_rep _ _ _ _ _ _ E) as [Hrep _]. unfold thread_pool_create in E.
  destruct (Z.leb_spec n 0); [lia|]. destruct (negb a); [done|]. destruct (_ || _); [done|]. destruct (forallb _ _); [|done].
  injection E as <-. done.
Qed.

(** Once every call has succeeded the program is launched. *)
Lemma launch_ok t junk r kw k sock tun addr epfd pool prog :
  open_pool r = Some (pool, epfd) ->
  prog = {| server := boot t (default [] (ServerKey.g_sign_sk kw)) junk
              <| g_shards := init_global_scheduler 1024 (shard_starts r) |> <| g_sign_sk := ServerKey.g_sign_sk kw |>;
            job_nodes := ∅; g_thread_pool := Some pool;
            g_shutdown := Shutdown.graceful_shutdown_init Shutdown.CONFIG_GRACEFUL_SHUTDOWN_TIMEOUT_SEC;
            g_server_sk := k; bind_addr := addr; udp_sock := sock; tun_fd := tun; epoll_fd := epfd;
            last_cleanup := t; last_metric_report := t; phase := Looping; exited := []; local_time := time_zone r |} ->
  shards_start r -> length junk = SESSION_ID_LEN -> program_ok prog /\ shards_small (server prog).
Proof.
  intros Hpool -> Hshards Hj. destruct (open_pool_spec r pool epfd Hpool) as (_ & Hthreads & Hrep & Hsd).
  rewrite Hshards. destruct (boot_ok t (default [] (ServerKey.g_sign_sk kw)) junk Hj) as [[] Hsm].
  split; [|exact Hsm]. constructor; [by constructor|]. cbn [phase]. rewrite !bool_decide_false by done.
  exists pool, (replicate (length (shards pool)) []). split; [|done]. constructor; cbn; [done|by eexists|lia| |].
  - apply Forall_replicate. constructor.
  - intros j Hj'. by apply elem_of_nil in Hj'.
Qed.

(** What is promised of start-up's result. *)
Definition start_result (argv : list (list byte)) (r : replies) (junk : list byte) (h : host) (res : Z + program) (h' : host) : Prop :=
  match res with
  | inl rc => (rc = 1 \/ rc = -1) /\ ~ can_start argv r h
  | inr p => can_start argv r h /\ launched argv r h h' p /\
      (shards_start r -> length junk = SESSION_ID_LEN -> program_ok p /\ shards_small (server p))
  end.

Lemma start_runs argv r t junk h : runs (server_main inet_aton argv r t junk) h (start_result argv r junk h).
Proof.
  assert (Hno : forall rc h', rc = 1 \/ rc = -1 -> ~ can_start argv r h -> runs (mret (inl rc)) h' (start_result argv r junk h))
    by (intros; by apply runs_ret).
  destruct argv as [|name [|ip [|port [|? ?]]]]; try (apply Hno; [by left|intros [(? & ? & ? & ? & _) _ _ _ _ _ _ _]; done]).
  unfold server_main. destruct (inet_aton ip) as [addr|] eqn:Hip.
  2:{ apply Hno; [by left|]. intros [(? & ? & ? & [= <- <- <-] & [? ?] & _) _ _ _ _ _ _ _]. congruence. }
  destruct (parse_port port) as [n|] eqn:Hport.
  2:{ apply Hno; [by left|]. intros [(? & ? & ? & [= <- <- <-] & _ & n & Hn) _ _ _ _ _ _ _]. apply parse_port_spec in Hn. congruence. }
  pose proof Hport as Hnum%parse_port_spec.
  destruct ((sodium_init r <? 0) || negb (limiter_alloc r) || negb (mutex_init r)) eqn:Hinit.
  { apply Hno; [by left|]. intros [_ (H1 & H2 & H3) _ _ _ _ _ _]. rewrite H2, H3 in Hinit.
    destruct (Z.ltb_spec (sodium_init r) 0); [lia|done]. }
  hstep. apply setup_ip_forward_runs. destruct (Z.eqb_spec (status 0 h) 0) as [Hst0|Hst0]; cbn [Z.ltb Z.compare].
  2:{ apply Hno; [by right|]. by intros []. }
  hstep. apply setup_nat_runs; rewrite status_ran.
  2:{ intros Hnat h'. apply Hno; [by right|]. by intros []. }
  intros line Hroute Hst1 text. cbn [Z.ltb Z.compare]. hstep. apply tun_alloc_runs.
  2:{ intros Htun h'. apply Hno; [by left|]. by intros []. }
  intros tfd dev Hopen Hdev.
  hstep. apply setup_interface_runs; [unfold snprintf; rewrite length_take; unfold IFNAMSIZ; lia|].
  match goal with |- runs _ ?x _ => set (h1 := x); assert (Hk1 : keys h1 = keys h) by done end.
  destruct (load_key_total (key_pair r) (keys h)) as (k & kw & Hload & _). hstep.
  eapply runs_conseq with (Q := fun k' h' => k' = k /\ h' = h1 <| keys := kw |>).
  { eexists _, _. split; [|done]. unfold on_keys. by rewrite Hk1, Hload. }
  cbv beta. intros k' h2 [-> ->]. destruct k as [k|].
  2:{ apply Hno; [by left|]. intros [_ _ _ _ _ (k & w & H) _ _]. congruence. }
  hstep. hstep. hstep. apply open_socket_runs.
  { intros h' _ _ Hs. apply Hno; [by left|]. intros [_ _ _ _ _ _ ? _]. by apply Hs. }
  intros Hsock. destruct (open_pool r) as [[pool epfd]|] eqn:Hpool.
  2:{ apply Hno; [by left|]. intros [_ _ _ _ _ _ _ [? H]]. congruence. }
  hstep. hstep. hstep. destruct (open_pool_spec r pool epfd Hpool) as (-> & Hthreads & Hrep & Hsd).
  split; [|split].
  - constructor; [|..]; try done.
    + exists name, ip, port. split; [done|]. split; [by rewrite Hip|]. eauto.
    + destruct (Z.ltb_spec (sodium_init r) 0), (limiter_alloc r), (mutex_init r); cbn in Hinit; done.
    + by exists k, kw.
  - constructor.
    + exists name, ip, port, addr, n. split; [done|]. split; [done|]. split; [apply Hnum|]. split; [apply Hnum|done].
    + eexists k, kw, _. split; [done|]. split; [done|]. split; [done|]. split; [done|]. reflexivity.
    + exists line, dev. split; [done|]. split; [done|]. cbn. by rewrite <- !app_assoc.
    + by exists pool.
    + done.
    + done.
  - by eapply launch_ok.
Qed.

(** C20: the server starts exactly when it can: whatever its arguments and whatever each
    call of start-up returns, main is defined; it enters the loop if and only if every
    needed call succeeds and the port is a number from 1 to 65535, and otherwise exits
    with status 1 or -1; in the loop it has no session, the address and port of the command line,
    the keys of the key file, whose public half is what it printed, a pool of at least
    two workers, the commands run in order, and, when the scheduler's shards started, a
    well-formed state. *)
Theorem server_start_exact argv r t junk h :
  exists res h', server_main inet_aton argv r t junk h = Ok (res, h') /\
    match res with
    | inl rc => (rc = 1 \/ rc = -1) /\ ~ can_start argv r h
    | inr p => can_start argv r h /\ launched argv r h h' p /\
        (shards_start r -> length junk = SESSION_ID_LEN -> program_ok p /\ shards_small (server p))
    end.
Proof. apply start_runs. Qed.

(** C1: the server is safe outside the cases listed: once launched with every shard of
    the scheduler started, after any interleaving of permitted steps, each a turn of main
    or of the scheduler or the whole handling of a job by a worker, with any clock readings and any allocations and sends
    failing, the state is well-formed, each job queue within its bound, and every further
    permitted step is defined.  A step is not permitted, and may be undefined, when main
    reads a datagram of 6 to 29 bytes; when a worker runs a job whose payload opens under
    its session's key to what no honest peer sends; when a shard of the scheduler turns
    while some session in use has no queue, as after a rotation whose allocation failed;
    when a task heap holds 2^30 tasks or more; and when main, its workers all joined, tears
    down with a session still in use.  After main has returned no step is permitted. *)
Theorem program_safe argv r t junk h p0 h' p :
  server_main inet_aton argv r t junk h = Ok (inr p0, h') -> shards_start r -> length junk = SESSION_ID_LEN ->
  rtc program_step p0 p ->
  program_ok p /\
  forall v a, env_ok v (server p) -> permitted p a -> exists p', act v a p = Ok (tt, p') /\ program_step p p'.
Proof.
  intros Hmain Hshards Hj Hr. destruct (start_runs argv r t junk h) as (res & h1 & E & Hres). rewrite Hmain in E. injection E as <- <-.
  destruct Hres as (_ & _ & Hok). destruct (Hok Hshards Hj) as [Hp0 _]. pose proof (steps_ok p0 p Hr Hp0) as Hp.
  split; [done|]. intros v a Hv Ha. destruct (act_runs v a p Hp Hv Ha) as ([] & p' & E & _).
  exists p'. split; [done|]. by econstructor.
Qed.

End start.
