(* ===== verification/Numbers.v ===== *)
(** No sequence number is used twice: the data datagrams the server sends or keeps in
    its queues carry distinct pairs of session id and sequence number, so no two
    packets of a session are sealed under one nonce.

    The argument is a partial-correctness one.  [numbered] holds of the state between
    the operations; its list [P] holds the numbers allotted to a packet that has not
    been sent or queued yet, its bound [k] the numbers each session may still use, and
    its list [F] the session ids drawn and not used yet. *)

From stdpp Require Import list gmap.
From S2P Require Import Prelude State Partial ReplayWindow OutQueue TaskHeap RateLimiter Metrics Crypto Wire Fragment Server Handshake.
From S2P Require Import PacketProcessor Scheduler ThreadPool EventLoop ServerLogic HandshakeProofs DataPath Safety.
From S2P Require Shutdown.
Local Open Scope Z_scope.

(** ** The numbers in use *)

(** The session id and sequence number a data datagram carries in the clear. *)
Definition number : Type := list byte * Z.
Definition number_of (d : list byte) : option number :=
  if bool_decide (take sizeof_proto_header d = proto_bytes data_header)
  then Some (take SESSION_ID_LEN (drop sizeof_proto_header d),
             be_value (take 8 (drop (sizeof_proto_header + SESSION_ID_LEN) d)))
  else None.

Definition number_sent (e : event) : option number :=
  match e with UdpSend _ _ d => number_of d | _ => None end.

(** The numbers of the datagrams sent, and of those in the sessions' queues. *)
Definition sent (w : world) : list number := omap number_sent (trace w).
Definition in_queue (s : session_t) : list number :=
  match outq s with Some q => omap (fun d => number_of (pkt d)) (packets q) | None => [] end.
Definition used (w : world) : list number := sent w ++ (sessions w ≫= in_queue).

Lemma number_of_packet sid sq ct :
  length sid = SESSION_ID_LEN -> in_u64 sq -> number_of (data_packet sid sq ct) = Some (sid, sq).
Proof.
  intros Hs Hq. destruct (data_packet_fields sid sq ct Hs Hq) as (_ & E1 & E2 & _).
  unfold number_of. rewrite E1, E2, bool_decide_true; [done|]. unfold data_packet. by apply take_app_length'.
Qed.

Lemma number_of_msg2 `{Sodium} e ip sig : number_of (msg2_packet e ip sig) = None.
Proof. unfold number_of. by rewrite bool_decide_false. Qed.

(** ** The invariant *)

Record numbered (F : list (list byte)) (P : list number) (k : Z) (w : world) : Prop := {
  nb_once : NoDup (P ++ used w);
  nb_below i s q : sessions w !! i = Some s -> active s = true -> (session_id s, q) ∈ P ++ used w -> q < send_seq s;
  nb_apart i j s t : sessions w !! i = Some s -> sessions w !! j = Some t -> active s = true -> active t = true ->
    session_id s = session_id t -> i = j;
  nb_room i s : sessions w !! i = Some s -> active s = true ->
    length (session_id s) = SESSION_ID_LEN /\ 0 <= send_seq s /\ send_seq s + k < 2 ^ 64;
  nb_fresh f : f ∈ F -> length f = SESSION_ID_LEN /\ (forall q, (f, q) ∉ P ++ used w) /\
    (forall i s, sessions w !! i = Some s -> active s = true -> session_id s <> f);
}.

(** [s'] is in use only if [s] was, with the same id and counter. *)
Definition kin (s s' : session_t) : Prop :=
  active s' = true -> active s = true /\ session_id s' = session_id s /\ send_seq s' = send_seq s.

Lemma submseteq_NoDup {A} (l k : list A) : l ⊆+ k -> NoDup k -> NoDup l.
Proof. intros [m ->]%submseteq_Permutation. by intros (? & _ & _)%NoDup_app. Qed.

Lemma numbered_weaken F P k w F' P' k' w' :
  numbered F P k w -> F' ⊆ F -> k' <= k -> P' ++ used w' ⊆+ P ++ used w ->
  (forall i s', sessions w' !! i = Some s' -> exists s, sessions w !! i = Some s /\ kin s s') ->
  numbered F' P' k' w'.
Proof.
  intros [H1 H2 H3 H4 H5] HF Hk HP Hs. constructor.
  - by eapply submseteq_NoDup.
  - intros i s' q Hi Ha Hq. destruct (Hs i s' Hi) as (s & Hi' & Hkin). destruct (Hkin Ha) as (Ha' & Eid & ->).
    rewrite Eid in Hq. eapply H2; [done..|]. by eapply elem_of_submseteq.
  - intros i j s' t' Hi Hj Ha Hb E. destruct (Hs i s' Hi) as (s & Hi' & Hkin), (Hs j t' Hj) as (t & Hj' & Htin).
    destruct (Hkin Ha) as (? & ? & _), (Htin Hb) as (? & ? & _). eapply H3; [done..|congruence].
  - intros i s' Hi Ha. destruct (Hs i s' Hi) as (s & Hi' & Hkin). destruct (Hkin Ha) as (Ha' & -> & ->).
    destruct (H4 i s Hi' Ha') as (? & ? & ?). split; [done|lia].
  - intros f Hf. destruct (H5 f (HF f Hf)) as (Hl & Hno & Hid). split; [done|]. split.
    + intros q Hq. apply (Hno q). by eapply elem_of_submseteq.
    + intros i s' Hi Ha. destruct (Hs i s' Hi) as (s & Hi' & Hkin). destruct (Hkin Ha) as (Ha' & -> & _). by eapply Hid.
Qed.

Lemma kin_refl s : kin s s.
Proof. by intros H. Qed.

(** What is neither in the sessions nor in the trace does not matter, nor do the
    events that are not datagrams. *)
Lemma numbered_same F P k w w' :
  numbered F P k w -> sessions w' = sessions w -> sent w' = sent w -> numbered F P k w'.
Proof.
  intros H Es Et. eapply numbered_weaken; [done|done|lia| |].
  - unfold used. by rewrite Es, Et.
  - intros i s. rewrite Es. eauto using kin_refl.
Qed.

Lemma numbered_drop F F' P P' k k' w :
  numbered F P k w -> F' ⊆ F -> P' ⊆+ P -> k' <= k -> numbered F' P' k' w.
Proof.
  intros H HF HP Hk. eapply numbered_weaken; [done|done|lia| |eauto using kin_refl]. by apply submseteq_skips_r.
Qed.

(** ** Changing a slot *)

Lemma in_queue_insert (ss : list session_t) i s s' :
  ss !! i = Some s -> exists rest, (ss ≫= in_queue) ≡ₚ in_queue s ++ rest /\ (<[i := s']> ss ≫= in_queue) ≡ₚ in_queue s' ++ rest.
Proof.
  intros Hi. exists ((take i ss ++ drop (S i) ss) ≫= in_queue).
  rewrite insert_take_drop by (by eapply lookup_lt_Some). rewrite <- (take_drop_middle ss i s Hi) at 1.
  rewrite !bind_app. cbn [mbind list_bind]. split; solve_Permutation.
Qed.

Lemma in_queue_fmap f (ss : list session_t) : (forall s, in_queue (f s) = in_queue s) -> ((f <$> ss) ≫= in_queue) = (ss ≫= in_queue).
Proof. intros Hf. induction ss as [|s ss IH]; [done|]. cbn in *. by rewrite Hf, IH. Qed.

Lemma numbered_replace F P P' k w i s s' :
  numbered F P k w -> sessions w !! i = Some s -> kin s s' -> P' ++ in_queue s' ⊆+ P ++ in_queue s ->
  numbered F P' k (w <| sessions ::= <[i := s']> |>).
Proof.
  intros H Hi Hkin HP. eapply numbered_weaken; [done|done|lia| |].
  - destruct (in_queue_insert (sessions w) i s s' Hi) as (rest & E & E'). unfold used.
    change (sent (set sessions _ w)) with (sent w). cbn [sessions set]. rewrite E, E'.
    rewrite (Permutation_app_comm (sent w)), (Permutation_app_comm (sent w)), !app_assoc. by do 2 apply submseteq_skips_r.
  - intros j t. cbn [sessions set]. destruct (decide (i = j)) as [<-|Hne].
    + rewrite list_lookup_insert_eq by (by eapply lookup_lt_Some). intros [= <-]. eauto.
    + rewrite list_lookup_insert_ne by done. eauto using kin_refl.
Qed.

(** A number is taken: the counter moves past it. *)
Lemma numbered_next F P k w i s :
  numbered F P (1 + k) w -> 0 <= k -> sessions w !! i = Some s -> active s = true ->
  numbered F ((session_id s, send_seq s) :: P) k (w <| sessions ::= <[i := s <| send_seq := u64 (send_seq s + 1) |>]> |>).
Proof.
  intros [H1 H2 H3 H4 H5] Hk Hi Ha. destruct (H4 i s Hi Ha) as (Hl & Hq0 & Hq).
  rewrite u64_small by (unfold in_u64; lia). set (s' := s <| send_seq := send_seq s + 1 |>).
  set (w' := w <| sessions ::= _ |>). assert (Hu : used w' ≡ₚ used w).
  { destruct (in_queue_insert (sessions w) i s s' Hi) as (rest & E & E'). unfold used.
    change (sent w') with (sent w). cbn [w' sessions set]. by rewrite E, E'. }
  assert (Hs : forall j t, sessions w' !! j = Some t -> j = i /\ t = s' \/ j <> i /\ sessions w !! j = Some t).
  { intros j t. cbn [w' sessions set]. destruct (decide (i = j)) as [<-|Hne].
    - rewrite list_lookup_insert_eq by (by eapply lookup_lt_Some). intros [= <-]. by left.
    - rewrite list_lookup_insert_ne by done. by right. }
  constructor.
  - rewrite Hu. apply NoDup_cons. split; [|done]. intros Hin. pose proof (H2 i s _ Hi Ha Hin). lia.
  - intros j t q Hj Hb. rewrite Hu. intros [Eq|Hin]%elem_of_cons.
    + injection Eq as Eid ->. destruct (Hs j t Hj) as [[-> ->]|[Hne Hj']]; [cbn; lia|]. by destruct Hne; eapply H3.
    + destruct (Hs j t Hj) as [[-> ->]|[_ Hj']]; [|by eapply H2]. pose proof (H2 i s q Hi Ha Hin). cbn. lia.
  - intros j j' t t' Hj Hj' Hb Hb' E. destruct (Hs j t Hj) as [[-> ->]|[_ Ht]], (Hs j' t' Hj') as [[-> ->]|[_ Ht']];
      [done| | |]; eapply H3; done.
  - intros j t Hj Hb. destruct (Hs j t Hj) as [[-> ->]|[_ Ht]]; [cbn; split; [done|lia]|].
    destruct (H4 j t Ht Hb) as (? & ? & ?). split; [done|lia].
  - intros f Hf. destruct (H5 f Hf) as (Hlf & Hno & Hid). split; [done|]. split.
    + intros q. rewrite Hu. intros [Eq|Hin]%elem_of_cons; [|by eapply Hno]. injection Eq as -> _. by eapply Hid.
    + intros j t Hj Hb. destruct (Hs j t Hj) as [[-> ->]|[_ Ht]]; [cbn|]; by eapply Hid.
Qed.

(** ** Operations that touch no number *)

Abbreviation quiet m := (forall F P k, preserves (numbered F P k) m).

(** A change elsewhere in the state. *)
Lemma quiet_modify f : (forall w, sessions (f w) = sessions w /\ trace (f w) = trace w) -> quiet (modify f).
Proof.
  intros Hf F P k. apply holds_modify. intros w H. destruct (Hf w) as [Es Et].
  eapply numbered_same; [done|done|]. unfold sent. by rewrite Et.
Qed.
(** Locking changes nothing. *)
Lemma preserves_lock (I : world -> Prop) : preserves I lock_metrics.
Proof. intros w [] w' Hw E. unfold lock_metrics in E. destruct (metrics_lock w); [by injection E as <-|done]. Qed.
#[export] Hint Resolve preserves_lock : preserves.

Lemma holds_metric (I : world -> Prop) f (Q : unit -> world -> Prop) :
  (forall w, I w -> Q tt (w <| global_metrics ::= f |>)) -> holds I (metric f) Q.
Proof. intros Hf. eapply holds_bind; [apply preserves_lock|]. intros a. by apply holds_modify. Qed.

Lemma quiet_metric f : quiet (metric f).
Proof. intros F P k. apply holds_metric. intros w Hw. by eapply numbered_same. Qed.

Lemma sent_snoc w e : sent (w <| trace ::= (fun t => t ++ [e]) |>) = sent w ++ option_list (number_sent e).
Proof. unfold sent. cbn [trace set]. rewrite omap_app. cbn. by destruct (number_sent e). Qed.

Lemma quiet_emit e : number_sent e = None -> quiet (emit e).
Proof.
  intros He F P k. apply holds_modify. intros w H. eapply numbered_same; [done|done|].
  rewrite sent_snoc, He. apply app_nil_r.
Qed.

Lemma quiet_malloc : quiet malloc.
Proof.
  intros F P k w b w' Hw E. unfold malloc in E. destruct (mallocs w); injection E as <- <-; [done|].
  by eapply numbered_same.
Qed.

Lemma quiet_session i : quiet (session i).
Proof. intros F P k w s w' Hw E. unfold session in E. destruct (sessions w !! i); [by injection E as <- <-|done]. Qed.

(** An assignment that keeps the numbers. *)
Definition keeps (f : session_t -> session_t) : Prop := forall s, kin s (f s) /\ in_queue (f s) ⊆+ in_queue s.

Lemma quiet_update i f : keeps f -> quiet (update i f).
Proof.
  intros Hf F P k w [] w' Hw E. unfold update in E. destruct (sessions w !! i) as [s|] eqn:Hi; [|done]. injection E as <-.
  destruct (Hf s) as [Hkin Hq]. eapply numbered_replace; [done..|]. by apply submseteq_skips_l.
Qed.

Lemma quiet_next_packet_id : quiet fragment_next_packet_id.
Proof.
  intros F P k w id w' Hw E. unfold fragment_next_packet_id in E. destruct (_ =? 0); injection E as <- <-; by eapply numbered_same.
Qed.

(** Assignments to fields that are not the id, the counter or the queue; closing a
    slot; emptying its queue. *)
Ltac keeps_numbers := intros ?; split; [by intros ?|done || by apply submseteq_nil_l].

#[export] Hint Resolve quiet_metric quiet_malloc quiet_session quiet_next_packet_id : preserves.
#[export] Hint Extern 1 (preserves (numbered _ _ _) (update _ _)) => apply quiet_update; keeps_numbers : preserves.
#[export] Hint Extern 2 (preserves (numbered _ _ _) (modify _)) => apply quiet_modify; intros ?; by split : preserves.
#[export] Hint Extern 1 (preserves (numbered _ _ _) (emit _)) => by apply quiet_emit : preserves.

Lemma quiet_session_by_id sid : quiet (session_by_id sid).
Proof. unfold session_by_id. preserves. Qed.
Lemma quiet_session_by_vpnip ip : quiet (session_by_vpnip ip).
Proof. unfold session_by_vpnip. preserves. Qed.
Lemma quiet_allocate : quiet allocate_session.
Proof. unfold allocate_session. preserves. Qed.
Lemma quiet_assign_ip i : quiet (assign_vpn_ip_to_session i).
Proof. unfold assign_vpn_ip_to_session. preserves. Qed.
Lemma quiet_free i : quiet (free_session i).
Proof. unfold free_session. preserves. Qed.
Lemma quiet_replace_old i src : quiet (replace_old_session i src).
Proof. unfold replace_old_session. preserves. Qed.
Lemma quiet_shard_push k task : quiet (shard_push k task).
Proof. unfold shard_push. preserves. Qed.
#[export] Hint Resolve quiet_session_by_id quiet_session_by_vpnip quiet_allocate quiet_assign_ip quiet_free
  quiet_replace_old quiet_shard_push : preserves.
Lemma quiet_add_session sid : quiet (scheduler_add_session sid).
Proof. unfold scheduler_add_session. preserves. Qed.
Lemma quiet_limit ph src : quiet (limit_packet ph src).
Proof. unfold limit_packet. preserves. Qed.
Lemma quiet_handle_plain i plain : quiet (handle_plain i plain).
Proof. unfold handle_plain. preserves. Qed.
#[export] Hint Resolve quiet_add_session quiet_limit quiet_handle_plain : preserves.

Section numbers.
Context `{Sod : Sodium} `{!SodiumLaws Sod}.

Lemma quiet_handle_data i buf : quiet (handle_data i buf).
Proof. unfold handle_data. preserves. Qed.
#[local] Hint Resolve quiet_handle_data : preserves.

(** ** Sending and queueing *)

Lemma sendto_spends F P k sock d dst :
  holds (numbered F (option_list (number_of d) ++ P) k) (sendto sock d dst) (fun _ => numbered F P k).
Proof.
  intros w b w' Hw E. assert (Hsent : numbered F P k (w <| trace ::= (fun t => t ++ [UdpSend sock dst d]) |>)).
  { eapply numbered_weaken; [exact Hw|done|lia| |eauto using kin_refl].
    unfold used. rewrite sent_snoc. cbn [number_sent]. change (sessions (set trace _ w)) with (sessions w).
    rewrite (Permutation_app_comm (sent w)), !app_assoc, (Permutation_app_comm P). done. }
  assert (Hnot : numbered F P k w) by (eapply numbered_drop; [exact Hw|done|by apply submseteq_inserts_l|lia]).
  unfold sendto in E. destruct (sends w) as [|[] bs]; injection E as <- <-; [done|by apply (numbered_same _ _ _ _ _ Hsent)|].
  by apply (numbered_same _ _ _ _ _ Hnot).
Qed.

(** A datagram without a number may be sent at any time. *)
Lemma quiet_sendto sock d dst : number_of d = None -> quiet (sendto sock d dst).
Proof. intros E F P k. pose proof (sendto_spends F P k sock d dst) as H. rewrite E in H. exact H. Qed.

Lemma holds_update I i f (Q : unit -> world -> Prop) :
  (forall w s, I w -> sessions w !! i = Some s -> Q tt (w <| sessions ::= <[i := f s]> |>)) -> holds I (update i f) Q.
Proof.
  intros H w [] w' Hw E. unfold update in E. destruct (sessions w !! i) as [s|] eqn:Hi; [|done]. injection E as <-. by apply H.
Qed.

(** The slot read is named in what follows. *)
Lemma holds_session {A} I i (k : session_t -> ST world A) Q :
  (forall s, holds (fun w => I w /\ sessions w !! i = Some s) (k s) Q) -> holds I (session i ≫= k) Q.
Proof.
  intros H. eapply holds_bind; [|exact H]. intros w s w' Hw E. unfold session in E.
  destruct (sessions w !! i) as [t|] eqn:Hi; [|done]. injection E as <- <-. by split.
Qed.

Lemma tl_submseteq {A} (l : list A) : List.tl l ⊆+ l.
Proof. destruct l; [done|]. by apply submseteq_cons. Qed.

Lemma aq_push_numbers d q :
  omap (fun d => number_of (pkt d)) (packets (aq_push d q)) ⊆+
  option_list (number_of (pkt d)) ++ omap (fun d => number_of (pkt d)) (packets q).
Proof.
  assert (H : packets (aq_push d q) ⊆+ d :: packets q).
  { unfold aq_push, packets. destruct (priority d); cbn [set_lane lane high normal]; destruct (aq_full _ _).
    1,2: rewrite <- app_assoc; cbn [app]; rewrite <- Permutation_middle; apply submseteq_skip, submseteq_skips_r.
    3,4: rewrite app_assoc, <- Permutation_cons_append; apply submseteq_skip, submseteq_skips_l.
    all: try done; apply tl_submseteq. }
  apply submseteq_Permutation in H as [r Hr]. transitivity (omap (fun d => number_of (pkt d)) (d :: packets q)).
  - rewrite Hr, omap_app. by apply submseteq_inserts_r.
  - cbn. by destruct (number_of (pkt d)).
Qed.

(** The packet takes its place in the queue, or is dropped. *)
Lemma queue_push_spends F P k i pk sq ip :
  holds (numbered F (option_list (number_of pk) ++ P) k) (queue_push i pk sq ip) (fun _ => numbered F P k).
Proof.
  assert (Hdrop : forall w, numbered F (option_list (number_of pk) ++ P) k w -> numbered F P k w).
  { intros w Hw. eapply numbered_drop; [exact Hw|done|by apply submseteq_inserts_l|lia]. }
  unfold queue_push. apply holds_session. intros s. destruct (outq s) as [q|] eqn:Hq.
  2:{ apply holds_ret. intros w [Hw _]. by apply Hdrop. }
  set (I := fun w => numbered F (option_list (number_of pk) ++ P) k w /\ sessions w !! i = Some s).
  assert (HI : forall w w', I w -> sessions w' = sessions w -> sent w' = sent w -> I w').
  { intros w w' [Hw Hi] Es Et. split; [by eapply numbered_same|congruence]. }
  apply (holds_after I); [by apply preserves_lift|]. intros prio. apply (holds_after I).
  { intros w b w' Hw E. unfold malloc in E. destruct (mallocs w); injection E as <- <-; [done|by eapply HI]. }
  intros ok. destruct ok; cbn [negb]; [|apply holds_ret; intros w [Hw _]; by apply Hdrop].
  apply (holds_after I).
  { apply preserves_when. apply holds_metric. intros w Hw. by eapply HI. }
  intros _. apply holds_update. intros w s' [Hw Hi] Hi'. assert (s' = s) as -> by congruence.
  eapply numbered_replace; [exact Hw|done|by intros ?|]. unfold in_queue at 1. cbn [outq set].
  rewrite (Permutation_app_comm _ P), <- app_assoc. apply submseteq_skips_l. unfold in_queue. rewrite Hq. apply aq_push_numbers.
Qed.

(** A packet taken from the queue has its number to itself until it is sent; an empty
    queue changes nothing. *)
Lemma queue_pop_allots F P k i (R : world -> Prop) :
  holds (fun w => numbered F P k w /\ R w) (queue_pop i) (fun r w =>
    match r with Some d => numbered F (option_list (number_of (pkt d)) ++ P) k w | None => numbered F P k w /\ R w end).
Proof.
  unfold queue_pop. apply holds_session. intros s. destruct (outq s) as [q|] eqn:Hq; [|by apply holds_lift].
  destruct (aq_pop q) as [[d q']|] eqn:Hpop; [|apply holds_ret; by intros w [Hw _]].
  eapply holds_seq; [|by apply (holds_ret (numbered F (option_list (number_of (pkt d)) ++ P) k))].
  apply holds_update. intros w s' [[Hw _] Hi] Hi'. assert (s' = s) as -> by congruence.
  eapply numbered_replace; [exact Hw|done|by intros ?|]. unfold in_queue. rewrite Hq. cbn [outq set].
  rewrite (aq_pop_Some d q q' Hpop). cbn. rewrite (Permutation_app_comm _ P), <- app_assoc.
  apply submseteq_skips_l. by destruct (number_of (pkt d)).
Qed.

(** ** Operations that use numbers *)

(** [m] takes at most [n] numbers of a session, and sends, queues or drops each. *)
Definition spends (n : Z) {A} (m : ST world A) : Prop :=
  forall F P k, 0 <= k -> holds (numbered F P (n + k)) m (fun _ => numbered F P k).

Lemma numbered_less F P k k' w : numbered F P k w -> k' <= k -> numbered F P k' w.
Proof. intros H Hk. by eapply numbered_drop. Qed.

Lemma spends_quiet n {A} (m : ST world A) : 0 <= n -> quiet m -> spends n m.
Proof. intros Hn Hm F P k Hk. eapply holds_pre; [apply (Hm F P k)|]. intros w Hw. eapply numbered_less; [done|lia]. Qed.

Lemma spends_less n n' {A} (m : ST world A) : spends n m -> n <= n' -> spends n' m.
Proof. intros Hm Hn F P k Hk. eapply holds_pre; [by apply (Hm F P k)|]. intros w Hw. eapply numbered_less; [done|lia]. Qed.

Lemma spends_bind n n' {A B} (m : ST world A) (f : A -> ST world B) :
  0 <= n' -> spends n m -> (forall a, spends n' (f a)) -> spends (n + n') (m ≫= f).
Proof.
  intros Hn Hm Hf F P k Hk. rewrite <- Z.add_assoc. eapply holds_bind; [apply Hm; lia|]. intros a. by apply Hf.
Qed.

Lemma spends_for n i body : (forall j, spends 1 (body j)) -> spends (Z.of_nat n) (for_from i n body).
Proof.
  intros Hb F P k Hk. apply (holds_for (fun m => numbered F P (Z.of_nat m + k))). intros j m.
  replace (Z.of_nat (S m) + k) with (1 + (Z.of_nat m + k)) by lia. apply Hb. lia.
Qed.

(** The number [next_seq] returns, and the slot it leaves. *)
Definition allotted F P k i s (q : Z) (w : world) : Prop :=
  (forall ct, number_of (data_packet (session_id s) q ct) = Some (session_id s, q)) /\
  numbered F ((session_id s, q) :: P) k w /\ sessions w !! i = Some (s <| send_seq := u64 (q + 1) |>).

Lemma next_seq_allots F P k i s :
  0 <= k -> active s = true ->
  holds (fun w => numbered F P (1 + k) w /\ sessions w !! i = Some s) (next_seq i) (allotted F P k i s).
Proof.
  intros Hk Ha w q w' [Hw Hi] E. rewrite (next_seq_run w i s Hi) in E. injection E as <- <-.
  destruct (nb_room _ _ _ _ Hw i s Hi Ha) as (Hl & H0 & Hmax). split; [|split].
  - intros ct. apply number_of_packet; [done|unfold in_u64; lia].
  - by apply numbered_next.
  - cbn [sessions set]. apply list_lookup_insert_eq. by eapply lookup_lt_Some.
Qed.

(** From an allotted number on: it is given up, or goes into one data packet. *)
Lemma holds_allotted F P k i s q {A} (m : ST world A) (Q : A -> world -> Prop) :
  ((forall ct, number_of (data_packet (session_id s) q ct) = Some (session_id s, q)) ->
   holds (numbered F ((session_id s, q) :: P) k) m Q) -> holds (allotted F P k i s q) m Q.
Proof.
  intros Hm. apply (holds_fact (forall ct, number_of (data_packet (session_id s) q ct) = Some (session_id s, q))); [by intros w []|].
  intros Hnum. eapply holds_pre; [by apply Hm|by intros w (_ & H & _)].
Qed.

Lemma unspent F P k n {A} (a : A) : holds (numbered F (n :: P) k) (mret a) (fun _ => numbered F P k).
Proof. apply holds_ret. intros w Hw. eapply numbered_drop; [exact Hw|done|by apply submseteq_cons|lia]. Qed.

Lemma send_data_spends F P k sock sid q ct dst :
  number_of (data_packet sid q ct) = Some (sid, q) ->
  holds (numbered F ((sid, q) :: P) k) (_ ← sendto sock (data_packet sid q ct) dst; mret tt) (fun _ => numbered F P k).
Proof.
  intros E. pose proof (sendto_spends F P k sock (data_packet sid q ct) dst) as H. rewrite E in H.
  eapply holds_seq; [exact H|]. by apply holds_ret.
Qed.

Lemma send_control_packet_spends sock i ctrl : spends 1 (send_control_packet sock i ctrl).
Proof.
  intros F P k Hk. assert (Hno : holds (numbered F P (1 + k)) (mret tt) (fun _ => numbered F P k)).
  { apply holds_ret. intros w Hw. eapply numbered_less; [done|lia]. }
  unfold send_control_packet. apply holds_session. intros s. destruct (active s) eqn:Ha; cbn [negb].
  2:{ by eapply holds_pre; [exact Hno|intros w []]. }
  destruct (_ || _); [by eapply holds_pre; [exact Hno|intros w []]|].
  eapply holds_bind; [by apply next_seq_allots|]. intros q.
  apply holds_allotted. intros Hnum. apply holds_after; [preserves|]. intros junk. apply holds_after; [preserves|].
  intros [ct|]; [|apply unspent]. destruct (_ <? _); [apply unspent|]. by apply send_data_spends.
Qed.

Lemma send_keepalive_spends F P k i s :
  0 <= k -> active s = true ->
  holds (fun w => numbered F P (1 + k) w /\ sessions w !! i = Some s) (send_keepalive_to_client i) (fun _ => numbered F P k).
Proof.
  intros Hk Ha. unfold send_keepalive_to_client. apply holds_session. intros s'.
  apply (holds_fact (s' = s)); [intros w [[_ H] H']; congruence|]. intros ->.
  eapply holds_bind; [eapply holds_pre; [by apply next_seq_allots|by intros w []]|]. intros q.
  apply holds_allotted. intros Hnum. apply holds_after; [preserves|]. intros [ct|]; [|apply unspent].
  apply holds_after; [preserves|]. intros []; cbn [negb]; [|apply unspent]. by apply send_data_spends.
Qed.

(** Slot [i] is in use. *)
Definition live (i : nat) (w : world) : Prop := exists s, sessions w !! i = Some s /\ active s = true.

Lemma live_same i w w' : sessions w' = sessions w -> live i w -> live i w'.
Proof. intros E (s & Hi & Ha). exists s. by rewrite E. Qed.

Lemma live_update i j f : (forall s, active (f s) = active s) -> preserves (live i) (update j f).
Proof.
  intros Hf. apply holds_update. intros w s (t & Hi & Ha) Hj. unfold live. cbn [sessions set]. destruct (decide (j = i)) as [->|Hne].
  - rewrite list_lookup_insert_eq by (by eapply lookup_lt_Some). eexists. split; [done|]. rewrite Hf. congruence.
  - rewrite list_lookup_insert_ne by done. eauto.
Qed.

Lemma live_malloc i : preserves (live i) malloc.
Proof. intros w b w' Hw E. unfold malloc in E. destruct (mallocs w); injection E as <- <-; [done|exact Hw]. Qed.
Lemma live_session i j : preserves (live i) (session j).
Proof. intros w s w' Hw E. unfold session in E. destruct (sessions w !! j); [by injection E as <- <-|done]. Qed.
Lemma live_sendto i sock d dst : preserves (live i) (sendto sock d dst).
Proof. intros w b w' Hw E. unfold sendto in E. destruct (sends w) as [|[] bs]; injection E as <- <-; exact Hw. Qed.
Lemma live_metric i f : preserves (live i) (metric f).
Proof. apply holds_metric. by intros w Hw. Qed.
#[local] Hint Resolve live_malloc live_session live_sendto live_metric : preserves.
#[local] Hint Extern 1 (preserves (live _) (update _ _)) => by apply live_update : preserves.

Lemma live_next_seq i j : preserves (live i) (next_seq j).
Proof. unfold next_seq. preserves. Qed.
Lemma live_queue_push i j pk sq ip : preserves (live i) (queue_push j pk sq ip).
Proof. unfold queue_push. preserves. Qed.
#[local] Hint Resolve live_next_seq live_queue_push : preserves.
Lemma live_outbound i body n ip : preserves (live i) (send_outbound_packet i body n ip).
Proof. unfold send_outbound_packet. preserves. Qed.

Lemma send_outbound_spends F P k i body n ip :
  0 <= k -> holds (fun w => numbered F P (1 + k) w /\ live i w) (send_outbound_packet i body n ip)
    (fun _ w => numbered F P k w /\ live i w).
Proof.
  intros Hk. set (I := fun s w => numbered F P (1 + k) w /\ sessions w !! i = Some s /\ active s = true).
  eapply (holds_conseq _ (fun w => (exists s, I s w) /\ live i w)); [apply (holds_and _ _ _ (fun _ => numbered F P k) (fun _ => live i)); [|apply live_outbound]| |done].
  2:{ intros w [Hw (s & Hs)]. split; by exists s. }
  apply holds_ex. intros s. apply (holds_fact (active s = true)); [by intros w (_ & _ & H)|]. intros Ha.
  unfold send_outbound_packet. eapply holds_bind.
  { eapply holds_pre; [by apply (next_seq_allots F P k i s)|by intros w (? & ? & _)]. }
  intros q. apply holds_session. intros s'. apply (holds_fact (session_id s' = session_id s)).
  { intros w [(_ & _ & H) H']. rewrite H in H'. by injection H' as <-. }
  intros Esid. eapply (holds_pre _ (allotted F P k i s q)); [|by intros w []]. apply holds_allotted. intros Hnum.
  do 3 (apply holds_after; [preserves|]; intros ?). destruct a1 as [ct|]; [|apply unspent].
  apply holds_after; [preserves|]. intros []; cbn [negb]; [|apply unspent]. rewrite Esid. case_bool_decide.
  - pose proof (queue_push_spends F P k i (data_packet (session_id s) q ct) q ip) as H1. by rewrite Hnum in H1.
  - by apply send_data_spends.
Qed.

Lemma fragment_loop_spends fuel : forall F P k i id off ip,
  0 <= k -> holds (fun w => numbered F P (Z.of_nat fuel + k) w /\ live i w) (fragment_loop fuel i id off ip)
    (fun _ => numbered F P k).
Proof.
  induction fuel as [|fuel IH]; intros F P k i id off ip Hk; cbn [fragment_loop]; (destruct (_ <? _);
    [|apply holds_ret; intros w [Hw _]; eapply numbered_less; [done|lia]]); [by apply holds_lift|].
  set (I := fun w => numbered F P (1 + (Z.of_nat fuel + k)) w /\ live i w).
  eapply (holds_pre _ I); [|intros w [Hw Hl]; split; [eapply numbered_less; [done|lia]|done]].
  assert (HI : forall A (m : ST world A), quiet m -> preserves (live i) m -> preserves I m).
  { intros A m Hq Hl. apply (holds_and _ _ _ (fun _ => numbered F P (1 + (Z.of_nat fuel + k))) (fun _ => live i)); [apply Hq|apply Hl]. }
  apply holds_after; [apply HI; preserves|]. intros s. destruct (_ <? _); [by apply holds_lift|].
  do 3 (apply holds_after; [apply HI; preserves|]; intros ?). eapply holds_seq; [apply send_outbound_spends; lia|]. by apply IH.
Qed.

(** The session found is in use. *)
Lemma holds_by_id {A} I sid (k : option nat -> ST world A) Q :
  holds I (k None) Q ->
  (forall i s, active s = true -> holds (fun w => I w /\ sessions w !! i = Some s) (k (Some i)) Q) ->
  holds I (session_by_id (Ok sid) ≫= k) Q.
Proof.
  intros Hn Hs w a w' Hw E. unfold session_by_id, mbind, ST_bind, get, lift in E.
  destruct (scan_id (Ok sid) (sessions w)) as [[i|]|] eqn:Hsc; [|by eapply Hn|done].
  destruct (scan_id_found _ _ _ Hsc) as (s & Hi & Ha & _). by eapply (Hs i s Ha w).
Qed.

Lemma holds_by_ip {A} I ip (k : option nat -> ST world A) Q :
  holds I (k None) Q -> (forall i, holds (fun w => I w /\ live i w) (k (Some i)) Q) ->
  holds I (session_by_vpnip ip ≫= k) Q.
Proof.
  intros Hn Hs w a w' Hw E. unfold session_by_vpnip, mbind, ST_bind, get, mret, ST_ret in E.
  destruct (first_index _ (sessions w)) as [i|] eqn:Hf; [|by eapply Hn].
  apply first_index_Some in Hf as (s & Hi & Hp & _). apply andb_true_iff in Hp as [Ha _].
  eapply (Hs i w); [|exact E]. split; [done|]. by exists s.
Qed.

Lemma handle_outbound_spends ip : spends (Z.of_nat (length ip)) (handle_outbound_tun_buf ip).
Proof.
  intros F P k Hk. unfold handle_outbound_tun_buf.
  assert (Hno : holds (numbered F P (Z.of_nat (length ip) + k)) (mret tt) (fun _ => numbered F P k)).
  { apply holds_ret. intros w Hw. eapply numbered_less; [done|lia]. }
  case_decide; [done|]. apply holds_by_ip; [done|]. intros i.
  apply holds_after; [|intros id; by apply fragment_loop_spends].
  apply (holds_and _ _ _ (fun _ => numbered F P (Z.of_nat (length ip) + k)) (fun _ => live i)); [apply quiet_next_packet_id|].
  intros w id w' Hw E. unfold fragment_next_packet_id in E. destruct (_ =? 0); injection E as <- <-; exact Hw.
Qed.

(** ** The scheduler *)

Lemma quiet_drain_queue fuel i : quiet (drain_queue fuel i).
Proof.
  induction fuel as [|fuel IH]; intros F P k; cbn [drain_queue];
    (eapply holds_bind; [eapply holds_pre; [apply (queue_pop_allots F P k i (fun _ => True))|done]|]);
    (intros [d|]; [|apply holds_ret; by intros w []]); [by apply holds_lift|].
  apply holds_after; [preserves|]. intros s. eapply holds_seq; [apply sendto_spends|]. eapply holds_seq; [apply IH|by apply holds_ret].
Qed.

(** The dummy packet built in the session's buffer is a data packet. *)
Lemma dummy_number i s q out b1 b :
  live_ok i s -> memcpy (final_pkt_dummy s) (Z.to_nat (static_hdr_len s)) (be_bytes 8 q) = Ok b1 ->
  memcpy b1 (Z.to_nat (static_hdr_len s) + 8) out = Ok b ->
  take (Z.to_nat (static_hdr_len s) + 8 + length out) b = data_packet (session_id s) q out.
Proof.
  intros [_ _ -> _ [Hready _]] E1 E2. pose proof (length_memcpy _ _ _ _ E1) as Hl1.
  assert (Hfit : (30 + length out <= length (final_pkt_dummy s))%nat).
  { unfold memcpy in E2. case_decide; [|done]. rewrite <- Hl1. exact H. }
  destruct (packet_in_buffer _ (session_id s) out q Hready Hfit) as (c1 & c & F1 & F2 & E & _).
  change (Z.to_nat 22) with 22%nat in *. change (22 + 8)%nat with 30%nat in *. congruence.
Qed.

(** What the sessions in use are ready to send. *)
Definition ready (w : world) : Prop := forall i s, sessions w !! i = Some s -> active s = true -> live_ok i s.

Lemma world_ready w : world_ok w -> ready w.
Proof. intros Hw i s Hi. apply (ok_sess w Hw i s Hi). Qed.

Lemma send_dummy_spends F P k i s :
  0 <= k -> active s = true ->
  holds (fun w => numbered F P (1 + k) w /\ ready w /\ sessions w !! i = Some s) (send_dummy i) (fun _ => numbered F P k).
Proof.
  intros Hk Ha. unfold send_dummy. apply holds_session. intros s'.
  apply (holds_fact (s' = s /\ live_ok i s)).
  { intros w [(_ & Hw & Hi) Hi']. split; [congruence|]. by apply Hw. }
  intros [-> Hlive]. eapply holds_bind; [eapply holds_pre; [by apply (next_seq_allots F P k i s)|by intros w [(? & _ & ?) _]]|].
  intros q. apply holds_allotted. intros Hnum. apply holds_after; [preserves|]. intros pt.
  apply holds_after; [preserves|]. intros [out|]; [|apply unspent].
  apply holds_lifted. intros b1 E1. apply holds_lifted. intros b E2.
  apply holds_after; [preserves|]. intros _. rewrite (dummy_number i s q out b1 b Hlive E1 E2). by apply send_data_spends.
Qed.

Lemma execute_send_spends F P k sid :
  0 <= k -> holds (fun w => numbered F P (1 + k) w /\ ready w) (execute_send sid) (fun _ => numbered F P k).
Proof.
  intros Hk. unfold execute_send.
  assert (Hless : forall w, numbered F P (1 + k) w -> numbered F P k w) by (intros w Hw; eapply numbered_less; [done|lia]).
  apply holds_by_id; [apply holds_ret; intros w [Hw _]; by apply Hless|]. intros i s Ha. apply holds_session. intros s'.
  apply (holds_fact (s' = s)); [intros w [[_ H] H']; congruence|]. intros ->. case_bool_decide.
  - eapply holds_bind.
    { eapply holds_pre; [apply (queue_pop_allots F P (1 + k) i (fun w => ready w /\ sessions w !! i = Some s))|]. by intros w [[[? ?] ?] _]. }
    intros [d|].
    + eapply holds_seq; [apply sendto_spends|]. apply holds_ret. auto.
    + eapply holds_seq; [by apply (send_dummy_spends F P k i s)|]. by apply holds_ret.
  - eapply holds_pre; [|intros w [[[Hw _] _] _]; exact Hw]. apply holds_after; [apply quiet_drain_queue|]. intros [].
    + eapply holds_seq; [apply holds_ret; exact Hless|]. by apply holds_ret.
    + eapply holds_seq; [|by apply (holds_ret (numbered F P k))]. apply holds_after; [preserves|]. intros t. destruct (_ && _).
      * eapply holds_seq; [by apply send_control_packet_spends|]. preserves.
      * apply holds_ret. exact Hless.
Qed.

Lemma scheduler_turn_spends F P k n :
  0 <= k -> holds (fun w => numbered F P (1 + k) w /\ ready w) (scheduler_turn n) (fun _ => numbered F P k).
Proof.
  intros Hk. set (I := fun w => numbered F P (1 + k) w /\ ready w).
  assert (Hret : forall A (a : A), holds I (mret a) (fun _ => numbered F P k)).
  { intros A a. apply holds_ret. intros w [Hw _]. eapply numbered_less; [done|lia]. }
  unfold scheduler_turn. do 2 (apply holds_after; [preserves|]; intros ?). destruct (_ !! n) as [[pq|]|]; [|by apply holds_lift..].
  apply holds_after; [preserves|]. intros [task|]; [|done]. destruct (_ <? 0); [done|].
  apply holds_after; [preserves|]. intros p. apply holds_after.
  { apply holds_modify. intros w [Hw Hr]. split; [by eapply numbered_same|exact Hr]. }
  intros _. destruct p.1 as [task'|]; [|by apply holds_lift]. eapply holds_seq; [by apply execute_send_spends|]. preserves.
Qed.

(** ** The periodic work and the shutdown *)

Lemma expire_session_spends sock i : spends 1 (expire_session sock i).
Proof.
  intros F P k Hk. assert (Hless : forall w, numbered F P (1 + k) w -> numbered F P k w) by (intros w Hw; eapply numbered_less; [done|lia]).
  unfold expire_session. do 2 (apply holds_after; [preserves|]; intros ?). destruct (negb _); [by apply holds_ret|].
  destruct (_ <? _); [|by apply holds_ret]. eapply holds_seq; [by apply send_control_packet_spends|]. preserves.
Qed.

Lemma keepalive_session_spends t i : spends 1 (keepalive_session t i).
Proof.
  intros F P k Hk. assert (Hless : forall w, numbered F P (1 + k) w -> numbered F P k w) by (intros w Hw; eapply numbered_less; [done|lia]).
  unfold keepalive_session. apply holds_session. intros s.
  destruct (active s) eqn:Ha; cbn [negb]; [|apply holds_ret; intros w [Hw _]; by apply Hless].
  destruct (_ <=? _); [|apply holds_ret; intros w [Hw _]; by apply Hless].
  eapply holds_seq; [by apply (send_keepalive_spends F P k i s)|]. preserves.
Qed.

Lemma periodic_work_spends sock : spends (2 * Z.of_nat MAX_CLIENTS) (periodic_work sock).
Proof.
  intros F P k Hk. apply (holds_seq _ _ _ (numbered F P k)); [|preserves]. unfold perform_maintenance, cleanup_expired_sessions.
  replace (2 * Z.of_nat MAX_CLIENTS + k) with (Z.of_nat MAX_CLIENTS + (Z.of_nat MAX_CLIENTS + k)) by lia.
  eapply holds_seq; [apply (spends_for _ _ _ (expire_session_spends sock)); lia|].
  apply holds_after; [|intros _; apply holds_after; [preserves|]; intros t; by apply (spends_for _ _ _ (keepalive_session_spends t))].
  unfold sweep_reassembly_table. apply preserves_bind; [preserves|]. intros t. apply holds_modify. intros w Hw.
  eapply numbered_weaken; [exact Hw|done|lia| |].
  - apply submseteq_skips_l. unfold used. change (sent (set sessions _ w)) with (sent w). apply submseteq_skips_l.
    cbn [sessions set]. by rewrite in_queue_fmap.
  - intros i s. cbn [sessions set]. rewrite list_lookup_fmap. intros (s0 & Hs & ->)%fmap_Some. eexists. split; [exact Hs|]. by intros ?.
Qed.

Lemma notify_spends sock n : forall i c, spends (Z.of_nat n) (Shutdown.notify_sessions sock i n c).
Proof.
  induction n as [|n IH]; intros i c F P k Hk; cbn [Shutdown.notify_sessions]; [by apply holds_ret|].
  replace (Z.of_nat (S n) + k) with (1 + (Z.of_nat n + k)) by lia. apply holds_after; [preserves|]. intros s. destruct (active s).
  - eapply holds_seq; [apply send_control_packet_spends; lia|]. by apply IH.
  - eapply holds_pre; [by apply IH|]. intros w Hw. eapply numbered_less; [done|lia].
Qed.

Lemma drain_spends sock g : spends (Z.of_nat MAX_CLIENTS) (Shutdown.graceful_shutdown_drain_sessions sock g).
Proof. intros F P k Hk. eapply holds_bind; [by apply notify_spends|]. preserves. Qed.

Lemma quiet_shutdown_cleanup sock tun g : quiet (Shutdown.graceful_shutdown_cleanup sock tun g).
Proof. unfold Shutdown.graceful_shutdown_cleanup. preserves. Qed.

(** ** Handshakes *)

(** The session id drawn by a key exchange, if it succeeds. *)
Definition new_id (e : ephemeral) (sk msg1 : list byte) : list (list byte) :=
  option_list (snd <$> session_secrets e sk (client_pub msg1) (client_nonce msg1)).

(** Slot [i] has the id [sid], which no other session has and no number carries. *)
Definition owns (i : nat) (sid : list byte) (P : list number) (w : world) : Prop :=
  exists s, sessions w !! i = Some s /\ session_id s = sid /\ length sid = SESSION_ID_LEN /\
    (forall q, (sid, q) ∉ P ++ used w) /\
    (forall j t, j <> i -> sessions w !! j = Some t -> active t = true -> session_id t <> sid).

(** Whatever slot [i] was, it may become a session with such an id. *)
Lemma numbered_own F P k w i s s' :
  numbered F P k w -> sessions w !! i = Some s -> length (session_id s') = SESSION_ID_LEN ->
  (forall q, (session_id s', q) ∉ P ++ used w) ->
  (forall j t, j <> i -> sessions w !! j = Some t -> active t = true -> session_id t <> session_id s') ->
  (active s' = true -> 0 <= send_seq s' /\ send_seq s' + k < 2 ^ 64) -> in_queue s' ⊆+ in_queue s ->
  numbered [] P k (w <| sessions ::= <[i := s']> |>) /\ owns i (session_id s') P (w <| sessions ::= <[i := s']> |>).
Proof.
  intros [H1 H2 H3 H4 H5] Hi Hl Hno Hid Hroom Hq. set (w' := w <| sessions ::= _ |>).
  assert (Hu : P ++ used w' ⊆+ P ++ used w).
  { destruct (in_queue_insert (sessions w) i s s' Hi) as (rest & E & E'). unfold used.
    change (sent w') with (sent w). cbn [w' sessions set]. rewrite E, E'. by do 2 apply submseteq_skips_l; apply submseteq_skips_r. }
  assert (Hs : forall j t, sessions w' !! j = Some t -> j = i /\ t = s' \/ j <> i /\ sessions w !! j = Some t).
  { intros j t. cbn [w' sessions set]. destruct (decide (i = j)) as [<-|Hne].
    - rewrite list_lookup_insert_eq by (by eapply lookup_lt_Some). intros [= <-]. by left.
    - rewrite list_lookup_insert_ne by done. by right. }
  assert (Hno' : forall q, (session_id s', q) ∉ P ++ used w') by (intros q Hin; eapply Hno, elem_of_submseteq; done).
  split; [constructor|].
  - by eapply submseteq_NoDup.
  - intros j t q Hj Ha Hin. destruct (Hs j t Hj) as [[-> ->]|[_ Ht]]; [by destruct (Hno' q)|].
    eapply H2; [done..|]. by eapply elem_of_submseteq.
  - intros j j' t t' Hj Hj' Ha Ha' E. destruct (Hs j t Hj) as [[-> ->]|[Hne Ht]], (Hs j' t' Hj') as [[-> ->]|[Hne' Ht']];
      [done|by destruct (Hid j' t')|by destruct (Hid j t)|by eapply H3].
  - intros j t Hj Ha. destruct (Hs j t Hj) as [[-> ->]|[_ Ht]]; [by split; [|apply Hroom]|by eapply H4].
  - by intros f ?%elem_of_nil.
  - exists s'. split; [|split; [done|split; [done|split; [done|]]]].
    + cbn [w' sessions set]. apply list_lookup_insert_eq. by eapply lookup_lt_Some.
    + intros j t Hne Hj. destruct (Hs j t Hj) as [[-> _]|[_ Ht]]; [done|by eapply Hid].
Qed.

(** The slot takes a fresh id; it is prepared under that id; its counter starts. *)
Lemma take_id P k i f sid :
  (forall s, session_id (f s) = sid /\ active (f s) = active s /\ send_seq (f s) = send_seq s /\ in_queue (f s) ⊆+ in_queue s) ->
  holds (numbered [sid] P k) (update i f) (fun _ w => numbered [] P k w /\ owns i sid P w).
Proof.
  intros Hf. apply holds_update. intros w s Hw Hi. destruct (Hf s) as (<- & Ha & Hq & Hl).
  destruct (nb_fresh _ _ _ _ Hw (session_id (f s))) as (Hlen & Hno & Hid); [by left|].
  eapply numbered_own; [done..|by eauto| |done]. rewrite Ha, Hq. intros Hact. by apply (nb_room _ _ _ _ Hw i s).
Qed.

Lemma own_set P k i s s' sid :
  session_id s' = session_id s -> active s' = active s -> send_seq s' = send_seq s -> in_queue s' ⊆+ in_queue s ->
  holds (fun w => (numbered [] P k w /\ owns i sid P w) /\ sessions w !! i = Some s) (update i (fun _ => s'))
    (fun _ w => numbered [] P k w /\ owns i sid P w).
Proof.
  intros Es Ha Hq Hl. apply holds_update. intros w s0 [[Hw (t & Ht & Esid & Hlen & Hno & Hid)] Hi] Hi0.
  assert (s0 = s) as -> by congruence. assert (t = s) as -> by congruence. rewrite <- Esid, <- Es in *.
  eapply numbered_own; [done..| |done]. rewrite Ha, Hq. intros Hact. by apply (nb_room _ _ _ _ Hw i s).
Qed.

Lemma start_counter P k i f sid :
  k < 2 ^ 64 -> (forall s, session_id (f s) = session_id s /\ send_seq (f s) = 0 /\ in_queue (f s) ⊆+ in_queue s) ->
  holds (fun w => numbered [] P k w /\ owns i sid P w) (update i f) (fun _ => numbered [] P k).
Proof.
  intros Hk Hf. apply holds_update. intros w s [Hw (t & Ht & Esid & Hlen & Hno & Hid)] Hi. assert (t = s) as -> by congruence.
  destruct (Hf s) as (Es & Hq & Hl). rewrite <- Esid, <- Es in *.
  eapply numbered_own; [done..| |done]. rewrite Hq. intros _. lia.
Qed.

Lemma dummy_parts_fields s s' :
  dummy_parts s = Ok s' -> exists p d n, s' = s <| final_pkt_dummy := p |> <| dummy_payload := d |> <| static_hdr_len := n |>.
Proof.
  unfold dummy_parts. intros E. do 4 (apply bind_Ok in E as (? & _ & E)). injection E as <-. eauto.
Qed.

Lemma own_prepare P k i sid :
  preserves (fun w => numbered [] P k w /\ owns i sid P w) (prepare_dummy_static_parts i).
Proof.
  unfold prepare_dummy_static_parts, preserves. apply holds_session. intros s. apply holds_lifted. intros s' E.
  apply dummy_parts_fields in E as (p & d & n & ->). by apply own_set.
Qed.

Lemma quiet_finish_msg1 i sock sid msg2 src t : number_of msg2 = None -> quiet (finish_msg1 i sock sid msg2 src t).
Proof.
  intros Hn F P k. unfold finish_msg1, fail_dh. preserves_step; [preserves|]. preserves_step; [preserves|].
  preserves_step; [apply quiet_update; intros s; split; [by intros ?|destruct a0; by apply submseteq_nil_l]|].
  pose proof (quiet_sendto sock msg2 src Hn F P k). preserves.
Qed.

(** The handshake in a free slot: the session starts with a fresh id. *)
Lemma handle_msg1_slot_numbers P k e sock msg1 src sk sign_sk i :
  k < 2 ^ 64 ->
  holds (numbered (new_id e sk msg1) P k) (handle_msg1_slot e sock msg1 src sk sign_sk i) (fun _ => numbered [] P k).
Proof.
  intros Hk. set (F := new_id e sk msg1).
  assert (Hfail : holds (numbered F P k) (fail_dh i) (fun _ => numbered [] P k)).
  { apply (holds_pre _ (numbered [] P k)); [unfold fail_dh; preserves|].
    intros w Hw. eapply numbered_drop; [exact Hw|by apply list_subseteq_nil|done|lia]. }
  unfold handle_msg1_slot. do 5 (apply holds_after; [preserves|]; intros ?). destruct (sign_detached _ _) as [sig|]; [|exact Hfail].
  apply holds_after; [preserves|]. intros s. unfold F, new_id in *. fold (client_pub msg1) (client_nonce msg1).
  destruct (session_secrets _ _ _ _) as [[[k1 k2] sid]|]; [|exact Hfail]. cbn [fmap option_fmap option_map snd option_list].
  eapply holds_seq; [by apply take_id|]. eapply holds_seq; [apply own_prepare|].
  eapply holds_seq; [by apply start_counter|]. by apply quiet_finish_msg1.
Qed.

Lemma handle_msg1_numbers P k e sock msg1 src sk :
  k < 2 ^ 64 -> holds (numbered (new_id e sk msg1) P k) (handle_msg1 e sock msg1 src sk) (fun _ => numbered [] P k).
Proof.
  intros Hk. assert (Hno : forall A (a : A), holds (numbered (new_id e sk msg1) P k) (mret a) (fun _ => numbered [] P k)).
  { intros A a. apply holds_ret. intros w Hw. eapply numbered_drop; [exact Hw|apply list_subseteq_nil|done|lia]. }
  unfold handle_msg1. apply holds_after; [preserves|]. intros [sign_sk|]; [|done].
  do 5 (apply holds_after; [preserves|]; intros ?). destruct a2.1.
  - case_bool_decide; cbn [negb]; [|done]. apply holds_after; [preserves|]. intros [i|]; [by apply handle_msg1_slot_numbers|].
    apply holds_after; [preserves|]. done.
  - apply holds_after; [preserves|]. done.
  - do 2 (apply holds_after; [preserves|]; intros ?). done.
Qed.

(** A key rotation draws one id, and another if it falls back to a full handshake. *)
Definition new_ids (e e' : ephemeral) (sk msg1 : list byte) : list (list byte) := new_id e sk msg1 ++ new_id e' sk msg1.

Lemma handle_rehandshake_numbers P k e e' sock msg1 src sk :
  k < 2 ^ 64 ->
  holds (numbered (new_ids e e' sk msg1) P k) (handle_rehandshake_msg1 e e' sock msg1 src sk) (fun _ => numbered [] P k).
Proof.
  intros Hk. set (I := numbered (new_ids e e' sk msg1) P k).
  assert (Hfull : holds I (handle_msg1 e' sock msg1 src sk) (fun _ => numbered [] P k)).
  { eapply holds_pre; [by apply handle_msg1_numbers|]. intros w Hw. eapply numbered_drop; [exact Hw|by apply list_subseteq_app_r|done|lia]. }
  unfold handle_rehandshake_msg1. case_bool_decide; cbn [negb].
  2:{ apply holds_ret. intros w Hw. eapply numbered_drop; [exact Hw|apply list_subseteq_nil|done|lia]. }
  apply holds_after; [preserves|]. intros ss. destruct (first_index _ ss) as [i|]; [|exact Hfull].
  apply holds_after; [preserves|]. intros sign_sk. subst I. unfold new_ids, new_id in *. fold (client_pub msg1) (client_nonce msg1).
  destruct (session_secrets e _ _ _) as [[[k1 k2] sid]|]; [|exact Hfull]. destruct (sign_detached _ _) as [sig|]; [|exact Hfull].
  apply (holds_pre _ (numbered [sid] P k)).
  2:{ intros w Hw. eapply numbered_drop; [exact Hw|by apply list_subseteq_app_l|done|lia]. }
  do 3 (apply holds_after; [preserves|]; intros ?).
  eapply holds_seq; [apply take_id; intros s; destruct a0; do 3 (split; [done|]); by apply submseteq_nil_l|].
  eapply holds_seq; [apply own_prepare|]. eapply holds_seq; [by apply start_counter|].
  pose proof (quiet_sendto sock _ src (number_of_msg2 e (vpn_ip a) sig) [] P k). preserves.
Qed.

Lemma handle_inbound_numbers P k e e' sock buf src sk :
  k < 2 ^ 64 ->
  holds (numbered (new_ids e e' sk buf) P k) (handle_inbound_udp e e' sock buf src sk) (fun _ => numbered [] P k).
Proof.
  intros Hk. assert (Hno : forall A (m : ST world A), quiet m -> holds (numbered (new_ids e e' sk buf) P k) m (fun _ => numbered [] P k)).
  { intros A m Hm. eapply holds_pre; [apply Hm|]. intros w Hw. eapply numbered_drop; [exact Hw|apply list_subseteq_nil|done|lia]. }
  unfold handle_inbound_udp. case_decide; [apply Hno; preserves|]. destruct (_ <? _); [apply Hno; preserves|].
  apply holds_after; [preserves|]. intros ph. destruct (_ || _); [apply Hno; preserves|].
  apply holds_after; [preserves|]. intros []; [apply Hno; preserves|]. unfold handle_admitted.
  destruct (_ =? _); [|apply Hno; preserves]. case_bool_decide; [|apply Hno; preserves]. apply holds_after; [preserves|]. intros ss.
  eapply holds_seq; [|by apply (holds_ret (numbered [] P k))]. destruct (first_index _ ss).
  - by apply handle_rehandshake_numbers.
  - eapply holds_pre; [by apply handle_msg1_numbers|]. intros w Hw.
    eapply numbered_drop; [exact Hw|by apply list_subseteq_app_l|done|lia].
Qed.

(** ** Jobs *)

(** The ids a job may draw, and the numbers it may use. *)
Definition job_ids (e e' : ephemeral) (job : job_t) : list (list byte) :=
  match job with JOB_TYPE_INBOUND_CRYPTO buf _ _ sk => new_ids e e' sk buf | _ => [] end.
Definition job_numbers (job : job_t) : Z :=
  match job with JOB_TYPE_OUTBOUND_CRYPTO buf _ => Z.of_nat (length buf) | _ => 0 end.

Lemma run_job_numbers P k e e' job :
  0 <= k < 2 ^ 64 ->
  holds (numbered (job_ids e e' job) P (job_numbers job + k)) (run_job e e' job) (fun _ => numbered [] P k).
Proof.
  intros [Hk Hk']. destruct job as [buf src sock sk|buf sock|]; cbn [run_job job_ids job_numbers].
  - by apply handle_inbound_numbers.
  - by apply handle_outbound_spends.
  - by apply holds_ret.
Qed.

Lemma quiet_recv_inbound sock buf src sk : quiet (recv_inbound sock buf src sk).
Proof. unfold recv_inbound. preserves. Qed.
Lemma quiet_tun ip sock : quiet (handle_outbound_tun ip sock).
Proof. unfold handle_outbound_tun. preserves. Qed.
End numbers.
