(* ===== verification/NumbersRun.v ===== *)
(** The running server uses no sequence number twice: the invariant of Numbers through
    the steps of the program of ServerMain. *)

From stdpp Require Import list gmap relations.
From S2P Require Import Prelude State Partial LinkedQueue TaskHeap RateLimiter Metrics Crypto Wire Text Report Server Handshake.
From S2P Require Import PacketProcessor Scheduler ThreadPool EventLoop ServerLogic HandshakeProofs DataPath SchedulerProofs Safety ServerMain.
From S2P Require Import ServerRun ServerStart Numbers.
From S2P Require ServerKey Shutdown.
Local Open Scope Z_scope.

(** ** An invariant of the server inside the program *)

Definition inside (I : world -> Prop) (p : program) : Prop := I (server p).

(** What an invariant has to survive for main to keep it, the periodic work and the
    drain aside. *)
Class MainKeeps (I : world -> Prop) := {
  mk_malloc : preserves I malloc;
  mk_recv `{Sodium} sock buf src sk : preserves I (recv_inbound sock buf src sk);
  mk_tun ip sock : preserves I (handle_outbound_tun ip sock);
  mk_emit e : number_sent e = None -> preserves I (emit e);
  mk_destroy : preserves I metrics_destroy;
  mk_limiter f : preserves I (modify (fun w => w <| rl ::= f |>));
  mk_cleanup sock tun g : preserves I (Shutdown.graceful_shutdown_cleanup sock tun g);
}.
#[local] Hint Resolve mk_malloc mk_recv mk_tun mk_destroy mk_limiter mk_cleanup : preserves.
#[local] Hint Extern 1 (preserves _ (emit _)) => by apply mk_emit : preserves.

Lemma holds_in_server {A} (P : world -> Prop) (m : ST world A) Q :
  holds P m Q -> holds (inside P) (in_server m) (fun a p => Q a (server p)).
Proof. intros H p a p' Hp E. unfold in_server in E. destruct (m (server p)) as [[b w]|] eqn:Em; [|done]. injection E as <- <-. by eapply H. Qed.

Section inside.
Context `{Sod : Sodium} (I : world -> Prop).

Lemma inside_server {A} (m : ST world A) : preserves I m -> preserves (inside I) (in_server m).
Proof. intros Hm. exact (holds_in_server I m (fun _ => I) Hm). Qed.

(** Changes outside the server's state. *)
Lemma inside_modify f : (forall p, server (f p) = server p) -> preserves (inside I) (modify f).
Proof. intros Hf. apply holds_modify. intros p. unfold inside. by rewrite Hf. Qed.
#[local] Hint Extern 1 (preserves (inside _) (in_server _)) => apply inside_server; preserves : preserves.
#[local] Hint Extern 1 (preserves (inside _) (modify _)) => by apply inside_modify : preserves.

Lemma stop_pool_inside : preserves (inside I) stop_pool.
Proof. unfold stop_pool. preserves. Qed.

Context `{!MainKeeps I}.

Lemma submit_inside key job : preserves (inside I) (submit key job).
Proof. unfold submit. preserves. Qed.
#[local] Hint Resolve submit_inside : preserves.

Lemma udp_burst_inside n : forall rs, preserves (inside I) (udp_burst n rs).
Proof. induction n as [|n IH]; intros [|[d src] rs]; cbn [udp_burst]; preserves. Qed.
Lemma tun_burst_inside n : forall rs, preserves (inside I) (tun_burst n rs).
Proof. induction n as [|n IH]; intros rs; cbn [tun_burst]; preserves. Qed.
#[local] Hint Resolve udp_burst_inside tun_burst_inside : preserves.

Lemma handle_event_inside ev : preserves (inside I) (handle_event ev).
Proof. unfold handle_event. preserves. Qed.
Lemma drain_event_inside ev : preserves (inside I) (drain_event ev).
Proof. unfold drain_event. preserves. Qed.
#[local] Hint Resolve drain_event_inside : preserves.

Lemma print_status_inside : preserves (inside I) (in_server print_status).
Proof. unfold print_status. preserves. Qed.
Lemma drain_turn_inside start waited : preserves (inside I) (drain_turn start waited).
Proof. unfold drain_turn, count_active. preserves. Qed.
Lemma finish_inside : preserves (inside I) finish.
Proof. unfold finish, print_report. preserves. Qed.

End inside.

(** A worker's step runs its next job, or leaves the server alone. *)
Lemma worker_inside `{Sod : Sodium} (I I' : world -> Prop) n e e' p p' :
  (forall w, I w -> I' w) ->
  (forall job, next_job p n = Some job -> holds I (run_job e e' job) (fun _ => I')) ->
  inside I p -> worker_step n e e' p = Ok (tt, p') -> inside I' p'.
Proof.
  intros HI Hjob Hp E. pose proof (HI _ Hp) as Hq. unfold worker_step, mbind, ST_bind, state in E.
  case_bool_decide; [by injection E as <-|]. unfold next_job in Hjob.
  destruct (g_thread_pool p) as [pool|]; [|by injection E as <-]. unfold lift in E.
  destruct (worker_take (job_nodes p) pool n) as [[[t h] pool']|]; [|done]. cbn [modify] in E.
  destruct t as [| |[buf src sock sk|buf sock|]]; try (injection E as <-; exact Hq);
    (eapply (holds_in_server _ _ _ (Hjob _ eq_refl)); [|exact E]; exact Hp).
Qed.

#[export] Hint Extern 1 (preserves (inside _) (in_server _)) => apply inside_server; preserves : preserves.
#[export] Hint Extern 1 (preserves (inside _) (modify _)) => by apply inside_modify : preserves.
#[export] Hint Resolve stop_pool_inside handle_event_inside print_status_inside drain_turn_inside finish_inside : preserves.

Section run.
Context `{Sod : Sodium} `{!SodiumLaws Sod}.

#[export] Instance numbered_main F P k : MainKeeps (numbered F P k).
Proof.
  constructor; intros.
  - apply quiet_malloc.
  - apply quiet_recv_inbound.
  - apply quiet_tun.
  - by apply quiet_emit.
  - by apply quiet_modify.
  - by apply quiet_modify.
  - apply quiet_shutdown_cleanup.
Qed.

#[local] Hint Resolve numbered_main : preserves.

(** ** Numbers *)

Abbreviation counted F k := (inside (numbered F [] k)).

Lemma keeps_numbers_counted n F k {A} (m : ST program A) :
  0 <= n -> preserves (counted F k) m -> holds (counted F (n + k)) m (fun _ => counted F k).
Proof. intros Hn Hm. apply (holds_pre _ (counted F k)); [exact Hm|]. intros p Hp. eapply numbered_less; [exact Hp|lia]. Qed.

Lemma spends_server n F k {A} (m : ST world A) : spends n m -> 0 <= k -> holds (counted F (n + k)) (in_server m) (fun _ => counted F k).
Proof. intros Hm Hk. exact (holds_in_server (numbered F [] (n + k)) m (fun _ => numbered F [] k) (Hm F [] k Hk)). Qed.

(** *** Main

    An iteration uses at most two numbers a session, a DISCONNECT and a KEEPALIVE. *)
Lemma loop_turn_counted F k waited :
  0 <= k -> holds (counted F (2 * Z.of_nat MAX_CLIENTS + k)) (loop_turn waited) (fun _ => counted F k).
Proof.
  intros Hk. assert (Hless : forall p, counted F (2 * Z.of_nat MAX_CLIENTS + k) p -> counted F k p)
    by (intros p Hp; eapply numbered_less; [exact Hp|lia]).
  unfold loop_turn. destruct waited as [e|evs]; [by apply holds_ret|]. apply holds_after; [preserves|]. intros p.
  apply (holds_seq _ _ _ (counted F k)); [|preserves]. apply holds_when; [|exact Hless].
  eapply holds_seq; [apply spends_server; [apply periodic_work_spends|done]|]. preserves.
Qed.

Lemma leave_loop_counted F k : 0 <= k -> holds (counted F (Z.of_nat MAX_CLIENTS + k)) leave_loop (fun _ => counted F k).
Proof.
  intros Hk. assert (Hless : forall p, counted F (Z.of_nat MAX_CLIENTS + k) p -> counted F k p)
    by (intros p Hp; eapply numbered_less; [exact Hp|lia]).
  unfold leave_loop, count_active. apply holds_after; [preserves|]. intros n. destruct (_ <? _).
  - apply holds_after; [preserves|]. intros p. eapply holds_bind; [apply spends_server; [apply drain_spends|done]|]. preserves.
  - eapply holds_pre; [apply stop_pool_inside|exact Hless].
Qed.

Definition main_numbers : Z := 3 * Z.of_nat MAX_CLIENTS.

Lemma main_step_counted F k waited :
  0 <= k -> holds (counted F (main_numbers + k)) (main_step waited) (fun _ => counted F k).
Proof.
  intros Hk. assert (Hless : forall n p, n <= main_numbers -> counted F (main_numbers + k) p -> counted F (n + k) p)
    by (intros n p Hn Hp; eapply numbered_less; [exact Hp|lia]).
  unfold main_step. apply holds_after; [preserves|]. intros p. destruct (phase p).
  - destruct (Shutdown.graceful_shutdown_should_continue _).
    + eapply holds_bind with (R := fun _ => counted F (Z.of_nat MAX_CLIENTS + k)).
      * eapply holds_pre; [apply loop_turn_counted; lia|]. intros q Hq. eapply numbered_less; [exact Hq|unfold main_numbers; lia].
      * intros []; [|by apply leave_loop_counted]. apply holds_ret. intros q Hq. eapply numbered_less; [exact Hq|lia].
    + eapply holds_pre; [by apply leave_loop_counted|]. intros q. apply Hless. unfold main_numbers. lia.
  - apply keeps_numbers_counted; [done|preserves].
  - apply keeps_numbers_counted; [done|preserves].
  - apply keeps_numbers_counted; [done|preserves].
Qed.

(** *** Workers and shards *)

(** The ids a step may draw, and the numbers it may use. *)
Definition step_ids (p : program) (a : action) : list (list byte) :=
  match a with
  | Worker n e e' => match next_job p n with Some job => job_ids e e' job | None => [] end
  | _ => []
  end.
Definition step_numbers (p : program) (a : action) : Z :=
  match a with
  | Main _ => main_numbers
  | Worker n _ _ => match next_job p n with Some job => job_numbers job | None => 0 end
  | Shard _ => 1
  end.

Lemma worker_counted n e e' k p p' :
  0 <= k < 2 ^ 64 -> counted (step_ids p (Worker n e e')) (step_numbers p (Worker n e e') + k) p ->
  worker_step n e e' p = Ok (tt, p') -> counted [] k p'.
Proof.
  intros Hk Hp E. cbn [step_ids step_numbers] in Hp. eapply (worker_inside _ _ n e e' p p'); [| |exact Hp|exact E].
  - intros w Hw. eapply numbered_drop; [exact Hw|apply list_subseteq_nil|done|]. destruct (next_job p n) as [[]|]; cbn; lia.
  - intros job ->. by apply run_job_numbers.
Qed.

Lemma act_counted v a k p p' :
  0 <= k < 2 ^ 64 -> world_ok (server p) -> counted (step_ids p a) (step_numbers p a + k) p ->
  act v a p = Ok (tt, p') -> counted [] k p'.
Proof.
  intros Hk Hw Hp E. assert (Hpe : counted (step_ids p a) (step_numbers p a + k) (entered v p)) by (by eapply numbered_same).
  destruct a as [waited|n e e'|n].
  - eapply (main_step_counted [] k waited); [lia|exact Hpe|exact E].
  - by eapply (worker_counted n e e' k (entered v p)).
  - eapply (holds_in_server (fun w => numbered [] [] (1 + k) w /\ ready w) (_ ← scheduler_turn n; mret tt) (fun _ => numbered [] [] k));
      [|split; [exact Hpe|]|exact E].
    + eapply holds_seq; [apply scheduler_turn_spends; lia|]. by apply holds_ret.
    + intros i s. exact (world_ready _ Hw i s).
Qed.

(** ** The program *)

(** An id that no packet carries and no session has. *)
Definition unused (w : world) (f : list byte) : Prop :=
  (forall q, (f, q) ∉ used w) /\ (forall i s, sessions w !! i = Some s -> active s = true -> session_id s <> f).

(** A permitted step that draws ids not used before, as hashes of fresh random keys
    are, and does not run a counter past 64 bits. *)
Inductive careful_step (p p' : program) : Prop :=
  | careful_act v a : env_ok v (server p) -> permitted p a -> Forall (unused (server p)) (step_ids p a) ->
      (forall i s, sessions (server p) !! i = Some s -> active s = true -> send_seq s + step_numbers p a < 2 ^ 64) ->
      act v a p = Ok (tt, p') -> careful_step p p'.

Lemma step_ids_length p a : Forall (fun f => length f = SESSION_ID_LEN) (step_ids p a).
Proof.
  assert (Hid : forall e sk buf, Forall (fun f => length f = SESSION_ID_LEN) (new_id e sk buf)).
  { intros e sk buf. unfold new_id. destruct (session_secrets _ _ _ _) as [[[k1 k2] sid]|] eqn:E; [|constructor].
    apply Forall_singleton. by destruct (session_secrets_lengths _ _ _ _ _ _ _ E) as (_ & _ & ?). }
  destruct a as [|n e e'|]; cbn; [constructor| |constructor]. destruct (next_job p n) as [[]|]; [|constructor..].
  apply Forall_app. by split.
Qed.

Lemma careful_counted p p' : program_ok p -> counted [] 0 p -> careful_step p p' -> program_ok p' /\ counted [] 0 p'.
Proof.
  intros Hp Hc [v a Hv Ha Hids Hroom E]. split.
  { destruct (act_runs v a p Hp Hv Ha) as ([] & p1 & E1 & Hp1). congruence. }
  eapply (act_counted v a 0 p p'); [done|apply Hp, Ha| |exact E]. destruct Hc as [H1 H2 H3 H4 _]. constructor; [done..| |].
  - intros i s Hi Hact. destruct (H4 i s Hi Hact) as (? & ? & _). specialize (Hroom i s Hi Hact). split; [done|lia].
  - intros f Hf. rewrite Forall_forall in Hids. destruct (Hids f Hf) as [Hno Hid]. split; [|done].
    by apply (proj1 (Forall_forall _ _) (step_ids_length p a)).
Qed.

Lemma careful_run p p' : rtc careful_step p p' -> program_ok p -> counted [] 0 p -> program_ok p' /\ counted [] 0 p'.
Proof.
  induction 1 as [p|p p1 p' Hs _ IH]; [done|]. intros Hp Hc. destruct (careful_counted p p1 Hp Hc Hs). by apply IH.
Qed.

Lemma counted_empty p : sessions (server p) = replicate MAX_CLIENTS session_zero -> trace (server p) = [] -> counted [] 0 p.
Proof.
  intros Es Et. assert (Hidle : forall i s, sessions (server p) !! i = Some s -> active s = true -> False).
  { intros i s Hi Ha. rewrite Es in Hi. apply lookup_replicate in Hi as [-> _]. by rewrite session_zero_idle in Ha. }
  assert (Hu : used (server p) = []).
  { unfold used, sent. rewrite Et, Es. cbn [omap list_omap app]. clear. by induction MAX_CLIENTS as [|n IH]. }
  constructor; rewrite ?Hu; [constructor| | | |by intros f ?%elem_of_nil]; intros; by destruct (Hidle i s).
Qed.

(** Two datagrams of the trace do not carry the same number. *)
Lemma sent_apart {A B} (f : A -> option B) l i j x y n :
  NoDup (omap f l) -> l !! i = Some x -> l !! j = Some y -> f x = Some n -> f y = Some n -> i = j.
Proof.
  revert i j. induction l as [|a l IH]; intros i j Hnd Hi Hj Hx Hy; [done|].
  assert (Hin : forall k z, l !! k = Some z -> f z = Some n -> n ∈ omap f l).
  { intros k z Hk Hz. apply list_elem_of_omap. exists z. split; [by eapply list_elem_of_lookup_2|done]. }
  cbn in Hnd. destruct i as [|i], j as [|j]; cbn in Hi, Hj; simplify_eq; [done|..].
  - rewrite Hx in Hnd. apply NoDup_cons in Hnd as [Hno _]. destruct Hno. by eapply Hin.
  - rewrite Hy in Hnd. apply NoDup_cons in Hnd as [Hno _]. destruct Hno. by eapply Hin.
  - f_equal. eapply IH; [|done..]. destruct (f a); [by apply NoDup_cons in Hnd as [_ ?]|done].
Qed.

Lemma number_of_range d sid q : number_of d = Some (sid, q) -> in_u64 q.
Proof.
  unfold number_of. case_bool_decide; [|done]. intros [= _ <-].
  match goal with |- in_u64 (be_value ?l) => pose proof (be_value_range l) as Hr; assert (length l <= 8)%nat as Hl by (rewrite length_take; lia) end.
  pose proof (Z.pow_le_mono_r 256 _ 8 eq_refl (proj1 (Nat2Z.inj_le _ _) Hl)). unfold in_u64. change (256 ^ 8) with (2 ^ 64) in *. lia.
Qed.

(** From the launch on. *)
Lemma launched_run inet_aton argv r t junk h p0 h' p :
  server_main inet_aton argv r t junk h = Ok (inr p0, h') -> shards_start r -> length junk = SESSION_ID_LEN ->
  rtc careful_step p0 p -> program_ok p /\ counted [] 0 p.
Proof.
  intros Hmain Hshards Hj Hr. destruct (start_runs inet_aton argv r t junk h) as (res & h1 & E & Hres).
  rewrite Hmain in E. injection E as <- <-. destruct Hres as (_ & Hl & Hok). destruct (Hok Hshards Hj) as [Hp0 _].
  destruct (st_empty _ _ _ _ _ _ Hl) as [Es Et]. exact (careful_run p0 p Hr Hp0 (counted_empty p0 Es Et)).
Qed.

(** C8: the running server never uses a sequence number twice: from its start, after any
    permitted steps of main, the workers and the scheduler, through handshakes, key
    rotations, expiry and shutdown, the datagrams sent and those still queued carry
    distinct pairs of session id and number, as long as the ids drawn are fresh and no
    counter runs past 64 bits; so two datagrams sent for one session never have the same
    nonce under any key.  A step is the whole handling of a job or a whole turn: a rotation
    by one worker between another's drawing of a number and its sealing is not among the
    runs, and does use a number again. *)
Theorem no_number_reuse inet_aton argv r t junk h p0 h' p :
  server_main inet_aton argv r t junk h = Ok (inr p0, h') -> shards_start r -> length junk = SESSION_ID_LEN ->
  rtc careful_step p0 p ->
  NoDup (used (server p)) /\
  forall i j x y sid q q' key, trace (server p) !! i = Some x -> trace (server p) !! j = Some y -> i <> j ->
    number_sent x = Some (sid, q) -> number_sent y = Some (sid, q') -> build_nonce key q <> build_nonce key q'.
Proof.
  intros Hmain Hshards Hj Hr. destruct (launched_run inet_aton argv r t junk h p0 h' p Hmain Hshards Hj Hr) as [_ Hc].
  pose proof (nb_once _ _ _ _ Hc : NoDup (used (server p))) as Hnd. split; [exact Hnd|]. intros i j x y sid q q' key Hx Hy Hne Nx Ny Eq.
  assert (Hr64 : forall e q, number_sent e = Some (sid, q) -> in_u64 q).
  { intros [] q0; [|done..]. cbn. apply number_of_range. }
  destruct (build_nonce_inj key key q q' eq_refl (Hr64 _ _ Nx) (Hr64 _ _ Ny) Eq) as [<- _].
  apply Hne. apply (sent_apart number_sent (trace (server p)) i j x y (sid, q)); [|done..]. unfold used in Hnd. by apply NoDup_app in Hnd as (? & _).
Qed.

End run.
