(* ===== verification/Once.v ===== *)
(** A data datagram takes effect at most once: while a session keeps its id, a number its
    window has seen stays refused, whatever the program does. *)

From stdpp Require Import list gmap relations.
From S2P Require Import Prelude State Partial ReplayWindow OutQueue LinkedQueue TaskHeap RateLimiter Metrics Crypto Wire Fragment Server.
From S2P Require Import Handshake PacketProcessor Scheduler ThreadPool EventLoop ServerLogic HandshakeProofs DataPath Refused Safety.
From S2P Require Import ServerMain ServerRun ServerStart Numbers NumbersRun.
From S2P Require ServerKey Shutdown.
Local Open Scope Z_scope.

(** ** The invariant *)

(** The window of [s] refuses the number [n]. *)
Definition seen (n : Z) (s : session_t) : Prop := exists S, window_rep (rw s) S /\ ~ fresh S (recv_max (rw s)) n.

(** Every session in use with the id [sid] has seen [n]. *)
Definition guarded (sid : list byte) (n : Z) (w : world) : Prop :=
  forall i s, sessions w !! i = Some s -> active s = true -> session_id s = sid -> seen n s.

Lemma seen_refuses n s : in_u64 n -> seen n s -> check_replay n (rw s) = Ok true.
Proof. intros Hn (S & HS & Hf). rewrite (check_replay_rep _ S n HS Hn). by rewrite bool_decide_false. Qed.

(** A window forgets nothing. *)
Lemma fresh_mono S S' max max' n : S ⊆ S' -> max <= max' -> fresh S' max' n -> fresh S max n.
Proof. unfold fresh. intros HS Hm (? & Hn & Hpos). split; [done|]. split; [set_solver|]. destruct Hpos; lia. Qed.

Lemma update_seen s S q w' :
  window_rep (rw s) S -> in_u64 q -> check_replay q (rw s) = Ok false -> update_window q (rw s) = Ok w' ->
  exists S', window_rep w' S' /\ ~ fresh S' (recv_max w') q /\ forall n, ~ fresh S (recv_max (rw s)) n -> ~ fresh S' (recv_max w') n.
Proof.
  intros HS Hq Hc E. rewrite (check_replay_rep _ S q HS Hq) in Hc. injection Hc as Hf%negb_false_iff%bool_decide_eq_true.
  destruct (update_window_rep _ S q HS Hq Hf) as (w1 & E1 & HS1 & Hmax). rewrite E in E1. injection E1 as <-.
  exists ({[q]} ∪ S). split; [done|]. split; [intros (_ & Hno & _); set_solver|].
  intros n Hn Hfn. apply Hn. eapply fresh_mono; [|apply Z.le_max_l|rewrite <- Hmax; exact Hfn]. set_solver.
Qed.

(** ** What keeps it *)

Section once.
Variables (sid : list byte) (n : Z).

Lemma guarded_same w w' : sessions w' = sessions w -> guarded sid n w -> guarded sid n w'.
Proof. intros E H i s. rewrite E. apply H. Qed.

(** An assignment to a slot that is not in use under [sid] unless it was, with the same
    window. *)
Definition keeps_guard (s s' : session_t) : Prop :=
  active s' = true -> session_id s' = sid -> active s = true /\ session_id s = sid /\ rw s' = rw s.

Lemma guarded_replace w i s s' :
  guarded sid n w -> sessions w !! i = Some s -> keeps_guard s s' \/ seen n s' -> guarded sid n (w <| sessions ::= <[i := s']> |>).
Proof.
  intros Hw Hi Hs j t Hj Ha Hid. cbn [sessions set] in Hj. destruct (decide (i = j)) as [<-|Hne].
  - rewrite list_lookup_insert_eq in Hj by (by eapply lookup_lt_Some). injection Hj as <-.
    destruct Hs as [Hs|Hs]; [|done]. destruct (Hs Ha Hid) as (Ha' & Hid' & E).
    destruct (Hw i s Hi Ha' Hid') as (S & HS). exists S. by rewrite E.
  - rewrite list_lookup_insert_ne in Hj by done. by eapply Hw.
Qed.

Lemma guarded_update i f : (forall s, keeps_guard s (f s)) -> preserves (guarded sid n) (update i f).
Proof. intros Hf. apply holds_update. intros w s Hw Hi. eapply guarded_replace; [done..|]. by left. Qed.

Lemma guarded_modify f : (forall w, sessions (f w) = sessions w) -> preserves (guarded sid n) (modify f).
Proof. intros Hf. apply holds_modify. intros w. by apply guarded_same. Qed.

Lemma guarded_metric f : preserves (guarded sid n) (metric f).
Proof. apply holds_metric. intros w Hw. exact Hw. Qed.

Lemma guarded_malloc : preserves (guarded sid n) malloc.
Proof. intros w b w' Hw E. unfold malloc in E. destruct (mallocs w); injection E as <- <-; exact Hw. Qed.
Lemma guarded_sendto sock d dst : preserves (guarded sid n) (sendto sock d dst).
Proof. intros w b w' Hw E. unfold sendto in E. destruct (sends w) as [|[] bs]; injection E as <- <-; exact Hw. Qed.
Lemma guarded_session i : preserves (guarded sid n) (session i).
Proof. intros w s w' Hw E. unfold session in E. destruct (sessions w !! i); [by injection E as <- <-|done]. Qed.
Lemma guarded_next_packet_id : preserves (guarded sid n) fragment_next_packet_id.
Proof. intros w id w' Hw E. unfold fragment_next_packet_id in E. destruct (_ =? 0); injection E as <- <-; exact Hw. Qed.

End once.

#[export] Hint Resolve guarded_malloc guarded_sendto guarded_session guarded_next_packet_id : preserves.
#[export] Hint Extern 1 (preserves (guarded _ _) (update _ _)) => by apply guarded_update : preserves.
#[export] Hint Extern 1 (preserves (guarded _ _) (metric _)) => apply guarded_metric : preserves.
#[export] Hint Extern 1 (preserves (guarded _ _) (emit _)) => by apply guarded_modify : preserves.
#[export] Hint Extern 2 (preserves (guarded _ _) (modify _)) => by apply guarded_modify : preserves.

Section operations.
Context `{Sod : Sodium} `{!SodiumLaws Sod} (sid : list byte) (n : Z).
Abbreviation keeps m := (preserves (guarded sid n) m).

Lemma guarded_free i : keeps (free_session i).
Proof. unfold free_session. preserves. Qed.
Lemma guarded_queue_push i pk sq ip : keeps (queue_push i pk sq ip).
Proof. unfold queue_push. preserves. Qed.
Lemma guarded_queue_pop i : keeps (queue_pop i).
Proof. unfold queue_pop. preserves. Qed.
Lemma guarded_next_seq i : keeps (next_seq i).
Proof. unfold next_seq. preserves. Qed.
Lemma guarded_add_session id : keeps (scheduler_add_session id).
Proof. unfold scheduler_add_session, shard_push. preserves. Qed.
Lemma guarded_replace_old i src : keeps (replace_old_session i src).
Proof. unfold replace_old_session. preserves. Qed.
#[local] Hint Resolve guarded_free guarded_queue_push guarded_queue_pop guarded_next_seq guarded_add_session guarded_replace_old : preserves.

Lemma guarded_control sock i ctrl : keeps (send_control_packet sock i ctrl).
Proof. unfold send_control_packet. preserves. Qed.
Lemma guarded_keepalive i : keeps (send_keepalive_to_client i).
Proof. unfold send_keepalive_to_client. preserves. Qed.
Lemma guarded_outbound i body m ip : keeps (send_outbound_packet i body m ip).
Proof. unfold send_outbound_packet. preserves. Qed.
Lemma guarded_dummy i : keeps (send_dummy i).
Proof. unfold send_dummy. preserves. Qed.
#[local] Hint Resolve guarded_control guarded_keepalive guarded_outbound guarded_dummy : preserves.

Lemma guarded_fragments fuel : forall i id off ip, keeps (fragment_loop fuel i id off ip).
Proof. induction fuel as [|fuel IH]; intros i id off ip; cbn [fragment_loop]; preserves. Qed.
Lemma guarded_drain_queue fuel : forall i, keeps (drain_queue fuel i).
Proof. induction fuel as [|fuel IH]; intros i; cbn [drain_queue]; preserves. Qed.
#[local] Hint Resolve guarded_fragments guarded_drain_queue : preserves.

Lemma guarded_outbound_buf ip : keeps (handle_outbound_tun_buf ip).
Proof. unfold handle_outbound_tun_buf, session_by_vpnip. preserves. Qed.
Lemma guarded_turn k : keeps (scheduler_turn k).
Proof. unfold scheduler_turn, execute_send, session_by_id, shard_push. preserves. Qed.
Lemma guarded_maintenance sock : keeps (perform_maintenance sock).
Proof.
  unfold perform_maintenance, cleanup_expired_sessions, expire_session, keepalive_session.
  preserves_step; [preserves|]. preserves_step; [|preserves]. unfold sweep_reassembly_table. preserves_step; [preserves|].
  apply holds_modify. intros w Hw i s. cbn [sessions set]. rewrite list_lookup_fmap. intros (s0 & Hs & ->)%fmap_Some Ha Hid.
  exact (Hw i s0 Hs Ha Hid).
Qed.
#[local] Hint Resolve guarded_maintenance : preserves.
Lemma guarded_periodic sock : keeps (periodic_work sock).
Proof. unfold periodic_work. preserves. Qed.
Lemma guarded_notify sock m : forall i c, keeps (Shutdown.notify_sessions sock i m c).
Proof. induction m as [|m IH]; intros i c; cbn [Shutdown.notify_sessions]; preserves. Qed.
#[local] Hint Resolve guarded_notify : preserves.
Lemma guarded_drain sock g : keeps (Shutdown.graceful_shutdown_drain_sessions sock g).
Proof. unfold Shutdown.graceful_shutdown_drain_sessions. preserves. Qed.
Lemma guarded_cleanup sock tun g : keeps (Shutdown.graceful_shutdown_cleanup sock tun g).
Proof. unfold Shutdown.graceful_shutdown_cleanup. preserves. Qed.

(** *** Handshakes

    They empty windows only of slots that are not in use or take another id. *)

Definition renamed (i : nat) (id : list byte) (w : world) : Prop := exists s, sessions w !! i = Some s /\ session_id s = id.

Lemma guarded_allocate : keeps allocate_session.
Proof.
  intros w o w' Hw E. unfold allocate_session, mbind, ST_bind, get in E.
  destruct (first_index _ (sessions w)) as [i|] eqn:Hf; [|by injection E as <- <-].
  apply first_index_Some in Hf as (s & Hi & Ha & _). unfold update in E. rewrite Hi in E. injection E as <- <-.
  eapply guarded_replace; [done..|]. left. intros Hact. cbn in Hact. by rewrite Hact in Ha.
Qed.

(** A slot takes another id; it is prepared; whatever happens to it concerns only that id. *)
Lemma rename i f id :
  id <> sid -> (forall s, session_id (f s) = id) ->
  holds (guarded sid n) (update i f) (fun _ w => guarded sid n w /\ renamed i id w).
Proof.
  intros Hne Hf. apply holds_update. intros w s Hw Hi. split.
  - eapply guarded_replace; [done..|]. left. intros _ Hid. by rewrite Hf in Hid.
  - exists (f s). split; [|done]. cbn [sessions set]. apply list_lookup_insert_eq. by eapply lookup_lt_Some.
Qed.

Lemma renamed_update i f id :
  id <> sid -> (forall s, session_id (f s) = session_id s) ->
  preserves (fun w => guarded sid n w /\ renamed i id w) (update i f).
Proof.
  intros Hne Hf. apply holds_update. intros w s [Hw (t & Ht & Hid)] Hi. assert (t = s) as -> by congruence. split.
  - eapply guarded_replace; [done..|]. left. intros _ H. rewrite Hf in H. congruence.
  - exists (f s). rewrite Hf. split; [|done]. cbn [sessions set]. apply list_lookup_insert_eq. by eapply lookup_lt_Some.
Qed.

Lemma renamed_prepare i id : id <> sid -> preserves (fun w => guarded sid n w /\ renamed i id w) (prepare_dummy_static_parts i).
Proof.
  intros Hne. unfold prepare_dummy_static_parts, preserves. apply holds_session. intros s. apply holds_lifted. intros s' E.
  apply dummy_parts_fields in E as (p & d & m & ->). apply holds_update.
  intros w s0 [[Hw (t & Ht & Hid)] Hi] Hi0. assert (t = s) as -> by congruence. split.
  - eapply guarded_replace; [done..|]. left. intros _ H. cbn in H. congruence.
  - eexists. split; [cbn [sessions set]; apply list_lookup_insert_eq; by eapply lookup_lt_Some|exact Hid].
Qed.

Lemma guarded_finish_msg1 i sock id msg2 src t : keeps (finish_msg1 i sock id msg2 src t).
Proof. unfold finish_msg1, fail_dh. preserves. Qed.
#[local] Hint Resolve guarded_allocate guarded_finish_msg1 : preserves.

Lemma guarded_msg1_slot e sock msg1 src sk sign_sk i : sid ∉ new_id e sk msg1 -> keeps (handle_msg1_slot e sock msg1 src sk sign_sk i).
Proof.
  intros Hid. unfold handle_msg1_slot, assign_vpn_ip_to_session, fail_dh. do 5 (apply holds_after; [preserves|]; intros ?).
  destruct (sign_detached _ _); [|preserves]. apply holds_after; [preserves|]. intros s.
  unfold new_id in Hid. fold (client_pub msg1) (client_nonce msg1).
  destruct (session_secrets _ _ _ _) as [[[k1 k2] id]|]; [|preserves].
  assert (Hne : id <> sid) by (intros ->; apply Hid; by left).
  eapply holds_seq; [by apply (rename i _ id)|]. eapply holds_seq; [by apply renamed_prepare|].
  eapply holds_seq; [by apply renamed_update|]. apply (holds_pre _ (guarded sid n)); [preserves|]. by intros w [].
Qed.

Lemma guarded_msg1 e sock msg1 src sk : sid ∉ new_id e sk msg1 -> keeps (handle_msg1 e sock msg1 src sk).
Proof. intros Hid. pose proof (guarded_msg1_slot e sock msg1 src sk). unfold handle_msg1. preserves. Qed.

Lemma guarded_rehandshake e e' sock msg1 src sk :
  sid ∉ new_ids e e' sk msg1 -> keeps (handle_rehandshake_msg1 e e' sock msg1 src sk).
Proof.
  intros [Hid Hid']%not_elem_of_app. pose proof (guarded_msg1 e' sock msg1 src sk Hid') as Hfull. unfold handle_rehandshake_msg1.
  case_bool_decide; cbn [negb]; [|preserves]. apply holds_after; [preserves|]. intros ss. destruct (first_index _ ss) as [i|]; [|exact Hfull].
  apply holds_after; [preserves|]. intros sign_sk. unfold new_id in Hid. fold (client_pub msg1) (client_nonce msg1).
  destruct (session_secrets e _ _ _) as [[[k1 k2] id]|]; [|exact Hfull]. destruct (sign_detached _ _) as [sig|]; [|exact Hfull].
  assert (Hne : id <> sid) by (intros ->; apply Hid; by left). do 3 (apply holds_after; [preserves|]; intros ?).
  eapply holds_seq; [by apply (rename i _ id)|]. eapply holds_seq; [by apply renamed_prepare|].
  eapply holds_seq; [by apply renamed_update|]. apply (holds_pre _ (guarded sid n)); [preserves|]. by intros w [].
Qed.

(** *** Data *)

Lemma guarded_plain i plain : keeps (handle_plain i plain).
Proof. unfold handle_plain. preserves. Qed.

Lemma guarded_rw w i s w' q :
  guarded sid n w -> sessions w !! i = Some s -> in_u64 q -> check_replay q (rw s) = Ok false -> update_window q (rw s) = Ok w' ->
  guarded sid n (w <| sessions ::= <[i := s <| rw := w' |>]> |>).
Proof.
  intros Hw Hi Hq Hc E j t Hj Ha Hid. cbn [sessions set] in Hj. destruct (decide (i = j)) as [<-|Hne].
  - rewrite list_lookup_insert_eq in Hj by (by eapply lookup_lt_Some). injection Hj as <-.
    destruct (Hw i s Hi Ha Hid) as (S & HS & Hn). destruct (update_seen s S q w' HS Hq Hc E) as (S' & HS' & _ & Hmono).
    exists S'. split; [exact HS'|]. by apply Hmono.
  - rewrite list_lookup_insert_ne in Hj by done. by eapply Hw.
Qed.

Lemma guarded_data i buf : keeps (handle_data i buf).
Proof.
  unfold handle_data, preserves. apply holds_after; [preserves|]. intros t. apply holds_after; [preserves|]. intros _.
  apply holds_lifted. intros p Hp. apply holds_session. intros s. set (I := fun w => guarded sid n w /\ sessions w !! i = Some s).
  apply holds_lifted. intros replayed Hc. apply (holds_conseq _ I _ _ (fun _ => guarded sid n)); [|done|done].
  assert (Hdrop : forall m : M unit, keeps m -> holds I m (fun _ => guarded sid n)) by (intros m Hm; eapply holds_pre; [exact Hm|by intros w []]).
  destruct replayed; [apply Hdrop; preserves|]. destruct (_ <? _); [apply Hdrop; preserves|].
  destruct (aead_decrypt _ _ _ _) as [plain|]; [|apply Hdrop; preserves]. destruct (_ <? _); [apply Hdrop; preserves|].
  apply holds_lifted. intros w' E. eapply holds_seq; [|apply guarded_plain].
  apply holds_update. intros w s0 [Hw Hi] Hi0. assert (s0 = s) as -> by congruence. eapply guarded_rw; [exact Hw|exact Hi| |exact Hc|exact E].
  assert (p = take 8 (drop (sizeof_proto_header + SESSION_ID_LEN) buf)) as -> by (unfold buf_read in Hp; case_decide; congruence).
  apply packet_seq_range.
Qed.

Lemma guarded_limit ph src : keeps (limit_packet ph src).
Proof. unfold limit_packet. preserves. Qed.
#[local] Hint Resolve guarded_data guarded_limit : preserves.

Lemma guarded_inbound e e' sock buf src sk : sid ∉ new_ids e e' sk buf -> keeps (handle_inbound_udp e e' sock buf src sk).
Proof.
  intros Hid. pose proof (guarded_rehandshake e e' sock buf src sk Hid) as Hre. apply not_elem_of_app in Hid as [Hid _].
  pose proof (guarded_msg1 e sock buf src sk Hid) as Hm. unfold handle_inbound_udp, handle_admitted, session_by_id. preserves.
Qed.

Lemma guarded_job e e' job : sid ∉ job_ids e e' job -> keeps (run_job e e' job).
Proof.
  intros Hid. destruct job as [buf src sock sk|buf sock|]; cbn [run_job job_ids] in *.
  - by apply guarded_inbound.
  - apply guarded_outbound_buf.
  - preserves.
Qed.
End operations.

(** ** The datagram that takes effect *)

Section effect.
Context `{Sod : Sodium} `{!SodiumLaws Sod}.

(** No two sessions in use have the same id. *)
Definition apart (w : world) : Prop := forall i j s t, sessions w !! i = Some s -> sessions w !! j = Some t ->
  active s = true -> active t = true -> session_id s = session_id t -> i = j.

(** What a data packet for session [i] leaves behind: nothing, or a window that has seen it. *)
Lemma data_effect i s buf w :
  world_ok w -> apart w -> sessions w !! i = Some s -> active s = true -> session_id s = packet_id buf ->
  holds (fun w0 => w0 = w) (handle_data i buf) (fun _ w' => untouched buf w w' \/ guarded (packet_id buf) (packet_seq buf) w').
Proof.
  intros Hw Hap Hi Ha Hid. set (w1 := w <| sessions ::= <[i := s <| last_activity := now w |>]> |>).
  assert (Hu : untouched buf w w1).
  { exists (<[i := s <| last_activity := now w |>]> (sessions w)), (global_metrics w), (rl w). split; [by destruct w|]. right. by exists i, s. }
  destruct (ok_window s (proj1 (ok_sess w Hw i s Hi))) as [S HS].
  unfold handle_data. eapply holds_bind; [apply (holds_get _ _ (fun t w0 => t = now w /\ w0 = w)); by intros ? ->|]. intros t.
  apply (holds_fact (t = now w)); [by intros ? []|]. intros ->.
  apply (holds_seq _ _ _ (fun w0 => w0 = w1)).
  { apply holds_update. intros w0 s0 [_ ->] Hi0. assert (s0 = s) as -> by congruence. done. }
  apply holds_lifted. intros p Hp.
  assert (p = take 8 (drop (sizeof_proto_header + SESSION_ID_LEN) buf)) as -> by (unfold buf_read in Hp; case_decide; congruence).
  fold (packet_seq buf). apply holds_session. intros s1. apply (holds_fact (s1 = s <| last_activity := now w |>)).
  { intros w0 [-> H]. cbn [w1 sessions set] in H. rewrite list_lookup_insert_eq in H by (by eapply lookup_lt_Some). by injection H as <-. }
  intros ->. apply (holds_pre _ (fun w0 => w0 = w1)); [|by intros w0 []]. apply holds_lifted. intros replayed Hc.
  assert (Hno : holds (fun w0 => w0 = w1) (mret tt) (fun _ w' => untouched buf w w' \/ guarded (packet_id buf) (packet_seq buf) w'))
    by (apply holds_ret; intros w0 ->; by left).
  destruct replayed; [apply holds_metric; intros w0 ->; left; by apply untouched_metric|]. destruct (_ <? _); [exact Hno|].
  destruct (aead_decrypt _ _ _ _) as [plain|]; [|exact Hno]. destruct (_ <? _); [exact Hno|].
  apply holds_lifted. intros w' E. apply (holds_conseq _ (fun w0 => w0 = w1) _ _ (fun _ => guarded (packet_id buf) (packet_seq buf)));
    [|done|by right]. eapply holds_seq; [|apply guarded_plain].
  apply holds_update. intros w0 s0 -> Hi0. cbn [w1 sessions set] in Hi0.
  rewrite list_lookup_insert_eq in Hi0 by (by eapply lookup_lt_Some). injection Hi0 as <-. intros j t Hj Hb Hjd.
  cbn [w1 sessions set] in Hj. rewrite list_insert_insert_eq in Hj. destruct (decide (i = j)) as [<-|Hne].
  - rewrite list_lookup_insert_eq in Hj by (by eapply lookup_lt_Some). injection Hj as <-.
    destruct (update_seen s S _ w' HS (packet_seq_range buf) Hc E) as (S' & HS' & Hq & _). by exists S'.
  - rewrite list_lookup_insert_ne in Hj by done. destruct Hne. eapply Hap; [done..|congruence].
Qed.

Lemma inbound_effect e e' sock buf src sk ph w w' :
  world_ok w -> apart w -> read_proto buf = Ok ph -> type ph <> PKT_TYPE_HANDSHAKE -> (DATA_HEADER_LEN <= length buf)%nat ->
  handle_inbound_udp e e' sock buf src sk w = Ok (tt, w') ->
  untouched buf w w' \/ guarded (packet_id buf) (packet_seq buf) w'.
Proof.
  intros Hw Hap Hph Ht Hlen. pose proof (untouched_refl buf w) as H0.
  enough (Hrun : holds (fun w0 => w0 = w) (handle_inbound_udp e e' sock buf src sk)
    (fun _ w' => untouched buf w w' \/ guarded (packet_id buf) (packet_seq buf) w')) by (intros E; exact (Hrun w tt w' eq_refl E)).
  assert (Hno : holds (fun w0 => w0 = w) (mret tt) (fun _ w' => untouched buf w w' \/ guarded (packet_id buf) (packet_seq buf) w'))
    by (apply holds_ret; intros w0 ->; by left).
  unfold handle_inbound_udp. cbv zeta. case_decide; [exact Hno|]. destruct (_ <? _); [exact Hno|].
  apply holds_lifted. intros ph' Hph'. assert (ph' = ph) as -> by congruence. destruct (_ || _); [exact Hno|].
  set (I := fun w0 => exists r, w0 = w <| rl := r |> /\ world_ok w0).
  eapply (holds_bind _ _ _ (fun _ => I)).
  { intros w0 b w1 -> E. destruct (limit_packet_exact ph src w Hw) as (b' & w1' & E1 & r & -> & Hr). rewrite E in E1. injection E1 as <- ->.
    exists r. split; [done|]. by apply world_ok_rl. }
  intros limited. destruct limited.
  { apply (holds_seq _ _ _ (fun w0 => exists r, w0 = w <| rl := r |> <| global_metrics ::= metrics_record_packet_dropped |>)).
    { apply holds_metric. intros w0 (r & -> & _). by exists r. }
    apply holds_metric. intros w0 (r & ->). left. exists (sessions w), (metrics_record_rate_limit_drop (metrics_record_packet_dropped (global_metrics w))), r.
    split; [by destruct w|by left]. }
  unfold handle_admitted. rewrite (proj2 (Z.eqb_neq _ _) Ht).
  apply (holds_seq _ _ _ (fun w0 => exists r, w0 = w <| rl := r |> <| global_metrics ::= metrics_record_packet_received (Z.of_nat (length buf)) |> /\ world_ok w0)).
  { apply holds_metric. intros w0 (r & -> & Hw0). exists r. split; [done|by apply world_ok_metric]. }
  intros w1 [] w2 (r & Hw1' & Hw1) E.
  assert (Hrd : buf_read buf sizeof_proto_header SESSION_ID_LEN = Ok (packet_id buf)).
  { unfold buf_read. rewrite decide_True; [done|]. unfold DATA_HEADER_LEN, sizeof_proto_header, SESSION_ID_LEN in *. lia. }
  rewrite Hrd in E. unfold session_by_id, mbind, ST_bind, get, lift in E.
  assert (Hend : untouched buf w1 w2 -> untouched buf w w2) by (intros Hu; eapply untouched_trans_data; [|exact Hu]; rewrite Hw1'; eexists _, r; by destruct w).
  destruct (scan_id (Ok (packet_id buf)) (sessions w1)) as [[i|]|] eqn:Hsc; [|injection E as <-; left; apply Hend, untouched_refl|done].
  destruct (scan_id_found _ _ _ Hsc) as (s & Hi & Ha & Hid).
  assert (Hap1 : apart w1) by (rewrite Hw1'; exact Hap).
  destruct (data_effect i s buf w1 Hw1 Hap1 Hi Ha Hid w1 tt w2 eq_refl E) as [Hu|Hg]; [left; by apply Hend|by right].
Qed.

(** ** The program *)

Section program.
Variables (sid : list byte) (n : Z).

#[local] Instance guarded_main : MainKeeps (guarded sid n).
Proof.
  constructor; intros.
  - apply guarded_malloc.
  - unfold recv_inbound. preserves.
  - unfold handle_outbound_tun, session_by_vpnip. preserves.
  - by apply guarded_modify.
  - by apply guarded_modify.
  - by apply guarded_modify.
  - apply guarded_cleanup.
Qed.
#[local] Hint Resolve guarded_main guarded_periodic guarded_drain : preserves.

Lemma guarded_loop_turn waited : preserves (inside (guarded sid n)) (loop_turn waited).
Proof. unfold loop_turn. preserves. Qed.
Lemma guarded_leave_loop : preserves (inside (guarded sid n)) leave_loop.
Proof. unfold leave_loop, count_active. preserves. Qed.
#[local] Hint Resolve guarded_loop_turn guarded_leave_loop : preserves.
Lemma guarded_main_step waited : preserves (inside (guarded sid n)) (main_step waited).
Proof. unfold main_step. preserves. Qed.

(** A step that does not draw the id again. *)
Lemma act_guarded v a p p' :
  sid ∉ step_ids p a -> guarded sid n (server p) -> act v a p = Ok (tt, p') -> guarded sid n (server p').
Proof.
  intros Hid Hp E. assert (Hpe : inside (guarded sid n) (entered v p)) by exact (guarded_same sid n _ _ eq_refl Hp).
  destruct a as [waited|k e e'|k].
  - exact (guarded_main_step waited _ _ _ Hpe E).
  - eapply (worker_inside _ _ k e e' (entered v p) p'); [done| |exact Hpe|exact E]. intros job Hj. apply guarded_job.
    cbn in Hid. change (next_job p k) with (next_job (entered v p) k) in Hid. by rewrite Hj in Hid.
  - assert (Hk : preserves (inside (guarded sid n)) (in_server (_ ← scheduler_turn k; mret tt))).
    { pose proof (guarded_turn sid n k). preserves. }
    exact (Hk _ _ _ Hpe E).
Qed.

End program.

(** A careful step that does not draw [sid]. *)
Inductive avoiding (sid : list byte) (p p' : program) : Prop :=
  | avoiding_act v a : env_ok v (server p) -> permitted p a -> sid ∉ step_ids p a -> act v a p = Ok (tt, p') -> avoiding sid p p'.

Lemma avoiding_run sid n p p' :
  rtc (avoiding sid) p p' -> program_ok p -> guarded sid n (server p) -> program_ok p' /\ guarded sid n (server p').
Proof.
  induction 1 as [p|p p1 p' [v a Hv Ha Hid E] _ IH]; [done|]. intros Hp Hg. apply IH.
  - destruct (act_runs v a p Hp Hv Ha) as ([] & p2 & E2 & Hp2). congruence.
  - by eapply act_guarded.
Qed.

(** A worker that runs the job of a datagram hands it to the handler. *)
Lemma worker_handles v k e e' p p' buf src sock sk :
  next_job p k = Some (JOB_TYPE_INBOUND_CRYPTO buf src sock sk) -> act v (Worker k e e') p = Ok (tt, p') ->
  server p' = enter v (server p) \/ handle_inbound_udp e e' sock buf src sk (enter v (server p)) = Ok (tt, server p').
Proof.
  intros Hj E. change (act v (Worker k e e') p) with (worker_step k e e' (entered v p)) in E.
  unfold worker_step, mbind, ST_bind, state in E. unfold next_job in Hj. change (exited (entered v p)) with (exited p) in E.
  case_bool_decide as Hex; [left; by injection E as <-|right]. change (g_thread_pool (entered v p)) with (g_thread_pool p) in E.
  change (job_nodes (entered v p)) with (job_nodes p) in E. destruct (g_thread_pool p) as [pool|]; [|done]. unfold lift in E.
  destruct (worker_take (job_nodes p) pool k) as [[[t h] pool']|]; [|done]. destruct t as [| |job]; [done..|].
  injection Hj as ->. cbn [modify] in E. unfold in_server in E. cbn [server set] in E.
  destruct (run_job e e' (JOB_TYPE_INBOUND_CRYPTO buf src sock sk) (server (entered v p))) as [[[] w]|] eqn:Er; [|done]. injection E as <-. exact Er.
Qed.

(** A datagram the window has seen is refused. *)
Lemma guarded_refused w buf ph :
  read_proto buf = Ok ph -> type ph <> PKT_TYPE_HANDSHAKE -> (DATA_HEADER_LEN <= length buf)%nat ->
  guarded (packet_id buf) (packet_seq buf) w -> refused w buf.
Proof.
  intros Hph Ht Hlen Hg. right. right. exists ph. split; [done|]. do 3 right. split; [done|]. right. split; [done|].
  intros i s Hi Ha Hid. left. apply seen_refuses; [apply packet_seq_range|by eapply Hg].
Qed.

(** C9: a data datagram takes effect at most once in the life of the server: in a run whose
    steps, each the whole handler of a job or a turn of main or the scheduler, draw no id
    twice and overrun no counter, when a worker has run the datagram and anything has
    changed but the limiter, the metrics and the activity time of the session it names,
    then after any further steps, as long as its session id is not drawn again and main
    has not returned, every copy of it, from whatever sender, changes nothing but these. *)
Theorem takes_effect_once inet_aton argv r t junk h p0 h' p1 p2 p3 v k e e' buf src sock sk ph :
  server_main inet_aton argv r t junk h = Ok (inr p0, h') -> shards_start r -> length junk = SESSION_ID_LEN ->
  rtc careful_step p0 p1 -> env_ok v (server p1) -> permitted p1 (Worker k e e') ->
  next_job p1 k = Some (JOB_TYPE_INBOUND_CRYPTO buf src sock sk) -> act v (Worker k e e') p1 = Ok (tt, p2) ->
  read_proto buf = Ok ph -> type ph <> PKT_TYPE_HANDSHAKE -> (DATA_HEADER_LEN <= length buf)%nat ->
  ~ untouched buf (enter v (server p1)) (server p2) ->
  rtc (avoiding (packet_id buf)) p2 p3 -> phase p3 <> Finished ->
  forall f f' sock' src' sk', exists w', handle_inbound_udp f f' sock' buf src' sk' (server p3) = Ok (tt, w') /\
    untouched buf (server p3) w'.
Proof.
  intros Hmain Hsh Hjk Hr1 Hv Ha Hj E Hph Ht Hlen Heff Hr3 Hf3 f f' sock' src' sk'.
  destruct (launched_run inet_aton argv r t junk h p0 h' p1 Hmain Hsh Hjk Hr1) as [Hp1 Hc1].
  destruct (act_runs v (Worker k e e') p1 Hp1 Hv Ha) as ([] & p2' & E2 & Hp2). rewrite E in E2. injection E2 as <-.
  assert (Hg : guarded (packet_id buf) (packet_seq buf) (server p2)).
  { destruct (worker_handles v k e e' p1 p2 buf src sock sk Hj E) as [Es|Eh]; [destruct Heff; rewrite Es; apply untouched_refl|].
    assert (Hwe : world_ok (enter v (server p1))) by (apply enter_ok; [apply Hp1, Ha|apply Hv]).
    destruct (inbound_effect e e' sock buf src sk ph _ _ Hwe (nb_apart _ _ _ _ Hc1) Hph Ht Hlen Eh); done. }
  destruct (avoiding_run _ _ p2 p3 Hr3 Hp2 Hg) as [Hp3 Hg3].
  destruct (refused_runs f f' sock' buf src' sk' (server p3)) as ([] & w' & E3 & _ & Hu); [by apply Hp3|by eapply guarded_refused|]. eauto.
Qed.

End effect.
