(* ===== verification/ClientOptions.v ===== *)
(** The client's command line: parse_arguments of chamlon_client/src/vpn_client.c with
    hex2bin of vpn_utils.c, and the ranges it enforces.  [inet_aton], the C library's,
    is a parameter: the address of a dotted quad, if it is one. *)

From Stdlib Require Import Strings.String.
From stdpp Require Import list.
From S2P Require Import Prelude Crypto Wire Text.
Local Open Scope Z_scope.

Definition ch_colon : byte := z2b 58.

(** ** The standard library's part *)

(** [sscanf(arg, "%31[^:]:%31[^:]:%31s", key, v1, v2)]: the strings assigned, of which
    there are as many as the return value says. *)
Definition scan_option (arg : list byte) : list (list byte) :=
  let not_colon b := negb (bool_decide (b = ch_colon)) in
  let '(key, rest) := span 31 not_colon arg in
  if bool_decide (key = []) then []
  else match rest with
  | c :: rest =>
      if negb (bool_decide (c = ch_colon)) then [key]
      else
        let '(v1, rest) := span 31 not_colon rest in
        if bool_decide (v1 = []) then [key]
        else match rest with
        | c :: rest =>
            if negb (bool_decide (c = ch_colon)) then [key; v1]
            else
              let v2 := (span 31 (fun b => negb (is_space b)) (skip_space rest)).1 in
              if bool_decide (v2 = []) then [key; v1] else [key; v1; v2]
        | [] => [key; v1]
        end
  | [] => [key]
  end.

(** ** The options *)

(** [strcmp(key, name) == 0] *)
Definition key_is (name : string) (key : list byte) : bool := bool_decide (key = bytes name).
Arguments key_is name%_string key.

Record options := {
  o_MBPS : Z;
  o_FRAG : Z;
  o_CBR : byte;
  o_PAD : byte;
  o_REHANDSHAKE_INTERVAL : Z;
  o_TUN_NAME : list byte;
}.
#[global] Instance eta_options : Settable options := fun o =>
  {| o_MBPS := o_MBPS o; o_FRAG := o_FRAG o; o_CBR := o_CBR o; o_PAD := o_PAD o;
     o_REHANDSHAKE_INTERVAL := o_REHANDSHAKE_INTERVAL o; o_TUN_NAME := o_TUN_NAME o |}.

Definition default_options : options :=
  {| o_MBPS := 5; o_FRAG := 1024; o_CBR := ch_N; o_PAD := ch_N; o_REHANDSHAKE_INTERVAL := 20;
     o_TUN_NAME := bytes "tun_client" |}.

Definition yes_no (v : list byte) : option byte :=
  match v with c :: _ => if bool_decide (c = ch_Y) || bool_decide (c = ch_N) then Some c else None | [] => None end.

(** The effect of an option whose key and values have been split. *)
Definition set_option (key v1 : list byte) (rest : list (list byte)) (o : options) : outcome options :=
  if key_is "MBPS" key then
    v ← atoi v1;
    let v := if v <? 1 then 1 else v in
    let v := if 15 <? v then 15 else v in
    Ok (o <| o_MBPS := v |>)
  else if key_is "FRAG" key then
    match yes_no v1, rest with
    | Some _, v2 :: _ =>
        v ← atoi v2;
        let v := if v <? 300 then 300 else v in
        let v := if 1200 <? v then 1200 else v in
        Ok (o <| o_FRAG := v |>)
    | _, _ => Ok o
    end
  else if key_is "CBR" key then
    Ok (match yes_no v1 with Some c => o <| o_CBR := c |> | None => o end)
  else if key_is "PAD" key then
    Ok (match yes_no v1 with Some c => o <| o_PAD := c |> | None => o end)
  else if key_is "REHANDSHAKE" key then
    v ← atoi v1;
    let v := if v <? 1 then 1 else v in
    Ok (o <| o_REHANDSHAKE_INTERVAL := v |>)
  else if key_is "TUN" key then Ok (o <| o_TUN_NAME := take 15 v1 |>)
  else Ok o.

Definition apply_option (arg : list byte) (o : options) : outcome options :=
  match scan_option arg with
  | key :: v1 :: rest => set_option key v1 rest o
  | _ => Ok o
  end.

(** The loop over [argv[4]], [argv[5]], ... *)
Fixpoint parse_options (args : list (list byte)) (o : options) : outcome options :=
  match args with
  | [] => Ok o
  | arg :: args => o ← apply_option arg o; parse_options args o
  end.

(** ** The arguments *)

(** The loop of [hex2bin]. *)
Fixpoint hex_loop (n : nat) (hex : list byte) : option (list byte) :=
  match n with
  | O => Some []
  | S n => v ← scan_hex2 hex; out ← hex_loop n (drop 2 hex); Some (z2b v :: out)
  end.
Definition hex2bin (hex : list byte) (outlen : nat) : option (list byte) :=
  if decide (length hex = outlen * 2)%nat then hex_loop outlen hex else None.

(** [None] when the function returns -1. *)
Definition parse_arguments (inet_aton : list byte -> option Z) (argv : list (list byte))
    : outcome (option (list byte * sockaddr_in * options)) :=
  match argv with
  | _ :: ip :: port :: key :: opts =>
      match hex2bin key PUBKEY_LEN with
      | None => Ok None
      | Some pk =>
          port ← atoi port;
          match inet_aton ip with
          | None => Ok None
          | Some a =>
              o ← parse_options opts default_options;
              Ok (Some (pk, {| sin_family := AF_INET; sin_addr := a; sin_port := htons port |}, o))
          end
      end
  | _ => Ok None
  end.

(** ** Ranges *)

Record options_ok (o : options) : Prop := {
  oo_mbps : 1 <= o_MBPS o <= 15;
  oo_frag : 300 <= o_FRAG o <= 1200;
  oo_cbr : o_CBR o = ch_Y \/ o_CBR o = ch_N;
  oo_pad : o_PAD o = ch_Y \/ o_PAD o = ch_N;
  oo_interval : 1 <= o_REHANDSHAKE_INTERVAL o;
}.

Lemma default_options_ok : options_ok default_options.
Proof. constructor; cbn; auto; lia. Qed.

Lemma yes_no_Some v c : yes_no v = Some c -> c = ch_Y \/ c = ch_N.
Proof.
  destruct v as [|b v]; cbn; [done|]. destruct (bool_decide (b = ch_Y)) eqn:E1; cbn.
  - intros [= <-]. apply bool_decide_eq_true in E1. auto.
  - destruct (bool_decide (b = ch_N)) eqn:E2; [|done]. intros [= <-]. apply bool_decide_eq_true in E2. auto.
Qed.

Lemma clamp_range lo hi v :
  lo <= hi -> lo <= (let v := if v <? lo then lo else v in if hi <? v then hi else v) <= hi.
Proof.
  intros H. cbv zeta. destruct (Z.ltb_spec v lo).
  - destruct (Z.ltb_spec hi lo); lia.
  - destruct (Z.ltb_spec hi v); lia.
Qed.

Lemma set_option_ok key v1 rest o o' : options_ok o -> set_option key v1 rest o = Ok o' -> options_ok o'.
Proof.
  intros [Hm Hf Hc Hp Hi]. unfold set_option.
  destruct (key_is "MBPS" key).
  { intros (v & _ & [= <-])%bind_Ok. constructor; try done. by apply clamp_range. }
  destruct (key_is "FRAG" key).
  { destruct (yes_no v1), rest as [|v2 ?]; try (by intros [= <-]). intros (v & _ & [= <-])%bind_Ok.
    constructor; try done. by apply clamp_range. }
  destruct (key_is "CBR" key).
  { destruct (yes_no v1) eqn:Hy; intros [= <-]; [|done]. constructor; try done. by eapply yes_no_Some. }
  destruct (key_is "PAD" key).
  { destruct (yes_no v1) eqn:Hy; intros [= <-]; [|done]. constructor; try done. by eapply yes_no_Some. }
  destruct (key_is "REHANDSHAKE" key).
  { intros (v & _ & [= <-])%bind_Ok. constructor; try done. cbn. destruct (Z.ltb_spec v 1); lia. }
  destruct (key_is "TUN" key); intros [= <-]; by constructor.
Qed.

Lemma apply_option_ok arg o o' : options_ok o -> apply_option arg o = Ok o' -> options_ok o'.
Proof.
  intros Ho. unfold apply_option. destruct (scan_option arg) as [|key [|v1 rest]]; [by intros [= <-]..|].
  by apply set_option_ok.
Qed.

#[local] Opaque apply_option.

(** Whatever the options given, those that result are in range. *)
Lemma parse_options_ok args : forall o o', options_ok o -> parse_options args o = Ok o' -> options_ok o'.
Proof.
  induction args as [|arg args IH]; intros o o' Ho H; cbn [parse_options] in H; [by simplify_eq|].
  apply bind_Ok in H as (o1 & H1 & H). eapply IH; [by eapply apply_option_ok|done].
Qed.

(** ** Properties *)

Lemma hex_loop_print bs : hex_loop (length bs) (concat (hex2 <$> bs)) = Some bs.
Proof.
  induction bs as [|b bs IH]; [done|]. cbn [fmap list_fmap concat length hex_loop].
  rewrite scan_hex2_print. cbn [mbind option_bind]. change (drop 2 (hex2 b ++ ?x)) with x. rewrite IH. cbn. f_equal.
  f_equal. apply b2z_inj. rewrite b2z_z2b. unfold u8. apply Z.mod_small, b2z_range.
Qed.

(** The key as [main] of the server prints it. *)
Lemma hex2bin_print bs : hex2bin (concat (hex2 <$> bs)) (length bs) = Some bs.
Proof.
  unfold hex2bin. rewrite decide_True; [apply hex_loop_print|]. induction bs as [|b bs IH]; [done|]. cbn in *. lia.
Qed.

Lemma hex_loop_length n : forall hex out, hex_loop n hex = Some out -> length out = n.
Proof.
  induction n as [|n IH]; intros hex out; cbn [hex_loop]; [by intros [= <-]|].
  destruct (scan_hex2 hex); [|done]. cbn [mbind option_bind]. destruct (hex_loop n _) eqn:E; [|done]. intros [= <-].
  cbn. f_equal. by eapply IH.
Qed.

Lemma parse_arguments_ok inet_aton argv pk a o : parse_arguments inet_aton argv = Ok (Some (pk, a, o)) -> options_ok o.
Proof.
  unfold parse_arguments. destruct argv as [|name [|ip [|port [|key opts]]]]; try done.
  destruct (hex2bin key PUBKEY_LEN); [|done]. intros (n & _ & H)%bind_Ok. destruct (inet_aton ip); [|done].
  apply bind_Ok in H as (o' & Ho & [= _ _ <-]). by eapply parse_options_ok; [apply default_options_ok|].
Qed.

(** C40: what the command line yields is well-typed: whatever the arguments, when
    parse_arguments succeeds the rate is 1 to 15, the fragment size 300 to 1200, the
    flags Y or N, the rehandshake interval at least a second, the key 32 bytes read from
    the hexadecimal argument, and the address the one inet_aton reads, with a 16-bit
    port. *)
Theorem arguments_checked inet_aton argv pk a o :
  parse_arguments inet_aton argv = Ok (Some (pk, a, o)) ->
  options_ok o /\ length pk = PUBKEY_LEN /\ sin_family a = AF_INET /\ in_u16 (sin_port a) /\
  exists name ip port key opts, argv = name :: ip :: port :: key :: opts /\ inet_aton ip = Some (sin_addr a) /\
    hex2bin key PUBKEY_LEN = Some pk.
Proof.
  intros H. split; [by eapply parse_arguments_ok|]. revert H.
  unfold parse_arguments. destruct argv as [|name [|ip [|port [|key opts]]]]; try done.
  destruct (hex2bin key PUBKEY_LEN) as [k|] eqn:Hk; [|done]. intros (n & _ & H)%bind_Ok.
  destruct (inet_aton ip) as [addr|] eqn:Hip; [|done]. apply bind_Ok in H as (o' & _ & [= <- <- <-]). split.
  { unfold hex2bin in Hk. case_decide; [by eapply hex_loop_length|done]. }
  split; [done|]. split; [|by exists name, ip, port, key, opts]. unfold htons. cbn. pose proof (u16_range n) as Hr. unfold in_u16 in *.
  pose proof (Z.mod_pos_bound (u16 n) 256 ltac:(lia)). assert (0 <= u16 n / 256 < 256); [|lia].
  split; [apply Z.div_pos; lia|apply Z.div_lt_upper_bound; lia].
Qed.
