(* ===== verification/Client.v ===== *)
(** The client's state and its packet handlers: the globals of
    chamlon_client/src/vpn_client.c, and vpn_packet_handler.c, vpn_reassembly.c,
    packet_padding of vpn_utils.c, and the queue as vpn_queue.c uses it.

    The replay window, the classifier and two-lane queue, the reassembly table and
    the session cryptography of the client are the same code as the server's; the
    definitions of ReplayWindow, OutQueue, Fragment and Crypto serve both. *)

From stdpp Require Import list gmap.
From S2P Require Import Prelude State ReplayWindow OutQueue TaskHeap Crypto Wire Fragment.
Local Open Scope Z_scope.

(** ** Data *)

Inductive rehandshake_state_t :=
  | REHANDSHAKE_READY
  | REHANDSHAKE_IN_PROGRESS
  | REHANDSHAKE_BACKOFF
  | REHANDSHAKE_FAILED.
#[global] Instance rehandshake_state_eq_dec : EqDecision rehandshake_state_t.
Proof. solve_decision. Defined.

(** [servers[0]]; the fields the program never uses are left out. *)
Record server_t := {
  session_id : list byte;
  server_pk : list byte;
  k_recv : list byte;
  k_send : list byte;
  send_seq : Z;
  server_addr : sockaddr_in;
  assigned_ip : list byte;
  session_start_time : Z;
  bytes_sent : Z;
  rehandshake_state : rehandshake_state_t;
  rehandshake_attempts : Z;
  rehandshake_last_attempt : Z;
  rehandshake_backoff_sec : Z;
}.
#[global] Instance eta_server : Settable server_t := fun s =>
  {| session_id := session_id s; server_pk := server_pk s; k_recv := k_recv s; k_send := k_send s;
     send_seq := send_seq s; server_addr := server_addr s; assigned_ip := assigned_ip s;
     session_start_time := session_start_time s; bytes_sent := bytes_sent s;
     rehandshake_state := rehandshake_state s; rehandshake_attempts := rehandshake_attempts s;
     rehandshake_last_attempt := rehandshake_last_attempt s;
     rehandshake_backoff_sec := rehandshake_backoff_sec s |}.

(** The sender thread's arguments; its queue is [g_outq]. *)
Record sender_args_t := {
  sa_udp_sock : Z;
  sa_server_addr : sockaddr_in;
  sa_session_id : list byte;
  sa_k_send : list byte;
  interval : timespec;
  pending_k_send : list byte;
  pending_session_id : list byte;
  pending_rekey : Z;
}.
#[global] Instance eta_sender_args : Settable sender_args_t := fun a =>
  {| sa_udp_sock := sa_udp_sock a; sa_server_addr := sa_server_addr a; sa_session_id := sa_session_id a;
     sa_k_send := sa_k_send a; interval := interval a; pending_k_send := pending_k_send a;
     pending_session_id := pending_session_id a; pending_rekey := pending_rekey a |}.

(** The program's globals, the locals of [event_loop_run] that outlive an iteration,
    and the environment.  [sender] is the object [g_sender_args] points to, [None]
    once it has been freed.  [mallocs] lists the results of the allocations to come,
    and [ios] those of the sends and writes: 0 or an error number; both are successes
    once used up.  [junk] is what fresh memory contains, [now] the reading of
    [time(NULL)], [errno] the main thread's error number. *)
Record client := {
  srv : server_t;
  g_session_id : list byte;
  g_reassembly_table : list reassembly_entry_t;
  rw : replay_window_t;
  rehandshake_buffer : list (list byte);
  g_outq : aqueue;
  g_next_packet_id : Z;
  last_server_keepalive_time : Z;
  last_keepalive : Z;
  last_rehandshake : Z;
  last_sweep : Z;
  disconnect_requested : bool;
  sender : option sender_args_t;
  final_pkt_dummy : list byte;
  dummy_payload : list byte;
  static_hdr_len : Z;
  g_tun_fd : Z;
  g_udp_sock : Z;
  vpn_iface : list byte;
  old_gateway : list byte;
  route_added : bool;
  data_REAL : Z;
  data_DUMMY : Z;
  last_double_dummy_real : Z;
  argv_MBPS : Z;
  argv_FRAG : Z;
  argv_CBR : byte;
  argv_PAD : byte;
  argv_REHANDSHAKE_INTERVAL : Z;
  errno : Z;
  now : Z;
  mallocs : list bool;
  ios : list Z;
  junk : list byte;
  trace : list event;
}.
#[global] Instance eta_client : Settable client := fun c =>
  {| srv := srv c; g_session_id := g_session_id c; g_reassembly_table := g_reassembly_table c; rw := rw c;
     rehandshake_buffer := rehandshake_buffer c; g_outq := g_outq c; g_next_packet_id := g_next_packet_id c;
     last_server_keepalive_time := last_server_keepalive_time c; last_keepalive := last_keepalive c;
     last_rehandshake := last_rehandshake c; last_sweep := last_sweep c;
     disconnect_requested := disconnect_requested c; sender := sender c; final_pkt_dummy := final_pkt_dummy c;
     dummy_payload := dummy_payload c; static_hdr_len := static_hdr_len c; g_tun_fd := g_tun_fd c;
     g_udp_sock := g_udp_sock c; vpn_iface := vpn_iface c; old_gateway := old_gateway c;
     route_added := route_added c; data_REAL := data_REAL c;
     data_DUMMY := data_DUMMY c; last_double_dummy_real := last_double_dummy_real c; argv_MBPS := argv_MBPS c;
     argv_FRAG := argv_FRAG c; argv_CBR := argv_CBR c; argv_PAD := argv_PAD c;
     argv_REHANDSHAKE_INTERVAL := argv_REHANDSHAKE_INTERVAL c; errno := errno c; now := now c;
     mallocs := mallocs c; ios := ios c; junk := junk c; trace := trace c |}.

Abbreviation M := (ST client).

(** What [read] and [recvfrom] return: an error number, or the bytes available. *)
Inductive io_result := IoError (e : Z) | IoData (data : list byte).

(** Whether the process goes on after a handler or has called [exit]. *)
Inductive after := Continue | Exit.

Definition EAGAIN : Z := 11.
Definition ENOMEM : Z := 12.

(** ** Primitives *)

Definition emit (e : event) : M unit := modify (fun c => c <| trace ::= (fun t => t ++ [e]) |>).

(** The next allocation, by the main thread. *)
Definition malloc : M bool := fun c =>
  match mallocs c with
  | [] => Ok (true, c)
  | true :: bs => Ok (true, c <| mallocs := bs |>)
  | false :: bs => Ok (false, c <| mallocs := bs |> <| errno := ENOMEM |>)
  end.

(** An output call that leads to [e] when it succeeds. *)
Definition output (e : event) : M Z := fun c =>
  match ios c with
  | [] => Ok (0, c <| trace ::= (fun t => t ++ [e]) |>)
  | r :: rs =>
      Ok (r, if r =? 0 then c <| ios := rs |> <| trace ::= (fun t => t ++ [e]) |> else c <| ios := rs |>)
  end.

(** The same in the main thread, which sees the error number. *)
Definition output_main (e : event) : M Z :=
  r ← output e;
  _ ← when (negb (r =? 0)) (modify (fun c => c <| errno := r |>));
  mret r.

(** [atomic_fetch_add(&servers[0].send_seq, 1)] *)
Definition next_seq : M Z :=
  q ← get (fun c => send_seq (srv c));
  _ ← modify (fun c => c <| srv ::= (fun s => s <| send_seq := u64 (q + 1) |>) |>);
  mret q.

(** A tunnel header followed by one repeated byte, filling a buffer of [len] bytes. *)
Definition filled_packet (th : tunnel_header_t) (len : Z) (fill : Z) : outcome (list byte) :=
  if len <? Z.of_nat sizeof_tunnel_header then Err OutOfBounds
  else Ok (tunnel_bytes th ++ replicate (Z.to_nat len - sizeof_tunnel_header) (z2b fill)).

(** The header of control and dummy packets; [tag] is what its session id holds. *)
Definition control_header (flag : Z) (tag : list byte) : tunnel_header_t :=
  {| packet_id := 1; fragment_offset := 1; total_ip_len := 1; flags := flag; th_session_id := tag |}.

(** The contents of a fresh session id field. *)
Definition junk_tag (c : client) : list byte := take SESSION_ID_LEN (junk c).

(** ** Reassembly: vpn_reassembly.c *)

Definition reassembly_init : M unit :=
  modify (fun c => c <| g_reassembly_table := replicate MAX_REASSEMBLY_ENTRIES entry_zero |>).

Definition sweep_reassembly_table : M unit :=
  t ← get now; modify (fun c => c <| g_reassembly_table ::= fmap (expire_entry t) |>).

(** ** The queue: [packet_queue_push] on [g_outq] *)

Definition queue_push (pk : list byte) (sq : Z) (ip : list byte) : M unit :=
  prio ← lift (classify_packet (Some ip) (length ip));
  ok ← malloc;
  if negb ok then mret tt
  else modify (fun c => c <| g_outq ::= aq_push {| pkt := pk; pktlen := Z.of_nat (length pk); seq := sq;
                                                   priority := prio |} |>).

Definition queue_pop : M (option out_data) :=
  q ← get g_outq;
  match aq_pop q with
  | None => mret None
  | Some (d, q') => _ ← modify (fun c => c <| g_outq := q' |>); mret (Some d)
  end.

(** ** Padding: vpn_utils.c *)

(** [None] is the return value -1: padding is disabled. *)
Definition packet_padding (pad : byte) (frag : Z) (buf2 : list byte) (len : Z) : outcome (option (list byte)) :=
  if bool_decide (pad = ch_N) then Ok None
  else
    let len_to_fill := u64 (frag - len) in
    if 0 <? len_to_fill then
      b ← memcpy buf2 (Z.to_nat len) (replicate (Z.to_nat len_to_fill) (z2b 0)); Ok (Some b)
    else Ok (Some buf2).

Section client.
Context `{Sod : Sodium}.

(** ** vpn_packet_handler.c *)

Definition send_keepalive (udp_sock : Z) : M unit :=
  frag ← get argv_FRAG;
  tag ← get junk_tag;
  buf2 ← lift (filled_packet (control_header PKT_CTRL_KEEPALIVE tag) frag 0x88);
  seq1 ← next_seq;
  s ← get srv;
  ct ← lift (encrypt (k_send s) (session_id s) seq1 buf2);
  match ct with
  | None => mret tt
  | Some out => _ ← output_main (UdpSend udp_sock (server_addr s) (data_packet (session_id s) seq1 out)); mret tt
  end.

(** The [while (current_offset < len)] loop of [handle_tun_packet]. *)
Fixpoint fragment_loop (fuel : nat) (current_id off : Z) (ip : list byte) : M unit :=
  let len := Z.of_nat (length ip) in
  if off <? len then
    match fuel with
    | O => lift (Err NoFuel)
    | S fuel =>
        frag ← get argv_FRAG;
        pad ← get argv_PAD;
        tag ← get junk_tag;
        let max_payload := u64 (frag - Z.of_nat sizeof_tunnel_header) in
        let buf2 := zeros (Z.to_nat frag) in
        let chunk_len := if max_payload <? len - off then max_payload else len - off in
        buf2 ← lift (memcpy buf2 0 (tunnel_bytes (fragment_header tag current_id off chunk_len len)));
        buf2 ← lift (memcpy buf2 sizeof_tunnel_header (take (Z.to_nat chunk_len) (drop (Z.to_nat off) ip)));
        let real_data_len := Z.of_nat sizeof_tunnel_header + chunk_len in
        padded ← lift (packet_padding pad frag buf2 real_data_len);
        let p := match padded with Some b => (b, frag) | None => (buf2, real_data_len) end in
        seq ← next_seq;
        s ← get srv;
        pt ← lift (buf_read p.1 0 (Z.to_nat p.2));
        ct ← lift (encrypt (k_send s) (session_id s) seq pt);
        match ct with
        | None => mret tt
        | Some out =>
            ok ← malloc;
            _ ← when ok (queue_push (data_packet (session_id s) seq out) seq ip);
            fragment_loop fuel current_id (off + chunk_len) ip
        end
    end
  else mret tt.

(** [g_next_packet_id++], skipping 0. *)
Definition take_packet_id : M Z :=
  id ← get g_next_packet_id;
  _ ← modify (fun c => c <| g_next_packet_id := let n := u16 (id + 1) in if n =? 0 then 1 else n |>);
  mret id.

(** [r] is the result of reading the tunnel device into [BUFFER_SIZE] bytes. *)
Definition handle_tun_packet (r : io_result) : M unit :=
  match r with
  | IoError e => modify (fun c => c <| errno := e |>)
  | IoData data =>
      let ip := take (Z.to_nat BUFFER_SIZE) data in
      if decide (length ip < 20)%nat then mret tt
      else
        current_id ← take_packet_id;
        fragment_loop (length ip) current_id 0 ip
  end.

(** [handle_udp_packet] from the flag tests on, for a decrypted packet. *)
Definition handle_plain (plain : list byte) : M after :=
  t ← get now;
  if decide (length plain < sizeof_tunnel_header)%nat then mret Continue
  else
    fl ← lift (u16_at plain 6);
    if fl =? PKT_DUMMY then mret Continue
    else if fl =? PKT_CTRL_KEEPALIVE then
      _ ← modify (fun c => c <| last_server_keepalive_time := t |>); mret Continue
    else if fl =? PKT_CTRL_DISCONNECT then mret Exit
    else
      tbl ← get g_reassembly_table;
      r ← lift (accept_fragment t tbl plain);
      _ ← modify (fun c => c <| g_reassembly_table := r.1 |>);
      match r.2 with
      | Some data => _ ← output_main (TunWrite data); mret Continue
      | None => mret Continue
      end.

(** [r] is the result of [recvfrom] into [buf], whose other bytes are left as they
    were: the version and type tests read them when the datagram is short. *)
Definition handle_udp_packet (r : io_result) : M after :=
  match r with
  | IoError e => _ ← modify (fun c => c <| errno := e |>); mret Continue
  | IoData data =>
      let data := take (Z.to_nat BUFFER_SIZE) data in
      let r := length data in
      if decide (r = 0%nat) then mret Continue
      else
        old ← get junk;
        let buf := data ++ drop r (take (Z.to_nat BUFFER_SIZE) old) in
        ph ← lift (read_proto buf);
        if negb (version ph =? PKT_VERSION) then mret Continue
        else if negb (type ph =? PKT_TYPE_DATA) then mret Continue
        else if decide (r <= DATA_HEADER_LEN)%nat then mret Continue
        else
          s ← get srv;
          sid ← lift (buf_read buf sizeof_proto_header SESSION_ID_LEN);
          if negb (bool_decide (sid = session_id s)) then mret Continue
          else
            p ← lift (buf_read buf (sizeof_proto_header + SESSION_ID_LEN) 8);
            let pkt_seq := be_value p in
            w ← get rw;
            replayed ← lift (check_replay pkt_seq w);
            if (replayed : bool) then mret Continue
            else
              match aead_decrypt (k_recv s) (session_id s) pkt_seq (drop DATA_HEADER_LEN data) with
              | None => mret Continue
              | Some plain =>
                  w' ← lift (update_window pkt_seq w);
                  _ ← modify (fun c => c <| rw := w' |>);
                  handle_plain plain
              end
  end.

(** ** send_disconnect: vpn_client.c *)

Definition send_disconnect (udp_sock : Z) : M unit :=
  tag ← get junk_tag;
  buf2 ← lift (filled_packet (control_header PKT_CTRL_DISCONNECT tag) 1400 0x11);
  seq1 ← next_seq;
  s ← get srv;
  sid ← get g_session_id;
  ct ← lift (encrypt (k_send s) sid seq1 buf2);
  match ct with
  | None => mret tt
  | Some out =>
      let send := output_main (UdpSend udp_sock (server_addr s) (data_packet sid seq1 out)) in
      for_from 0 3 (fun _ => _ ← send; mret tt)
  end.

End client.
