(* ===== verification/ClientHandshake.v ===== *)
(** The client's key exchange and its rehandshake state machine:
    chamlon_client/src/vpn_handshake.c.

    The network and the clock during the wait for MSG2 are a script: one [poll] per
    turn of the receive loop.  When the script is used up nothing more arrives and
    [select] times out. *)

From stdpp Require Import list gmap.
From S2P Require Import Prelude State ReplayWindow OutQueue TaskHeap Crypto Wire Fragment Client.
Local Open Scope Z_scope.

Definition MSG1_LEN : nat := PUBKEY_LEN + 8.
Definition PARAMS : nat := 4 + 4 + 1 + 1.
Definition MSG2_PAYLOAD : nat := PUBKEY_LEN + 8 + 4 + SIG_LEN.
Definition msg2_length : nat := sizeof_proto_header + MSG2_PAYLOAD.
Definition MAX_DISCARD_ATTEMPTS : nat := 100.
Definition REHANDSHAKE_BUFFER_SIZE : nat := 128.

(** What the client draws: its ephemeral secret key and nonce. *)
Record client_ephemeral := { c_priv : list byte; c_nonce : list byte }.

(** One turn of the receive loop: the time it reads, then the result of [select] and,
    when the socket is ready, of [recvfrom]. *)
Inductive select_result := SelectError | SelectTimeout | SelectReady (r : io_result).
Record poll := { at_time : Z; selected : select_result }.

(** ** The rehandshake buffer *)

Definition rehandshake_buffer_init : M unit := modify (fun c => c <| rehandshake_buffer := [] |>).
Definition rehandshake_buffer_free : M unit := modify (fun c => c <| rehandshake_buffer := [] |>).

(** Storing a packet that is not MSG2; [buffer] says whether a buffer was passed. *)
Definition buffer_packet (buffer : bool) (ty : Z) (pk : list byte) : M unit :=
  n ← get (fun c => length (rehandshake_buffer c));
  if (ty =? PKT_TYPE_DATA) && buffer && bool_decide (n < REHANDSHAKE_BUFFER_SIZE)%nat then
    ok ← malloc;
    when ok (modify (fun c => c <| rehandshake_buffer ::= (fun l => l ++ [pk]) |>))
  else mret tt.

(** [process_rehandshake_buffer] only counts the packets. *)
Definition process_rehandshake_buffer : M Z := get (fun c => Z.of_nat (length (rehandshake_buffer c))).

(** ** MSG2 *)

(** The receive loop; [attempts] turns remain and [msg2] is the receive buffer. *)
Fixpoint receive_msg2 (attempts : nat) (buffer : bool) (deadline : Z) (msg2 : list byte) (script : list poll)
    : M (option (list byte)) :=
  match attempts with
  | O => mret None
  | S attempts =>
      match script with
      | [] => mret None
      | p :: script =>
          _ ← modify (fun c => c <| now := at_time p |>);
          if deadline <=? at_time p then mret None
          else
            match selected p with
            | SelectError | SelectTimeout => mret None
            | SelectReady (IoError e) =>
                _ ← modify (fun c => c <| errno := e |>);
                if e =? EAGAIN then receive_msg2 attempts buffer deadline msg2 script else mret None
            | SelectReady (IoData data) =>
                let data := take msg2_length data in
                let r := length data in
                if decide (r = 0%nat) then mret None
                else
                  let msg2 := data ++ drop r msg2 in
                  ph ← lift (read_proto msg2);
                  if negb (type ph =? PKT_TYPE_HANDSHAKE) then
                    _ ← buffer_packet buffer (type ph) data;
                    receive_msg2 attempts buffer deadline msg2 script
                  else if negb (bool_decide (r = msg2_length)) then mret None
                  else mret (Some msg2)
            end
      end
  end.

Section handshake.
Context `{Sod : Sodium}.

Definition c_pub (e : client_ephemeral) : list byte := scalarmult_base (c_priv e).

(** An [int] in memory. *)
Definition int_bytes (z : Z) : list byte := le_bytes 4 (u32 z).

(** proto_header | c_pub(32) | c_nonce(8) | MBPS | FRAG | CBR | PAD *)
Definition msg1_packet (e : client_ephemeral) (mbps frag : Z) (cbr pad : byte) : list byte :=
  proto_bytes handshake_header ++ c_pub e ++ c_nonce e ++ int_bytes mbps ++ int_bytes frag ++ [cbr; pad].

(** The fields of MSG2. *)
Definition msg2_s_pub (msg2 : list byte) : list byte := take PUBKEY_LEN (drop sizeof_proto_header msg2).
Definition msg2_s_nonce (msg2 : list byte) : list byte := take 8 (drop (sizeof_proto_header + PUBKEY_LEN) msg2).
Definition msg2_ip (msg2 : list byte) : list byte := take 4 (drop (sizeof_proto_header + PUBKEY_LEN + 8) msg2).
Definition msg2_sig (msg2 : list byte) : list byte :=
  take SIG_LEN (drop (sizeof_proto_header + PUBKEY_LEN + 8 + 4) msg2).

Definition to_verify (e : client_ephemeral) (msg2 : list byte) : list byte :=
  msg2_s_pub msg2 ++ msg2_s_nonce msg2 ++ c_pub e ++ c_nonce e.

(** The keys and session id both sides derive; [None] when a scalar multiplication
    fails. *)
Record secrets := { new_session_id : list byte; new_k_send : list byte; new_k_recv : list byte }.

Definition client_secrets (e : client_ephemeral) (server_kx_pk s_pub s_nonce : list byte) : option secrets :=
  dh1 ← scalarmult (c_priv e) s_pub;
  dh2 ← scalarmult (c_priv e) server_kx_pk;
  let shared := dh1 ++ dh2 in
  let context := c_nonce e ++ s_nonce in
  let '(k1, k2) := derive_two_keys shared context in
  let sid_input := shared ++ c_nonce e ++ s_nonce ++ c_pub e ++ s_pub in
  Some {| new_session_id := generichash SESSION_ID_LEN sid_input; new_k_send := k1; new_k_recv := k2 |}.

(** What [client_handshake] stores through its pointers: the address once MSG2 is
    parsed, the keys and id when it returns 0. *)
Record handshake_result := { hs_ip : option (list byte); hs_secrets : option secrets }.

(** The part of [client_handshake] after the receive loop. *)
Definition check_msg2 (e : client_ephemeral) (server_pk server_kx_pk msg2 : list byte) : handshake_result :=
  {| hs_ip := Some (msg2_ip msg2);
     hs_secrets :=
       if negb (sign_verify_detached (msg2_sig msg2) (to_verify e msg2) server_pk) then None
       else client_secrets e server_kx_pk (msg2_s_pub msg2) (msg2_s_nonce msg2) |}.

Definition hs_fail : handshake_result := {| hs_ip := None; hs_secrets := None |}.

(** The return value is 0 when [hs_secrets] is [Some]. *)
Definition client_handshake (e : client_ephemeral) (sock : Z) (buffer : bool) (script : list poll)
    : M handshake_result :=
  s ← get srv;
  match pk_to_curve25519 (server_pk s) with
  | None => mret hs_fail
  | Some server_kx_pk =>
      c ← state;
      let msg1 := msg1_packet e (argv_MBPS c) (argv_FRAG c) (argv_CBR c) (argv_PAD c) in
      sent ← output_main (UdpSend sock (server_addr s) msg1);
      if negb (sent =? 0) then mret hs_fail
      else
        t ← get now;
        old ← get junk;
        got ← receive_msg2 MAX_DISCARD_ATTEMPTS buffer (t + 15) (take msg2_length old) script;
        match got with
        | None => mret hs_fail
        | Some msg2 => mret (check_msg2 e (server_pk s) server_kx_pk msg2)
        end
  end.

(** [flush_socket_buffer], on what the calls of [recvfrom] would return until nothing is
    left: the number of datagrams read, and what stays behind. *)
Fixpoint flush_socket_buffer (pending : list io_result) : nat * list io_result :=
  match pending with
  | IoData (_ :: _) :: rest => let '(drained, left_over) := flush_socket_buffer rest in (S drained, left_over)
  | _ :: rest => (O, rest)
  | [] => (O, [])
  end.

(** ** The rehandshake state machine *)

(** [should_attempt_rehandshake]: its return value and the new state of [srv]. *)
Definition should_attempt_rehandshake (now : Z) (s : server_t) : Z * server_t :=
  if 5 <=? rehandshake_attempts s then (-1, s <| rehandshake_state := REHANDSHAKE_FAILED |>)
  else
    match rehandshake_state s with
    | REHANDSHAKE_READY => (1, s)
    | REHANDSHAKE_IN_PROGRESS => (0, s)
    | REHANDSHAKE_BACKOFF =>
        if rehandshake_backoff_sec s <=? now - rehandshake_last_attempt s
        then (1, s <| rehandshake_state := REHANDSHAKE_READY |>) else (0, s)
    | REHANDSHAKE_FAILED => (-1, s)
    end.

(** The transitions of [rehandshake_client_with_state] on [srv]. *)
Definition begin_attempt (t : Z) (s : server_t) : server_t :=
  s <| rehandshake_state := REHANDSHAKE_IN_PROGRESS |> <| rehandshake_last_attempt := t |>.

(** [1 << (attempts - 1)], capped: undefined for a shift outside an [int]. *)
Definition backoff_after (attempts : Z) : outcome Z :=
  if (attempts - 1 <? 0) || (31 <=? attempts - 1) then Err SignedOverflow
  else let b := Z.shiftl 1 (attempts - 1) in Ok (if 60 <? b then 60 else b).

Definition attempt_failed (s : server_t) : outcome server_t :=
  n ← int_of (rehandshake_attempts s + 1);
  b ← backoff_after n;
  Ok (s <| rehandshake_attempts := n |> <| rehandshake_backoff_sec := b |>
        <| rehandshake_state := REHANDSHAKE_BACKOFF |>).

Definition attempt_succeeded (x : secrets) (t : Z) (s : server_t) : server_t :=
  s <| k_recv := new_k_recv x |> <| k_send := new_k_send x |> <| session_id := new_session_id x |>
    <| send_seq := 0 |> <| session_start_time := t |> <| bytes_sent := 0 |>
    <| rehandshake_attempts := 0 |> <| rehandshake_backoff_sec := 1 |> <| rehandshake_state := REHANDSHAKE_READY |>.

(** The script holds what the socket gives after [flush_socket_buffer]. *)
Definition rehandshake_client_with_state (e : client_ephemeral) (sock : Z) (script : list poll) : M Z :=
  t ← get now;
  _ ← modify (fun c => c <| srv ::= begin_attempt t |>);
  hs ← client_handshake e sock true script;
  match hs_secrets hs with
  | None =>
      s ← get srv;
      s ← lift (attempt_failed s);
      _ ← modify (fun c => c <| srv := s |>);
      _ ← rehandshake_buffer_free;
      mret (-1)
  | Some x =>
      t ← get now;
      _ ← modify (fun c => c <| srv ::= attempt_succeeded x t |>);
      args ← get sender;
      match args with
      | None => lift (Err UseAfterFree)
      | Some a =>
          _ ← modify (fun c => c <| sender := Some (a <| pending_k_send := new_k_send x |>
                  <| pending_session_id := new_session_id x |> <| pending_rekey := 1 |>) |>
                <| rw := window_zero |> <| last_server_keepalive_time := t |>);
          _ ← rehandshake_buffer_free;
          mret 0
      end
  end.

End handshake.
