(* ===== verification/Sender.v ===== *)
(** The client's sender thread: chamlon_client/src/vpn_sender_thread.c, and
    start_sender_thread of vpn_client.c.

    A turn of the thread's loop is one step; a submission to the queue by the main
    thread falls between turns. *)

From Stdlib Require Import Floats.SpecFloat.
From stdpp Require Import list gmap.
From S2P Require Import Prelude State ReplayWindow OutQueue TaskHeap Crypto Wire Fragment Clock Client.
Local Open Scope Z_scope.

(** ** Pacing *)

(** The literal 0.001. *)
Definition dbl_1em3 : spec_float := S754_finite false 4611686018427388 (-62).

Definition set_interval_from_mbps (mbps : spec_float) (include_headers : bool) (argv_FRAG : Z) : timespec :=
  let payload_len := dbl (argv_FRAG + Z.of_nat MAC_LEN + Z.of_nat SESSION_ID_LEN + 8 + Z.of_nat sizeof_proto_header) in
  let ipv4_packet_len := dadd (dadd (dadd payload_len (dbl 14)) (dbl 20)) (dbl 8) in
  let bytes_per_pkt := if include_headers then ipv4_packet_len else payload_len in
  let bits_per_pkt := dmul bytes_per_pkt (dbl 8) in
  let interval_sec := ddiv bits_per_pkt (dmul mbps (dbl 1000000)) in
  let interval_sec := if SFleb interval_sec (dbl 0) then dbl_1em3 else interval_sec in
  let ns := trunc (dmul interval_sec (dbl 1000000000)) in
  {| tv_sec := ns / NSEC_PER_SEC; tv_nsec := ns mod NSEC_PER_SEC |}.

Definition timespec_add (ts delta : timespec) : timespec :=
  let s := tv_sec ts + tv_sec delta in
  let n := tv_nsec ts + tv_nsec delta in
  if NSEC_PER_SEC <=? n then {| tv_sec := s + 1; tv_nsec := n - NSEC_PER_SEC |} else {| tv_sec := s; tv_nsec := n |}.

Definition timespec_cmp (a b : timespec) : Z :=
  if negb (tv_sec a =? tv_sec b) then (if tv_sec b <? tv_sec a then 1 else -1)
  else if negb (tv_nsec a =? tv_nsec b) then (if tv_nsec b <? tv_nsec a then 1 else -1)
  else 0.

(** ** The dummy packet *)

Definition dummy_header : tunnel_header_t := control_header PKT_DUMMY (zeros SESSION_ID_LEN).

Definition prepare_dummy_static_parts (sid : list byte) : M unit :=
  p ← get final_pkt_dummy;
  p ← lift (memcpy p 0 (proto_bytes data_header));
  p ← lift (memcpy p sizeof_proto_header sid);
  d ← get dummy_payload;
  frag ← get argv_FRAG;
  d ← lift (memcpy d 0 (tunnel_bytes dummy_header));
  d ← lift (let n := u64 (frag - Z.of_nat sizeof_tunnel_header) in
            if BUFFER_SIZE <? n then Err OutOfBounds
            else memcpy d sizeof_tunnel_header (replicate (Z.to_nat n) (z2b 0x99)));
  modify (fun c => c <| final_pkt_dummy := p |> <| dummy_payload := d |>
                     <| static_hdr_len := Z.of_nat (sizeof_proto_header + SESSION_ID_LEN) |>).

(** The object the thread's argument points to. *)
Definition sender_args : M sender_args_t :=
  a ← get sender; match a with Some a => mret a | None => lift (Err UseAfterFree) end.

Definition count_real : M unit :=
  n ← get data_REAL; n ← lift (int_of (n + 1)); modify (fun c => c <| data_REAL := n |>).
Definition count_dummy : M unit :=
  n ← get data_DUMMY; n ← lift (int_of (n + 1)); modify (fun c => c <| data_DUMMY := n |>).

Section sender.
Context `{Sod : Sodium}.

(** The result is whether encryption succeeded. *)
Definition send_one_dummy : M bool :=
  a ← sender_args;
  seq ← next_seq;
  frag ← get argv_FRAG;
  d ← get dummy_payload;
  pt ← lift (buf_read d 0 (Z.to_nat frag));
  ct ← lift (encrypt (sa_k_send a) (sa_session_id a) seq pt);
  match ct with
  | None => mret false
  | Some out =>
      n ← get (fun c => Z.to_nat (static_hdr_len c));
      p ← get final_pkt_dummy;
      p ← lift (memcpy p n (be_bytes 8 seq));
      p ← lift (memcpy p (n + 8) out);
      _ ← modify (fun c => c <| final_pkt_dummy := p |>);
      _ ← output (UdpSend (sa_udp_sock a) (sa_server_addr a) (take (n + 8 + length out) p));
      _ ← count_dummy;
      mret true
  end.

(** The switch to the keys a rehandshake left in the arguments. *)
Definition swap_keys : M unit :=
  a ← sender_args;
  when (negb (pending_rekey a =? 0))
    (let a' := a <| sa_k_send := pending_k_send a |> <| sa_session_id := pending_session_id a |> in
     _ ← modify (fun c => c <| sender := Some a' |> <| g_session_id := pending_session_id a |>);
     _ ← prepare_dummy_static_parts (sa_session_id a');
     modify (fun c => c <| sender := Some (a' <| pending_k_send := zeros AEAD_KEY_LEN |>
                            <| pending_session_id := zeros SESSION_ID_LEN |> <| pending_rekey := 0 |>) |>)).

(** The counters printed once a second. *)
Definition report (now : timespec) : M unit :=
  last ← get last_double_dummy_real;
  when (last <? tv_sec now)
    (real ← get data_REAL; dummy ← get data_DUMMY;
     _ ← lift (int_of (real + dummy));
     modify (fun c => c <| data_REAL := 0 |> <| data_DUMMY := 0 |> <| last_double_dummy_real := tv_sec now |>)).

(** The [while ((node = out_queue_pop(arg->outq)) != NULL)] loop. *)
Fixpoint drain_queue (fuel : nat) (next : timespec) : M timespec :=
  n ← queue_pop;
  match n with
  | None => mret next
  | Some d =>
      match fuel with
      | O => lift (Err NoFuel)
      | S fuel =>
          a ← sender_args;
          _ ← output (UdpSend (sa_udp_sock a) (sa_server_addr a) (pkt d));
          _ ← count_real;
          cbr ← get argv_CBR;
          drain_queue fuel (if bool_decide (cbr = ch_Y) then timespec_add next (interval a) else next)
      end
  end.

(** One turn of [sender_thread_fn]: [now1] and [now2] are its two readings of the
    clock, [next] the deadline it carries.  The result is the new deadline, to which
    it sleeps in constant-bitrate mode; [None] when the thread ends and frees its
    arguments. *)
Definition sender_turn (now1 now2 next : timespec) : M (option timespec) :=
  _ ← swap_keys;
  _ ← report now1;
  q ← get g_outq;
  next ← drain_queue (aq_size q) next;
  cbr ← get argv_CBR;
  if bool_decide (cbr = ch_Y) then
    ok ← send_one_dummy;
    if negb ok then
      _ ← modify (fun c => c <| sender := None |>); mret None
    else
      a ← sender_args;
      let next := timespec_add next (interval a) in
      mret (Some (if 0 <? timespec_cmp now2 next then timespec_add now2 (interval a) else next))
  else mret (Some next).

(** [heap] is what the allocated object contains, [created] whether the thread
    starts.  The pending fields are not initialised. *)
Definition start_sender_thread (udp_sock : Z) (heap : list byte) (created : bool) : M Z :=
  s ← get srv;
  _ ← prepare_dummy_static_parts (session_id s);
  ok ← malloc;
  if negb ok then _ ← modify (fun c => c <| sender := None |>); mret (-1)
  else
    mbps ← get argv_MBPS;
    frag ← get argv_FRAG;
    let args := {| sa_udp_sock := udp_sock; sa_server_addr := server_addr s; sa_session_id := session_id s;
                   sa_k_send := k_send s; interval := set_interval_from_mbps (dbl mbps) false frag;
                   pending_k_send := take AEAD_KEY_LEN heap;
                   pending_session_id := take SESSION_ID_LEN (drop AEAD_KEY_LEN heap);
                   pending_rekey := le_value (take 4 (drop (AEAD_KEY_LEN + SESSION_ID_LEN) heap)) |} in
    if negb created then _ ← modify (fun c => c <| sender := None |>); mret (-1)
    else _ ← modify (fun c => c <| sender := Some args |>); mret 0.

End sender.
