(* ===== verification/ClientLoop.v ===== *)
(** The client's event loop, start-up and tear-down: vpn_event_loop.c, the route
    commands of vpn_utils.c, vpn_tun.c and vpn_client.c.

    An iteration of the loop takes what [epoll_wait] reports, with the results of
    the reads that follow, the time, and the script of a key exchange if one is
    started. *)

From Stdlib Require Import Strings.String.
From stdpp Require Import list gmap.
From S2P Require Import Prelude State ReplayWindow OutQueue TaskHeap Crypto Wire Fragment.
From S2P Require Import Clock Text ClientOptions Client ClientHandshake Sender.
Local Open Scope Z_scope.

Definition KEEPALIVE_INTERVAL_SEC : Z := 25.
Definition SERVER_KEEPALIVE_TIMEOUT : Z := 125.
Definition MAX_BURST : nat := 64.
Definition REHANDSHAKE_BYTES_LIMIT : Z := 2 ^ 30.
Definition REHANDSHAKE_SEQ_LIMIT : Z := 2 ^ 32.

(** ** Shell commands *)

Definition inet_ntoa (a : sockaddr_in) : list byte := dotted (le_bytes 4 (sin_addr a)).

Definition system (cmd : list byte) : M unit := emit (System cmd).

(** Restoring the default route, in the event loop and in the clean-up. *)
Definition restore_default_route : M unit :=
  c ← state;
  when (route_added c)
    (_ ← system (if negb (is_empty (old_gateway c)) then
                   snprintf 256 (bytes "ip route del default dev " ++ vpn_iface c ++
                     bytes " 2>/dev/null; ip route add default via " ++ old_gateway c ++ bytes " 2>/dev/null")
                 else snprintf 128 (bytes "ip route del default dev " ++ vpn_iface c ++ bytes " 2>/dev/null"));
     modify (fun c => c <| route_added := false |>)).

Definition close (fd : Z) : M unit := when (0 <=? fd) (emit (Close fd)).

Definition restore_route_and_cleanup_client : M unit :=
  c ← state;
  _ ← when (negb (is_empty (old_gateway c)))
        (system (snprintf 256 (bytes "ip route del " ++ inet_ntoa (server_addr (srv c)) ++ bytes "/32 2>/dev/null")));
  _ ← restore_default_route;
  _ ← close (g_tun_fd c);
  close (g_udp_sock c).

Definition setup_interface (ifname ip_cidr : list byte) : M unit :=
  _ ← system (snprintf 256 (bytes "ip addr add " ++ ip_cidr ++ bytes " dev " ++ ifname ++ bytes " 2>/dev/null"));
  system (snprintf 256 (bytes "ip link set " ++ ifname ++ bytes " up")).

Section loop.
Context `{Sod : Sodium}.

(** ** Start-up *)

(** The end of [setup_and_handshake]: the interface's address, the pinned route to the
    server, the default route. *)
Definition configure_network (route_ok : bool) : M Z :=
  c ← state;
  _ ← setup_interface (vpn_iface c) (snprintf 64 (dotted (assigned_ip (srv c)) ++ bytes "/24"));
  _ ← when (negb (is_empty (old_gateway c)))
        (system (snprintf 256 (bytes "ip route add " ++ inet_ntoa (server_addr (srv c)) ++ bytes "/32 via " ++
           old_gateway c ++ bytes " 2>/dev/null")));
  _ ← system (snprintf 256 (bytes "ip route del default 2>/dev/null; ip route add default via 10.10.0.1 dev " ++
           vpn_iface c ++ bytes " 2>/dev/null"));
  _ ← when route_ok (modify (fun c => c <| route_added := true |>));
  mret 0.

(** What [setup_and_handshake] does with the result of the key exchange. *)
Definition finish_setup (hs : handshake_result) (route_ok : bool) : M Z :=
  _ ← modify (fun c => c <| srv ::= (fun s => match hs_ip hs with Some ip => s <| assigned_ip := ip |> | None => s end) |>);
  match hs_secrets hs with
  | None => _ ← restore_route_and_cleanup_client; mret (-1)
  | Some x =>
      _ ← modify (fun c => c <| srv ::= (fun s => s <| session_id := new_session_id x |> <| k_send := new_k_send x |>
                                                    <| k_recv := new_k_recv x |>) |>
                             <| g_session_id := new_session_id x |>);
      configure_network route_ok
  end.

(** [setup_and_handshake]: [tun] is the device opened and the name the kernel gave it,
    [sock] the socket or a negative number, [gateway] the first line the [ip route]
    command printed, and [route_ok] whether the default route could be changed. *)
Definition setup_and_handshake (tun : Z * list byte) (sock : Z) (gateway : option (list byte)) (route_ok : bool)
    (e : client_ephemeral) (script : list poll) : M Z :=
  _ ← modify (fun c => c <| g_tun_fd := tun.1 |> <| vpn_iface := take 15 tun.2 |>);
  if sock <? 0 then _ ← emit (Close tun.1); mret (-1)
  else
    _ ← modify (fun c => c <| g_udp_sock := sock |> <| old_gateway := default [] (take 127 <$> gateway) |>);
    hs ← client_handshake e sock false script;
    finish_setup hs route_ok.

(** The initialisations of [event_loop_run]. *)
Definition event_loop_init : M unit :=
  t ← get now;
  _ ← rehandshake_buffer_init;
  modify (fun c => c <| rw := window_zero |> <| last_keepalive := t |> <| last_server_keepalive_time := t |>
                     <| last_sweep := t |> <| last_rehandshake := t |>).

(** What the set-up of the loop gets from [epoll_create1] and from adding the two
    descriptors. *)
Record loop_replies := { epoll_create : Z; add_tun : bool; add_udp : bool }.

(** The set-up of the loop: the epoll descriptor, or [None] when [event_loop_run]
    returns -1 from there. *)
Definition event_loop_open (r : loop_replies) : M (option Z) :=
  if epoll_create r <? 0 then mret None
  else if negb (add_tun r) then _ ← emit (Close (epoll_create r)); mret None
  else if negb (add_udp r) then _ ← emit (Close (epoll_create r)); mret None
  else mret (Some (epoll_create r)).

(** ** The loop *)

Definition trigger_graceful_disconnect : M unit := modify (fun c => c <| disconnect_requested := true |>).

(** [Exit] when the process ends here. *)
Definition handle_disconnect_request : M after :=
  c ← state;
  if disconnect_requested c then
    _ ← when (0 <=? g_udp_sock c) (send_disconnect (g_udp_sock c));
    _ ← restore_default_route;
    _ ← close (g_tun_fd c);
    _ ← close (g_udp_sock c);
    mret Exit
  else mret Continue.

(** Draining the socket: at most [n] packets, until [errno] is [EAGAIN]; when [rs] is
    used up the socket is empty. *)
Fixpoint udp_burst (n : nat) (rs : list io_result) : M after :=
  match n with
  | O => mret Continue
  | S n =>
      a ← handle_udp_packet (default (IoError EAGAIN) (hd_error rs));
      match a with
      | Exit => mret Exit
      | Continue => e ← get errno; if e =? EAGAIN then mret Continue else udp_burst n (List.tl rs)
      end
  end.

(** A descriptor that is ready, with the results of the reads from it. *)
Inductive ready := TunReady (r : io_result) | UdpReady (rs : list io_result).

Definition handle_ready (ev : ready) : M after :=
  match ev with
  | TunReady r => _ ← handle_tun_packet r; mret Continue
  | UdpReady rs =>
      a ← udp_burst MAX_BURST rs;
      match a with
      | Exit => mret Exit
      | Continue =>
          d ← get disconnect_requested;
          t ← get now;
          _ ← when d (modify (fun c => c <| last_server_keepalive_time := t |>));
          mret Continue
      end
  end.

Fixpoint handle_all (evs : list ready) : M after :=
  match evs with
  | [] => mret Continue
  | ev :: evs => a ← handle_ready ev; match a with Exit => mret Exit | Continue => handle_all evs end
  end.

(** The rehandshake part of an iteration, at time [t]. *)
Definition rehandshake_if_due (t : Z) (e : client_ephemeral) (script : list poll) : M unit :=
  c ← state;
  when ((argv_REHANDSHAKE_INTERVAL c <=? t - last_rehandshake c) || (REHANDSHAKE_BYTES_LIMIT <=? bytes_sent (srv c))
        || (REHANDSHAKE_SEQ_LIMIT <=? send_seq (srv c)))
    (let '(should, s) := should_attempt_rehandshake t (srv c) in
     _ ← modify (fun c => c <| srv := s |>);
     if should =? -1 then trigger_graceful_disconnect
     else when (should =? 1)
       (rc ← rehandshake_client_with_state e (g_udp_sock c) script;
        when (rc =? 0) (modify (fun c => c <| last_rehandshake := t |>)))).

(** What [epoll_wait] returns. *)
Inductive wait_result := WaitError (e : Z) | Ready (evs : list ready).


Record iteration := {
  waited : wait_result;
  clock : Z;
  randomness : client_ephemeral;
  script : list poll;
}.

(** How an iteration ends: the next one, leaving the loop with a return value, or the
    end of the process. *)
Inductive flow := Next | Break (ret : Z) | Exited.

Definition loop_turn (it : iteration) : M flow :=
  a ← handle_disconnect_request;
  match a with
  | Exit => mret Exited
  | Continue =>
      match waited it with
      | WaitError e =>
          _ ← modify (fun c => c <| errno := e |>);
          mret (if e =? EINTR then Next else Break 0)
      | Ready evs =>
          let t := clock it in
          _ ← modify (fun c => c <| now := t |>);
          c ← state;
          _ ← when (KEEPALIVE_INTERVAL_SEC <=? t - last_keepalive c)
                (_ ← send_keepalive (g_udp_sock c); modify (fun c => c <| last_keepalive := t |>));
          if SERVER_KEEPALIVE_TIMEOUT <=? t - last_server_keepalive_time c then mret (Break (-1))
          else
            _ ← rehandshake_if_due t (randomness it) (script it);
            a ← handle_all evs;
            match a with
            | Exit => mret Exited
            | Continue =>
                last ← get last_sweep;
                _ ← when (5 <=? t - last) (_ ← sweep_reassembly_table; modify (fun c => c <| last_sweep := t |>));
                mret Next
            end
      end
  end.

(** The end of [event_loop_run]; [epfd] is the epoll descriptor. *)
Definition leave_loop (epfd : Z) : M unit :=
  _ ← rehandshake_buffer_free;
  _ ← emit (Close epfd);
  restore_route_and_cleanup_client.

(** The rest of [main]. *)
Definition main_end : M unit :=
  c ← state;
  _ ← when (disconnect_requested c && (0 <=? g_udp_sock c)) (send_disconnect (g_udp_sock c));
  restore_route_and_cleanup_client.

(** From the end of the loop, or from its set-up when that failed. *)
Definition client_end (epfd : option Z) : M unit :=
  _ ← (match epfd with Some fd => leave_loop fd | None => mret tt end);
  main_end.

(** ** main *)

(** The globals when [main] has parsed its arguments: the server's key and address,
    the options, and everything else cleared. *)
Definition initial (pk : list byte) (addr : sockaddr_in) (o : options) (t : Z) (jk : list byte) : client :=
  {| srv := {| session_id := zeros SESSION_ID_LEN; server_pk := pk; k_recv := zeros AEAD_KEY_LEN;
               k_send := zeros AEAD_KEY_LEN; send_seq := 0; server_addr := addr; assigned_ip := zeros 4;
               session_start_time := 0; bytes_sent := 0; rehandshake_state := REHANDSHAKE_READY;
               rehandshake_attempts := 0; rehandshake_last_attempt := 0; rehandshake_backoff_sec := 0 |};
     g_session_id := zeros SESSION_ID_LEN; g_reassembly_table := replicate MAX_REASSEMBLY_ENTRIES entry_zero;
     rw := window_zero; rehandshake_buffer := []; g_outq := aq_empty; g_next_packet_id := 1;
     last_server_keepalive_time := 0; last_keepalive := 0; last_rehandshake := 0; last_sweep := 0;
     disconnect_requested := false; sender := None; final_pkt_dummy := zeros (Z.to_nat BUFFER_SIZE);
     dummy_payload := zeros (Z.to_nat BUFFER_SIZE); static_hdr_len := 0; g_tun_fd := -1; g_udp_sock := -1;
     vpn_iface := o_TUN_NAME o; old_gateway := []; route_added := false; data_REAL := 0; data_DUMMY := 0;
     last_double_dummy_real := 0; argv_MBPS := o_MBPS o; argv_FRAG := o_FRAG o; argv_CBR := o_CBR o;
     argv_PAD := o_PAD o; argv_REHANDSHAKE_INTERVAL := o_REHANDSHAKE_INTERVAL o; errno := 0; now := t;
     mallocs := []; ios := []; junk := jk; trace := [] |}.

(** [main] up to the event loop: 0 when the loop is entered, 1 when the program gives
    up before. *)
Definition main_start (tun : Z * list byte) (sock : Z) (gateway : option (list byte)) (route_ok : bool)
    (e : client_ephemeral) (script : list poll) (heap : list byte) (created : bool) : M Z :=
  _ ← reassembly_init;
  rc ← setup_and_handshake tun sock gateway route_ok e script;
  if negb (rc =? 0) then mret 1
  else
    ok ← malloc;
    if negb ok then _ ← emit (Close tun.1); _ ← emit (Close sock); mret 1
    else
      _ ← modify (fun c => c <| g_outq := aq_empty |>);
      rc ← start_sender_thread sock heap created;
      if negb (rc =? 0) then _ ← emit (Close tun.1); _ ← emit (Close sock); mret 1
      else _ ← event_loop_init; mret 0.

End loop.
