(* ===== verification/ClientLogic.v ===== *)
(** Reasoning about the client's operations: rules for the primitives of Client, the
    well-formedness invariant of the client's state, and its preservation by the
    packet handlers. *)

From stdpp Require Import list gmap.
From S2P Require Import Prelude State ReplayWindow OutQueue TaskHeap Crypto Wire Fragment.
From S2P Require Import Clock Client.
Local Open Scope Z_scope.

(** ** Rules *)

Lemma runs_client_malloc c Q :
  (forall b bs en, (mallocs c = [] -> b = true /\ bs = [] /\ en = errno c) ->
     Q b (c <| mallocs := bs |> <| errno := en |>)) -> runs malloc c Q.
Proof.
  intros H. unfold runs, malloc. destruct (mallocs c) as [|[] bs] eqn:E.
  - exists true, c. split; [done|]. specialize (H true [] (errno c) (fun _ => conj eq_refl (conj eq_refl eq_refl))).
    by destruct c; cbn in *; subst.
  - do 2 eexists. split; [done|]. specialize (H true bs (errno c) ltac:(done)). by destruct c.
  - do 2 eexists. split; [done|]. by apply H.
Qed.

(** What an output call leaves: its events when it succeeds. *)
Lemma runs_output ev c Q :
  (forall r rs, (ios c = [] -> r = 0 /\ rs = []) ->
     Q r (c <| ios := rs |> <| trace := if r =? 0 then trace c ++ [ev] else trace c |>)) -> runs (output ev) c Q.
Proof.
  intros H. unfold runs, output. destruct (ios c) as [|r rs] eqn:E.
  - do 2 eexists. split; [done|]. specialize (H 0 [] (fun _ => conj eq_refl eq_refl)).
    by destruct c; cbn in *; subst.
  - specialize (H r rs ltac:(done)). do 2 eexists. split; [done|]. by destruct c, (r =? 0).
Qed.

Lemma runs_output_main ev c Q :
  (forall r rs, (ios c = [] -> r = 0 /\ rs = []) ->
     Q r (c <| ios := rs |> <| trace := if r =? 0 then trace c ++ [ev] else trace c |>
            <| errno := if r =? 0 then errno c else r |>)) -> runs (output_main ev) c Q.
Proof.
  intros H. unfold output_main. apply runs_bind, runs_output. intros r rs Hr. specialize (H r rs Hr).
  apply runs_bind. destruct (r =? 0); cbn [negb when].
  - by do 2 apply runs_ret.
  - apply runs_modify. by apply runs_ret.
Qed.

Lemma runs_client_next_seq c Q :
  Q (send_seq (srv c)) (c <| srv ::= (fun s => s <| send_seq := u64 (send_seq (srv c) + 1) |>) |>) -> runs next_seq c Q.
Proof. intros H. unfold next_seq. by apply runs_bind, runs_get, runs_bind, runs_modify, runs_ret. Qed.

(** One symbolic step. *)
Ltac cstep :=
  lazymatch goal with
  | |- runs (_ ≫= _) _ _ => apply runs_bind
  | |- runs (mret _) _ _ => apply runs_ret
  | |- runs (get _) _ _ => apply runs_get
  | |- runs state _ _ => apply runs_state
  | |- runs (modify _) _ _ => apply runs_modify
  | |- runs (emit _) _ _ => apply runs_modify
  | |- runs next_seq _ _ => apply runs_client_next_seq
  | |- runs malloc _ _ => apply runs_client_malloc; intros ? ? ? ?
  | |- runs (output _) _ _ => apply runs_output; intros ? ? ?
  | |- runs (output_main _) _ _ => apply runs_output_main; intros ? ? ?
  | |- runs (when true _) _ _ => cbn [when]
  | |- runs (when false _) _ _ => cbn [when]
  end; cbv beta match.
Ltac csteps := repeat cstep.
(** Field [f] of a state built from [c] is still that of [c]. *)
Ltac same_field f c := match goal with |- context [f ?x] => progress change (f x) with (f c) end.

Ltac cbind := lazymatch goal with |- runs (_ ≫= _) _ _ => apply runs_bind | _ => idtac end.
Ltac clift H := cbind; eapply runs_lift; [exact H|]; cbv beta match.

(** ** The invariant *)

Record server_ok (s : server_t) : Prop := {
  ok_sid : length (session_id s) = SESSION_ID_LEN;
  ok_kr : length (k_recv s) = AEAD_KEY_LEN;
  ok_ks : length (k_send s) = AEAD_KEY_LEN;
  ok_seq : in_u64 (send_seq s);
  ok_attempts : 0 <= rehandshake_attempts s <= 5;
}.

Record args_ok (a : sender_args_t) : Prop := {
  ok_sa_sid : length (sa_session_id a) = SESSION_ID_LEN;
  ok_sa_key : length (sa_k_send a) = AEAD_KEY_LEN;
  ok_pend_sid : length (pending_session_id a) = SESSION_ID_LEN;
  ok_pend_key : length (pending_k_send a) = AEAD_KEY_LEN;
  ok_interval : normal_ts (interval a);
}.

Record client_ok (c : client) : Prop := {
  ok_srv : server_ok (srv c);
  ok_gsid : length (g_session_id c) = SESSION_ID_LEN;
  ok_table : Forall entry_ok (g_reassembly_table c);
  ok_window : exists S, window_rep (rw c) S;
  ok_queue : aq_wf (g_outq c);
  ok_id : 0 < g_next_packet_id c < 2 ^ 16;
  ok_sender : exists a, sender c = Some a /\ args_ok a;
  ok_final : Z.of_nat (length (final_pkt_dummy c)) = BUFFER_SIZE;
  ok_dummy : Z.of_nat (length (dummy_payload c)) = BUFFER_SIZE;
  ok_static : static_hdr_len c = 22;
  ok_ready : exists a, sender c = Some a /\ take 22 (final_pkt_dummy c) = proto_bytes data_header ++ sa_session_id a /\
    u16_at (dummy_payload c) 6 = Ok PKT_DUMMY;
  ok_frag : 300 <= argv_FRAG c <= 1200;
  ok_pad : argv_PAD c = ch_Y \/ argv_PAD c = ch_N;
  ok_counts : 0 <= data_REAL c /\ 0 <= data_DUMMY c;
  ok_buffer : (length (rehandshake_buffer c) <= 128)%nat;
  ok_junk : BUFFER_SIZE <= Z.of_nat (length (junk c));
}.

(** The fields the invariant speaks of. *)
Definition core (c : client) :=
  (srv c, g_session_id c, g_reassembly_table c, rw c, g_outq c, g_next_packet_id c, sender c,
   (final_pkt_dummy c, dummy_payload c, static_hdr_len c, argv_FRAG c, argv_PAD c, data_REAL c, data_DUMMY c,
    rehandshake_buffer c, junk c)).

Lemma client_ok_core c c' : core c' = core c -> client_ok c -> client_ok c'.
Proof.
  intros E [Hsrv Hgsid Htbl Hwin Hq Hid Hsnd Hfin Hdum Hst Hrd Hfr Hpad Hcnt Hbuf Hjunk]. unfold core in E.
  injection E as E1 E2 E3 E4 E5 E6 E7 E8 E9 E10 E11 E12 E13 E14 E15 E16.
  constructor; rewrite ?E1, ?E2, ?E3, ?E4, ?E5, ?E6, ?E7, ?E8, ?E9, ?E10, ?E11, ?E12, ?E13, ?E14, ?E15, ?E16; done.
Qed.

(** Closes [client_ok] goals for states that differ in one respect from a
    well-formed one. *)
Ltac keep_ok H := first [exact H | by (eapply client_ok_core; [|exact H]) | by (destruct H; constructor)].

Lemma server_ok_seq s q : server_ok s -> in_u64 q -> server_ok (s <| send_seq := q |>).
Proof. intros []. by constructor. Qed.

Lemma client_ok_srv c s : client_ok c -> server_ok s -> client_ok (c <| srv := s |>).
Proof. intros [] ?. by constructor. Qed.

Lemma client_ok_seq c q :
  client_ok c -> in_u64 q -> client_ok (c <| srv ::= (fun s => s <| send_seq := q |>) |>).
Proof. intros Hc Hq. apply (client_ok_srv c); [done|]. apply server_ok_seq; [apply Hc|done]. Qed.

(** After a send that used the next sequence number. *)
Lemma client_ok_sent c rs t en :
  client_ok c -> client_ok (c <| srv ::= (fun s => s <| send_seq := u64 (send_seq (srv c) + 1) |>) |>
                              <| ios := rs |> <| trace := t |> <| errno := en |>).
Proof. intros Hc. pose proof (client_ok_seq c _ Hc (u64_range (send_seq (srv c) + 1))) as H. keep_ok H. Qed.

(** ** Headers and control packets *)

Lemma control_header_wf flag tag : in_u16 flag -> length tag = SESSION_ID_LEN -> tunnel_wf (control_header flag tag).
Proof. intros. by constructor. Qed.

Lemma junk_tag_length c : client_ok c -> length (junk_tag c) = SESSION_ID_LEN.
Proof.
  intros Hc. pose proof (ok_junk c Hc) as H. unfold BUFFER_SIZE in H. unfold junk_tag. rewrite length_take.
  unfold SESSION_ID_LEN. lia.
Qed.

(** A control packet has the length asked for and carries its flag. *)
Lemma filled_packet_ok flag tag len fill :
  in_u16 flag -> length tag = SESSION_ID_LEN -> 24 <= len ->
  exists pt, filled_packet (control_header flag tag) len fill = Ok pt /\ Z.of_nat (length pt) = len /\
    u16_at pt 6 = Ok flag.
Proof.
  intros Hf Ht Hl. unfold filled_packet. destruct (Z.ltb_spec len (Z.of_nat sizeof_tunnel_header)); [unfold sizeof_tunnel_header in *; lia|].
  eexists. split; [reflexivity|]. split.
  - rewrite length_app, length_tunnel_bytes, length_replicate by done. unfold sizeof_tunnel_header. lia.
  - by destruct (tunnel_fields (control_header flag tag) (replicate (Z.to_nat len - sizeof_tunnel_header) (z2b fill)))
      as (_ & _ & _ & E); [by apply control_header_wf|].
Qed.

Section logic.
Context `{Sod : Sodium} `{!SodiumLaws Sod}.

(** Encryption under the session's key, as the datagram it becomes. *)
Lemma encrypt_seal key sid sq pt :
  length key = AEAD_KEY_LEN -> Z.of_nat (length pt) <= 1584 ->
  exists ct, encrypt key sid sq pt = Ok (Some ct) /\ data_packet sid sq ct = seal key sid pt sq /\
    length ct = (length pt + MAC_LEN)%nat.
Proof.
  intros Hk Hl. destruct (encrypt_ok key sid sq pt Hk) as (ct & E & _ & Hlen).
  { unfold BUFFER_SIZE, MAC_LEN. lia. }
  exists ct. split; [done|]. split; [|done]. unfold seal. unfold encrypt in E.
  destruct (aead_encrypt key sid sq pt); [|done]. case_match; by simplify_eq.
Qed.

(** Control packets: the state stays well-formed. *)
Lemma client_keepalive_ok sock c : client_ok c -> runs (send_keepalive sock) c (fun _ => client_ok).
Proof.
  intros Hc. pose proof (ok_frag c Hc) as Hf. pose proof (ok_srv c Hc) as Hs. unfold send_keepalive. csteps.
  destruct (filled_packet_ok PKT_CTRL_KEEPALIVE (junk_tag c) (argv_FRAG c) 0x88) as (pt & Hpt & Hl & _);
    [by vm_compute|by apply junk_tag_length|lia|].
  clift Hpt. do 4 cstep.
  destruct (encrypt_seal (k_send (srv c)) (session_id (srv c)) (send_seq (srv c)) pt) as (ct & Hct & _);
    [apply Hs|lia|].
  cstep. clift Hct. csteps. by apply client_ok_sent.
Qed.

Lemma send_disconnect_ok sock c : client_ok c -> runs (send_disconnect sock) c (fun _ => client_ok).
Proof.
  intros Hc. pose proof (ok_srv c Hc) as Hs. unfold send_disconnect. csteps.
  destruct (filled_packet_ok PKT_CTRL_DISCONNECT (junk_tag c) 1400 0x11) as (pt & Hpt & Hl & _);
    [by vm_compute|by apply junk_tag_length|lia|].
  clift Hpt. do 6 cstep.
  destruct (encrypt_seal (k_send (srv c)) (g_session_id c) (send_seq (srv c)) pt) as (ct & Hct & _); [apply Hs|lia|].
  cstep. clift Hct. apply (runs_for _ _ _ _ client_ok).
  - apply (client_ok_seq _ _ Hc), u64_range.
  - intros _ c' _ Hc'. csteps. keep_ok Hc'.
Qed.

(** ** Packets from the tunnel *)

Lemma client_queue_push_ok pk sq ip c : client_ok c -> runs (queue_push pk sq ip) c (fun _ => client_ok).
Proof.
  intros Hc. unfold queue_push. cstep. rewrite classify_eq. eapply runs_lift; [reflexivity|]. cbv beta. cstep. cstep.
  destruct b; cbn [negb]; cstep; [|keep_ok Hc].
  destruct Hc. constructor; try done. by apply aq_push_wf.
Qed.

(** The piece of a packet laid out in the fragment buffer. *)
Definition max_payload (c : client) : nat := Z.to_nat (argv_FRAG c) - sizeof_tunnel_header.
Definition pad_to (c : client) : nat := if bool_decide (argv_PAD c = ch_N) then 0 else Z.to_nat (argv_FRAG c).
Definition fragments (c : client) (id : Z) (ip : list byte) : list (list byte) :=
  pieces (junk_tag c) (max_payload c) (pad_to c) id ip.

Lemma packet_padding_id pad frag body :
  Z.of_nat (length body) <= frag < 2 ^ 64 -> pad = ch_Y \/ pad = ch_N ->
  packet_padding pad frag (body ++ zeros (Z.to_nat frag - length body)) (Z.of_nat (length body)) =
    Ok (if bool_decide (pad = ch_N) then None else Some (body ++ zeros (Z.to_nat frag - length body))).
Proof.
  intros Hl _. unfold packet_padding. case_bool_decide; [done|]. rewrite u64_small by (unfold in_u64; lia).
  destruct (Z.ltb_spec 0 (frag - Z.of_nat (length body))); [|done].
  fold (zeros (Z.to_nat (frag - Z.of_nat (length body)))). rewrite memcpy_zeros.
  - cbn [mbind outcome_bind]. unfold zeros at 3. rewrite length_replicate.
    replace (_ - _ - _)%nat with 0%nat by lia. cbn [zeros replicate]. rewrite app_nil_r. repeat f_equal. lia.
  - lia.
  - unfold zeros. rewrite length_replicate. lia.
Qed.

Lemma max_payload_range c : client_ok c -> (276 <= max_payload c <= 1176)%nat.
Proof. intros [_ _ _ _ _ _ _ _ _ _ _ Hf _ _ _ _]. unfold max_payload, sizeof_tunnel_header. lia. Qed.

(** One turn of the fragmentation loop, up to the queue. *)
Lemma client_fragment_step fuel id off ip c Q :
  client_ok c -> (off < length ip)%nat ->
  let ck := take (max_payload c) (drop off ip) in
  let pt := fragment_plain (junk_tag c) (pad_to c) id (length ip) (off, ck) in
  let q := send_seq (srv c) in
  let c1 := c <| srv ::= (fun s => s <| send_seq := u64 (q + 1) |>) |> in
  (forall b bs en, (mallocs c = [] -> b = true /\ bs = [] /\ en = errno c) ->
     runs (_ ← when b (queue_push (seal (k_send (srv c)) (session_id (srv c)) pt q) q ip);
           fragment_loop fuel id (Z.of_nat (off + length ck)) ip) (c1 <| mallocs := bs |> <| errno := en |>) Q) ->
  runs (fragment_loop (Datatypes.S fuel) id (Z.of_nat off) ip) c Q.
Proof.
  intros Hc Hoff ck pt q c1 Hrun. pose proof (ok_frag c Hc) as Hf. pose proof (max_payload_range c Hc) as HP.
  cbn [fragment_loop]. destruct (Z.ltb_spec (Z.of_nat off) (Z.of_nat (length ip))); [|lia]. do 6 cstep.
  rewrite (u64_small (argv_FRAG c - _)) by (unfold in_u64, sizeof_tunnel_header; lia).
  assert (Hcl : Z.of_nat (length ck) = if argv_FRAG c - Z.of_nat sizeof_tunnel_header <? Z.of_nat (length ip) - Z.of_nat off
    then argv_FRAG c - Z.of_nat sizeof_tunnel_header else Z.of_nat (length ip) - Z.of_nat off).
  { subst ck. rewrite length_take, length_drop. unfold max_payload, sizeof_tunnel_header in *.
    destruct (Z.ltb_spec (argv_FRAG c - Z.of_nat 24) (Z.of_nat (length ip) - Z.of_nat off)); lia. }
  cbv zeta. rewrite <- Hcl.
  assert (Hck : take (Z.to_nat (Z.of_nat (length ck))) (drop (Z.to_nat (Z.of_nat off)) ip) = ck)
    by (rewrite !Nat2Z.id; apply take_len_take).
  rewrite Hck. set (th := tunnel_bytes _).
  assert (Hth : length th = 24%nat) by (apply length_tunnel_bytes; by apply junk_tag_length).
  assert (Hcle : (24 + length ck <= Z.to_nat (argv_FRAG c))%nat).
  { subst ck. rewrite length_take. unfold max_payload, sizeof_tunnel_header. lia. }
  cstep. clift (memcpy_zeros [] (Z.to_nat (argv_FRAG c)) 0 th eq_refl ltac:(lia)).
  cstep. clift (memcpy_zeros ([] ++ th) (Z.to_nat (argv_FRAG c) - length th) sizeof_tunnel_header ck Hth ltac:(lia)).
  cbn [app]. set (body := th ++ ck).
  assert (Hbl : length body = (24 + length ck)%nat) by (subst body; rewrite length_app; lia).
  replace (Z.to_nat (argv_FRAG c) - length th - length ck)%nat with (Z.to_nat (argv_FRAG c) - length body)%nat by lia.
  replace (Z.of_nat sizeof_tunnel_header + Z.of_nat (length ck)) with (Z.of_nat (length body)) by (unfold sizeof_tunnel_header; lia).
  cstep. clift (packet_padding_id (argv_PAD c) (argv_FRAG c) body ltac:(lia) (ok_pad c Hc)).
  do 4 cstep. match goal with |- runs (lift (buf_read ?p _ _)) _ _ => idtac | |- runs (_ ≫= _) _ _ => cstep end.
  eapply (runs_lift _ _ pt).
  { subst pt. unfold fragment_plain, pad_to. cbn [fst snd]. fold th. change (fragment_body (junk_tag c) id (length ip) off ck) with body.
    case_bool_decide; cbn [fst snd].
    - rewrite buf_read_front by lia. cbn [Nat.sub zeros replicate]. by rewrite app_nil_r.
    - apply buf_read_all. rewrite length_app. unfold zeros. rewrite length_replicate. lia. }
  cbv beta.
  destruct (encrypt_seal (k_send (srv c)) (session_id (srv c)) q pt) as (ct & Hct & Hseal & _).
  { apply Hc. }
  { subst pt. unfold fragment_plain, pad_to. cbn [fst snd]. change (fragment_body (junk_tag c) id (length ip) off ck) with body.
    rewrite length_app. unfold zeros. rewrite length_replicate. case_bool_decide; lia. }
  cstep. clift Hct. cstep. cstep. rewrite Nat2Z.inj_add in Hrun. rewrite <- Hseal in Hrun. by apply Hrun.
Qed.

Lemma client_fragment_loop_ok fuel id ip : forall off c,
  client_ok c -> (off <= length ip)%nat -> (length ip - off <= fuel)%nat ->
  runs (fragment_loop fuel id (Z.of_nat off) ip) c (fun _ => client_ok).
Proof.
  induction fuel as [|fuel IH]; intros off c Hc Hoff Hfuel.
  { cbn [fragment_loop]. destruct (Z.ltb_spec (Z.of_nat off) (Z.of_nat (length ip))); [lia|]. by cstep. }
  destruct (decide (off = length ip)) as [->|].
  { cbn [fragment_loop]. rewrite Z.ltb_irrefl. by cstep. }
  pose proof (max_payload_range c Hc). apply client_fragment_step; [done|lia|]. intros b bs en _. cstep.
  set (c1 := _ <| errno := en |>). assert (Hc1 : client_ok c1).
  { pose proof (client_ok_seq c _ Hc (u64_range (send_seq (srv c) + 1))) as Hq. subst c1. keep_ok Hq. }
  assert (Hlen : (0 < length (take (max_payload c) (drop off ip)) <= length ip - off)%nat)
    by (rewrite length_take, length_drop; lia).
  destruct b; cbn [when].
  - eapply runs_conseq; [by apply client_queue_push_ok|]. cbv beta. intros _ c2 Hc2. apply IH; [done|lia..].
  - cstep. apply IH; [done|lia..].
Qed.

Lemma take_packet_id_ok c :
  client_ok c -> runs take_packet_id c (fun id c' => id = g_next_packet_id c /\ client_ok c' /\
    exists n, c' = c <| g_next_packet_id := n |>).
Proof.
  intros Hc. pose proof (ok_id c Hc) as Hid. unfold take_packet_id. csteps. cbv zeta. split; [done|]. split; [|eauto].
  destruct Hc. constructor; try done. cbn. pose proof (u16_range (g_next_packet_id c + 1)) as Hr. unfold in_u16 in Hr.
  destruct (Z.eqb_spec (u16 (g_next_packet_id c + 1)) 0); lia.
Qed.

Lemma handle_tun_packet_ok r c : client_ok c -> runs (handle_tun_packet r) c (fun _ => client_ok).
Proof.
  intros Hc. unfold handle_tun_packet. destruct r as [e|data]; [cstep; keep_ok Hc|]. cbv zeta. case_decide; [by cstep|].
  cstep. eapply runs_conseq; [by apply take_packet_id_ok|]. cbv beta. intros id c' (_ & Hc' & _).
  apply (client_fragment_loop_ok _ _ _ 0%nat); [done|lia..].
Qed.

(** With no allocation failing, the fragments of the packet join the queue, sealed
    and numbered in order. *)
Fixpoint queued (key sid : list byte) (prio : pkt_priority_t) (sq : Z) (pts : list (list byte)) : list out_data :=
  match pts with
  | [] => []
  | pt :: pts =>
      let pk := seal key sid pt sq in
      {| pkt := pk; pktlen := Z.of_nat (length pk); seq := sq; priority := prio |} :: queued key sid prio (u64 (sq + 1)) pts
  end.

Definition push_all (ds : list out_data) (q : aqueue) : aqueue := foldl (fun q d => aq_push d q) q ds.

Definition priority_of (ip : list byte) : pkt_priority_t :=
  if decide (interactive ip) then PKT_PRIO_HIGH else PKT_PRIO_NORMAL.

(** The state after using sequence numbers up to [q] and with queue [A]. *)
Definition with_queue (c : client) (q : Z) (A : aqueue) : client :=
  c <| srv := srv c <| send_seq := q |> |> <| g_outq := A |>.

Lemma with_queue_twice c q A q' A' : with_queue (with_queue c q A) q' A' = with_queue c q' A'.
Proof. done. Qed.

Lemma with_queue_same c : with_queue c (send_seq (srv c)) (g_outq c) = c.
Proof. destruct c as [s]. by destruct s. Qed.

Lemma with_queue_ok c q A : client_ok c -> in_u64 q -> aq_wf A -> client_ok (with_queue c q A).
Proof. intros Hc Hq HA. pose proof (client_ok_seq c q Hc Hq) as []. by constructor. Qed.

Lemma fragment_loop_queued fuel id ip : forall off c,
  client_ok c -> mallocs c = [] -> (off <= length ip)%nat -> (length ip - off <= fuel)%nat ->
  let pts := fragment_plain (junk_tag c) (pad_to c) id (length ip) <$> chunks fuel (max_payload c) off (drop off ip) in
  let s := srv c in
  runs (fragment_loop fuel id (Z.of_nat off) ip) c (fun _ c' =>
    c' = with_queue c (u64 (send_seq s + Z.of_nat (length pts)))
           (push_all (queued (k_send s) (session_id s) (priority_of ip) (send_seq s) pts) (g_outq c))).
Proof.
  assert (Hdone : forall c, client_ok c -> c = with_queue c (u64 (send_seq (srv c) + 0)) (g_outq c)).
  { intros c Hc. rewrite Z.add_0_r, u64_small by apply Hc. symmetry. apply with_queue_same. }
  induction fuel as [|fuel IH]; intros off c Hc Hm Hoff Hfuel pts s.
  { cbn [fragment_loop]. destruct (Z.ltb_spec (Z.of_nat off) (Z.of_nat (length ip))); [lia|]. cstep.
    subst pts. replace off with (length ip) by lia. rewrite drop_all, chunks_nil. by apply Hdone. }
  destruct (decide (off = length ip)) as [->|Hne].
  { cbn [fragment_loop]. rewrite Z.ltb_irrefl. cstep. subst pts. rewrite drop_all, chunks_nil. by apply Hdone. }
  pose proof (max_payload_range c Hc). apply client_fragment_step; [done|lia|]. intros b bs en Hb.
  destruct (Hb Hm) as (-> & -> & ->). cbn [when]. set (ck := take (max_payload c) (drop off ip)).
  set (pt := fragment_plain _ _ _ _ (off, ck)).
  assert (Hlen : (0 < length ck <= length ip - off)%nat) by (subst ck; rewrite length_take, length_drop; lia).
  cstep. unfold queue_push. cstep. rewrite classify_eq. eapply runs_lift; [reflexivity|]. fold (priority_of ip).
  cbv beta. cstep. apply runs_client_malloc. intros b bs en' Hb'. destruct (Hb' eq_refl) as (-> & -> & ->). cbn [negb]. cstep.
  set (d := {| pkt := _; pktlen := _; seq := _; priority := _ |}).
  set (c1 := with_queue c (u64 (send_seq s + 1)) (aq_push d (g_outq c))).
  assert (Hc1 : client_ok c1) by (apply with_queue_ok; [done|apply u64_range|by apply aq_push_wf, Hc]).
  match goal with |- runs _ ?w _ => replace w with c1 by (unfold c1; clearbody d; destruct c; cbn in *; by subst) end.
  eapply runs_conseq; [apply (IH (off + length ck)%nat c1)|]; [done|done|lia..|]. cbv beta zeta. intros _ c' ->.
  assert (Hpts : pts = pt :: (fragment_plain (junk_tag c1) (pad_to c1) id (length ip) <$>
    chunks fuel (max_payload c1) (off + length ck) (drop (off + length ck) ip))).
  { subst pts. rewrite chunks_cons by lia. fold ck. rewrite chunks_next. fold ck. done. }
  rewrite Hpts. set (rest := fragment_plain _ _ _ _ <$> _). cbn [length queued]. cbv zeta. fold d.
  change (srv c1) with (s <| send_seq := u64 (send_seq s + 1) |>). change (g_outq c1) with (aq_push d (g_outq c)).
  cbn [send_seq k_send session_id set]. rewrite u64_add_l. unfold c1. rewrite with_queue_twice. f_equal. f_equal. lia.
Qed.

End logic.
