(* ===== verification/ClientData.v ===== *)
(** The client's data path: what reaches it is authenticated, decrypted and put back
    together. *)

From stdpp Require Import list gmap.
From S2P Require Import Prelude State ReplayWindow OutQueue TaskHeap Crypto Wire Fragment.
From S2P Require Import Clock Client ClientLogic.
Local Open Scope Z_scope.

Section data.
Context `{Sod : Sodium} `{!SodiumLaws Sod}.

(** ** Incoming packets *)

(** The sequence number a datagram carries in the clear. *)
Definition datagram_seq (d : list byte) : Z := be_value (take 8 (drop (sizeof_proto_header + SESSION_ID_LEN) d)).

(** A datagram that, if it opens under the key [key], the session id [sid] and its own
    number, states a packet length a reassembly buffer can hold. *)
Definition honest_datagram (key sid data : list byte) : Prop :=
  forall plain total, aead_decrypt key sid (datagram_seq data) (drop DATA_HEADER_LEN data) = Some plain ->
    u16_at plain 4 = Ok total -> total <= MAX_PACKET_SIZE.

Definition honest_io (key sid : list byte) (r : io_result) : Prop :=
  match r with IoData data => honest_datagram key sid (take (Z.to_nat BUFFER_SIZE) data) | IoError _ => True end.

Lemma client_plain_ok plain c :
  client_ok c -> Z.of_nat (length plain) <= BUFFER_SIZE ->
  (forall total, u16_at plain 4 = Ok total -> total <= MAX_PACKET_SIZE) ->
  runs (handle_plain plain) c (fun _ => client_ok).
Proof.
  intros Hc Hl Htot. unfold handle_plain. do 2 cstep. case_decide as Hlen; [by cstep|]. cstep.
  destruct (u16_at_ok plain 6) as (fl & Hfl & _); [unfold sizeof_tunnel_header in *; lia|]. clift Hfl.
  destruct (fl =? PKT_DUMMY); [by cstep|]. destruct (fl =? PKT_CTRL_KEEPALIVE).
  { csteps. keep_ok Hc. }
  destruct (fl =? PKT_CTRL_DISCONNECT); [by cstep|]. do 3 cstep.
  destruct (accept_fragment_ok (now c) (g_reassembly_table c) plain) as (tbl & o & Ho & Htbl & _);
    [apply Hc|split; [lia|done]|done|].
  clift Ho. do 2 cstep. cbn [fst snd]. assert (Hc1 : client_ok (c <| g_reassembly_table := tbl |>)) by (destruct Hc; by constructor).
  destruct o; csteps; keep_ok Hc1.
Qed.

Lemma handle_udp_packet_ok r c : client_ok c -> honest_io (k_recv (srv c)) (session_id (srv c)) r -> runs (handle_udp_packet r) c (fun _ => client_ok).
Proof.
  intros Hc Hh. unfold handle_udp_packet. destruct r as [e|data]; [csteps; keep_ok Hc|]. cbn in Hh.
  set (d := take _ data) in *. assert (Hdl : (length d <= 1600)%nat) by (subst d; rewrite length_take; change (Z.to_nat BUFFER_SIZE) with 1600%nat; lia).
  cbv zeta. case_decide; [by cstep|]. do 2 cstep. pose proof (ok_junk c Hc) as Hj.
  set (buf := d ++ _). assert (Hbl : length buf = 1600%nat).
  { subst buf. change (Z.to_nat BUFFER_SIZE) with 1600%nat. unfold BUFFER_SIZE in Hj. simpl_len. lia. }
  assert (Hph : exists ph, read_proto buf = Ok ph).
  { unfold read_proto, buf_read. rewrite decide_True by lia. cbn [mbind outcome_bind].
    destruct (byte_at_lt buf 4) as (? & _ & ->); [lia|]. destruct (byte_at_lt buf 5) as (? & _ & ->); [lia|]. cbn. eauto. }
  destruct Hph as [ph Hph]. cstep. clift Hph. destruct (negb _); [by cstep|]. destruct (negb _); [by cstep|].
  case_decide as Hr; [by cstep|]. unfold DATA_HEADER_LEN, sizeof_proto_header, SESSION_ID_LEN in Hr. do 3 cstep. eapply runs_lift.
  { unfold buf_read. rewrite decide_True; [reflexivity|]. unfold sizeof_proto_header, SESSION_ID_LEN. lia. }
  cbv beta. destruct (negb _); [by cstep|]. cstep. eapply runs_lift.
  { unfold buf_read. rewrite decide_True; [reflexivity|]. unfold sizeof_proto_header, SESSION_ID_LEN. lia. }
  cbv beta zeta. set (q := be_value _). destruct (ok_window c Hc) as [S HS].
  assert (Eq : q = datagram_seq d).
  { subst q buf. unfold datagram_seq, sizeof_proto_header, SESSION_ID_LEN. rewrite drop_app_le by lia.
    by rewrite take_app_le by (rewrite length_drop; lia). }
  assert (Hq : in_u64 q).
  { subst q. pose proof (be_value_range (take 8 (drop (sizeof_proto_header + SESSION_ID_LEN) buf))) as Hb.
    rewrite length_take, length_drop, Hbl in Hb. change (256 ^ _) with (2 ^ 64) in Hb. done. }
  do 3 cstep. clift (check_replay_rep (rw c) S q HS Hq). case_bool_decide as Hf; cbn [negb]; [|by cstep].
  destruct (aead_decrypt _ _ _ _) as [plain|] eqn:Hdec; [|by cstep].
  destruct (update_window_rep (rw c) S q HS Hq Hf) as (w' & Hw' & HS' & _). cstep. clift Hw'. do 2 cstep.
  apply client_plain_ok.
  - destruct Hc. constructor; try done. by exists ({[q]} ∪ S).
  - apply aead_open_length in Hdec. rewrite length_drop in Hdec. unfold BUFFER_SIZE. lia.
  - intros total. rewrite Eq in Hdec. by eapply Hh.
Qed.

(** ** Sealed fragments *)

(** [handle_udp_packet] on a datagram, as a step. *)
Definition deliver (buf : list byte) : M unit := _ ← handle_udp_packet (IoData buf); mret tt.

(** A packet sealed by the server with the next sequence number is authenticated and
    accepted, and its plaintext handled. *)
Lemma deliver_sealed c S q pt Q :
  server_ok (srv c) -> window_rep (rw c) S -> recv_max (rw c) < q < 2 ^ 64 -> Z.of_nat (length pt) <= MAX_FRAG - 70 ->
  (forall r, window_rep r ({[q]} ∪ S) -> recv_max r = q -> runs (handle_plain pt) (c <| rw := r |>) (fun _ => Q tt)) ->
  runs (deliver (seal (k_recv (srv c)) (session_id (srv c)) pt q)) c Q.
Proof.
  intros Hs HS Hq Hpt HQ. unfold deliver, seal.
  destruct (aead_roundtrip (k_recv (srv c)) (session_id (srv c)) q pt (ok_kr _ Hs)) as (ct & -> & Hdec & Hlen).
  change (default [] (Some ct)) with ct. pose proof (rep_max _ _ HS) as Hm. unfold in_u64 in Hm.
  destruct (data_packet_fields (session_id (srv c)) q ct (ok_sid _ Hs) ltac:(split; lia)) as (_ & Fsid & Fseq & Fct).
  set (buf := data_packet (session_id (srv c)) q ct) in *.
  assert (Hbl : length buf = (30 + length ct)%nat) by (apply length_data_packet, Hs).
  assert (Hml : MAC_LEN = 16%nat) by done. unfold MAX_FRAG in Hpt. unfold handle_udp_packet.
  rewrite (take_ge buf) by (change (Z.to_nat BUFFER_SIZE) with 1600%nat; lia). cbv zeta. rewrite decide_False by lia. do 3 cstep.
  rewrite Hbl. set (rest := drop (30 + length ct) _).
  assert (Hph : read_proto (buf ++ rest) = Ok data_header).
  { subst buf. unfold data_packet. rewrite <- !app_assoc. by apply read_proto_bytes. }
  cstep. clift Hph. change (negb (version data_header =? PKT_VERSION)) with false.
  change (negb (type data_header =? PKT_TYPE_DATA)) with false. cbv iota.
  rewrite decide_False by (unfold DATA_HEADER_LEN, sizeof_proto_header, SESSION_ID_LEN; lia). do 3 cstep.
  assert (Hrd : forall off n, (off + n <= 30)%nat -> buf_read (buf ++ rest) off n = Ok (take n (drop off buf))).
  { intros off n Hon. unfold buf_read. rewrite decide_True by (rewrite length_app; lia).
    rewrite drop_app_le by lia. by rewrite take_app_le by (rewrite length_drop; lia). }
  eapply runs_lift; [apply Hrd; unfold sizeof_proto_header, SESSION_ID_LEN; lia|]. cbv beta.
  rewrite Fsid, bool_decide_true by done. cbn [negb]. cstep.
  eapply runs_lift; [apply Hrd; unfold sizeof_proto_header, SESSION_ID_LEN; lia|]. cbv beta zeta. rewrite Fseq.
  assert (Hf : fresh S (recv_max (rw c)) q).
  { split; [lia|]. split; [|lia]. intros Hin. apply (rep_bound _ _ HS) in Hin. lia. }
  assert (Hq64 : in_u64 q) by (split; lia). do 3 cstep. clift (check_replay_rep (rw c) S q HS Hq64).
  rewrite bool_decide_true by done. cbn [negb]. rewrite Fct, Hdec.
  destruct (update_window_rep (rw c) S q HS Hq64 Hf) as (r & Hu & HS' & Hr). cstep. clift Hu. do 2 cstep.
  eapply runs_conseq; [apply HQ; [done|lia]|]. cbv beta. intros a c' Hc'. by cstep.
Qed.

(** A data packet's plaintext goes through the reassembly table. *)
Lemma client_data_plain c pt tbl o Q :
  ios c = [] -> data_plain pt -> accept_fragment (now c) (g_reassembly_table c) pt = Ok (tbl, o) ->
  Q (c <| g_reassembly_table := tbl |> <| trace := trace c ++ (TunWrite <$> option_list o) |>) ->
  runs (handle_plain pt) c (fun _ => Q).
Proof.
  intros Hio [_ [Hlen (fl & Hfl & H1 & H2 & H3)]] Ho HQ. unfold handle_plain. do 2 cstep.
  rewrite decide_False by lia. cstep. clift Hfl.
  rewrite H1, H2, H3. do 3 cstep. clift Ho. do 2 cstep. cbn [fst snd].
  destruct o as [d|]; cbn [option_list fmap list_fmap] in HQ.
  - cstep. apply runs_output_main. intros r rs Hr. destruct (Hr Hio) as [-> ->]. cstep. cbn [Z.eqb].
    destruct c; cbn in *; by subst.
  - cstep. rewrite app_nil_r in HQ. by destruct c.
Qed.

(** ** A sequence of packets *)

(** Fragments received in order go through the reassembly table. *)
Lemma client_receive_sealed key sid pts : forall c q S tbl outs,
  server_ok (srv c) -> k_recv (srv c) = key -> session_id (srv c) = sid -> ios c = [] ->
  window_rep (rw c) S -> recv_max (rw c) < q -> q + Z.of_nat (length pts) <= 2 ^ 64 ->
  Forall data_plain pts -> accept_all (now c) (g_reassembly_table c) pts = Ok (tbl, outs) ->
  runs (run_all deliver (seal_each key sid q pts)) c (fun _ c' =>
    exists r, c' = c <| g_reassembly_table := tbl |> <| rw := r |> <| trace := trace c ++ (TunWrite <$> outs) |>).
Proof.
  induction pts as [|pt pts IH]; intros c q S tbl outs Hc Hk Hs Hio HS Hq Hub Hd Hacc; cbn [accept_all seal_each run_all] in *.
  { simplify_eq. cstep. exists (rw c). rewrite app_nil_r. by destruct c. }
  apply Forall_cons in Hd as [Hpt Hd].
  apply bind_Ok in Hacc as ([tbl1 o] & Hone & Hacc). apply bind_Ok in Hacc as ([tbl2 outs2] & Hrest & Hacc). simplify_eq/=.
  pose proof (rep_max _ _ HS) as Hmax. unfold in_u64 in Hmax. cstep.
  eapply deliver_sealed; [done..|lia|apply Hpt|]. intros r HS' Hr.
  eapply client_data_plain; [done..|].
  set (c1 := _ <| trace := _ |>).
  destruct (decide (pts = [])) as [->|Hne].
  { cbn [accept_all] in Hrest. simplify_eq. cbn [seal_each run_all]. cstep. exists r. rewrite app_nil_r. by destruct c. }
  assert (Hpos : (0 < length pts)%nat) by (destruct pts; [done|cbn; lia]).
  rewrite (u64_small (q + 1)) by (unfold in_u64; lia).
  eapply runs_conseq; [apply (IH c1 (q + 1) ({[q]} ∪ S) tbl outs2)|]; try done.
  - change (recv_max r < q + 1). lia.
  - lia.
  - cbv beta. intros _ c' (r' & ->). exists r'. rewrite fmap_app, app_assoc. by destruct c.
Qed.

(** The pieces of a packet, sealed in order by the server, come out of the tunnel
    device as that packet. *)
Lemma client_receives c q S tag P padto id ip :
  client_ok c -> ios c = [] -> window_rep (rw c) S -> recv_max (rw c) < q -> q + Z.of_nat (length ip) <= 2 ^ 64 ->
  (40 <= P <= 1176)%nat -> (padto <= 24 + P)%nat -> length tag = SESSION_ID_LEN ->
  0 < id < 2 ^ 16 -> (0 < length ip <= 1600)%nat ->
  (forall x, x ∈ g_reassembly_table c -> is_active x = true -> re_packet_id x <> id) ->
  (exists x, x ∈ g_reassembly_table c /\ is_active x = false) ->
  runs (run_all deliver (seal_each (k_recv (srv c)) (session_id (srv c)) q (pieces tag P padto id ip))) c (fun _ c' =>
    exists tbl r, c' = c <| g_reassembly_table := tbl |> <| rw := r |> <| trace := trace c ++ [TunWrite ip] |>).
Proof.
  intros Hc Hio HS Hq Hub HP Hpad Htag Hid Hip Hno Hidle.
  destruct (accept_pieces (now c) (g_reassembly_table c) tag P padto id ip) as (Hd & tbl & Hacc); [done..|].
  pose proof (length_pieces tag P padto id ip).
  eapply runs_conseq; [apply (client_receive_sealed _ _ (pieces tag P padto id ip) c q S tbl [ip])|];
    [apply Hc|done..|lia|done|done|]. cbv beta. intros _ c' (r & ->). by exists tbl, r.
Qed.

(** ** What the client does not accept *)

(** What [recvfrom] leaves of a datagram is too short, of another version or type, of
    another session, already seen, or does not open under the client's key. *)
Definition client_refuses (c : client) (d : list byte) : Prop :=
  (length d <= DATA_HEADER_LEN)%nat \/
  (exists ph, read_proto d = Ok ph /\ (version ph <> PKT_VERSION \/ type ph <> PKT_TYPE_DATA)) \/
  take SESSION_ID_LEN (drop sizeof_proto_header d) <> session_id (srv c) \/
  check_replay (datagram_seq d) (rw c) = Ok true \/
  aead_decrypt (k_recv (srv c)) (session_id (srv c)) (datagram_seq d) (drop DATA_HEADER_LEN d) = None.

(** The bytes of a datagram in the receive buffer. *)
Lemma read_front d rest off n :
  (off + n <= length d)%nat -> buf_read (d ++ rest) off n = Ok (take n (drop off d)).
Proof.
  intros H. unfold buf_read. rewrite decide_True by (rewrite length_app; lia).
  rewrite drop_app_le by lia. by rewrite take_app_le by (rewrite length_drop; lia).
Qed.

Lemma header_front d rest : (sizeof_proto_header <= length d)%nat -> read_proto (d ++ rest) = read_proto d.
Proof.
  unfold sizeof_proto_header. intros H. unfold read_proto. rewrite (read_front d rest) by lia.
  rewrite <- (app_nil_r d) at 2. rewrite (read_front d []) by lia. unfold byte_at. by rewrite !lookup_app_l by lia.
Qed.

(** C11: a datagram the client must not accept changes nothing at all: one too short, of
    another version or type, for another session, with a number seen before, or not
    authentic, is handled without undefined behaviour and leaves every part of the
    client's state, and what it has sent and written, as it was. *)
Theorem client_refused_no_effect data c :
  client_ok c -> client_refuses c (take (Z.to_nat BUFFER_SIZE) data) ->
  handle_udp_packet (IoData data) c = Ok (Continue, c).
Proof.
  intros Hc Href. assert (Hrun : runs (handle_udp_packet (IoData data)) c (fun a c' => a = Continue /\ c' = c)).
  2:{ destruct Hrun as (a & c' & E & -> & ->). exact E. }
  unfold handle_udp_packet. set (d := take _ data) in *.
  assert (Hdl : (length d <= 1600)%nat) by (subst d; rewrite length_take; change (Z.to_nat BUFFER_SIZE) with 1600%nat; lia).
  cbv zeta. case_decide; [by cstep|]. do 2 cstep. pose proof (ok_junk c Hc) as Hj. set (rest := drop (length d) _).
  assert (Hbl : length (d ++ rest) = 1600%nat).
  { subst rest. change (Z.to_nat BUFFER_SIZE) with 1600%nat. unfold BUFFER_SIZE in Hj. simpl_len. lia. }
  assert (Hph : exists ph, read_proto (d ++ rest) = Ok ph).
  { unfold read_proto, buf_read. rewrite decide_True by lia. cbn [mbind outcome_bind].
    destruct (byte_at_lt (d ++ rest) 4) as (? & _ & ->); [lia|]. destruct (byte_at_lt (d ++ rest) 5) as (? & _ & ->); [lia|]. cbn. eauto. }
  destruct Hph as [ph Hph]. cstep. clift Hph. destruct (Z.eqb_spec (version ph) PKT_VERSION) as [Hv|]; cbn [negb]; [|by cstep].
  destruct (Z.eqb_spec (type ph) PKT_TYPE_DATA) as [Ht|]; cbn [negb]; [|by cstep]. case_decide as Hr; [by cstep|].
  assert (Hl : (30 < length d)%nat) by (unfold DATA_HEADER_LEN, sizeof_proto_header, SESSION_ID_LEN in Hr; lia).
  do 3 cstep. rewrite (read_front d rest) by (unfold sizeof_proto_header, SESSION_ID_LEN; lia). eapply runs_lift; [reflexivity|].
  cbv beta. case_bool_decide as Hid; cbn [negb]; [|by cstep]. cstep.
  rewrite (read_front d rest) by (unfold sizeof_proto_header, SESSION_ID_LEN; lia). eapply runs_lift; [reflexivity|].
  cbv beta zeta. fold (datagram_seq d). do 3 cstep. destruct Href as [?|[(ph' & Hph' & Hbad)|[?|Href]]]; [done| |done|].
  { rewrite header_front in Hph by (unfold sizeof_proto_header; lia). assert (ph' = ph) as -> by congruence. by destruct Hbad. }
  destruct (ok_window c Hc) as [S HS]. assert (Hq : in_u64 (datagram_seq d)).
  { unfold datagram_seq. pose proof (be_value_range (take 8 (drop (sizeof_proto_header + SESSION_ID_LEN) d))) as Hb.
    rewrite length_take, length_drop in Hb. unfold sizeof_proto_header, SESSION_ID_LEN in *.
    rewrite Nat.min_l in Hb by lia. exact Hb. }
  destruct Href as [Hrep|Hdec]; [clift Hrep; by cstep|]. clift (check_replay_rep (rw c) S _ HS Hq).
  destruct (negb _); [by cstep|]. rewrite Hdec. by cstep.
Qed.

End data.
