(* ===== verification/ClientHandshakeProofs.v ===== *)
(** Properties of the client's key exchange: the wait for MSG2 always ends, a failed
    exchange leaves the session alone, a successful one is authenticated, and the
    rehandshake state machine backs off and gives up. *)

From stdpp Require Import list gmap.
From S2P Require Import Prelude State ReplayWindow OutQueue TaskHeap Crypto Wire Fragment.
From S2P Require Import Clock Client ClientHandshake ClientLogic.
Local Open Scope Z_scope.

(** ** The receive loop *)

(** What waiting for MSG2 may change. *)
Definition after_wait (c : client) (t en : Z) (ms : list bool) (bf : list (list byte)) : client :=
  c <| now := t |> <| errno := en |> <| mallocs := ms |> <| rehandshake_buffer := bf |>.

Definition buffer_fits (bf : list (list byte)) : Prop := (length bf <= REHANDSHAKE_BUFFER_SIZE)%nat.

Lemma after_wait_same c : c = after_wait c (now c) (errno c) (mallocs c) (rehandshake_buffer c).
Proof. by destruct c. Qed.

Lemma after_wait_twice c t en ms bf t' en' ms' bf' :
  after_wait (after_wait c t en ms bf) t' en' ms' bf' = after_wait c t' en' ms' bf'.
Proof. done. Qed.

Lemma buffer_packet_ok buffer ty pk c Q :
  buffer_fits (rehandshake_buffer c) ->
  (forall en ms bf, buffer_fits bf -> Q tt (after_wait c (now c) en ms bf)) -> runs (buffer_packet buffer ty pk) c Q.
Proof.
  intros Hb HQ. unfold buffer_packet. do 2 cstep. destruct (_ && _) eqn:E; [|cstep; rewrite (after_wait_same c); by apply HQ].
  apply andb_true_iff in E as [_ E]. apply bool_decide_eq_true in E. cstep. apply runs_client_malloc. intros b bs en _.
  destruct b; cbn [when]; cstep.
  - match goal with |- Q tt ?w => change w with (after_wait c (now c) en bs (rehandshake_buffer c ++ [pk])) end.
    apply HQ. unfold buffer_fits. rewrite length_app. cbn. lia.
  - match goal with |- Q tt ?w => change w with (after_wait c (now c) en bs (rehandshake_buffer c)) end. by apply HQ.
Qed.

(** The loop ends after at most [attempts] datagrams, with nothing or with a datagram
    of the length and type of MSG2. *)
Lemma receive_msg2_ok attempts : forall buffer deadline msg2 script c,
  length msg2 = msg2_length -> buffer_fits (rehandshake_buffer c) ->
  runs (receive_msg2 attempts buffer deadline msg2 script) c (fun o c' =>
    (exists t en ms bf, c' = after_wait c t en ms bf /\ buffer_fits bf) /\
    forall m, o = Some m -> length m = msg2_length /\
      exists p, p ∈ script /\ exists data, selected p = SelectReady (IoData data) /\ m = take msg2_length data).
Proof.
  induction attempts as [|attempts IH]; intros buffer deadline msg2 script c Hm Hb; cbn [receive_msg2].
  { cstep. split; [|done]. rewrite (after_wait_same c). eauto 10. }
  destruct script as [|p script].
  { cstep. split; [|done]. rewrite (after_wait_same c). eauto 10. }
  do 2 cstep. set (c1 := c <| now := at_time p |>).
  assert (E1 : c1 = after_wait c (at_time p) (errno c) (mallocs c) (rehandshake_buffer c)) by (by destruct c).
  destruct (_ <=? _); [cstep; split; [|done]; rewrite E1; eauto 10|].
  destruct (selected p) as [| |[e|data]] eqn:Hsel; [cstep; split; [|done]; rewrite E1; eauto 10..| |].
  - do 2 cstep. set (c2 := c1 <| errno := e |>).
    assert (E2 : c2 = after_wait c (at_time p) e (mallocs c) (rehandshake_buffer c)) by (by destruct c).
    destruct (e =? EAGAIN); [|cstep; split; [|done]; rewrite E2; eauto 10].
    eapply runs_conseq; [by apply (IH buffer deadline msg2 script c2)|]. cbv beta.
    intros o c' ((t & en & ms & bf & -> & Hbf) & Hmsg). split.
    + rewrite E2, after_wait_twice. eauto 10.
    + intros m Ho. destruct (Hmsg m Ho) as (Hl & q & Hq & Hd). split; [done|]. exists q. split; [by right|done].
  - cbv zeta. set (d := take msg2_length data). assert (Hdl : (length d <= msg2_length)%nat) by (subst d; rewrite length_take; lia).
    case_decide; [cstep; split; [|done]; rewrite E1; eauto 10|]. set (m1 := d ++ drop (length d) msg2).
    assert (Hm1 : length m1 = msg2_length) by (subst m1; rewrite length_app, length_drop; lia).
    assert (Hph : exists ph, read_proto m1 = Ok ph).
    { unfold read_proto, buf_read. unfold msg2_length, sizeof_proto_header in Hm1. rewrite decide_True by lia. cbn [mbind outcome_bind].
      destruct (byte_at_lt m1 4) as (? & _ & ->); [lia|]. destruct (byte_at_lt m1 5) as (? & _ & ->); [lia|]. cbn. eauto. }
    destruct Hph as [ph Hph]. clift Hph. destruct (negb (type ph =? _)).
    + cstep. apply buffer_packet_ok; [done|]. intros en ms bf Hbf.
      eapply runs_conseq; [by apply (IH buffer deadline m1 script)|]. cbv beta.
      intros o c' ((t & en' & ms' & bf' & -> & Hbf') & Hmsg). split.
      * rewrite E1, !after_wait_twice. eauto 10.
      * intros m Ho. destruct (Hmsg m Ho) as (Hl & q & Hq & Hd). split; [done|]. exists q. split; [by right|done].
    + case_bool_decide as Hfull; cbn [negb]; cstep; (split; [rewrite E1; eauto 10|]); [|done].
      intros m [= <-]. split; [done|]. exists p. split; [by left|]. exists data. split; [done|].
      subst m1. rewrite Hfull, (drop_ge msg2) by lia. apply app_nil_r.
Qed.

(** ** The state machine *)

(** Attempts so far, and what follows the last failure. *)
Record backing_off (s : server_t) (n last : Z) : Prop := {
  bo_attempts : rehandshake_attempts s = n;
  bo_state : rehandshake_state s = REHANDSHAKE_BACKOFF;
  bo_delay : rehandshake_backoff_sec s = 2 ^ (n - 1);
  bo_last : rehandshake_last_attempt s = last;
}.

Lemma backoff_delays n : 1 <= n <= 5 -> backoff_after n = Ok (2 ^ (n - 1)).
Proof. intros H. assert (n = 1 \/ n = 2 \/ n = 3 \/ n = 4 \/ n = 5) as Hn by lia. by destruct_or! Hn; subst. Qed.

Lemma attempt_failed_ok s t :
  0 <= rehandshake_attempts s <= 4 ->
  exists s', attempt_failed (begin_attempt t s) = Ok s' /\ backing_off s' (rehandshake_attempts s + 1) t /\
    s' = s <| rehandshake_attempts := rehandshake_attempts s + 1 |> <| rehandshake_backoff_sec := 2 ^ rehandshake_attempts s |>
           <| rehandshake_state := REHANDSHAKE_BACKOFF |> <| rehandshake_last_attempt := t |>.
Proof.
  intros H. unfold attempt_failed. change (rehandshake_attempts (begin_attempt t s)) with (rehandshake_attempts s).
  rewrite int_of_Ok by (unfold in_int, INT_MIN, INT_MAX; lia). cbn [mbind outcome_bind].
  rewrite backoff_delays by lia. cbn [mbind outcome_bind]. replace (rehandshake_attempts s + 1 - 1) with (rehandshake_attempts s) by lia.
  eexists. split; [reflexivity|]. split; [|by destruct s].
  constructor; try done. cbn. by replace (rehandshake_attempts s + 1 - 1) with (rehandshake_attempts s) by lia.
Qed.

(** The event loop consulting the state machine at the given times, every attempt
    failing; the result lists the times of the attempts. *)
Fixpoint failing_attempts (times : list Z) (s : server_t) : outcome (list Z * server_t) :=
  match times with
  | [] => Ok ([], s)
  | t :: times =>
      let '(should, s) := should_attempt_rehandshake t s in
      if should =? 1 then
        s ← attempt_failed (begin_attempt t s);
        r ← failing_attempts times s;
        Ok (t :: r.1, r.2)
      else failing_attempts times s
  end.

(** Each attempt comes at least [2 ^ n] seconds after the one before it, [n]
    doubling up. *)
Fixpoint spaced (n : Z) (last : Z) (ts : list Z) : Prop :=
  match ts with
  | [] => True
  | t :: ts => 2 ^ (n - 1) <= t - last /\ spaced (n + 1) t ts
  end.

Definition given_up (s : server_t) : Prop := rehandshake_attempts s = 5.

Lemma given_up_stays times s : given_up s -> exists s', failing_attempts times s = Ok ([], s') /\ given_up s'.
Proof.
  revert s. induction times as [|t times IH]; intros s H; cbn [failing_attempts]; [eauto|].
  unfold should_attempt_rehandshake. rewrite H. cbn [Z.leb Z.compare Pos.compare Pos.compare_cont Z.eqb].
  by apply IH.
Qed.

Lemma failing_attempts_spaced times : forall s n last,
  1 <= n <= 5 -> backing_off s n last ->
  exists tries s', failing_attempts times s = Ok (tries, s') /\ spaced n last tries /\
    Z.of_nat (length tries) <= 5 - n /\ rehandshake_attempts s' = n + Z.of_nat (length tries).
Proof.
  induction times as [|t times IH]; intros s n last Hn [Ha Hst Hd Hl]; cbn [failing_attempts].
  { exists [], s. cbn. split; [done|]. split; [done|]. lia. }
  destruct (decide (n = 5)) as [->|Hn5].
  { destruct (given_up_stays (t :: times) s) as (s' & E & Hg); [done|]. exists [], s'. cbn [failing_attempts] in E.
    split; [exact E|]. cbn. unfold given_up in Hg. split; [done|]. lia. }
  unfold should_attempt_rehandshake. rewrite Ha, Hst, Hd, Hl. destruct (Z.leb_spec 5 n); [lia|].
  destruct (Z.leb_spec (2 ^ (n - 1)) (t - last)) as [Hdue|Hearly].
  - change (1 =? 1) with true. cbv iota.
    destruct (attempt_failed_ok (s <| rehandshake_state := REHANDSHAKE_READY |>) t) as (s1 & E1 & Hb & _); [cbn; lia|].
    rewrite E1. cbn [mbind outcome_bind]. cbn [rehandshake_attempts set] in Hb. rewrite Ha in Hb.
    destruct (IH s1 (n + 1) t) as (tries & s' & E & Hsp & Hlen & Hat); [lia|done|].
    rewrite E. cbn [mbind outcome_bind fst snd]. exists (t :: tries), s'. cbn [spaced length]. split; [done|]. split; [done|]. lia.
  - change (0 =? 1) with false. cbv iota. apply (IH s n last); [done|by constructor].
Qed.

Section proofs.
Context `{Sod : Sodium} `{!SodiumLaws Sod}.

Lemma client_secrets_lengths e kx sp sn x :
  client_secrets e kx sp sn = Some x ->
  length (new_session_id x) = SESSION_ID_LEN /\ length (new_k_send x) = AEAD_KEY_LEN /\ length (new_k_recv x) = AEAD_KEY_LEN.
Proof.
  unfold client_secrets. destruct (scalarmult _ sp) as [dh1|]; [|done]. destruct (scalarmult _ kx) as [dh2|]; [|done].
  cbn [mbind option_bind]. pose proof (length_derive_two_keys (dh1 ++ dh2) (c_nonce e ++ sn)) as [H1 H2].
  destruct (derive_two_keys _ _) as [k1 k2]. cbn [fst snd] in *. intros [= <-]. cbn.
  split; [|done]. by rewrite generichash_length by (unfold SESSION_ID_LEN; lia).
Qed.

(** MSG2 [m] authenticates the exchange that yields [x]: its signature covers both
    public keys and nonces and verifies under the server's key. *)
Definition authenticated (e : client_ephemeral) (server_pk m : list byte) (x : secrets) : Prop :=
  sign_verify_detached (msg2_sig m) (to_verify e m) server_pk = true /\
  exists kx, pk_to_curve25519 server_pk = Some kx /\ client_secrets e kx (msg2_s_pub m) (msg2_s_nonce m) = Some x.

(** [client_handshake] is defined, touches only the clock, the rehandshake buffer and
    the results of the calls it makes, and yields keys only from an authenticated
    MSG2 it received. *)
Lemma client_handshake_ok e sock buffer script c :
  buffer_fits (rehandshake_buffer c) -> (msg2_length <= length (junk c))%nat ->
  runs (client_handshake e sock buffer script) c (fun hs c' =>
    (exists t en ms bf rs tr, c' = after_wait (c <| ios := rs |> <| trace := tr |>) t en ms bf /\ buffer_fits bf) /\
    forall x, hs_secrets hs = Some x -> exists p data, p ∈ script /\ selected p = SelectReady (IoData data) /\
      hs_ip hs = Some (msg2_ip (take msg2_length data)) /\ authenticated e (server_pk (srv c)) (take msg2_length data) x).
Proof.
  intros Hb Hj. unfold client_handshake. do 2 cstep.
  assert (Hsame : forall c0, exists t en ms bf rs tr, c0 = after_wait (c0 <| ios := rs |> <| trace := tr |>) t en ms bf /\ bf = rehandshake_buffer c0).
  { intros c0. exists (now c0), (errno c0), (mallocs c0), (rehandshake_buffer c0), (ios c0), (trace c0). by destruct c0. }
  destruct (pk_to_curve25519 (server_pk (srv c))) as [kx|] eqn:Hkx.
  2:{ cstep. split; [|done]. destruct (Hsame c) as (t & en & ms & bf & rs & tr & E & ->). eauto 10. }
  do 3 cstep. apply runs_output_main. intros r rs _. set (tr := if r =? 0 then _ else trace c).
  set (c1 := _ <| errno := _ |>).
  assert (E1 : c1 = after_wait (c <| ios := rs |> <| trace := tr |>) (now c) (if r =? 0 then errno c else r) (mallocs c) (rehandshake_buffer c))
    by (by destruct c).
  destruct (negb (r =? 0)); [cstep; split; [rewrite E1; eauto 10|done]|]. do 5 cstep.
  eapply runs_conseq; [apply (receive_msg2_ok MAX_DISCARD_ATTEMPTS buffer _ (take msg2_length (junk c1)) script c1)|].
  { change (junk c1) with (junk c). rewrite length_take. lia. }
  { done. }
  cbv beta. intros o c' ((t & en & ms & bf & -> & Hbf) & Hmsg).
  assert (Hfr : exists t0 en0 ms0 bf0 rs0 tr0, after_wait c1 t en ms bf = after_wait (c <| ios := rs0 |> <| trace := tr0 |>) t0 en0 ms0 bf0 /\ buffer_fits bf0).
  { rewrite E1, after_wait_twice. eauto 10. }
  destruct o as [m|]; cstep; (split; [exact Hfr|]); [|done]. intros x Hx.
  destruct (Hmsg m eq_refl) as (_ & p & Hp & data & Hsel & ->). exists p, data. split; [done|]. split; [done|]. split; [done|].
  unfold check_msg2 in Hx. cbn [hs_secrets] in Hx. destruct (sign_verify_detached _ _ _) eqn:Hsig; [|done]. split; [done|].
  by exists kx.
Qed.

(** ** A rehandshake *)

(** The part of the state a failed rehandshake leaves alone. *)
Definition same_session (c c' : client) : Prop :=
  session_id (srv c') = session_id (srv c) /\ k_recv (srv c') = k_recv (srv c) /\ k_send (srv c') = k_send (srv c) /\
  send_seq (srv c') = send_seq (srv c) /\ sender c' = sender c /\ rw c' = rw c /\ g_session_id c' = g_session_id c /\
  g_outq c' = g_outq c /\ g_reassembly_table c' = g_reassembly_table c.

(** The session and the sender's arguments once the secrets [x] are in place. *)
Record rekeyed (x : secrets) (c c' : client) : Prop := {
  rk_keys : session_id (srv c') = new_session_id x /\ k_recv (srv c') = new_k_recv x /\ k_send (srv c') = new_k_send x;
  rk_fresh : send_seq (srv c') = 0 /\ rw c' = window_zero;
  rk_ready : rehandshake_state (srv c') = REHANDSHAKE_READY /\ rehandshake_attempts (srv c') = 0;
  rk_pending : exists a, sender c' = Some a /\ pending_rekey a = 1 /\ pending_k_send a = new_k_send x /\
    pending_session_id a = new_session_id x;
  rk_sender : exists a a', sender c = Some a /\ sender c' = Some a' /\ sa_k_send a' = sa_k_send a /\
    sa_session_id a' = sa_session_id a /\ sa_udp_sock a' = sa_udp_sock a /\ sa_server_addr a' = sa_server_addr a;
  rk_same : server_pk (srv c') = server_pk (srv c) /\ assigned_ip (srv c') = assigned_ip (srv c) /\
    g_outq c' = g_outq c /\ g_reassembly_table c' = g_reassembly_table c /\ data_REAL c' = data_REAL c /\ data_DUMMY c' = data_DUMMY c;
}.

Lemma rehandshake_runs e sock script c :
  client_ok c -> rehandshake_attempts (srv c) <= 4 ->
  runs (rehandshake_client_with_state e sock script) c (fun r c' => client_ok c' /\ rehandshake_buffer c' = [] /\
    disconnect_requested c' = disconnect_requested c /\
    ((r = -1 /\ same_session c c' /\ backing_off (srv c') (rehandshake_attempts (srv c) + 1) (now c)) \/
     (r = 0 /\ exists p data x, p ∈ script /\ selected p = SelectReady (IoData data) /\
        authenticated e (server_pk (srv c)) (take msg2_length data) x /\ rekeyed x c c'))).
Proof.
  intros Hc Hat. pose proof (ok_srv c Hc) as Hs. pose proof (ok_attempts _ Hs) as Hat0. pose proof (ok_junk c Hc) as Hj.
  unfold BUFFER_SIZE in Hj. unfold rehandshake_client_with_state. do 4 cstep. set (c1 := c <| srv ::= _ |>). cstep.
  eapply runs_conseq; [apply (client_handshake_ok e sock true script c1)|]; [apply (ok_buffer c Hc)|cbn -[msg2_length]; change msg2_length with 114%nat; lia|].
  cbv beta. intros hs c2 ((t & en & ms & bf & rs & tr & -> & Hbf) & Hauth).
  set (c2 := after_wait _ t en ms bf). destruct (hs_secrets hs) as [x|] eqn:Hx.
  - destruct (Hauth x eq_refl) as (p & data & Hp & Hsel & _ & Ha). destruct Ha as [Hsig (kx & Hkx & Hsec)].
    destruct (client_secrets_lengths _ _ _ _ _ Hsec) as (Hl1 & Hl2 & Hl3).
    destruct (ok_sender c Hc) as (a & Hsa & Hargs). do 6 cstep. same_field sender c. rewrite Hsa.
    do 2 cstep. unfold rehandshake_buffer_free. do 3 cstep. split; [|split; [done|split; [done|]]].
    + destruct Hc as [[] ? ? ? ? ? ? ? ? ? (a' & Ha' & Hrd) ? ? ? ? ?]. constructor; try done.
      * exists ∅. apply window_zero_rep.
      * eexists. split; [reflexivity|]. by destruct Hargs; constructor.
      * eexists. split; [reflexivity|]. assert (a' = a) as -> by congruence. done.
      * cbn. lia.
    + right. split; [done|]. exists p, data, x. split; [done|]. split; [done|]. split; [by split; eauto|].
      constructor; try done; [by eexists|by eexists a, _].
  - do 3 cstep. destruct (attempt_failed_ok (srv c) (now c)) as (s' & E & Hbo & Es'); [lia|].
    assert (E2 : srv c2 = begin_attempt (now c) (srv c)) by done. rewrite <- E2 in E. clift E. do 2 cstep.
    unfold rehandshake_buffer_free. do 3 cstep.
    assert (Hs' : server_ok s').
    { rewrite Es'. destruct Hs. constructor; try done. cbn. lia. }
    split; [|split; [done|split; [done|]]].
    + destruct Hc. constructor; try done. cbn. lia.
    + left. split; [done|]. split; [|done]. unfold same_session. cbn [srv set]. rewrite Es'. done.
Qed.

(** When the exchange yields [x], the client takes it over. *)
Lemma rehandshake_takes e sock script c x evs :
  client_ok c ->
  runs (client_handshake e sock true script) (c <| srv ::= begin_attempt (now c) |>)
    (fun hs c' => hs_secrets hs = Some x /\ trace c' = trace c ++ evs) ->
  runs (rehandshake_client_with_state e sock script) c (fun r c' => r = 0 /\ rekeyed x c c' /\ trace c' = trace c ++ evs).
Proof.
  intros Hc Hx. pose proof (ok_junk c Hc) as Hj. unfold BUFFER_SIZE in Hj. unfold rehandshake_client_with_state. do 4 cstep. set (c1 := c <| srv ::= _ |>) in Hx |- *. cstep.
  eapply runs_conseq; [apply runs_and; [exact Hx|apply client_handshake_ok]|]; [apply (ok_buffer c Hc)|cbn -[msg2_length]; change msg2_length with 114%nat; lia|].
  cbv beta. intros hs c2 [[Hs Htr] ((t & en & ms & bf & rs & tr & Ec2 & _) & _)]. destruct (ok_sender c Hc) as (a & Hsa & _).
  assert (Hfr : sender c2 = sender c /\ server_pk (srv c2) = server_pk (srv c) /\ assigned_ip (srv c2) = assigned_ip (srv c) /\
    g_outq c2 = g_outq c /\ g_reassembly_table c2 = g_reassembly_table c /\ data_REAL c2 = data_REAL c /\ data_DUMMY c2 = data_DUMMY c) by (rewrite Ec2; done).
  clear Ec2. destruct Hfr as (F1 & F2 & F3 & F4 & F5 & F6 & F7). rewrite Hs. do 6 cstep. same_field sender c2. rewrite F1, Hsa. do 2 cstep.
  unfold rehandshake_buffer_free. do 3 cstep. split; [done|]. split; [|exact Htr]. constructor; try done; [by eexists|by eexists a, _].
Qed.

(** C14: a rehandshake is authenticated or leaves the session alone: from any
    well-formed state with at most 4 failures counted, as the event loop makes sure of, it
    returns, well-formed, with its buffer empty.  It returns 0
    only if a datagram of the wait was a MSG2 whose signature, over both public
    keys and nonces, verifies under the server's key; then the keys and id are the
    ones that message determines, with a zero sequence number and an empty replay
    window, and the sender thread is told.  Otherwise it returns -1, and the keys,
    numbers, window, queue and sender are as before, with one more failure counted
    and the delay doubled. *)
Theorem rehandshake_authentic e sock script c :
  client_ok c -> rehandshake_attempts (srv c) <= 4 ->
  exists r c', rehandshake_client_with_state e sock script c = Ok (r, c') /\ client_ok c' /\ rehandshake_buffer c' = [] /\
    ((r = -1 /\ same_session c c' /\ backing_off (srv c') (rehandshake_attempts (srv c) + 1) (now c)) \/
     (r = 0 /\ exists p data x, p ∈ script /\ selected p = SelectReady (IoData data) /\
        authenticated e (server_pk (srv c)) (take msg2_length data) x /\ rekeyed x c c')).
Proof.
  intros Hc Hat. destruct (rehandshake_runs e sock script c Hc Hat) as (r & c' & E & Hc' & Hb & _ & H). eauto 6.
Qed.

End proofs.

(** C39: the rehandshake state machine backs off and gives up: from a session ready
    to rehandshake, whenever the event loop consults it and if every attempt fails,
    it makes at most five attempts, the second at least 1 s after the first and the
    following ones at least 2, 4 and 8 s apart, and after the fifth failure it
    answers -1, disconnect, for ever. *)
Theorem rehandshake_backs_off times s :
  rehandshake_state s = REHANDSHAKE_READY -> rehandshake_attempts s = 0 ->
  exists tries s', failing_attempts times s = Ok (tries, s') /\ (length tries <= 5)%nat /\
    (match tries with [] => True | t :: ts => spaced 1 t ts end) /\
    rehandshake_attempts s' = Z.of_nat (length tries) /\
    (length tries = 5%nat -> forall t, (should_attempt_rehandshake t s').1 = -1).
Proof.
  intros Hst Ha. destruct times as [|t times].
  { exists [], s. cbn. split; [done|]. split; [lia|]. done. }
  cbn [failing_attempts]. unfold should_attempt_rehandshake at 1. rewrite Ha, Hst.
  change (5 <=? 0) with false. change (1 =? 1) with true. cbv iota.
  destruct (attempt_failed_ok s t) as (s1 & -> & Hb & _); [lia|]. cbn [mbind outcome_bind]. rewrite Ha in Hb.
  destruct (failing_attempts_spaced times s1 1 t) as (tries & s' & -> & Hsp & Hlen & Hat); [lia|done|].
  cbn [mbind outcome_bind fst snd]. exists (t :: tries), s'. cbn [length]. split; [done|]. split; [lia|]. split; [done|].
  split; [lia|]. intros H5 t'. unfold should_attempt_rehandshake. by destruct (Z.leb_spec 5 (rehandshake_attempts s')); [|lia].
Qed.
