(* ===== verification/SenderProofs.v ===== *)
(** The client's sender thread: it sends its queue in order, one dummy per turn in
    constant-bitrate mode, at the pace of its interval, and takes over the keys a
    rehandshake leaves it. *)

From Stdlib Require Import Floats.SpecFloat.
From stdpp Require Import list gmap.
From S2P Require Import Prelude State ReplayWindow OutQueue TaskHeap Crypto Wire Fragment.
From S2P Require Import Clock Client Sender ClientLogic.
Local Open Scope Z_scope.

Section sender.
Context `{Sod : Sodium} `{!SodiumLaws Sod}.

(** ** The queue *)

Lemma timespec_add_ok ts d :
  normal_ts ts -> normal_ts d -> normal_ts (timespec_add ts d) /\ total_ns (timespec_add ts d) = total_ns ts + total_ns d.
Proof.
  unfold normal_ts, total_ns, timespec_add, NSEC_PER_SEC. intros H1 H2.
  destruct (Z.leb_spec 1000000000 (tv_nsec ts + tv_nsec d)); cbn; lia.
Qed.

(** The state after [n] packets of the queue were sent, leaving [A]. *)
Definition drained (c : client) (A : aqueue) (n : nat) (rs : list Z) (t : list event) : client :=
  c <| g_outq := A |> <| data_REAL := data_REAL c + Z.of_nat n |> <| ios := rs |> <| trace := t |>.

Lemma drained_ok c A n rs t : client_ok c -> aq_wf A -> client_ok (drained c A n rs t).
Proof. intros Hc HA. pose proof (ok_counts c Hc). destruct Hc. constructor; try done. cbn. lia. Qed.

Lemma drained_twice c A n rs t A' n' rs' t' :
  drained (drained c A n rs t) A' n' rs' t' = drained c A' (n + n') rs' t'.
Proof. unfold drained. cbn. f_equal. lia. Qed.

Lemma aq_pop_wf d A A' : aq_pop A = Some (d, A') -> aq_wf A -> aq_wf A'.
Proof.
  unfold aq_pop, aq_wf. destruct A as [[|x h] [|y n]]; cbn; intros Hp H; simplify_eq; intros p; pose proof (H p); destruct p; cbn in *; lia.
Qed.

(** The datagrams a queue becomes. *)
Definition queue_sends (a : sender_args_t) (A : aqueue) : list event :=
  (fun d => UdpSend (sa_udp_sock a) (sa_server_addr a) (pkt d)) <$> packets A.

(** Emptying the queue: every packet leaves, the HIGH lane first, in order; in
    constant-bitrate mode the deadline moves on by one interval for each. *)
Lemma sender_drain_ok a fuel : forall c next,
  client_ok c -> sender c = Some a -> aq_size (g_outq c) = fuel -> normal_ts next ->
  data_REAL c + Z.of_nat fuel <= INT_MAX ->
  runs (drain_queue fuel next) c (fun next' c' => normal_ts next' /\
    total_ns next' = total_ns next + (if bool_decide (argv_CBR c = ch_Y) then Z.of_nat fuel * total_ns (interval a) else 0) /\
    exists rs t, c' = drained c aq_empty fuel rs t /\ (ios c = [] -> rs = [] /\ t = trace c ++ queue_sends a (g_outq c))).
Proof.
  induction fuel as [|fuel IH]; intros c next Hc Ha Hsz Hn Hcnt; cbn [drain_queue]; unfold queue_pop; do 3 cstep;
    destruct (aq_pop (g_outq c)) as [[d A]|] eqn:Hpop.
  - apply aq_pop_Some in Hpop. unfold aq_size in Hsz. apply (f_equal length) in Hpop. unfold packets in Hpop.
    rewrite length_app in Hpop. cbn in Hpop. lia.
  - apply aq_pop_None in Hpop. do 2 cstep. split; [done|]. split; [case_bool_decide; lia|]. exists (ios c), (trace c). split.
    + rewrite <- Hpop. unfold drained. rewrite Z.add_0_r. by destruct c.
    + rewrite Hpop. cbn. by rewrite app_nil_r.
  - pose proof (aq_pop_wf _ _ _ Hpop (ok_queue c Hc)) as HA. apply aq_pop_Some in Hpop.
    assert (HszA : aq_size A = fuel).
    { unfold aq_size in *. apply (f_equal length) in Hpop. unfold packets in Hpop. cbn in Hpop. rewrite !length_app in Hpop. lia. }
    do 4 cstep. unfold sender_args. do 2 cstep. change (sender (c <| g_outq := A |>)) with (sender c). rewrite Ha. cstep.
    cstep. apply runs_output. intros r rs Hr. cstep. unfold count_real. do 3 cstep.
    set (t := if r =? 0 then _ else _). pose proof (ok_counts c Hc) as [Hpos _].
    eapply runs_lift; [apply int_of_Ok; change (data_REAL _) with (data_REAL c); unfold in_int, INT_MIN; lia|]. cbv beta. do 3 cstep.
    set (next1 := if bool_decide _ then _ else _).
    match goal with |- runs _ ?w _ => change w with (drained c A 1 rs t) end.
    pose proof (drained_ok c A 1 rs t Hc HA) as Hc1. destruct (ok_sender c Hc) as (a' & Ha' & Hargs). simplify_eq.
    pose proof (timespec_add_ok next (interval a) Hn (ok_interval a Hargs)) as [Hna Hta].
    assert (Hn1 : normal_ts next1 /\ total_ns next1 = total_ns next + (if bool_decide (argv_CBR c = ch_Y) then total_ns (interval a) else 0)).
    { subst next1. cbn. case_bool_decide; [done|]. split; [done|lia]. }
    destruct Hn1 as [Hn1 Ht1].
    eapply runs_conseq; [apply (IH (drained c A 1 rs t) next1)|]; try done.
    + cbn. lia.
    + cbv beta. intros next' c' (Hn' & Ht' & rs' & t' & -> & Hsent). split; [done|]. split.
      { rewrite Ht', Ht1. change (argv_CBR (drained c A 1 rs t)) with (argv_CBR c). rewrite Nat2Z.inj_succ, Z.mul_succ_l.
        destruct (bool_decide (argv_CBR c = ch_Y)); lia. }
      exists rs', t'. split; [by rewrite drained_twice|]. intros Hio. destruct (Hr Hio) as [-> ->].
      destruct (Hsent eq_refl) as [-> ->]. split; [done|]. subst t. cbn [Z.eqb]. unfold queue_sends. cbn. rewrite Hpop.
      cbn [fmap list_fmap]. by rewrite <- app_assoc.
  - apply aq_pop_None in Hpop. rewrite Hpop in Hsz. done.
Qed.

(** ** Keys and the dummy packet *)

(** The thread's arguments once it has taken over pending keys. *)
Definition swapped (a : sender_args_t) : sender_args_t :=
  if pending_rekey a =? 0 then a
  else a <| sa_k_send := pending_k_send a |> <| sa_session_id := pending_session_id a |>
         <| pending_k_send := zeros AEAD_KEY_LEN |> <| pending_session_id := zeros SESSION_ID_LEN |> <| pending_rekey := 0 |>.

Lemma swapped_ok a : args_ok a -> args_ok (swapped a).
Proof.
  intros []. unfold swapped. destruct (pending_rekey a =? 0); [by constructor|]. by constructor.
Qed.

(** The dummy's header and payload, laid out in their buffers. *)
Lemma prepare_dummy_ok sid c Q :
  Z.of_nat (length (final_pkt_dummy c)) = BUFFER_SIZE -> Z.of_nat (length (dummy_payload c)) = BUFFER_SIZE ->
  300 <= argv_FRAG c <= 1200 -> length sid = SESSION_ID_LEN ->
  (forall p d, Z.of_nat (length p) = BUFFER_SIZE -> Z.of_nat (length d) = BUFFER_SIZE ->
     take 22 p = proto_bytes data_header ++ sid -> u16_at d 6 = Ok PKT_DUMMY ->
     Q tt (c <| final_pkt_dummy := p |> <| dummy_payload := d |> <| static_hdr_len := 22 |>)) ->
  runs (prepare_dummy_static_parts sid) c Q.
Proof.
  intros Hf Hd Hfr Hsid HQ. unfold BUFFER_SIZE in Hf, Hd. unfold prepare_dummy_static_parts. do 3 cstep.
  destruct (static_header_ok (final_pkt_dummy c) sid Hsid) as (p1 & p & E1 & E2 & Hl & Hr); [lia|].
  clift E1. cstep. clift E2. do 5 cstep.
  destruct (filled_buffer_ok (dummy_payload c) dummy_header (Z.to_nat (argv_FRAG c)) (z2b 0x99)) as (d1 & d & E3 & E4 & Hl4 & Hf4);
    [by apply control_header_wf|lia|].
  clift E3. cstep. rewrite u64_small by (unfold in_u64, sizeof_tunnel_header; lia).
  destruct (Z.ltb_spec BUFFER_SIZE (argv_FRAG c - Z.of_nat sizeof_tunnel_header)); [unfold BUFFER_SIZE, sizeof_tunnel_header in *; lia|].
  replace (Z.to_nat (argv_FRAG c - Z.of_nat sizeof_tunnel_header)) with (Z.to_nat (argv_FRAG c) - sizeof_tunnel_header)%nat
    by (unfold sizeof_tunnel_header; lia).
  clift E4. cstep. apply HQ; [unfold BUFFER_SIZE; lia..|done|exact Hf4].
Qed.

Lemma swap_keys_ok a c Q :
  client_ok c -> sender c = Some a ->
  (forall c', client_ok c' -> sender c' = Some (swapped a) ->
     (exists g p d, c' = c <| sender := Some (swapped a) |> <| g_session_id := g |> <| final_pkt_dummy := p |> <| dummy_payload := d |>) ->
     Q tt c') ->
  runs swap_keys c Q.
Proof.
  intros Hc Ha HQ. destruct (ok_sender c Hc) as (a' & Ha' & Hargs). simplify_eq. unfold swap_keys, sender_args.
  do 3 cstep. rewrite Ha. cstep. destruct (Z.eqb_spec (pending_rekey a) 0) as [E|E]; cbn [negb when].
  - cstep. apply HQ; [done|unfold swapped; by rewrite (proj2 (Z.eqb_eq _ _) E)|].
    exists (g_session_id c), (final_pkt_dummy c), (dummy_payload c). unfold swapped. rewrite (proj2 (Z.eqb_eq _ _) E).
    rewrite <- Ha. by destruct c.
  - assert (Esw : swapped a = a <| sa_k_send := pending_k_send a |> <| sa_session_id := pending_session_id a |>
         <| pending_k_send := zeros AEAD_KEY_LEN |> <| pending_session_id := zeros SESSION_ID_LEN |> <| pending_rekey := 0 |>)
      by (unfold swapped; by rewrite (proj2 (Z.eqb_neq _ _) E)).
    cbv zeta. set (a1 := a <| sa_k_send := _ |> <| sa_session_id := _ |>). do 3 cstep.
    set (c1 := c <| sender := Some a1 |> <| g_session_id := pending_session_id a |>).
    change (sa_session_id a1) with (pending_session_id a).
    apply prepare_dummy_ok; [apply Hc..|apply Hargs|]. intros p d Hp Hd Hr Hfl. cstep.
    set (a2 := a1 <| pending_k_send := _ |> <| pending_session_id := _ |> <| pending_rekey := _ |>).
    assert (Ea : a2 = swapped a) by (by rewrite Esw). rewrite Ea. apply HQ.
    + assert (Hargs2 := swapped_ok a Hargs). destruct Hc. constructor; try done; [apply Hargs|by exists (swapped a)|].
      exists (swapped a). split; [done|]. rewrite Esw. done.
    + done.
    + exists (pending_session_id a), p, d. pose proof (ok_static c Hc) as Hst. subst a2 a1. destruct c. cbn in Hst |- *. by subst.
Qed.

Lemma report_ok t c Q :
  0 <= data_REAL c /\ 0 <= data_DUMMY c -> data_REAL c + data_DUMMY c <= INT_MAX ->
  (forall r d l, 0 <= r <= data_REAL c -> 0 <= d <= data_DUMMY c ->
     Q tt (c <| data_REAL := r |> <| data_DUMMY := d |> <| last_double_dummy_real := l |>)) ->
  runs (report t) c Q.
Proof.
  intros Hpos Hmax HQ. unfold report. do 2 cstep. destruct (_ <? _); cbn [when].
  - do 5 cstep. eapply runs_lift; [apply int_of_Ok; unfold in_int, INT_MIN; lia|]. cbv beta. cstep. apply HQ; lia.
  - cstep. replace c with (c <| data_REAL := data_REAL c |> <| data_DUMMY := data_DUMMY c |>
      <| last_double_dummy_real := last_double_dummy_real c |>) by (by destruct c). apply HQ; lia.
Qed.

(** ** Dummies *)

Definition dummy_plain (c : client) : list byte := take (Z.to_nat (argv_FRAG c)) (dummy_payload c).

Lemma sender_dummy_plain_ok c :
  client_ok c -> length (dummy_plain c) = Z.to_nat (argv_FRAG c) /\ u16_at (dummy_plain c) 6 = Ok PKT_DUMMY.
Proof.
  intros Hc. pose proof (ok_frag c Hc). pose proof (ok_dummy c Hc). unfold BUFFER_SIZE in *. unfold dummy_plain.
  split; [rewrite length_take; lia|]. rewrite u16_at_take by lia. by destruct (ok_ready c Hc) as (? & _ & _ & ?).
Qed.

(** One dummy packet, under the thread's own keys and the next sequence number. *)
Lemma send_one_dummy_ok a c Q :
  client_ok c -> sender c = Some a -> data_DUMMY c + 1 <= INT_MAX ->
  (forall c', client_ok c' -> sender c' = Some a -> g_outq c' = g_outq c ->
     (ios c = [] -> trace c' = trace c ++ [UdpSend (sa_udp_sock a) (sa_server_addr a)
        (seal (sa_k_send a) (sa_session_id a) (dummy_plain c) (send_seq (srv c)))]) -> Q true c') ->
  runs send_one_dummy c Q.
Proof.
  intros Hc Ha Hmax HQ. destruct (ok_sender c Hc) as (a' & Ha' & Hargs). simplify_eq.
  destruct (sender_dummy_plain_ok c Hc) as [Hdl _]. pose proof (ok_frag c Hc) as Hf. pose proof (ok_final c Hc) as Hfin.
  pose proof (ok_dummy c Hc) as Hdum. unfold BUFFER_SIZE in *.
  unfold send_one_dummy, sender_args. do 3 cstep. rewrite Ha. do 7 cstep. cbind.
  eapply runs_lift; [unfold buf_read; rewrite decide_True by (cbn; lia); reflexivity|]. cbv beta. rewrite drop_0.
  match goal with |- context [take ?n (dummy_payload ?x)] => change (take n (dummy_payload x)) with (dummy_plain c) end.
  destruct (encrypt_seal (sa_k_send a) (sa_session_id a) (send_seq (srv c)) (dummy_plain c)) as (ct & Hct & Hseal & Hcl);
    [apply Hargs|lia|].
  assert (Hml : MAC_LEN = 16%nat) by done. cstep. clift Hct. cstep. cstep.
  same_field static_hdr_len c.
  rewrite (ok_static c Hc).
  change (Z.to_nat 22) with 22%nat. change (22 + 8)%nat with 30%nat. cstep. cstep.
  destruct (ok_ready c Hc) as (a' & Ha2 & Hr & Hfl). simplify_eq.
  destruct (packet_in_buffer (final_pkt_dummy c) (sa_session_id a) ct (send_seq (srv c)) Hr) as (b1 & b & E1 & E2 & Hpk & H22 & Hbl);
    [lia|].
  same_field final_pkt_dummy c.
  clift E1. cstep. clift E2. do 3 cstep. rewrite Hpk, Hseal.
  apply runs_output. intros r rs Hio. cstep. unfold count_dummy. pose proof (ok_counts c Hc) as [_ Hpos]. do 3 cstep.
  eapply runs_lift; [apply int_of_Ok; same_field data_DUMMY c; unfold in_int, INT_MIN; lia|].
  cbv beta. do 2 cstep. apply HQ; [|done|done|].
  - pose proof (client_ok_seq c _ Hc (u64_range (send_seq (srv c) + 1))) as [].
    constructor; try done; cbn; [rewrite Hbl; done|by exists a; rewrite H22|split; [apply Hc|lia]].
  - intros Hio'. destruct (Hio Hio') as [-> ->]. done.
Qed.

(** ** A turn of the thread *)

Lemma timespec_cmp_ok a b :
  normal_ts a -> normal_ts b -> (0 <? timespec_cmp a b) = (total_ns b <? total_ns a).
Proof.
  unfold normal_ts, total_ns, timespec_cmp, NSEC_PER_SEC. intros.
  destruct (Z.eqb_spec (tv_sec a) (tv_sec b)); cbn [negb].
  - destruct (Z.eqb_spec (tv_nsec a) (tv_nsec b)); cbn [negb]; [|destruct (Z.ltb_spec (tv_nsec b) (tv_nsec a))];
      destruct (Z.ltb_spec (tv_sec b * 1000000000 + tv_nsec b) (tv_sec a * 1000000000 + tv_nsec a)); lia || done.
  - destruct (Z.ltb_spec (tv_sec b) (tv_sec a));
      destruct (Z.ltb_spec (tv_sec b * 1000000000 + tv_nsec b) (tv_sec a * 1000000000 + tv_nsec a)); lia || done.
Qed.

(** The counters leave room for a full queue and a dummy. *)
Definition counts_small (c : client) : Prop := data_REAL c + data_DUMMY c + 321 <= INT_MAX.

Lemma queue_bound A : aq_wf A -> (aq_size A <= 320)%nat.
Proof.
  intros H. pose proof (H PKT_PRIO_HIGH). pose proof (H PKT_PRIO_NORMAL). cbn in *.
  unfold QUEUE_CAP_HIGH, QUEUE_CAP_NORMAL, aq_size in *. lia.
Qed.

(** What a turn sends: the queue, and in constant-bitrate mode one full-size dummy
    sealed under the keys in force. *)
Definition turn_sends (a : sender_args_t) (c : client) (evs : list event) : Prop :=
  if bool_decide (argv_CBR c = ch_Y) then
    exists pt, length pt = Z.to_nat (argv_FRAG c) /\ u16_at pt 6 = Ok PKT_DUMMY /\
      evs = queue_sends a (g_outq c) ++ [UdpSend (sa_udp_sock a) (sa_server_addr a)
              (seal (sa_k_send (swapped a)) (sa_session_id (swapped a)) pt (send_seq (srv c)))]
  else evs = queue_sends a (g_outq c).

(** When the next dummy is due: an interval for each packet sent, or one interval
    from now if that is already past. *)
Definition turn_deadline (a : sender_args_t) (c : client) (now next : timespec) : Z :=
  if bool_decide (argv_CBR c = ch_Y) then
    let due := total_ns next + (Z.of_nat (aq_size (g_outq c)) + 1) * total_ns (interval a) in
    if due <? total_ns now then total_ns now + total_ns (interval a) else due
  else total_ns next.

Lemma sender_turn_runs a c now1 now2 next :
  client_ok c -> sender c = Some a -> counts_small c -> normal_ts next -> normal_ts now2 ->
  runs (sender_turn now1 now2 next) c (fun r c' => client_ok c' /\ sender c' = Some (swapped a) /\ g_outq c' = aq_empty /\
    (exists next', r = Some next' /\ normal_ts next' /\ total_ns next' = turn_deadline a c now2 next) /\
    (ios c = [] -> exists evs, trace c' = trace c ++ evs /\ turn_sends a c evs)).
Proof.
  intros Hc Ha Hcnt Hn Hn2. unfold counts_small in Hcnt. pose proof (ok_counts c Hc) as [Hr0 Hd0].
  unfold sender_turn. cstep. apply (swap_keys_ok a); [done..|]. intros c1 Hc1 Ha1 (g & p & d & E1). cstep.
  assert (Ecnt : data_REAL c1 = data_REAL c /\ data_DUMMY c1 = data_DUMMY c) by (by subst c1). destruct Ecnt as [Er Ed].
  apply report_ok; [rewrite Er, Ed; done|lia|]. intros r d' l Hr Hd. rewrite Er in Hr. rewrite Ed in Hd. cstep. cstep.
  set (c2 := c1 <| data_REAL := r |> <| data_DUMMY := d' |> <| last_double_dummy_real := l |>).
  assert (Hc2 : client_ok c2).
  { destruct Hc1. constructor; try done. cbn. lia. }
  assert (Eq2 : g_outq c2 = g_outq c) by (subst c2; by subst c1).
  pose proof (queue_bound _ (ok_queue c Hc)) as Hqb. cstep. rewrite Eq2.
  eapply runs_conseq; [apply (sender_drain_ok (swapped a) (aq_size (g_outq c)) c2 next)|]; [done|done|by rewrite Eq2|done|cbn; lia|].
  cbv beta. intros next1 c3 (Hn1 & Ht1 & rs & t & -> & Hsent).
  assert (Ea : interval (swapped a) = interval a /\ sa_udp_sock (swapped a) = sa_udp_sock a /\ sa_server_addr (swapped a) = sa_server_addr a)
    by (unfold swapped; by destruct (pending_rekey a =? 0)).
  destruct Ea as (Ei & Es & Ead).
  assert (Ecbr : argv_CBR c2 = argv_CBR c /\ argv_FRAG c2 = argv_FRAG c /\ send_seq (srv c2) = send_seq (srv c) /\
    trace c2 = trace c /\ ios c2 = ios c) by (subst c2; by subst c1).
  destruct Ecbr as (Ec & Ef & Esq & Et & Eio). rewrite Ec, Ei in Ht1.
  assert (Hc3 : client_ok (drained c2 aq_empty (aq_size (g_outq c)) rs t)) by (apply drained_ok; [done|by intros []]).
  assert (Hqs : ios c = [] -> rs = [] /\ t = trace c ++ queue_sends a (g_outq c)).
  { intros Hio. destruct (Hsent) as [-> ->]; [by rewrite Eio|]. split; [done|]. rewrite Et, Eq2. unfold queue_sends. by rewrite Es, Ead. }
  cstep. cstep. change (argv_CBR (drained _ _ _ _ _)) with (argv_CBR c2). rewrite Ec. unfold turn_sends, turn_deadline.
  destruct (bool_decide (argv_CBR c = ch_Y)).
  - cstep. apply (send_one_dummy_ok (swapped a)); [done|done|cbn; lia|]. intros c4 Hc4 Ha4 Hq4 Hsend. cbn [negb].
    cstep. unfold sender_args. do 2 cstep. rewrite Ha4. do 2 cstep. split; [done|]. split; [done|]. split; [done|].
    rewrite Ei. destruct (ok_sender c Hc) as (a' & Ha' & Hargs). simplify_eq.
    destruct (timespec_add_ok next1 (interval a) Hn1 (ok_interval a Hargs)) as [Hna Hta].
    destruct (timespec_add_ok now2 (interval a) Hn2 (ok_interval a Hargs)) as [Hnb Htb]. split.
    + eexists. split; [reflexivity|]. rewrite timespec_cmp_ok by done. cbv zeta.
      replace (total_ns next + (Z.of_nat (aq_size (g_outq c)) + 1) * total_ns (interval a)) with (total_ns (timespec_add next1 (interval a))) by lia.
      destruct (_ <? _); split; done.
    + intros Hio. destruct (Hqs Hio) as [-> ->]. specialize (Hsend eq_refl). eexists. split.
      { rewrite Hsend. cbn [trace drained set]. by rewrite <- app_assoc. }
      destruct (sender_dummy_plain_ok _ Hc3) as [Hdl Hdf]. eexists. split; [exact Hdl|]. split; [exact Hdf|].
      rewrite Es, Ead. done.
  - cstep. split; [done|]. split; [done|]. split; [done|]. split.
    + exists next1. split; [done|]. split; [done|]. lia.
    + intros Hio. destruct (Hqs Hio) as [-> ->]. eexists. split; [reflexivity|done].
Qed.

(** C28: a turn of the sender thread sends what it should and sets its next deadline: from
    any well-formed state whose counters of packets are not about to overflow an int it
    is defined, switches to the keys a rehandshake left and empties the queue; when every
    send succeeds it has sent the whole queue, in one burst also in constant-bitrate mode,
    in order with the HIGH lane first, and in that mode one full-size dummy after it,
    sealed under the keys then in force.  In constant-bitrate mode the next deadline is one
    interval later for every packet sent, or one interval from now when the thread is
    late; otherwise it stays. *)
Theorem sender_turn_correct a c now1 now2 next :
  client_ok c -> sender c = Some a -> counts_small c -> normal_ts next -> normal_ts now2 ->
  exists next' c', sender_turn now1 now2 next c = Ok (Some next', c') /\
    client_ok c' /\ sender c' = Some (swapped a) /\ g_outq c' = aq_empty /\
    normal_ts next' /\ total_ns next' = turn_deadline a c now2 next /\
    (ios c = [] -> exists evs, trace c' = trace c ++ evs /\ turn_sends a c evs).
Proof.
  intros Hc Ha Hcnt Hn Hn2. destruct (sender_turn_runs a c now1 now2 next) as (r & c' & E & H); [done..|].
  destruct H as (Hc' & Ha' & Hq & (next' & -> & Hn' & Ht) & Hev). by exists next', c'.
Qed.

End sender.
