(* ===== verification/ClientSafety.v ===== *)
(** Safety of the whole client: from the command line on, whatever the network, the
    tunnel, the clocks, the allocations and the sends do, the event loop and the
    sender thread keep the state well-formed and never reach undefined behaviour. *)

From Stdlib Require Import Floats.SpecFloat Strings.String.
From stdpp Require Import list gmap.
From S2P Require Import Prelude State Partial ReplayWindow OutQueue TaskHeap Crypto Wire Fragment.
From S2P Require Import Clock Text ClientOptions Client ClientHandshake Sender ClientLoop ClientLogic ClientData.
From S2P Require Import ClientHandshakeProofs SenderProofs.
Local Open Scope Z_scope.

Section safety.
Context `{Sod : Sodium} `{!SodiumLaws Sod}.

(** ** Routes *)

Lemma restore_default_route_ok c : client_ok c -> runs restore_default_route c (fun _ => client_ok).
Proof.
  intros Hc. unfold restore_default_route, system. do 2 cstep. destruct (route_added c); csteps; keep_ok Hc.
Qed.

Lemma close_ok fd c : client_ok c -> runs (close fd) c (fun _ => client_ok).
Proof. intros Hc. unfold close. destruct (0 <=? fd); csteps; keep_ok Hc. Qed.

Lemma handle_disconnect_request_ok c : client_ok c -> runs handle_disconnect_request c (fun _ => client_ok).
Proof.
  intros Hc. unfold handle_disconnect_request. do 2 cstep. destruct (disconnect_requested c); [|by cstep].
  eapply runs_seq.
  { destruct (0 <=? g_udp_sock c); cbn [when]; [by apply send_disconnect_ok|by cstep]. }
  intros c1 Hc1. eapply runs_seq; [by apply restore_default_route_ok|].
  intros c2 Hc2. eapply runs_seq; [by apply close_ok|].
  intros c3 Hc3. eapply runs_seq; [by apply close_ok|]. intros. by cstep.
Qed.

(** ** The event loop *)

(** The keys a client receives under, and the key it checks signatures with. *)
Definition keyed (K : list byte * list byte * list byte) (c : client) : Prop :=
  (k_recv (srv c), session_id (srv c), server_pk (srv c)) = K.

(** The client's keys stay while it sends and receives. *)
Lemma keyed_modify K f : (forall c, keyed K c -> keyed K (f c)) -> preserves (keyed K) (modify f).
Proof. intros Hf. apply holds_modify. exact Hf. Qed.
Lemma keyed_malloc K : preserves (keyed K) malloc.
Proof. intros c b c' Hc E. unfold malloc in E. destruct (mallocs c) as [|[] ?]; injection E as <- <-; exact Hc. Qed.
Lemma keyed_output K e : preserves (keyed K) (output e).
Proof. intros c b c' Hc E. unfold output in E. destruct (ios c) as [|z ?]; [|destruct (z =? 0)]; injection E as <- <-; exact Hc. Qed.
#[local] Hint Resolve keyed_malloc keyed_output : preserves.
#[local] Hint Extern 1 (preserves (keyed _) (modify _)) => apply keyed_modify; intros ? H; exact H : preserves.

Section keyed.
Variable K : list byte * list byte * list byte.

Lemma keyed_output_main e : preserves (keyed K) (output_main e).
Proof. unfold output_main. preserves. Qed.
Lemma keyed_next_seq : preserves (keyed K) next_seq.
Proof. unfold next_seq. preserves. Qed.
#[local] Hint Resolve keyed_output_main keyed_next_seq : preserves.
Lemma keyed_disconnect sock : preserves (keyed K) (send_disconnect sock).
Proof. unfold send_disconnect. preserves. Qed.
Lemma keyed_keepalive sock : preserves (keyed K) (send_keepalive sock).
Proof. unfold send_keepalive. preserves. Qed.
#[local] Hint Resolve keyed_disconnect : preserves.
Lemma keyed_disconnect_request : preserves (keyed K) handle_disconnect_request.
Proof. unfold handle_disconnect_request, restore_default_route, close, system, emit. preserves. Qed.
Lemma keyed_fragments fuel : forall id off ip, preserves (keyed K) (fragment_loop fuel id off ip).
Proof. induction fuel as [|fuel IH]; intros id off ip; cbn [fragment_loop]; unfold queue_push; preserves. Qed.
#[local] Hint Resolve keyed_fragments : preserves.
Lemma keyed_tun r : preserves (keyed K) (handle_tun_packet r).
Proof. unfold handle_tun_packet, take_packet_id. preserves. Qed.
Lemma keyed_udp r : preserves (keyed K) (handle_udp_packet r).
Proof. unfold handle_udp_packet, handle_plain. preserves. Qed.
#[local] Hint Resolve keyed_tun keyed_udp : preserves.
Lemma keyed_burst n : forall rs, preserves (keyed K) (udp_burst n rs).
Proof. induction n as [|n IH]; intros rs; cbn [udp_burst]; preserves. Qed.
#[local] Hint Resolve keyed_burst : preserves.
Lemma keyed_ready ev : preserves (keyed K) (handle_ready ev).
Proof. unfold handle_ready. preserves. Qed.
End keyed.

(** A rule of [runs] with the keys carried along. *)
Lemma runs_keyed {A} (m : M A) c (Q : A -> client -> Prop) K :
  keyed K c -> preserves (keyed K) m -> runs m c Q -> runs m c (fun a c' => Q a c' /\ keyed K c').
Proof. intros Hc Hm (a & c' & E & HQ). exists a, c'. split; [done|]. split; [done|]. by eapply Hm. Qed.

(** Data read under the keys [K] is honest. *)
Definition honest_ready (key sid : list byte) (ev : ready) : Prop :=
  match ev with TunReady _ => True | UdpReady rs => Forall (honest_io key sid) rs end.
Definition honest_wait (key sid : list byte) (waited : wait_result) : Prop :=
  match waited with WaitError _ => True | Ready evs => Forall (honest_ready key sid) evs end.

(** The keys an iteration may read datagrams under: the client's, or those an
    authenticated MSG2 of its own rehandshake gives. *)
Definition reads_under (c : client) (e : client_ephemeral) (script : list poll) (key sid : list byte) : Prop :=
  key = k_recv (srv c) /\ sid = session_id (srv c) \/
  exists p data x, p ∈ script /\ selected p = SelectReady (IoData data) /\
    authenticated e (server_pk (srv c)) (take msg2_length data) x /\ key = new_k_recv x /\ sid = new_session_id x.

Definition honest_iteration (c : client) (it : iteration) : Prop :=
  forall key sid, reads_under c (randomness it) (script it) key sid -> honest_wait key sid (waited it).

Lemma udp_burst_ok key sid pk n : forall rs c,
  client_ok c -> keyed (key, sid, pk) c -> Forall (honest_io key sid) rs -> runs (udp_burst n rs) c (fun _ => client_ok).
Proof.
  induction n as [|n IH]; intros rs c Hc Hk Hrs; cbn [udp_burst]; [by cstep|]. cstep.
  eapply runs_conseq; [apply (runs_keyed _ _ (fun _ => client_ok) (key, sid, pk)); [done|apply keyed_udp|apply handle_udp_packet_ok; [done|]]|].
  { injection Hk as -> -> _. destruct Hrs; cbn; done. }
  cbv beta. intros [] c1 [Hc1 Hk1]; [|by cstep]. do 2 cstep. destruct (_ =? _); [by cstep|]. apply IH; [done..|].
  by destruct Hrs.
Qed.

Lemma handle_ready_ok key sid pk ev c :
  client_ok c -> keyed (key, sid, pk) c -> honest_ready key sid ev -> runs (handle_ready ev) c (fun _ => client_ok).
Proof.
  intros Hc Hk Hev. destruct ev as [r|rs]; cbn [handle_ready].
  - eapply runs_seq; [by apply handle_tun_packet_ok|]. intros. by cstep.
  - cstep. eapply runs_conseq; [by eapply udp_burst_ok|]. cbv beta. intros [] c1 Hc1; [|by cstep].
    do 5 cstep. destruct (disconnect_requested c1); csteps; keep_ok Hc1.
Qed.

Lemma handle_all_ok key sid pk evs : forall c,
  client_ok c -> keyed (key, sid, pk) c -> Forall (honest_ready key sid) evs -> runs (handle_all evs) c (fun _ => client_ok).
Proof.
  induction evs as [|ev evs IH]; intros c Hc Hk H; cbn [handle_all]; [by cstep|]. inversion H; subst. cstep.
  eapply runs_conseq; [apply (runs_keyed _ _ (fun _ => client_ok) (key, sid, pk)); [done|apply keyed_ready|by eapply handle_ready_ok]|].
  cbv beta. intros [] c1 [Hc1 Hk1]; [by apply IH|by cstep].
Qed.

Lemma should_attempt_ok t s :
  server_ok s -> server_ok (should_attempt_rehandshake t s).2 /\
    ((should_attempt_rehandshake t s).1 = 1 -> rehandshake_attempts (should_attempt_rehandshake t s).2 <= 4).
Proof.
  intros Hs. unfold should_attempt_rehandshake. pose proof Hs as []. destruct (Z.leb_spec 5 (rehandshake_attempts s)).
  { split; [by constructor|done]. }
  destruct (rehandshake_state s); [|done| |done].
  - split; [done|]. cbn. lia.
  - destruct (_ <=? _); [|done]. split; [by constructor|]. cbn. lia.
Qed.

Lemma should_attempt_keys t s :
  k_recv (should_attempt_rehandshake t s).2 = k_recv s /\ session_id (should_attempt_rehandshake t s).2 = session_id s /\
  server_pk (should_attempt_rehandshake t s).2 = server_pk s.
Proof.
  unfold should_attempt_rehandshake. destruct (5 <=? _); [done|]. destruct (rehandshake_state s); [done..| |done].
  by destruct (_ <=? _).
Qed.

Lemma reads_own c e script : reads_under c e script (k_recv (srv c)) (session_id (srv c)).
Proof. by left. Qed.

Lemma rehandshake_if_due_ok t e script c :
  client_ok c -> runs (rehandshake_if_due t e script) c (fun _ c' =>
    client_ok c' /\ reads_under c e script (k_recv (srv c')) (session_id (srv c'))).
Proof.
  intros Hc. unfold rehandshake_if_due. do 2 cstep. destruct (_ || _); cbn [when]; [|cstep; split; [done|apply reads_own]].
  destruct (should_attempt_ok t (srv c) (ok_srv c Hc)) as [Hs Hat].
  destruct (should_attempt_keys t (srv c)) as (Ek & Ei & Ep).
  destruct (should_attempt_rehandshake t (srv c)) as [should s]. cbn [fst snd] in *. do 2 cstep.
  pose proof (client_ok_srv c s Hc Hs) as Hc1.
  assert (Hown : forall c', k_recv (srv c') = k_recv s -> session_id (srv c') = session_id s ->
    reads_under c e script (k_recv (srv c')) (session_id (srv c'))) by (intros c' -> ->; left; by split).
  destruct (should =? -1).
  { unfold trigger_graceful_disconnect. csteps. split; [keep_ok Hc1|by apply Hown]. }
  destruct (Z.eqb_spec should 1) as [->|]; cbn [when]; [|cstep; split; [done|by apply Hown]]. cstep.
  eapply runs_conseq; [apply rehandshake_runs; [done|by apply Hat]|]. cbv beta. intros rc c2 (Hc2 & _ & _ & Hcase).
  assert (Hr : reads_under c e script (k_recv (srv c2)) (session_id (srv c2))).
  { destruct Hcase as [(_ & Hss & _)|(_ & p & data & x & Hp & Hsel & Ha & [(E1 & E2 & _) _ _ _ _ _])].
    - apply Hown; apply Hss.
    - right. exists p, data, x. cbn [srv set] in Ha. rewrite Ep in Ha. done. }
  destruct (rc =? 0); csteps; (split; [keep_ok Hc2|exact Hr]).
Qed.

Lemma client_sweep_ok c : client_ok c -> runs sweep_reassembly_table c (fun _ => client_ok).
Proof.
  intros Hc. unfold sweep_reassembly_table. csteps. destruct Hc. constructor; try done. cbn.
  apply Forall_fmap. eapply Forall_impl; [done|]. intros e. apply expire_entry_ok.
Qed.

(** What an iteration reads under depends only on the keys. *)
Lemma reads_keyed c c1 e script key sid :
  keyed (k_recv (srv c), session_id (srv c), server_pk (srv c)) c1 -> reads_under c1 e script key sid -> reads_under c e script key sid.
Proof. intros [= E1 E2 E3]. unfold reads_under. by rewrite E1, E2, E3. Qed.

Lemma loop_turn_ok it c : client_ok c -> honest_iteration c it -> runs (loop_turn it) c (fun _ => client_ok).
Proof.
  intros Hc Hit. set (K := (k_recv (srv c), session_id (srv c), server_pk (srv c))). unfold loop_turn. cstep.
  eapply runs_conseq; [apply (runs_keyed _ _ (fun _ => client_ok) K); [done|apply keyed_disconnect_request|by apply handle_disconnect_request_ok]|].
  cbv beta. intros [] c1 [Hc1 Hk1]; [|by cstep].
  unfold honest_iteration in Hit. destruct (waited it) as [e|evs]; [csteps; keep_ok Hc1|]. do 4 cstep. set (c2 := c1 <| now := _ |>).
  assert (Hc2 : client_ok c2) by keep_ok Hc1. assert (Hk2 : keyed K c2) by exact Hk1.
  apply runs_bind. eapply runs_conseq; [apply (runs_keyed _ _ (fun _ => client_ok) K); [done| |]|].
  { apply preserves_when, preserves_bind; [apply keyed_keepalive|]. intros _. by apply keyed_modify. }
  { destruct (_ <=? _); cbn [when]; [|by cstep]. eapply runs_seq; [by apply client_keepalive_ok|].
    intros c3 Hc3. csteps. keep_ok Hc3. }
  cbv beta. intros _ c3 [Hc3 Hk3]. destruct (_ <=? _); [by cstep|]. apply runs_bind.
  eapply runs_conseq; [by apply rehandshake_if_due_ok|]. cbv beta. intros _ c4 [Hc4 Hr4].
  pose proof (Hit _ _ (reads_keyed c c3 _ _ _ _ Hk3 Hr4)) as Hevs. cstep.
  eapply runs_conseq; [by eapply (handle_all_ok _ _ (server_pk (srv c4)) evs c4)|]. cbv beta. intros [] c5 Hc5; [|by cstep].
  do 2 cstep. eapply runs_seq; [|intros; by cstep]. destruct (_ <=? _); cbn [when]; [|by cstep].
  eapply runs_seq; [by apply client_sweep_ok|]. intros c6 Hc6. csteps. keep_ok Hc6.
Qed.

(** ** Start-up *)

(** The invariant before the sender thread exists. *)
Record boot_ok (c : client) : Prop := {
  bk_srv : server_ok (srv c);
  bk_gsid : length (g_session_id c) = SESSION_ID_LEN;
  bk_table : Forall entry_ok (g_reassembly_table c);
  bk_queue : g_outq c = aq_empty;
  bk_id : 0 < g_next_packet_id c < 2 ^ 16;
  bk_final : Z.of_nat (length (final_pkt_dummy c)) = BUFFER_SIZE;
  bk_dummy : Z.of_nat (length (dummy_payload c)) = BUFFER_SIZE;
  bk_frag : 300 <= argv_FRAG c <= 1200;
  bk_pad : argv_PAD c = ch_Y \/ argv_PAD c = ch_N;
  bk_counts : data_REAL c = 0 /\ data_DUMMY c = 0;
  bk_buffer : (length (rehandshake_buffer c) <= 128)%nat;
  bk_junk : BUFFER_SIZE <= Z.of_nat (length (junk c));
}.

Ltac keep_boot H := first [exact H | by (destruct H; constructor)].

Lemma initial_ok pk addr o t jk :
  options_ok o -> BUFFER_SIZE <= Z.of_nat (length jk) -> boot_ok (initial pk addr o t jk).
Proof.
  intros [] Hj. constructor; try done.
  - apply Forall_replicate, entry_zero_ok.
  - cbn. lia.
Qed.

Lemma reassembly_init_ok c : boot_ok c -> runs reassembly_init c (fun _ => boot_ok).
Proof.
  intros Hc. unfold reassembly_init. cstep. destruct Hc. constructor; try done. apply Forall_replicate, entry_zero_ok.
Qed.

Lemma emit_boot ev c : boot_ok c -> runs (emit ev) c (fun _ => boot_ok).
Proof. intros Hc. unfold emit. cstep. keep_boot Hc. Qed.

Lemma cleanup_ok c : boot_ok c -> runs restore_route_and_cleanup_client c (fun _ => boot_ok).
Proof.
  intros Hc. unfold restore_route_and_cleanup_client, restore_default_route, close, system. do 2 cstep.
  eapply runs_seq; [apply runs_when; [done|by apply emit_boot]|]. intros c1 Hc1. eapply runs_seq.
  { do 2 cstep. apply runs_when; [done|]. eapply runs_seq; [by apply emit_boot|]. intros c2 Hc2. cstep. keep_boot Hc2. }
  intros c2 Hc2. eapply runs_seq; [apply runs_when; [done|by apply emit_boot]|]. intros c3 Hc3.
  apply runs_when; [done|by apply emit_boot].
Qed.

Lemma configure_ok rt c4 : boot_ok c4 -> runs (configure_network rt) c4 (fun _ => boot_ok).
Proof.
  intros Hc4. unfold configure_network, setup_interface. do 2 cstep.
  eapply (runs_seq _ _ _ boot_ok).
  { eapply (runs_seq _ _ _ boot_ok); [by apply emit_boot|]. intros c5 Hc5. by apply emit_boot. }
  intros c5 Hc5. eapply (runs_seq _ _ _ boot_ok); [apply runs_when; [done|by apply emit_boot]|].
  intros c6 Hc6. eapply (runs_seq _ _ _ boot_ok); [by apply emit_boot|].
  intros c7 Hc7. eapply (runs_seq _ _ _ boot_ok); [apply runs_when; [done|]; cstep; keep_boot Hc7|].
  intros c8 Hc8. by cstep.
Qed.

Lemma boot_waited c t en ms bf rs tr :
  boot_ok c -> buffer_fits bf -> boot_ok (after_wait (c <| ios := rs |> <| trace := tr |>) t en ms bf).
Proof. intros [] Hb. by constructor. Qed.

Lemma msg2_fits c : boot_ok c -> (msg2_length <= length (junk c))%nat.
Proof. intros Hc. pose proof (bk_junk c Hc) as Hj. unfold BUFFER_SIZE in Hj. change msg2_length with 114%nat. lia. Qed.

Lemma finish_setup_ok hs rt c :
  boot_ok c ->
  (forall x, hs_secrets hs = Some x -> length (new_session_id x) = SESSION_ID_LEN /\
     length (new_k_send x) = AEAD_KEY_LEN /\ length (new_k_recv x) = AEAD_KEY_LEN) ->
  runs (finish_setup hs rt) c (fun _ => boot_ok).
Proof.
  intros Hc Hlen. unfold finish_setup. eapply (runs_seq _ _ _ boot_ok).
  { cstep. destruct Hc as [[] ? ? ? ? ? ? ? ? ? ? ?]. constructor; try done. cbn. by destruct (hs_ip hs). }
  intros c1 Hc1. destruct (hs_secrets hs) as [x|].
  - destruct (Hlen x eq_refl) as (Hl1 & Hl2 & Hl3). eapply (runs_seq _ _ _ boot_ok).
    { cstep. destruct Hc1 as [[] ? ? ? ? ? ? ? ? ? ? ?]. by constructor. }
    intros c2 Hc2. by apply configure_ok.
  - eapply (runs_seq _ _ _ boot_ok); [by apply cleanup_ok|]. intros c2 Hc2. by cstep.
Qed.

Lemma setup_ok tun sock gw rt e script c :
  boot_ok c -> runs (setup_and_handshake tun sock gw rt e script) c (fun _ => boot_ok).
Proof.
  intros Hc. unfold setup_and_handshake. do 2 cstep. destruct (sock <? 0); [csteps; keep_boot Hc|]. do 3 cstep.
  set (c1 := _ <| old_gateway := _ |>). assert (Hc1 : boot_ok c1) by keep_boot Hc. clearbody c1.
  eapply runs_conseq; [apply (client_handshake_ok e sock false script c1 (bk_buffer c1 Hc1) (msg2_fits c1 Hc1))|].
  cbv beta. intros hs c2 ((t & en & ms & bf & rs & tr & E & Hbf) & Hauth).
  apply finish_setup_ok; [rewrite E; by apply boot_waited|]. intros x Hx.
  destruct (Hauth x Hx) as (p & data & _ & _ & _ & _ & kx & _ & Hsec). by eapply client_secrets_lengths.
Qed.

Lemma start_sender_ok sock heap created c :
  boot_ok c -> (52 <= length heap)%nat ->
  runs (start_sender_thread sock heap created) c (fun rc c' => rc = 0 ->
    client_ok (c' <| rw := window_zero |>) /\ rehandshake_buffer c' = rehandshake_buffer c).
Proof.
  intros Hc Hh. unfold start_sender_thread. do 3 cstep.
  apply prepare_dummy_ok; [apply Hc..|apply Hc|]. intros p d Hp Hd Hr Hfl. cstep.
  apply runs_client_malloc. intros b bs en _. destruct b; cbn [negb]; [|csteps; lia]. do 4 cstep.
  destruct created; cbn [negb]; csteps; [|lia]. intros _. split; [|done].
  assert (Hn : forall m f, normal_ts (set_interval_from_mbps m false f)).
  { intros m f. unfold set_interval_from_mbps, normal_ts. cbn [tv_nsec]. apply Z.mod_pos_bound. by vm_compute. }
  assert (Hlen : forall off n, (off + n <= length heap)%nat -> length (take n (drop off heap)) = n)
    by (intros; rewrite length_take, length_drop; lia).
  destruct Hc as [[] ? ? Hq ? ? ? ? ? [Hr0 Hd0] ? ?]. constructor; try done.
  - exists ∅. apply window_zero_rep.
  - cbn [g_outq set]. rewrite Hq. by intros [].
  - eexists. split; [reflexivity|]. constructor; try done; cbn [pending_session_id pending_k_send interval].
    + apply Hlen. unfold AEAD_KEY_LEN, SESSION_ID_LEN. lia.
    + apply (Hlen 0%nat). unfold AEAD_KEY_LEN. lia.
    + apply Hn.
  - eexists. split; [reflexivity|]. done.
  - cbn [data_REAL data_DUMMY set]. rewrite Hr0, Hd0. lia.
Qed.

Lemma main_start_ok tun sock gw rt e script heap created c :
  boot_ok c -> (52 <= length heap)%nat ->
  runs (main_start tun sock gw rt e script heap created) c (fun rc c' => rc = 0 -> client_ok c').
Proof.
  intros Hc Hh. unfold main_start. cstep. eapply runs_conseq; [by apply reassembly_init_ok|]. cbv beta. intros _ c1 Hc1.
  cstep. eapply runs_conseq; [by apply setup_ok|]. cbv beta. intros rc c2 Hc2. destruct (negb (rc =? 0)); [cstep; lia|].
  cstep. apply runs_client_malloc. intros b bs en _. destruct b; cbn [negb]; [|csteps; lia]. do 2 cstep.
  match goal with |- runs _ ?w _ => assert (Hc3 : boot_ok w) by (destruct Hc2; by constructor); set (c3 := w) in * end.
  clearbody c3. cstep. eapply runs_conseq; [by apply start_sender_ok|]. cbv beta. intros rc' c4 H4.
  destruct (Z.eqb_spec rc' 0) as [->|]; cbn [negb]; [|csteps; lia]. destruct (H4 eq_refl) as [Hc4 _].
  unfold event_loop_init, rehandshake_buffer_init. csteps. intros _. destruct Hc4. constructor; try done. cbn. lia.
Qed.

(** ** The end *)

(** The commands that take the pinned route away and that put the default route back. *)
Definition unpin_command (c : client) : list byte :=
  snprintf 256 (bytes "ip route del " ++ inet_ntoa (server_addr (srv c)) ++ bytes "/32 2>/dev/null").
Definition unroute_command (c : client) : list byte :=
  if negb (is_empty (old_gateway c)) then
    snprintf 256 (bytes "ip route del default dev " ++ vpn_iface c ++
      bytes " 2>/dev/null; ip route add default via " ++ old_gateway c ++ bytes " 2>/dev/null")
  else snprintf 128 (bytes "ip route del default dev " ++ vpn_iface c ++ bytes " 2>/dev/null").

(** What the clean-up runs and closes. *)
Definition cleanup_events (c : client) : list event :=
  (if negb (is_empty (old_gateway c)) then [System (unpin_command c)] else []) ++
  (if route_added c then [System (unroute_command c)] else []) ++
  (if 0 <=? g_tun_fd c then [Close (g_tun_fd c)] else []) ++
  (if 0 <=? g_udp_sock c then [Close (g_udp_sock c)] else []).

Definition cleaned (c : client) : client := c <| trace := trace c ++ cleanup_events c |> <| route_added := false |>.

Lemma runs_when_emit b ev c Q :
  Q tt (c <| trace := trace c ++ (if b : bool then [ev] else []) |>) -> runs (when b (emit ev)) c Q.
Proof. intros HQ. destruct b; unfold emit; cbn [when]; cstep; [exact HQ|]. rewrite app_nil_r in HQ. by destruct c. Qed.

Lemma cleanup_exact c Q : Q tt (cleaned c) -> runs restore_route_and_cleanup_client c Q.
Proof.
  intros HQ. unfold restore_route_and_cleanup_client, restore_default_route, close, system. do 3 cstep.
  change (snprintf 256 (bytes "ip route del " ++ inet_ntoa (server_addr (srv c)) ++ bytes "/32 2>/dev/null")) with (unpin_command c).
  apply runs_when_emit. do 3 cstep. set (c1 := c <| trace := _ |>).
  apply runs_conseq with (Q := fun _ c' =>
    c' = c1 <| trace := trace c1 ++ (if route_added c then [System (unroute_command c)] else []) |> <| route_added := false |>).
  { change (route_added c1) with (route_added c). fold (unroute_command c1). change (unroute_command c1) with (unroute_command c).
    generalize (unroute_command c). intros cmd. assert (Hr1 : route_added c1 = route_added c) by done. clearbody c1.
    destruct (route_added c); cbn [when]; unfold emit; csteps; [done|].
    rewrite app_nil_r. destruct c1; cbn in *; by subst. }
  cbv beta. intros _ c2 ->. cstep. apply runs_when_emit. apply runs_when_emit.
  match goal with |- Q tt ?x => replace x with (cleaned c); [exact HQ|] end.
  unfold cleaned, cleanup_events. subst c1. generalize (unroute_command c) (unpin_command c). intros cmd1 cmd2.
  destruct c; cbn. by rewrite <- !app_assoc.
Qed.

(** What the clean-up depends on. *)
Definition same_network (c c' : client) : Prop :=
  old_gateway c' = old_gateway c /\ route_added c' = route_added c /\ g_tun_fd c' = g_tun_fd c /\
  g_udp_sock c' = g_udp_sock c /\ vpn_iface c' = vpn_iface c /\ server_addr (srv c') = server_addr (srv c) /\
  rehandshake_buffer c' = rehandshake_buffer c.

Lemma cleanup_events_same c c' : same_network c c' -> cleanup_events c' = cleanup_events c.
Proof. intros (E1 & E2 & E3 & E4 & E5 & E6 & _). unfold cleanup_events, unpin_command, unroute_command. by rewrite E1, E2, E3, E4, E5, E6. Qed.

(** At most three datagrams to the server. *)
Definition farewell (sock : Z) (c : client) (evs : list event) : Prop :=
  (length evs <= 3)%nat /\ Forall (fun ev => exists d, ev = UdpSend sock (server_addr (srv c)) d) evs.

Lemma send_disconnect_sends sock c :
  client_ok c -> runs (send_disconnect sock) c (fun _ c' => exists evs, trace c' = trace c ++ evs /\ farewell sock c evs /\ same_network c c').
Proof.
  intros Hc. pose proof (ok_srv c Hc) as Hs. unfold send_disconnect. csteps.
  destruct (filled_packet_ok PKT_CTRL_DISCONNECT (junk_tag c) 1400 0x11) as (pt & Hpt & Hl & _);
    [by vm_compute|by apply junk_tag_length|lia|].
  clift Hpt. do 6 cstep.
  destruct (encrypt_seal (k_send (srv c)) (g_session_id c) (send_seq (srv c)) pt) as (ct & Hct & _); [apply Hs|lia|].
  cstep. clift Hct. eapply runs_conseq; [apply (runs_for_upto 3 0 _ _ (fun n c' => exists evs, trace c' = trace c ++ evs /\
    (length evs <= n)%nat /\ Forall (fun ev => exists d, ev = UdpSend sock (server_addr (srv c)) d) evs /\ same_network c c'))|].
  - exists []. by rewrite app_nil_r.
  - intros n c1 _ (evs & Ht & Hlen & Hall & Hn). cstep. apply runs_output_main. intros r rs _. cbv beta. cstep.
    exists (evs ++ if r =? 0 then [UdpSend sock (server_addr (srv c)) (data_packet (g_session_id c) (send_seq (srv c)) ct)] else []).
    cbn. rewrite Ht. destruct (r =? 0); rewrite ?app_nil_r, <- ?app_assoc; split_and!; try done; try lia.
    + rewrite length_app. cbn. lia.
    + apply Forall_app. split; [done|]. apply Forall_singleton. by eexists.
  - cbv beta. intros _ c' (evs & Ht & Hlen & Hall & Hn). by exists evs.
Qed.

(** The end of [main], whether the loop could be set up or not: everything is defined,
    and restored, closed and said farewell in this order. *)
Lemma main_end_runs c :
  client_ok c -> runs main_end c (fun _ c' => route_added c' = false /\ rehandshake_buffer c' = rehandshake_buffer c /\
    exists evs, trace c' = trace c ++ evs ++ cleanup_events c /\ farewell (g_udp_sock c) c evs /\
      (disconnect_requested c = false -> evs = [])).
Proof.
  intros Hc. unfold main_end. do 3 cstep. apply runs_conseq with (Q := fun _ c1 => exists evs, trace c1 = trace c ++ evs /\
    farewell (g_udp_sock c) c evs /\ same_network c c1 /\ (disconnect_requested c = false -> evs = [])).
  { destruct (disconnect_requested c), (0 <=? g_udp_sock c); cbn [when andb].
    1: eapply runs_conseq; [by apply send_disconnect_sends|]; cbv beta; intros _ c1 (evs & Ht & Hf & Hn); by exists evs.
    all: cstep; exists []; rewrite app_nil_r; split_and!; try done; split; [cbn; lia|constructor]. }
  cbv beta. intros _ c1 (evs & Ht & Hf & Hn & Hd). apply cleanup_exact. cbn [cleaned route_added rehandshake_buffer trace set].
  split; [done|]. split; [apply Hn|]. exists evs. by rewrite Ht, <- app_assoc, (cleanup_events_same c c1 Hn).
Qed.

Lemma client_end_runs epfd c :
  client_ok c -> runs (client_end epfd) c (fun _ c' => route_added c' = false /\
    exists evs, farewell (g_udp_sock c) c evs /\ (disconnect_requested c = false -> evs = []) /\
      trace c' = trace c ++ match epfd with
        | Some fd => Close fd :: cleanup_events c ++ evs ++ cleanup_events (c <| route_added := false |>)
        | None => evs ++ cleanup_events c
        end).
Proof.
  intros Hc. unfold client_end. cstep. destruct epfd as [fd|].
  - unfold leave_loop, rehandshake_buffer_free, emit. csteps. apply cleanup_exact. set (c1 := cleaned _).
    assert (Hc1 : client_ok c1) by (subst c1; destruct Hc; constructor; first [done | cbn; lia]).
    assert (Hev : cleanup_events c1 = cleanup_events (c <| route_added := false |>)) by done.
    assert (Htr : trace c1 = (trace c ++ [Close fd]) ++ cleanup_events c) by done.
    eapply runs_conseq; [by apply main_end_runs|]. cbv beta. intros _ c' (Hr & _ & evs & Ht & Hf & Hd). split; [done|].
    exists evs. split; [exact Hf|]. split; [exact Hd|]. by rewrite Ht, Hev, Htr, <- !app_assoc.
  - cstep. eapply runs_conseq; [by apply main_end_runs|]. cbv beta. intros _ c' (Hr & _ & evs & Ht & Hf & Hd). split; [done|].
    by exists evs.
Qed.

(** ** The transition system *)

(** The client in its event loop, with the deadline the sender thread carries. *)
Definition machine : Type := client * timespec.

(** What the environment may change between two steps: the results of the calls to
    come and the contents of fresh memory. *)
Record world_change := { e_mallocs : list bool; e_ios : list Z; e_junk : list byte }.
Definition enter (v : world_change) (c : client) : client :=
  c <| mallocs := e_mallocs v |> <| ios := e_ios v |> <| junk := e_junk v |>.
Definition change_ok (v : world_change) : Prop := BUFFER_SIZE <= Z.of_nat (length (e_junk v)).

Inductive step : machine -> machine -> Prop :=
  | step_loop v it c c' n :
      change_ok v -> honest_iteration c it -> loop_turn it (enter v c) = Ok (Next, c') -> step (c, n) (c', n)
  | step_sender v now1 now2 c c' n n' :
      change_ok v -> counts_small c -> normal_ts now2 ->
      sender_turn now1 now2 n (enter v c) = Ok (Some n', c') -> step (c, n) (c', n')
  | step_signal c n : step (c, n) (c <| disconnect_requested := true |>, n).

Definition machine_ok (m : machine) : Prop := client_ok m.1 /\ normal_ts m.2.

Lemma client_enter_ok v c : change_ok v -> client_ok c -> client_ok (enter v c).
Proof. intros Hv []. by constructor. Qed.

Lemma honest_enter v c it : honest_iteration c it -> honest_iteration (enter v c) it.
Proof. done. Qed.

Lemma step_ok m m' : step m m' -> machine_ok m -> machine_ok m'.
Proof.
  intros H [Hc Hn]. destruct H as [v it c c' n Hv Hit E|v now1 now2 c c' n n' Hv Hcnt Hn2 E|c n]; cbn [fst snd] in *.
  - destruct (loop_turn_ok it (enter v c) (client_enter_ok v c Hv Hc) (honest_enter v c it Hit)) as (f & c1 & E1 & Hc1).
    rewrite E in E1. injection E1 as _ <-. done.
  - destruct (ok_sender c Hc) as (a & Ha & _).
    destruct (sender_turn_runs a (enter v c) now1 now2 n) as (r & c1 & E1 & Hc1 & _ & _ & (n1 & -> & Hn1 & _) & _); try done.
    { by apply client_enter_ok. }
    rewrite E in E1. by simplify_eq.
  - split; [|done]. destruct Hc. by constructor.
Qed.

(** C2: the client never reaches undefined behaviour, as long as its packet counts leave
    room for a turn's packets in an int: for any accepted command line, if start-up
    reaches the event loop, then after any sequence of iterations of the loop, turns of
    the sender thread and signals, with any clocks, allocations and sends failing, and
    any datagrams of which those that open under the client's own keys, or the keys a
    rehandshake of the same iteration gives it, state lengths a reassembly buffer holds,
    the state is well-formed, and the next iteration and the next turn are defined, the
    turn with a further deadline.  When the iteration leaves the loop, the rest of main is
    defined: it closes the loop, removes the pinned route, runs the command that takes the
    default route back if the route was changed, and closes the device and the socket;
    then come at most three datagrams of farewell, only if a disconnect was requested, and
    the same clean-up again without the default route. *)
Theorem client_safe inet_aton argv pk addr o t jk tun sock gw rt e script heap created c n m :
  parse_arguments inet_aton argv = Ok (Some (pk, addr, o)) -> BUFFER_SIZE <= Z.of_nat (length jk) -> (52 <= length heap)%nat ->
  main_start tun sock gw rt e script heap created (initial pk addr o t jk) = Ok (0, c) -> normal_ts n ->
  rtc step (c, n) m ->
  client_ok m.1 /\
  (forall v it, change_ok v -> honest_iteration m.1 it -> exists f c1, loop_turn it (enter v m.1) = Ok (f, c1) /\
     forall ret epfd, f = Break ret -> exists c2 evs, client_end (Some epfd) c1 = Ok (tt, c2) /\ route_added c2 = false /\
       farewell (g_udp_sock c1) c1 evs /\ (disconnect_requested c1 = false -> evs = []) /\
       trace c2 = trace c1 ++ Close epfd :: cleanup_events c1 ++ evs ++ cleanup_events (c1 <| route_added := false |>)) /\
  (forall v now1 now2, change_ok v -> counts_small m.1 -> normal_ts now2 ->
     exists n' c', sender_turn now1 now2 m.2 (enter v m.1) = Ok (Some n', c')).
Proof.
  intros Ho Hj Hh Hstart Hn Hr. pose proof (parse_arguments_ok _ _ _ _ _ Ho) as Hoo.
  destruct (main_start_ok tun sock gw rt e script heap created _ (initial_ok pk addr o t jk Hoo Hj) Hh) as (rc & c0 & E & Hc0).
  rewrite Hstart in E. simplify_eq. assert (Hm : machine_ok m).
  { assert (Hm0 : machine_ok (c0, n)) by (split; [by apply Hc0|done]). clear -Hr Hm0 SodiumLaws0.
    induction Hr as [|m1 m2 m3 H _ IH]; [done|]. apply IH. by eapply step_ok. }
  destruct Hm as [Hc Hnm]. split; [done|]. split.
  - intros v it Hv Hit. destruct (loop_turn_ok it (enter v m.1) (client_enter_ok v _ Hv Hc) (honest_enter v _ it Hit)) as (f & c1 & E1 & Hc1).
    exists f, c1. split; [done|]. intros ret epfd _. destruct (client_end_runs (Some epfd) c1 Hc1) as ([] & c2 & E2 & Hr2 & evs & Hf & Hd & Ht).
    exists c2, evs. done.
  - intros v now1 now2 Hv Hcnt Hn2. destruct (ok_sender _ Hc) as (a & Ha & _).
    destruct (sender_turn_runs a (enter v m.1) now1 now2 m.2) as (r & c1 & -> & _ & _ & _ & (n1 & -> & _) & _); try done.
    { by apply client_enter_ok. }
    eauto.
Qed.

End safety.
