(* ===== verification/EndToEnd.v ===== *)
(** The two programs together: the client's key exchange against the server's, and a
    packet's way from one tunnel device to the other.

    The server's state and operations are written [Server.trace w] and the like where
    the client has one of the same name. *)

From stdpp Require Import list gmap.
From S2P Require Import Text ServerMain ServerStart ClientOptions.
From S2P Require ServerKey.
From S2P Require Import Prelude State ReplayWindow OutQueue TaskHeap RateLimiter Metrics Crypto Wire Fragment Clock.
From S2P Require Import Server Handshake PacketProcessor ServerLogic HandshakeProofs DataPath Reassembly.
From S2P Require Import Client ClientHandshake Sender ClientLogic ClientData ClientHandshakeProofs SenderProofs.
Local Open Scope Z_scope.

(** ** Setting the two programs up *)

Section setup.
Context `{Sod : Sodium} `{!SodiumLaws Sod} (inet_aton : list byte -> option Z).

(** C7: the client finds the server: when the server has been launched with an address
    and a port, a client given the same two words and the key the server printed, with
    any well-formed options, takes exactly the server's public key and the socket
    address the server is bound to. *)
Theorem client_finds_server name ip port r t junk h p h' name' opts o :
  ServerKey.drawn_ok (key_pair r) -> server_main inet_aton [name; ip; port] r t junk h = Ok (inr p, h') ->
  parse_options opts default_options = Ok o ->
  exists k w before, ServerKey.load_or_create_server_key (key_pair r) (keys h) = Ok (Some k, w) /\
    printed h' = before ++ key_banner (ServerKey.sign_pk k) /\
    parse_arguments inet_aton (name' :: ip :: port :: concat (hex2 <$> ServerKey.sign_pk k) :: opts) =
      Ok (Some (ServerKey.sign_pk k, bind_addr p, o)).
Proof.
  intros Hd Hmain Ho. destruct (start_runs inet_aton [name; ip; port] r t junk h) as (res & h1 & E & Hres).
  rewrite Hmain in E. injection E as <- <-. destruct Hres as (_ & [(n0 & i0 & p0 & a & n & [= <- <- <-] & Ha & Hn & Hr & Hb) Hkey _ _ _] & _).
  destruct Hkey as (k & w & before & Hload & _ & _ & _ & Hpr). exists k, w, before. split; [done|]. split; [done|].
  unfold parse_arguments. pose proof (ServerKey.sign_pk_length _ _ _ _ Hd Hload) as Hl. change ServerKey.ED25519_PK_LEN with PUBKEY_LEN in Hl.
  rewrite <- Hl, hex2bin_print, (atoi_numeral port n Hn) by (unfold in_int, INT_MIN, INT_MAX; lia). cbn [mbind outcome_bind].
  rewrite Ha, Ho, Hb. done.
Qed.

End setup.

(** ** The parameters of MSG1 *)

(** What the client asks for is what the command line allows. *)
Record asks_in_range (c : client) : Prop := {
  ask_mbps : 1 <= argv_MBPS c <= 15;
  ask_frag : 300 <= argv_FRAG c <= 1200;
  ask_cbr : argv_CBR c = ch_Y \/ argv_CBR c = ch_N;
  ask_pad : argv_PAD c = ch_Y \/ argv_PAD c = ch_N;
}.

Lemma int_value_bytes z : 0 <= z < 2 ^ 31 -> int_value (int_bytes z) = z.
Proof.
  intros H. unfold int_value, int_bytes. rewrite le_value_bytes. change (256 ^ Z.of_nat 4) with (2 ^ 32).
  unfold u32. rewrite Z.mod_mod, Z.mod_small by lia. destruct (Z.ltb_spec z (2 ^ 31)); lia.
Qed.

Lemma clamp_mbps_id v : 1 <= v <= 15 -> clamp_mbps v = v.
Proof.
  intros H. unfold clamp_mbps, CONFIG_MIN_MBPS, CONFIG_MAX_MBPS.
  destruct (Z.ltb_spec v 1); [lia|]. destruct (Z.ltb_spec 15 v); [lia|done].
Qed.

Lemma clamp_frag_id v : 300 <= v <= 1200 -> clamp_frag v = v.
Proof.
  intros H. unfold clamp_frag, CONFIG_MIN_FRAG_PARAM, CONFIG_MAX_FRAG_PARAM.
  destruct (Z.ltb_spec v 64); [lia|]. destruct (Z.ltb_spec 1200 v); [lia|done].
Qed.

Lemma clamp_flag_id b : b = ch_Y \/ b = ch_N -> clamp_flag b = b.
Proof. intros [->| ->]; done. Qed.

Section handshake.
Context `{Sod : Sodium} `{!SodiumLaws Sod}.

(** ** The fields of the two messages *)

Lemma msg1_fields e m f cbr pad :
  length (c_nonce e) = 8%nat ->
  let p := msg1_packet e m f cbr pad in
  length p = MSG1_PACKET_LEN /\ client_pub p = c_pub e /\ client_nonce p = c_nonce e /\
  request p = int_bytes m ++ int_bytes f ++ [cbr; pad].
Proof.
  intros Hn p. subst p. unfold msg1_packet. pose proof (scalarmult_base_length (c_priv e)) as Hp. fold (c_pub e) in Hp.
  pose proof (length_proto_bytes handshake_header) as Hh. unfold client_pub, client_nonce, request. split; [|split; [|split]].
  - rewrite !length_app, Hh, Hp, Hn. done.
  - by apply drop_take_app.
  - rewrite (app_assoc (proto_bytes _)). apply drop_take_app; [|done]. by rewrite length_app, Hh, Hp.
  - rewrite !app_assoc, <- (app_assoc _ (int_bytes m)), <- (app_assoc _ (int_bytes m ++ _)).
    rewrite drop_app_length'; [by rewrite <- app_assoc|]. by rewrite !length_app, Hh, Hp, Hn.
Qed.

(** A nonce of the wrong length would show in the length of MSG1. *)
Lemma msg1_nonce e m f cbr pad : length (msg1_packet e m f cbr pad) = MSG1_PACKET_LEN -> length (c_nonce e) = 8%nat.
Proof.
  unfold msg1_packet. rewrite !length_app, length_proto_bytes. unfold c_pub. rewrite scalarmult_base_length.
  unfold int_bytes. rewrite !length_le_bytes. change MSG1_PACKET_LEN with 56%nat. change PUBKEY_LEN with 32%nat. cbn. lia.
Qed.

Lemma msg2_fields e ip sig :
  length (s_nonce e) = 8%nat -> length ip = 4%nat -> length sig = SIG_LEN ->
  let p := msg2_packet e ip sig in
  length p = msg2_length /\ msg2_s_pub p = s_pub e /\ msg2_s_nonce p = s_nonce e /\ msg2_ip p = ip /\ msg2_sig p = sig.
Proof.
  intros Hn Hip Hsig p. subst p. unfold msg2_packet. pose proof (scalarmult_base_length (s_priv e)) as Hp. fold (s_pub e) in Hp.
  pose proof (length_proto_bytes handshake_header) as Hh. unfold msg2_s_pub, msg2_s_nonce, msg2_ip, msg2_sig.
  split; [|split; [|split; [|split]]].
  - rewrite !length_app, Hh, Hp, Hn, Hip, Hsig. done.
  - by apply drop_take_app.
  - rewrite (app_assoc (proto_bytes _)). apply drop_take_app; [|done]. by rewrite length_app, Hh, Hp.
  - rewrite !(app_assoc (proto_bytes _)), (app_assoc (proto_bytes _ ++ _)). apply drop_take_app; [|done].
    by rewrite !length_app, Hh, Hp, Hn.
  - rewrite !app_assoc, drop_app_length' by (by rewrite !length_app, Hh, Hp, Hn, Hip). apply take_ge. lia.
Qed.

(** ** Both sides compute the same secrets *)

Lemma secrets_agree es ec sk k1 k2 sid :
  session_secrets es sk (c_pub ec) (c_nonce ec) = Some (k1, k2, sid) ->
  client_secrets ec (scalarmult_base sk) (s_pub es) (s_nonce es) =
    Some {| new_session_id := sid; new_k_send := k1; new_k_recv := k2 |}.
Proof.
  unfold session_secrets, client_secrets, c_pub, s_pub. rewrite (scalarmult_comm (c_priv ec) (s_priv es)), (scalarmult_comm (c_priv ec) sk).
  destruct (scalarmult (s_priv es) _) as [dh1|]; [|done]. destruct (scalarmult sk _) as [dh2|]; [|done]. cbn [mbind option_bind].
  destruct (derive_two_keys _ _) as [a b]. by intros [= <- <- <-].
Qed.

(** ** Waiting for MSG2 *)

(** A turn of the receive loop that leaves it waiting: nothing to read after all, or
    a datagram of another type. *)
Definition harmless (deadline : Z) (p : poll) : Prop :=
  at_time p < deadline /\
  match selected p with
  | SelectReady (IoError e) => e = EAGAIN
  | SelectReady (IoData d) => exists ph, read_proto d = Ok ph /\ type ph <> PKT_TYPE_HANDSHAKE
  | _ => False
  end.

Lemma read_proto_length d ph : read_proto d = Ok ph -> (6 <= length d)%nat.
Proof.
  unfold read_proto. intros (? & _ & H)%bind_Ok. apply bind_Ok in H as (? & _ & H). apply bind_Ok in H as (t & H & _).
  unfold byte_at in H. destruct (d !! 5%nat) eqn:E; [|done]. by apply lookup_lt_Some in E.
Qed.

Lemma read_proto_front d n rest : (6 <= n)%nat -> (6 <= length d)%nat -> read_proto (take n d ++ rest) = read_proto d.
Proof.
  intros Hn Hd. unfold read_proto, buf_read, byte_at.
  rewrite !decide_True by (rewrite ?length_app, ?length_take; lia).
  rewrite !lookup_app_l by (rewrite length_take; lia). rewrite !lookup_take_lt by lia.
  rewrite !drop_0, take_app_le by (rewrite length_take; lia). by rewrite take_take, Nat.min_l by lia.
Qed.

Lemma runs_buffer_packet b ty pk c Q :
  (forall en ms bf, Q tt (after_wait c (now c) en ms bf)) -> runs (buffer_packet b ty pk) c Q.
Proof.
  intros HQ. assert (H0 : Q tt c) by (rewrite (after_wait_same c); apply HQ). unfold buffer_packet. do 2 cstep.
  destruct (_ && _); [|by cstep]. cstep. apply runs_client_malloc. intros ok bs en _. destruct ok; cbn [when]; cstep.
  - apply (HQ en bs (rehandshake_buffer c ++ [pk])).
  - apply (HQ en bs (rehandshake_buffer c)).
Qed.

(** The receive loop passes over what is harmless and takes MSG2. *)
Lemma receive_after_noise noise : forall attempts b deadline old t m c,
  (length noise < attempts)%nat -> Forall (harmless deadline) noise -> t < deadline ->
  length old = msg2_length -> length m = msg2_length ->
  (exists ph, read_proto m = Ok ph /\ type ph = PKT_TYPE_HANDSHAKE) ->
  runs (receive_msg2 attempts b deadline old (noise ++ [{| at_time := t; selected := SelectReady (IoData m) |}])) c
    (fun o c' => o = Some m /\ exists en ms bf, c' = after_wait c t en ms bf).
Proof.
  induction noise as [|p noise IH]; intros attempts b deadline old t m c Hat Hn Ht Hold Hm Hty;
    (destruct attempts as [|attempts]; [cbn in Hat; lia|]); cbn [receive_msg2 app]; do 2 cstep; cbn [at_time selected].
  - destruct (Z.leb_spec deadline t); [lia|]. cbv zeta. rewrite (take_ge m) by lia.
    rewrite decide_False by (rewrite Hm; done). rewrite (drop_ge old) by lia. rewrite app_nil_r.
    destruct Hty as (ph & Hph & Ety). cstep. clift Hph. rewrite Ety, Z.eqb_refl. cbn [negb].
    rewrite bool_decide_true by done. cbn [negb]. cstep. split; [done|]. by exists (errno c), (mallocs c), (rehandshake_buffer c).
  - apply Forall_cons in Hn as [[Hpt Hp] Hn]. destruct (Z.leb_spec deadline (at_time p)); [lia|].
    set (c1 := c <| now := at_time p |>). cbn [length] in Hat.
    assert (Hgo : forall c2 old2, (exists en ms bf, c2 = after_wait c1 (now c1) en ms bf) -> length old2 = msg2_length ->
      runs (receive_msg2 attempts b deadline old2 (noise ++ [{| at_time := t; selected := SelectReady (IoData m) |}])) c2
        (fun o c' => o = Some m /\ exists en ms bf, c' = after_wait c t en ms bf)).
    { intros c2 old2 (en & ms & bf & ->) Ho2. eapply runs_conseq; [apply (IH attempts b deadline old2 t m); try done; lia|].
      cbv beta. intros o c' [-> (en' & ms' & bf' & ->)]. split; [done|]. by exists en', ms', bf'. }
    destruct (selected p) as [| |[e|d]]; [done|done|subst e|].
    + do 2 cstep. change (EAGAIN =? EAGAIN) with true. cbv iota. apply Hgo; [|done].
      by exists EAGAIN, (mallocs c), (rehandshake_buffer c).
    + destruct Hp as (ph & Hph & Hne). pose proof (read_proto_length d ph Hph) as Hdl. cbv zeta.
      assert (H114 : msg2_length = 114%nat) by done.
      rewrite decide_False by (rewrite length_take; lia). cstep.
      eapply runs_lift; [rewrite read_proto_front by lia; exact Hph|]. cbv beta.
      destruct (Z.eqb_spec (type ph) PKT_TYPE_HANDSHAKE); [done|]. cbn [negb]. cstep. apply runs_buffer_packet.
      intros en ms bf. apply Hgo; [by exists en, ms, bf|]. rewrite length_app, length_drop, length_take. lia.
Qed.

(** ** The exchange *)

(** The client's MSG1. *)
Definition msg1_of (e : client_ephemeral) (c : client) : list byte :=
  msg1_packet e (argv_MBPS c) (argv_FRAG c) (argv_CBR c) (argv_PAD c).

(** The two ends of a session agree: each sends under the key the other receives
    with, under one session id, with the address and parameters the client has. *)
Record agreed (c : client) (hs : handshake_result) (i : nat) (s : session_t) : Prop := {
  ag_secrets : exists x, hs_secrets hs = Some x /\ new_session_id x = Server.session_id s /\
    new_k_send x = Server.k_recv s /\ new_k_recv x = Server.k_send s;
  ag_ip : hs_ip hs = Some (vpn_ip s);
  ag_granted : granted s = (ip_of i, argv_MBPS c, argv_FRAG c, argv_CBR c, argv_PAD c);
}.

(** The client, with the server's MSG2 for its MSG1 arriving in time. *)
Lemma client_accepts ec es sk ssk sock b noise t ip sig k1 k2 sid c :
  sign_pair ssk (server_pk (srv c)) -> sk_to_curve25519 ssk = Some sk ->
  length (s_nonce es) = 8%nat -> length ip = 4%nat ->
  sign_detached ssk (to_sign es (c_pub ec) (c_nonce ec)) = Some sig ->
  session_secrets es sk (c_pub ec) (c_nonce ec) = Some (k1, k2, sid) ->
  ios c = [] -> (msg2_length <= length (junk c))%nat ->
  (length noise < MAX_DISCARD_ATTEMPTS)%nat -> Forall (harmless (now c + 15)) noise -> t < now c + 15 ->
  runs (client_handshake ec sock b (noise ++ [{| at_time := t; selected := SelectReady (IoData (msg2_packet es ip sig)) |}])) c
    (fun hs c' => hs = {| hs_ip := Some ip;
       hs_secrets := Some {| new_session_id := sid; new_k_send := k1; new_k_recv := k2 |} |} /\
     trace c' = trace c ++ [UdpSend sock (server_addr (srv c)) (msg1_of ec c)]).
Proof.
  intros Hpair Hsk Hn Hip Hsig Hsec Hio Hj Hlen Hnoise Ht. unfold client_handshake. do 2 cstep.
  rewrite (curve25519_pair _ _ _ Hpair Hsk). do 3 cstep. apply runs_output_main. intros r rs Hr.
  destruct (Hr Hio) as [-> ->]. cbn [Z.eqb negb]. do 5 cstep.
  destruct (msg2_fields es ip sig Hn Hip) as (Hml & Fp & Fn & Fi & Fs); [by eapply sign_length|].
  eapply runs_conseq; [apply (receive_after_noise noise); try done|].
  - rewrite length_take. cbn [junk set]. lia.
  - exists handshake_header. split; [|done]. unfold msg2_packet. by apply read_proto_bytes.
  - cbv beta. intros o c' [-> (en & ms & bf & ->)]. cstep. split; [|done].
    unfold check_msg2, to_verify. rewrite Fp, Fn, Fi, Fs.
    change (s_pub es ++ s_nonce es ++ c_pub ec ++ c_nonce ec) with (to_sign es (c_pub ec) (c_nonce ec)).
    rewrite (sign_verify _ _ _ _ Hpair Hsig). cbn [negb]. by rewrite (secrets_agree _ _ _ _ _ _ Hsec).
Qed.

(** C3: the key exchange works: when the server answers the client's MSG1, the client's
    options are in range and the sends succeed, the client, whatever data and other
    datagrams not of the handshake type arrive before the answer, each with a whole protocol
    header, and however often its wait wakes up for nothing, within its 15 seconds and 100
    tries, accepts the MSG2 the server sent; and both ends hold the same session id, each
    sends under the key the other receives with, the client has the address of its slot, and
    the session runs with the client's own parameters.  Not covered is a
    datagram of the handshake type that arrives first, which is taken for the answer or
    ends the attempt, an empty one, which ends it, and one of 1 to 5 bytes, whose type is
    what the buffer held. *)
Theorem key_agreement ec es sk ssk ssock csock src b noise t w c :
  world_ok w -> shards_small w -> g_sign_sk w = Some ssk ->
  sign_pair ssk (server_pk (srv c)) -> sk_to_curve25519 ssk = Some sk -> length (s_nonce es) = 8%nat ->
  asks_in_range c -> admissible es ssock (msg1_of ec c) src sk w ->
  ios c = [] -> (msg2_length <= length (junk c))%nat ->
  (length noise < MAX_DISCARD_ATTEMPTS)%nat -> Forall (harmless (now c + 15)) noise -> t < now c + 15 ->
  exists w' i s m2 hs c',
    handle_msg1 es ssock (msg1_of ec c) src sk w = Ok (0, w') /\
    sessions w' !! i = Some s /\ active s = true /\ List.In (UdpSend ssock src m2) (Server.trace w') /\
    client_handshake ec csock b (noise ++ [{| at_time := t; selected := SelectReady (IoData m2) |}]) c = Ok (hs, c') /\
    trace c' = trace c ++ [UdpSend csock (server_addr (srv c)) (msg1_of ec c)] /\
    agreed c hs i s.
Proof.
  intros Hw Hsm Hk Hpair Hsk Hn Hask Hadm Hio Hj Hlen Hnoise Ht.
  destruct (handle_msg1_runs es ssock (msg1_of ec c) src sk w Hw Hsm) as (r & w' & E & _ & Hr & Hz).
  specialize (Hz Hadm). subst r. destruct Hr as [?|(_ & i & s0 & _ & _ & [Hest])]; [done|].
  destruct Hadm as (_ & _ & Hml & _). apply msg1_nonce in Hml.
  destruct (msg1_fields ec (argv_MBPS c) (argv_FRAG c) (argv_CBR c) (argv_PAD c) Hml) as (_ & Fp & Fn & Fr).
  fold (msg1_of ec c) in Fp, Fn, Fr. rewrite Fp, Fn, Fr in Hest.
  destruct Hest as (s & k1 & k2 & sid & sig & cbr & pad & Hi & Ha & Hsec & Hkr & Hks & Hid & _ & _ & _ & _ & Hc & Hp & Hg & Hsig & Htr).
  rewrite Hk in Hsig. cbn [default] in Hsig.
  assert (Hb4 : forall z, length (int_bytes z) = 4%nat) by (intros; apply length_le_bytes).
  assert (Hcp : cbr = argv_CBR c /\ pad = argv_PAD c).
  { rewrite !lookup_app_r, !Hb4 in Hc, Hp by (rewrite ?Hb4; lia). cbn in Hc, Hp. by simplify_eq. }
  destruct Hcp as [-> ->]. destruct Hask as [Hm Hf Hcb Hpd].
  rewrite take_app_length', drop_app_length', take_app_length', !int_value_bytes, clamp_mbps_id, clamp_frag_id, !clamp_flag_id
    in Hg by first [done|lia|apply Hb4].
  destruct (client_accepts ec es sk ssk csock b noise t (ip_of i) sig k1 k2 sid c) as (hs & c' & Ec & -> & Ht'); [done..|].
  exists w', i, s, (msg2_packet es (ip_of i) sig). do 2 eexists. split; [exact E|]. split; [done|]. split; [done|]. split; [done|].
  split; [exact Ec|]. split; [done|]. constructor; [|cbn; by injection Hg as ->|done].
  eexists. split; [reflexivity|]. by subst.
Qed.

(** The two ends after a rehandshake: new keys and id in agreement, both directions
    starting afresh, the server's queue as the allocation [got] of a new one left it,
    addresses, parameters, tables and the client's queue as they were. *)
Record rekeyed_together (got : bool) (c c' : client) (s s' : session_t) : Prop := {
  rt_keys : k_send (srv c') = Server.k_recv s' /\ k_recv (srv c') = Server.k_send s' /\
    session_id (srv c') = Server.session_id s';
  rt_fresh : send_seq (srv c') = 0 /\ rw c' = window_zero /\ Server.send_seq s' = 0 /\ Server.rw s' = window_zero;
  rt_client : g_outq c' = g_outq c /\ g_reassembly_table c' = g_reassembly_table c /\
    rehandshake_attempts (srv c') = 0 /\ rehandshake_state (srv c') = REHANDSHAKE_READY;
  rt_server : active s' = true /\ vpn_ip s' = vpn_ip s /\ Server.argv_MBPS s' = Server.argv_MBPS s /\
    Server.argv_FRAG s' = Server.argv_FRAG s /\ Server.argv_CBR s' = Server.argv_CBR s /\ Server.argv_PAD s' = Server.argv_PAD s;
  rt_queue : Server.outq s' = if got then Some aq_empty else None;
  rt_kept : client_addr s' = client_addr s /\ Server.g_reassembly_table s' = Server.g_reassembly_table s;
}.

(** C6: a rehandshake works across the two programs: when the server knows the peer, its
    random draw gives secrets, both ends' sends succeed and the client has at most 4
    failures counted, the client, whatever datagrams not of the handshake type, each with a
    whole protocol header, arrive before the answer within 15 seconds and 100 tries, takes
    over the keys of the MSG2 the server sent; both ends then agree on keys and session id
    and number from zero with empty windows, keeping addresses, parameters and tables, the
    client its queue too, while the server's queue is a new empty one, or none when its
    allocation failed; and the sender thread's next turn, if its packet counts are not about
    to overflow an int, seals with the new key and id.  Not covered is a
    datagram of the handshake type that arrives first, which is taken for the answer or
    ends the attempt, an empty one, which ends it, and one of 1 to 5 bytes, whose type is
    what the buffer held. *)
Theorem rekey_agreement ec es es' sk ssk ssock csock src noise t i w c now1 now2 next :
  world_ok w -> shards_small w -> Server.g_sign_sk w = Some ssk -> sends w = [] ->
  first_index (fun s => same_peer s src) (sessions w) = Some i ->
  sign_pair ssk (server_pk (srv c)) -> sk_to_curve25519 ssk = Some sk ->
  length (s_nonce es) = 8%nat -> length (c_nonce ec) = 8%nat ->
  is_Some (session_secrets es sk (c_pub ec) (c_nonce ec)) ->
  client_ok c -> rehandshake_attempts (srv c) <= 4 -> ios c = [] ->
  (length noise < MAX_DISCARD_ATTEMPTS)%nat -> Forall (harmless (now c + 15)) noise -> t < now c + 15 ->
  counts_small c -> normal_ts next -> normal_ts now2 ->
  exists w' s s' m2 c',
    handle_rehandshake_msg1 es es' ssock (msg1_of ec c) src sk w = Ok (0, w') /\
    sessions w !! i = Some s /\ sessions w' = <[i := s']> (sessions w) /\
    Server.trace w' = Server.trace w ++ [UdpSend ssock src m2] /\
    rehandshake_client_with_state ec csock (noise ++ [{| at_time := t; selected := SelectReady (IoData m2) |}]) c = Ok (0, c') /\
    trace c' = trace c ++ [UdpSend csock (server_addr (srv c)) (msg1_of ec c)] /\ rekeyed_together (next_alloc w) c c' s s' /\
    exists next' c2 a, sender_turn now1 now2 next c' = Ok (Some next', c2) /\
      sender c2 = Some a /\ sa_k_send a = Server.k_recv s' /\ sa_session_id a = Server.session_id s'.
Proof.
  intros Hw Hsm Hk Hsd Hfi Hpair Hsk Hn Hcn [[[k1 k2] sid] Hsec] Hc Hat Hio Hlen Hnoise Ht Hcnt Hnn Hn2.
  destruct (msg1_fields ec (argv_MBPS c) (argv_FRAG c) (argv_CBR c) (argv_PAD c) Hcn) as (Hml & Fp & Fn & _).
  fold (msg1_of ec c) in Hml, Fp, Fn.
  destruct (handle_rehandshake_runs es es' ssock (msg1_of ec c) src sk w Hw Hsm) as (r & w' & E & _ & _ & Hrot).
  destruct (Hrot i k1 k2 sid Hml Hfi) as (-> & s & s' & Hs & Hs' & [(Hk1 & Hk2 & Hid) [Hq Hwin] Houtq Hsame] & Hans); [by rewrite Fp, Fn|].
  destruct (Hans Hsd) as (sig & Hsig & Htr). rewrite Hk, Fp, Fn in Hsig. cbn [default] in Hsig.
  apply first_index_Some in Hfi as (s0 & Hs0 & Hpeer & _). assert (s0 = s) as -> by congruence.
  assert (Ha : active s = true) by (unfold same_peer in Hpeer; bprop; done).
  destruct (ok_sess w Hw i s Hs) as [_ Hlive]. pose proof (ok_ip i s (Hlive Ha)) as Hip.
  set (x := {| new_session_id := sid; new_k_send := k1; new_k_recv := k2 |}).
  pose proof (ok_junk c Hc) as Hj. unfold BUFFER_SIZE in Hj.
  assert (Hrun : runs (rehandshake_client_with_state ec csock
    (noise ++ [{| at_time := t; selected := SelectReady (IoData (msg2_packet es (vpn_ip s) sig)) |}])) c
    (fun r c' => r = 0 /\ rekeyed x c c' /\ trace c' = trace c ++ [UdpSend csock (server_addr (srv c)) (msg1_of ec c)])).
  { apply rehandshake_takes; [done|]. set (c1 := c <| srv ::= _ |>).
    eapply runs_conseq; [apply (client_accepts ec es sk ssk csock true noise t (vpn_ip s) sig k1 k2 sid c1)|]; try done.
    - by rewrite Hip.
    - change (junk c1) with (junk c). change msg2_length with 114%nat. lia.
    - cbv beta. intros hs c' [-> Ht']. done. }
  destruct (rehandshake_runs ec csock (noise ++ [{| at_time := t; selected := SelectReady (IoData (msg2_packet es (vpn_ip s) sig)) |}]) c Hc Hat)
    as (r1 & c1 & E1 & Hc1 & _). destruct Hrun as (r & c' & Ec & -> & [Hkeys [Hq0 Hw0] [Hst Hat0] Hpend _ (_ & _ & Hoq & Htb & Hr & Hd)] & Htc).
  assert (c1 = c') as -> by congruence.
  exists w', s, s', (msg2_packet es (vpn_ip s) sig), c'. split; [done|]. split; [done|]. split; [done|]. split; [done|].
  split; [done|]. split; [done|]. destruct Hkeys as (K1 & K2 & K3). destruct Hsame as (S1 & S2 & S0 & S3 & S4 & S5 & S6 & S7). split.
  - constructor; [by rewrite K1, K2, K3, Hk1, Hk2, Hid|done|done|by rewrite S1|done|done].
  - destruct Hpend as (a & Hsa & Hp1 & Hp2 & Hp3).
    destruct (sender_turn_runs a c' now1 now2 next) as (r2 & c2 & E2 & _ & Hsw & _ & (next' & -> & _) & _); [done|done| |done|done|].
    { unfold counts_small in *. by rewrite Hr, Hd. }
    exists next', c2, (swapped a). split; [done|]. split; [done|]. unfold swapped. rewrite Hp1. cbn. by rewrite Hp2, Hp3, Hk1, Hid.
Qed.

End handshake.

(** ** From the client's tunnel device to the server's *)

Section tunnel.
Context `{Sod : Sodium} `{!SodiumLaws Sod}.

(** Packets of one priority that fit their lane are queued in order. *)
Lemma push_all_lane p ds : forall A,
  Forall (fun d => priority d = p) ds -> Z.of_nat (length (lane p A) + length ds) <= queue_cap p ->
  push_all ds A = set_lane p (lane p A ++ ds) A.
Proof.
  induction ds as [|d ds IH]; intros A Hp Hcap; cbn [push_all foldl].
  { rewrite app_nil_r. by destruct p, A. }
  apply Forall_cons in Hp as [Hd Hp]. cbn [length] in Hcap. fold (push_all ds (aq_push d A)).
  assert (E : aq_push d A = set_lane p (lane p A ++ [d]) A).
  { unfold aq_push, aq_full. rewrite Hd. by destruct (Z.leb_spec (queue_cap p) (Z.of_nat (length (lane p A)))); [lia|]. }
  assert (El : lane p (set_lane p (lane p A ++ [d]) A) = lane p A ++ [d]) by (by destruct p).
  rewrite E, IH; [|done|rewrite El, length_app; cbn; lia]. rewrite El, <- app_assoc. by destruct p, A.
Qed.

Lemma queued_packets key sid p pts : forall sq, pkt <$> queued key sid p sq pts = seal_each key sid sq pts.
Proof. induction pts as [|pt pts IH]; intros sq; cbn [queued seal_each fmap list_fmap]; [done|]. cbv zeta. cbn. f_equal. apply IH. Qed.

Lemma queued_priority key sid p pts : forall sq, Forall (fun d => priority d = p) (queued key sid p sq pts).
Proof. induction pts as [|pt pts IH]; intros sq; cbn [queued]; by constructor. Qed.

Lemma length_queued key sid p pts sq : length (queued key sid p sq pts) = length pts.
Proof. by rewrite <- (length_fmap pkt), queued_packets, length_seal_each. Qed.

(** A packet makes few pieces. *)
Lemma chunks_bound fuel P off l : (0 < P)%nat -> (length (chunks fuel P off l) * P <= length l + P - 1)%nat.
Proof.
  intros HP. revert off l. induction fuel as [|fuel IH]; intros off [|b l]; cbn [chunks length]; [lia..|].
  specialize (IH (off + P)%nat (drop P (b :: l))). rewrite length_drop in IH. cbn [length] in IH.
  set (n := length (chunks _ _ _ _)) in *. destruct (Nat.le_gt_cases (Datatypes.S (length l)) P) as [Hs|Hs].
  - replace (Datatypes.S (length l) - P)%nat with 0%nat in IH by lia. destruct n; nia.
  - nia.
Qed.

Lemma few_pieces tag P padto id ip :
  (276 <= P)%nat -> (length ip <= 1600)%nat -> (length (pieces tag P padto id ip) <= 6)%nat.
Proof.
  intros HP Hl. unfold pieces. rewrite length_fmap.
  pose proof (chunks_bound (length ip) P 0 ip ltac:(lia)). nia.
Qed.

(** The client queues the pieces of a packet, sealed and numbered in order. *)
Lemma tun_queues ip c :
  client_ok c -> mallocs c = [] -> g_outq c = aq_empty -> (20 <= length ip <= 1600)%nat ->
  runs (handle_tun_packet (IoData ip)) c (fun _ c' => client_ok c' /\ exists n,
    c' = with_queue (c <| g_next_packet_id := n |>)
      (u64 (send_seq (srv c) + Z.of_nat (length (fragments c (g_next_packet_id c) ip))))
      (set_lane (priority_of ip) (queued (k_send (srv c)) (session_id (srv c)) (priority_of ip) (send_seq (srv c))
        (fragments c (g_next_packet_id c) ip)) aq_empty)).
Proof.
  intros Hc Hm Hq Hl. apply runs_and; [by apply handle_tun_packet_ok|].
  unfold handle_tun_packet. cbv zeta. rewrite (take_ge ip) by (change (Z.to_nat BUFFER_SIZE) with 1600%nat; lia).
  rewrite decide_False by lia. cstep. eapply runs_conseq; [by apply take_packet_id_ok|].
  cbv beta. intros id c1 (-> & Hc1 & n & E). set (id := g_next_packet_id c).
  eapply runs_conseq; [apply (fragment_loop_queued (length ip) id ip 0 c1); [done|by rewrite E|lia|lia]|].
  cbv beta zeta. intros _ c' ->. exists n. rewrite drop_0, E. unfold with_queue.
  change (fragment_plain (junk_tag (c <| g_next_packet_id := n |>)) (pad_to (c <| g_next_packet_id := n |>)) id (length ip) <$>
    chunks (length ip) (max_payload (c <| g_next_packet_id := n |>)) 0 ip) with (fragments c id ip).
  cbn [srv g_outq set]. rewrite Hq. f_equal. rewrite (push_all_lane (priority_of ip)).
  - by destruct (priority_of ip).
  - apply queued_priority.
  - rewrite length_queued. pose proof (max_payload_range c Hc).
    pose proof (few_pieces (junk_tag c) (max_payload c) (pad_to c) id ip). unfold fragments.
    assert (6 <= queue_cap (priority_of ip)) by (by destruct (priority_of ip)).
    destruct (priority_of ip); cbn [lane aq_empty high normal length]; lia.
Qed.

Lemma packets_set_lane p ds : packets (set_lane p ds aq_empty) = ds.
Proof. destruct p; cbn; [apply app_nil_r|done]. Qed.

(** What the sender thread then puts on the wire. *)
Lemma tun_then_send ip c a now1 now2 next :
  client_ok c -> mallocs c = [] -> ios c = [] -> g_outq c = aq_empty -> sender c = Some a ->
  counts_small c -> normal_ts next -> normal_ts now2 -> (20 <= length ip <= 1600)%nat ->
  exists c1 next' c2 rest,
    handle_tun_packet (IoData ip) c = Ok (tt, c1) /\ sender_turn now1 now2 next c1 = Ok (Some next', c2) /\ client_ok c2 /\
    trace c2 = trace c ++ (UdpSend (sa_udp_sock a) (sa_server_addr a) <$>
      seal_each (k_send (srv c)) (session_id (srv c)) (send_seq (srv c)) (fragments c (g_next_packet_id c) ip)) ++ rest /\
    (argv_CBR c = ch_N -> rest = []).
Proof.
  intros Hc Hm Hio Hq Ha Hcnt Hn Hn2 Hl.
  destruct (tun_queues ip c Hc Hm Hq Hl) as ([] & c1 & E1 & Hc1 & n & Ec1).
  assert (Hf : sender c1 = sender c /\ ios c1 = ios c /\ trace c1 = trace c /\ argv_CBR c1 = argv_CBR c /\
    data_REAL c1 = data_REAL c /\ data_DUMMY c1 = data_DUMMY c) by (by rewrite Ec1).
  destruct Hf as (Es & Eio & Et & Ecb & Er & Ed).
  destruct (sender_turn_runs a c1 now1 now2 next) as (r & c2 & E2 & Hc2 & _ & _ & (next' & -> & _) & Hev); try done.
  { by rewrite Es. }
  { unfold counts_small. by rewrite Er, Ed. }
  destruct Hev as (evs & Htr & Hs); [by rewrite Eio|].
  assert (Hqs : queue_sends a (g_outq c1) = UdpSend (sa_udp_sock a) (sa_server_addr a) <$>
    seal_each (k_send (srv c)) (session_id (srv c)) (send_seq (srv c)) (fragments c (g_next_packet_id c) ip)).
  { rewrite Ec1. unfold queue_sends, with_queue. cbn [g_outq set]. rewrite packets_set_lane, <- (queued_packets _ _ (priority_of ip)).
    by rewrite <- list_fmap_compose. }
  unfold turn_sends in Hs. rewrite Ecb in Hs. exists c1, next', c2. destruct (bool_decide (argv_CBR c = ch_Y)) eqn:Hcbr.
  - destruct Hs as (pt & _ & _ & ->). eexists. split; [done|]. split; [done|]. split; [done|]. split.
    + rewrite Htr, Et, Hqs. reflexivity.
    + apply bool_decide_eq_true in Hcbr. rewrite Hcbr. by intros ?%(f_equal b2z).
  - exists []. split; [done|]. split; [done|]. split; [done|]. split; [|done]. by rewrite Htr, Et, Hs, Hqs, app_nil_r.
Qed.

(** C4: upload: a packet of 20 to 1600 bytes that the client reads from its tunnel device
    while its queue is empty comes out of the server's: the client cuts, seals and queues
    it, the next turn of its sender thread, when allocations and sends succeed and neither
    its numbers nor its packet counts run out, sends the datagrams in order (and, paced, a
    dummy after them), and the running server, if its limiter lets that many packets of the
    sender through, at the session with the client's key and id and a window and table that
    admit them, handles each whole datagram and writes exactly that packet to its own
    device; its state changes by nothing else than that session's table, window and activity
    time, the limiter's account of the sender, and the counts of packets and bytes
    received. *)
Theorem upload ip c a now1 now2 next e e' sock src sk i w s S l :
  client_ok c -> mallocs c = [] -> ios c = [] -> g_outq c = aq_empty -> sender c = Some a ->
  counts_small c -> normal_ts next -> normal_ts now2 -> (20 <= length ip <= 1600)%nat ->
  linked (k_send (srv c)) (session_id (srv c)) s i w ->
  window_rep (Server.rw s) S -> recv_max (Server.rw s) < send_seq (srv c) ->
  send_seq (srv c) + Z.of_nat (length ip) <= 2 ^ 64 ->
  (forall x, x ∈ Server.g_reassembly_table s -> is_active x = true -> re_packet_id x <> g_next_packet_id c) ->
  (exists x, x ∈ Server.g_reassembly_table s /\ is_active x = false) -> metrics_lock w = true ->
  lets_through (length (fragments c (g_next_packet_id c) ip)) (Server.now w) (sin_addr src) (rl w) = Some l ->
  exists c1 next' c2 ds rest tbl r,
    handle_tun_packet (IoData ip) c = Ok (tt, c1) /\ sender_turn now1 now2 next c1 = Ok (Some next', c2) /\
    trace c2 = trace c ++ (UdpSend (sa_udp_sock a) (sa_server_addr a) <$> ds) ++ rest /\ (argv_CBR c = ch_N -> rest = []) /\
    run_all (fun buf => handle_inbound_udp e e' sock buf src sk) ds w = Ok (tt, delivered i s ds ip tbl r l w).
Proof.
  intros Hc Hm Hio Hq Ha Hcnt Hn Hn2 Hl Hlk HS Hseq Hub Hno Hidle Hlock Hlim.
  destruct (tun_then_send ip c a now1 now2 next) as (c1 & next' & c2 & rest & E1 & E2 & _ & Ht & Hr); [done..|].
  pose proof (max_payload_range c Hc) as HP. pose proof (ok_id c Hc). pose proof (ok_frag c Hc).
  destruct (server_receives e e' sock src sk i w s (k_send (srv c)) (session_id (srv c)) (send_seq (srv c)) S (junk_tag c)
    (max_payload c) (pad_to c) (g_next_packet_id c) ip l) as (tbl & r & E);
    [done..|lia| |by apply junk_tag_length|done|lia|done|done|].
  { unfold pad_to, max_payload, sizeof_tunnel_header. case_bool_decide; lia. }
  exists c1, next', c2. do 2 eexists. exists tbl, r. split; [exact E1|]. split; [exact E2|]. split; [exact Ht|].
  split; [exact Hr|]. exact E.
Qed.

(** ** And back *)

(** C5: download: a packet the server reads for an unpaced session, when allocations,
    sends and the device's writes succeed, leaves as datagrams that the client, with the session's key and id, an
    earlier window and an idle table, turns back into exactly that packet on its tunnel
    device, changing nothing but its table and window, as long as the packet has 20 to 1600
    bytes and the session's numbers stay below 2^64. *)
Theorem download ip i w s c S :
  world_ok w -> sessions w !! i = Some s -> active s = true -> Server.argv_CBR s = ch_N ->
  Server.mallocs w = [] -> sends w = [] -> (20 <= length ip <= 1600)%nat -> take 4 (drop 16 ip) = ip_of i ->
  client_ok c -> ios c = [] -> k_recv (srv c) = Server.k_send s -> session_id (srv c) = Server.session_id s ->
  window_rep (rw c) S -> recv_max (rw c) < Server.send_seq s -> Server.send_seq s + Z.of_nat (length ip) <= 2 ^ 64 ->
  g_reassembly_table c <> [] -> Forall (fun x => is_active x = false) (g_reassembly_table c) ->
  exists w' ds c' tbl r,
    handle_outbound_tun_buf ip w = Ok (tt, w') /\
    Server.trace w' = Server.trace w ++ (UdpSend (s_udp_sock s) (client_addr s) <$> ds) /\
    run_all deliver ds c = Ok (tt, c') /\
    c' = c <| g_reassembly_table := tbl |> <| rw := r |> <| trace := trace c ++ [TunWrite ip] |>.
Proof.
  intros Hw Hi Ha Hcbr Hm Hsd Hl Hdst Hc Hio Hk Hid HS Hseq Hub Hne Hidle.
  destruct (handle_outbound_direct ip i w s) as (id & Hidr & [] & w' & E & ->); [done..|lia|done|].
  destruct (ok_sess w Hw i s Hi) as [_ Hlive]. pose proof (ok_params _ _ (Hlive Ha)) as Hp.
  pose proof (max_payload_pos s Hp) as HP. rewrite Forall_forall in Hidle.
  destruct (client_receives c (Server.send_seq s) S (zeros SESSION_ID_LEN) (DataPath.max_payload s) (DataPath.pad_to s) id ip)
    as ([] & c' & Ec & tbl & r & Hc'); [done..|lia| |done|done|lia| | |].
  { destruct Hp as [_ Hf _ _]. unfold CONFIG_MIN_FRAG_PARAM, CONFIG_MAX_FRAG_PARAM in Hf.
    unfold DataPath.pad_to, DataPath.max_payload, sizeof_tunnel_header. destruct (padded s); lia. }
  { intros x Hx Hax. by rewrite (Hidle x Hx) in Hax. }
  { destruct (g_reassembly_table c) as [|x l]; [done|]. exists x. split; [by left|apply Hidle; by left]. }
  rewrite Hk, Hid in Ec. eexists _, _, c', tbl, r. split; [exact E|]. split; [reflexivity|]. split; [exact Ec|exact Hc'].
Qed.

End tunnel.
