(* ===== verification/ClientDemo.v ===== *)
(** A concrete client: the state its start-up reaches against a server that answers
    MSG1, on the model of libsodium of [Crypto].  The properties of the client are
    applied to it here. *)

From Stdlib Require Import Strings.String.
From stdpp Require Import list gmap relations.
From S2P Require Import Prelude State ReplayWindow OutQueue TaskHeap Crypto Wire Fragment Clock.
From S2P Require Import Text ClientOptions Client ClientHandshake Sender ClientLoop ClientLogic ClientHandshakeProofs.
From S2P Require Import SenderProofs ClientData ClientSafety.
Local Open Scope Z_scope.

#[local] Existing Instance toy_sodium.
#[local] Existing Instance toy_laws.

(** ** Start-up *)

Definition server_at : sockaddr_in := {| sin_family := 2; sin_addr := 3232235777; sin_port := 4660 |}.
Definition sign_key : list byte := replicate 32 (z2b 9).
Definition eph : client_ephemeral := {| c_priv := replicate 32 (z2b 1); c_nonce := replicate 8 (z2b 2) |}.
Definition server_share : list byte := replicate 32 (z2b 5).
Definition server_salt : list byte := replicate 8 (z2b 6).

(** The server's answer, signed with its key. *)
Definition answer : list byte :=
  proto_bytes handshake_header ++ server_share ++ server_salt ++ [z2b 10; z2b 10; z2b 0; z2b 2] ++
  default [] (sign_detached sign_key (server_share ++ server_salt ++ c_pub eph ++ c_nonce eph)).

Definition at_once (data : list byte) : list poll := [{| at_time := 101; selected := SelectReady (IoData data) |}].

(** [CBR:Y MBPS:10] *)
Definition command_line : list (list byte) := [bytes "CBR:Y"; bytes "MBPS:10"].
Definition chosen : options := default_options <| o_CBR := ch_Y |> <| o_MBPS := 10 |>.

(** Given with the server's address, its port and its key. *)
Definition inet_aton_demo (ip : list byte) : option Z := if bool_decide (ip = bytes "192.168.1.1") then Some 3232235777 else None.
Definition demo_argv : list (list byte) :=
  bytes "chamlon" :: bytes "192.168.1.1" :: bytes "13330" :: concat (hex2 <$> sign_key) :: command_line.

Lemma demo_argv_ok : parse_arguments inet_aton_demo demo_argv = Ok (Some (sign_key, server_at, chosen)).
Proof. by vm_compute. Qed.

Lemma command_line_ok : parse_options command_line default_options = Ok chosen.
Proof. by vm_compute. Qed.

Abbreviation before := (initial sign_key server_at chosen 100 (zeros 1600)).
Abbreviation started :=
  (main_start (3, bytes "tun_client") 4 (Some (bytes "192.168.1.1")) true eph (at_once answer) (zeros 52) true before).
Definition demo : client := match started with Ok (_, c) => c | Err _ => before end.

Lemma started_ok : started = Ok (0, demo).
Proof.
  assert (H : (if started is Ok (0, _) then true else false) = true) by (by vm_compute).
  unfold demo. destruct started as [[[] c]|]; done.
Qed.

#[local] Opaque demo.

Lemma result_of (m : outcome (Z * client)) (P : client -> Prop) d :
  (exists rc c, m = Ok (rc, c) /\ (rc = 0 -> P c)) -> m = Ok (0, d) -> P d.
Proof. intros (rc & c & -> & H) [= -> ->]. by apply H. Qed.

Lemma before_ok : boot_ok before.
Proof.
  apply initial_ok; [eapply parse_options_ok, command_line_ok; apply default_options_ok|].
  unfold zeros. by rewrite length_replicate.
Qed.

Lemma demo_ok : client_ok demo.
Proof.
  refine (result_of started client_ok demo _ started_ok).
  apply (main_start_ok (3, bytes "tun_client") 4 (Some (bytes "192.168.1.1")) true eph (at_once answer) (zeros 52) true before before_ok).
  unfold zeros. rewrite length_replicate. lia.
Qed.

Definition demo_args : sender_args_t :=
  default {| sa_udp_sock := 0; sa_server_addr := server_at; sa_session_id := []; sa_k_send := [];
             interval := {| tv_sec := 0; tv_nsec := 0 |}; pending_k_send := []; pending_session_id := [];
             pending_rekey := 0 |} (sender demo).

Lemma demo_sender : sender demo = Some demo_args.
Proof. unfold demo_args. by destruct (ok_sender demo demo_ok) as (a & -> & _). Qed.
#[local] Opaque demo_args.

Lemma demo_counts : counts_small demo.
Proof. unfold counts_small. apply Z.leb_le. by vm_compute. Qed.

Lemma demo_attempts : rehandshake_attempts (srv demo) <= 4.
Proof. apply Z.leb_le. by vm_compute. Qed.

Definition tick (s : Z) : timespec := {| tv_sec := s; tv_nsec := 0 |}.
Lemma tick_normal s : normal_ts (tick s).
Proof. by vm_compute. Qed.

(** ** The properties *)

Lemma rehandshake_backs_off_witness :
  exists tries s', failing_attempts [100; 101; 105; 106; 130; 200; 300] (srv before) = Ok (tries, s') /\ (length tries <= 5)%nat /\
    forall t, (should_attempt_rehandshake t s').1 = -1.
Proof.
  destruct (rehandshake_backs_off [100; 101; 105; 106; 130; 200; 300] (srv before)) as (tries & s' & E & Hlen & _ & _ & H);
    [reflexivity..|].
  exists tries, s'. split; [exact E|]. split; [exact Hlen|]. apply H.
  assert (En : (if failing_attempts [100; 101; 105; 106; 130; 200; 300] (srv before) is Ok (ts, _) then length ts else 0%nat) = 5%nat)
    by (by vm_compute).
  by rewrite E in En.
Defined.

Lemma rehandshake_authentic_witness :
  exists r c', rehandshake_client_with_state eph 4 (at_once answer) demo = Ok (r, c') /\ client_ok c' /\ rehandshake_buffer c' = [].
Proof.
  destruct (rehandshake_authentic eph 4 (at_once answer) demo demo_ok demo_attempts) as (r & c' & E & Hc & Hb & _).
  exists r, c'. split; [exact E|]. split; [exact Hc|exact Hb].
Defined.

Lemma sender_turn_correct_witness :
  exists next' c', sender_turn (tick 7) (tick 8) (tick 7) demo = Ok (Some next', c') /\ g_outq c' = aq_empty.
Proof.
  destruct (sender_turn_correct demo_args demo (tick 7) (tick 8) (tick 7) demo_ok demo_sender demo_counts (tick_normal 7) (tick_normal 8))
    as (next' & c' & E & _ & _ & Hq & _).
  exists next', c'. split; [exact E|exact Hq].
Defined.

Lemma arguments_checked_witness :
  parse_arguments inet_aton_demo demo_argv = Ok (Some (sign_key, server_at, chosen)) /\ options_ok chosen /\ in_u16 (sin_port server_at).
Proof.
  destruct (arguments_checked inet_aton_demo demo_argv sign_key server_at chosen demo_argv_ok) as (Ho & _ & _ & Hp & _).
  split; [exact demo_argv_ok|]. split; [exact Ho|exact Hp].
Defined.

(** A packet of 24 bytes from the server, in one piece. *)
Definition inner : list byte := replicate 24 (z2b 69).
Definition inner_packet : list byte :=
  tunnel_bytes {| packet_id := 7; fragment_offset := 0; total_ip_len := 24; flags := 0; th_session_id := zeros 16 |} ++ inner.
Definition from_server : list byte := seal (k_recv (srv demo)) (session_id (srv demo)) inner_packet 1.

(** An iteration that reads it, and one long after the server's last keepalive. *)
Definition reading : iteration :=
  {| waited := Ready [UdpReady [IoData from_server]]; clock := 110; randomness := eph; script := [] |}.
Definition late : iteration := {| waited := Ready []; clock := 400; randomness := eph; script := [] |}.
Definition fair : world_change := {| e_mallocs := []; e_ios := []; e_junk := zeros 1600 |}.

Definition opens_honestly (key sid data : list byte) : bool :=
  match aead_decrypt key sid (datagram_seq data) (drop DATA_HEADER_LEN data) with
  | Some plain => match u16_at plain 4 with Ok total => total <=? MAX_PACKET_SIZE | Err _ => true end
  | None => true
  end.

Lemma opens_honestly_ok key sid data : opens_honestly key sid data = true -> honest_datagram key sid data.
Proof. intros H plain total E1 E2. unfold opens_honestly in H. rewrite E1, E2 in H. by apply Z.leb_le. Qed.

Lemma reading_honest : honest_iteration demo reading.
Proof.
  intros key sid [[-> ->]|(p & data & x & Hp & _)]; [|by apply elem_of_nil in Hp].
  repeat constructor. apply opens_honestly_ok. by vm_compute.
Qed.

Lemma late_honest c : honest_iteration c late.
Proof. intros key sid _. constructor. Qed.

Lemma client_safe_witness : exists c1 c2 c3,
  loop_turn reading (enter fair demo) = Ok (Next, c1) /\ trace c1 = trace demo ++ [TunWrite inner] /\
  loop_turn late (enter fair c1) = Ok (Break (-1), c2) /\
  client_end (Some 5) c2 = Ok (tt, c3) /\ trace c3 = trace c2 ++ Close 5 :: cleanup_events c2 ++ cleanup_events (c2 <| route_added := false |>) /\
  System (unroute_command c2) ∈ trace c3.
Proof.
  assert (Hj : BUFFER_SIZE <= Z.of_nat (length (zeros 1600))) by (unfold zeros; rewrite length_replicate; vm_compute; discriminate).
  assert (Hh : (52 <= length (zeros 52))%nat) by (unfold zeros; rewrite length_replicate; lia).
  pose proof (client_safe inet_aton_demo demo_argv sign_key server_at chosen 100 (zeros 1600) (3, bytes "tun_client") 4
    (Some (bytes "192.168.1.1")) true eph (at_once answer) (zeros 52) true demo (tick 7)) as Hsafe.
  destruct (Hsafe (demo, tick 7) demo_argv_ok Hj Hh started_ok (tick_normal 7) (rtc_refl _ _)) as (_ & Hl & _).
  destruct (Hl fair reading Hj reading_honest) as (f & c1 & E1 & _). cbn [fst] in E1.
  assert (V1 : match loop_turn reading (enter fair demo) with
    | Ok (Next, c) => trace c = trace demo ++ [TunWrite inner] /\
        match loop_turn late (enter fair c) with Ok (Break ret, c2) => ret = -1 /\ route_added c2 = true /\ disconnect_requested c2 = false | _ => False end
    | _ => False end) by (vm_compute; split_and!; reflexivity).
  rewrite E1 in V1. destruct f as [|ret|]; [|destruct V1|destruct V1]. destruct V1 as [Ht1 V2].
  assert (Hr : rtc step (demo, tick 7) (c1, tick 7)) by (apply rtc_once; exact (step_loop fair reading demo c1 (tick 7) Hj reading_honest E1)).
  destruct (Hsafe (c1, tick 7) demo_argv_ok Hj Hh started_ok (tick_normal 7) Hr) as (_ & Hl2 & _).
  destruct (Hl2 fair late Hj (late_honest c1)) as (f & c2 & E2 & Hend). cbn [fst] in E2. rewrite E2 in V2.
  destruct f as [|ret|]; [destruct V2| |destruct V2]. destruct V2 as (-> & Hroute & Hdis).
  destruct (Hend (-1) 5 eq_refl) as (c3 & evs & E3 & _ & _ & Hnil & Ht3). rewrite (Hnil Hdis) in Ht3.
  exists c1, c2, c3. split; [exact E1|]. split; [exact Ht1|]. split; [exact E2|]. split; [exact E3|]. split; [exact Ht3|]. rewrite Ht3. apply elem_of_app. right. right. apply elem_of_app. left.
  unfold cleanup_events. rewrite Hroute. apply elem_of_app. right. apply elem_of_app. left. by left.
Defined.

(** A data packet of another session. *)
Definition stray : list byte := data_packet (replicate 16 (z2b 99)) 5 (zeros 40).

Lemma client_refused_no_effect_witness : handle_udp_packet (IoData stray) demo = Ok (Continue, demo).
Proof.
  apply (client_refused_no_effect stray demo demo_ok). right. right. left.
  assert (H : bool_decide (take SESSION_ID_LEN (drop sizeof_proto_header (take (Z.to_nat BUFFER_SIZE) stray)) = session_id (srv demo)) = false)
    by (by vm_compute).
  by apply bool_decide_eq_false in H.
Defined.
