(* ===== verification/Demo.v ===== *)
(** A concrete server: the state after start-up, and one with a client in the first
    slot, on the model of libsodium of [Crypto].  The properties of the server's
    handlers are applied to it here. *)

From stdpp Require Import list gmap.
From S2P Require Import Prelude State ReplayWindow OutQueue TaskHeap RateLimiter Metrics Crypto Wire Fragment Server Handshake.
From S2P Require Import PacketProcessor Scheduler EventLoop Pacing ServerLogic HandshakeProofs DataPath Reassembly SchedulerProofs Safety.
From S2P Require Import ThreadPool Shutdown.
Local Open Scope Z_scope.

#[local] Existing Instance toy_sodium.
#[local] Existing Instance toy_laws.

(** ** The states *)

Definition peer : sockaddr_in := {| sin_family := 2; sin_addr := 3232235777; sin_port := 4660 |}.
Definition fresh_server : world := boot 100 (replicate 64 (z2b 9)) (zeros SESSION_ID_LEN).

Definition client_base (cbr : byte) (q : aqueue) : session_t :=
  session_zero <| active := true |> <| session_id := replicate 16 (z2b 7) |> <| k_recv := replicate 32 (z2b 3) |>
    <| k_send := replicate 32 (z2b 3) |> <| send_seq := 1 |> <| client_addr := peer |> <| vpn_ip := ip_of 0 |>
    <| outq := Some q |> <| argv_MBPS := 5 |> <| argv_FRAG := 64 |> <| argv_CBR := cbr |> <| argv_PAD := ch_N |>.

Definition client (cbr : byte) (q : aqueue) : session_t :=
  match dummy_parts (client_base cbr q) with Ok s => s | Err _ => session_zero end.

(** The server with that client in slot 0. *)
Definition busy_server (cbr : byte) (q : aqueue) : world :=
  fresh_server <| sessions := client cbr q :: replicate 249 session_zero |>.

Lemma fresh_ok : world_ok fresh_server /\ shards_small fresh_server.
Proof. by apply boot_ok. Qed.

Lemma client_base_ok cbr q :
  cbr = ch_Y \/ cbr = ch_N -> slot_ok (client_base cbr q) /\ params_ok (client_base cbr q).
Proof.
  intros Hc. split.
  - destruct (session_zero_ok 0) as [[] _]. constructor; try done.
  - constructor; cbn; [by vm_compute..|done|by right].
Qed.

(** The client's queue: nothing, or one full-size packet. *)
Definition full_packet : out_data :=
  {| pkt := zeros 110; pktlen := 110; seq := 1; priority := PKT_PRIO_NORMAL |}.
Definition one_queued : aqueue := aq_push full_packet aq_empty.

Lemma dummy_ready_set s p d n :
  take 22 p = proto_bytes data_header ++ session_id s -> u16_at d 6 = Ok PKT_DUMMY ->
  dummy_ready (s <| final_pkt_dummy := p |> <| dummy_payload := d |> <| static_hdr_len := n |>).
Proof. by split. Qed.

Lemma client_fields cbr q :
  cbr = ch_Y \/ cbr = ch_N ->
  exists p d, client cbr q = client_base cbr q <| final_pkt_dummy := p |> <| dummy_payload := d |> <| static_hdr_len := 22 |> /\
    slot_ok (client cbr q) /\ params_ok (client cbr q) /\ dummy_ready (client cbr q).
Proof.
  intros Hc. destruct (client_base_ok cbr q Hc) as [Hs Hp].
  destruct (dummy_parts_ok _ Hs Hp) as (p & d & E & Hl1 & Hl2 & Hr).
  assert (Ec : client cbr q = client_base cbr q <| final_pkt_dummy := p |> <| dummy_payload := d |> <| static_hdr_len := 22 |>).
  { unfold client. by rewrite E. }
  exists p, d. split; [done|]. rewrite Ec. destruct (dummy_fields_ok _ p d 22 Hs Hp Hl1 Hl2). split; [assumption|]. split; [assumption|]. apply dummy_ready_set; apply Hr.
Qed.

Lemma live_with_dummy i s p d :
  vpn_ip s = ip_of i -> params_ok s -> queue_uniform s ->
  dummy_ready (s <| final_pkt_dummy := p |> <| dummy_payload := d |> <| static_hdr_len := 22 |>) ->
  live_ok i (s <| final_pkt_dummy := p |> <| dummy_payload := d |> <| static_hdr_len := 22 |>).
Proof. intros ? [] ? ?. by constructor. Qed.

Lemma client_live cbr q :
  cbr = ch_Y \/ cbr = ch_N -> Forall (fun x => length (pkt x) = 110%nat) (packets q) -> live_ok 0 (client cbr q).
Proof.
  intros Hc Hq. destruct (client_fields cbr q Hc) as (p & d & E & _ & _ & Hr). rewrite E in *.
  apply live_with_dummy; [reflexivity|by apply client_base_ok| |exact Hr].
  intros _ q' [= <-]. exact Hq.
Qed.
#[local] Opaque client session_zero.

Lemma busy_ok cbr q :
  cbr = ch_Y \/ cbr = ch_N -> Forall (fun x => length (pkt x) = 110%nat) (packets q) ->
  world_ok (busy_server cbr q) /\ shards_small (busy_server cbr q).
Proof.
  intros Hc Hq. destruct fresh_ok as [[Hlen Hs Hrl Hid Hsh Hg Hj] Hsm]. split; [|exact Hsm]. constructor; try done.
  - intros [|i] s Hi.
    + assert (s = client cbr q) as -> by (by injection Hi). destruct (client_fields cbr q Hc) as (_ & _ & _ & Hslot & _). split; [exact Hslot|].
      intros _. by apply client_live.
    + change (replicate 249 session_zero !! i = Some s) in Hi. apply lookup_replicate in Hi as [-> _]. apply session_zero_ok.
Qed.

(** ** The handshake *)

Definition server_eph : ephemeral := {| s_priv := replicate 32 (z2b 5); s_nonce := replicate 8 (z2b 6) |}.
Definition server_key : list byte := replicate 32 (z2b 8).

(** MSG1 asking for 5 Mbps, fragments of 64 bytes, no pacing, no padding. *)
Definition demo_msg1 : list byte :=
  proto_bytes handshake_header ++ replicate 32 (z2b 1) ++ replicate 8 (z2b 2) ++
  le_bytes 4 5 ++ le_bytes 4 64 ++ [ch_N; ch_N].

Lemma demo_admissible : admissible server_eph 5 demo_msg1 peer server_key fresh_server.
Proof.
  split; [by eexists|]. split; [by vm_compute|]. split; [by vm_compute|]. split.
  { exists 0%nat, session_zero. split; [reflexivity|apply session_zero_idle]. }
  split; [by eexists; vm_compute|]. done.
Qed.

Lemma handle_msg1_correct_witness :
  exists r w', handle_msg1 server_eph 5 demo_msg1 peer server_key fresh_server = Ok (r, w') /\ world_ok w' /\ r = 0.
Proof.
  destruct (handle_msg1_correct server_eph 5 demo_msg1 peer server_key fresh_server (proj1 fresh_ok) (proj2 fresh_ok))
    as (r & w' & E & Hw & _ & Hadm & _).
  exists r, w'. split; [exact E|]. split; [exact Hw|]. apply Hadm, demo_admissible.
Defined.

Lemma client_active cbr q : cbr = ch_Y \/ cbr = ch_N -> active (client cbr q) = true.
Proof. intros Hc. destruct (client_fields cbr q Hc) as (p & d & -> & _). done. Qed.

Lemma known_peer : first_index (fun s => same_peer s peer) (sessions (busy_server ch_N aq_empty)) = Some 0%nat.
Proof.
  cbn [busy_server sessions set eta_of eta_world first_index].
  assert (same_peer (client ch_N aq_empty) peer = true) as ->; [|done].
  destruct (client_fields ch_N aq_empty) as (p & d & -> & _); [by right|]. done.
Qed.

Lemma handle_rehandshake_correct_witness :
  exists r w' k1 k2 sid, handle_rehandshake_msg1 server_eph server_eph 5 demo_msg1 peer server_key (busy_server ch_N aq_empty) = Ok (r, w') /\
    world_ok w' /\ r = 0 /\
    session_secrets server_eph server_key (client_pub demo_msg1) (client_nonce demo_msg1) = Some (k1, k2, sid) /\
    exists s', sessions w' = <[0%nat := s']> (sessions (busy_server ch_N aq_empty)) /\
      rotated true (client ch_N aq_empty) s' k1 k2 sid /\ answered server_eph 5 demo_msg1 peer (client ch_N aq_empty) (busy_server ch_N aq_empty) w'.
Proof.
  destruct (busy_ok ch_N aq_empty (or_intror eq_refl) (Forall_nil_2 _)) as [Hw Hsm].
  destruct (handle_rehandshake_correct server_eph server_eph 5 demo_msg1 peer server_key _ Hw Hsm)
    as (r & w' & E & Hw' & _ & _ & Hrot).
  destruct (session_secrets server_eph server_key (client_pub demo_msg1) (client_nonce demo_msg1))
    as [[[k1 k2] sid]|] eqn:Hsec; [|vm_compute in Hsec; discriminate].
  destruct (Hrot 0%nat k1 k2 sid ltac:(by vm_compute) known_peer eq_refl) as (-> & s & s' & Hs & Hss & Hr & Hans).
  assert (s = client ch_N aq_empty) as -> by (by injection Hs).
  exists 0, w', k1, k2, sid. split; [exact E|]. split; [exact Hw'|]. split; [reflexivity|]. split; [reflexivity|].
  exists s'. split; [exact Hss|]. split; [exact Hr|exact (Hans eq_refl)].
Defined.

(** ** The data path *)

(** A keepalive from the client, with sequence number 5. *)
Definition keepalive_plain : list byte :=
  tunnel_bytes {| packet_id := 0; fragment_offset := 0; total_ip_len := 0; flags := PKT_CTRL_KEEPALIVE;
                  th_session_id := zeros SESSION_ID_LEN |}.
Definition keepalive_packet : list byte :=
  data_packet (replicate 16 (z2b 7)) 5
    (default [] (aead_encrypt (replicate 32 (z2b 3)) (replicate 16 (z2b 7)) 5 keepalive_plain)).

Lemma client_keys cbr q :
  cbr = ch_Y \/ cbr = ch_N ->
  k_recv (client cbr q) = replicate 32 (z2b 3) /\ k_send (client cbr q) = replicate 32 (z2b 3) /\
  session_id (client cbr q) = replicate 16 (z2b 7) /\ rw (client cbr q) = window_zero /\
  vpn_ip (client cbr q) = ip_of 0 /\ argv_CBR (client cbr q) = cbr /\ outq (client cbr q) = Some q /\
  g_reassembly_table (client cbr q) = replicate MAX_REASSEMBLY_ENTRIES entry_zero.
Proof. intros Hc. destruct (client_fields cbr q Hc) as (p & d & -> & _). done. Qed.

Lemma client_peer cbr q :
  cbr = ch_Y \/ cbr = ch_N ->
  s_udp_sock (client cbr q) = 0 /\ client_addr (client cbr q) = peer /\ send_seq (client cbr q) = 1.
Proof. intros Hc. destruct (client_fields cbr q Hc) as (p & d & -> & _). done. Qed.

Lemma busy_trace cbr q : trace (busy_server cbr q) = [].
Proof. done. Qed.

(** The only session in use is the client's. *)
Lemma only_client cbr q i s :
  sessions (busy_server cbr q) !! i = Some s -> active s = true -> s = client cbr q.
Proof.
  intros Hi Ha. destruct i as [|i]; [by injection Hi|].
  change (replicate 249 session_zero !! i = Some s) in Hi. apply lookup_replicate in Hi as [-> _].
  by rewrite session_zero_idle in Ha.
Qed.

Lemma keepalive_honest : honest_packet (busy_server ch_N aq_empty) keepalive_packet.
Proof.
  intros i s plain Hi Ha Hd. apply (only_client ch_N aq_empty) in Hi as ->; [|done].
  destruct (client_keys ch_N aq_empty) as (Hk & _ & Hsid & _); [by right|]. rewrite Hk, Hsid in Hd.
  assert (plain = keepalive_plain) as ->.
  { assert (Some plain = Some keepalive_plain) as [= ->]; [|done]. rewrite <- Hd. by vm_compute. }
  split; [by vm_compute|]. intros total [= <-]. by vm_compute.
Qed.

Lemma handle_inbound_safe_witness :
  exists w', handle_inbound_udp server_eph server_eph 5 keepalive_packet peer server_key (busy_server ch_N aq_empty) = Ok (tt, w') /\
    world_ok w'.
Proof.
  destruct (busy_ok ch_N aq_empty (or_intror eq_refl) (Forall_nil_2 _)) as [Hw Hsm].
  apply (handle_inbound_safe server_eph server_eph 5 keepalive_packet peer server_key _ Hw Hsm).
  - right. apply Nat.leb_le. by vm_compute.
  - apply keepalive_honest.
Defined.

Lemma session_by_vpnip_correct_witness :
  exists o, session_by_vpnip (ip_of 0) (busy_server ch_N aq_empty) = Ok (o, busy_server ch_N aq_empty) /\ o = Some 0%nat.
Proof.
  destruct (busy_ok ch_N aq_empty (or_intror eq_refl) (Forall_nil_2 _)) as [Hw _].
  destruct (session_by_vpnip_correct (busy_server ch_N aq_empty) (ip_of 0) Hw) as (o & E & Hfound & _).
  exists o. split; [exact E|]. eapply (Hfound 0%nat (client ch_N aq_empty)).
  - reflexivity.
  - apply client_active. by right.
  - reflexivity.
Defined.

(** A 100-byte packet for the client: three fragments of at most 40 bytes. *)
Definition demo_ip : list byte :=
  replicate 16 (z2b 0x45) ++ ip_of 0 ++ replicate 80 (z2b 0x11).

Lemma outbound_emits_fragments_witness :
  exists id w', handle_outbound_tun_buf demo_ip (busy_server ch_N aq_empty) = Ok (tt, w') /\ 0 < id < 2 ^ 16 /\
    trace w' = UdpSend 0 peer <$> seal_all (client ch_N aq_empty) 1 (fragments (client ch_N aq_empty) id demo_ip).
Proof.
  destruct (busy_ok ch_N aq_empty (or_intror eq_refl) (Forall_nil_2 _)) as [Hw _].
  destruct (outbound_emits_fragments demo_ip 0 (busy_server ch_N aq_empty) (client ch_N aq_empty) Hw)
    as (id & Hid & E); [reflexivity|apply client_active; by right| |reflexivity..|apply Nat.leb_le; by vm_compute|by vm_compute|].
  { apply (client_keys ch_N aq_empty). by right. }
  exists id. eexists. split; [exact E|]. split; [exact Hid|]. cbn [trace set]. rewrite busy_trace, app_nil_l.
  destruct (client_peer ch_N aq_empty (or_intror eq_refl)) as [-> [-> ->]]. reflexivity.
Defined.

Lemma client_linked :
  linked (replicate 32 (z2b 3)) (replicate 16 (z2b 7)) (client ch_N aq_empty) 0 (busy_server ch_N aq_empty).
Proof.
  destruct (client_keys ch_N aq_empty) as (Hkr & Hks & Hsid & _); [by right|].
  assert (Ha : active (client ch_N aq_empty) = true) by (apply client_active; by right).
  split; [reflexivity|exact Ha|exact Hkr|reflexivity|exact Hsid|reflexivity|].
  change (sessions (busy_server ch_N aq_empty)) with (client ch_N aq_empty :: replicate 249 session_zero).
  cbn [scan_id]. rewrite Ha, Hsid. cbn [mbind outcome_bind]. by rewrite bool_decide_true.
Qed.

(** The limiter after the three packets. *)
Definition limited_demo : rate_limiter_t := default (rl fresh_server) (lets_through 3 100 (sin_addr peer) (rl fresh_server)).

Lemma reassembly_roundtrip_witness :
  exists w', run_all (fun buf => handle_inbound_udp server_eph server_eph 5 buf peer server_key)
      (seal_each (replicate 32 (z2b 3)) (replicate 16 (z2b 7)) 1 (pieces (zeros 16) 40 0 7 demo_ip))
      (busy_server ch_N aq_empty) = Ok (tt, w') /\
    trace w' = [TunWrite demo_ip].
Proof.
  destruct (client_keys ch_N aq_empty) as (_ & _ & _ & Hrw & _ & _ & _ & Htbl); [by right|].
  destruct (reassembly_roundtrip server_eph server_eph 5 peer server_key 0 (busy_server ch_N aq_empty)
    (client ch_N aq_empty) (replicate 32 (z2b 3)) (replicate 16 (z2b 7)) 1 ∅ (zeros 16) 40 0 7 demo_ip limited_demo)
    as (tbl & r & E).
  - apply client_linked.
  - reflexivity.
  - by vm_compute.
  - rewrite Hrw. apply window_zero_rep.
  - rewrite Hrw. reflexivity.
  - assert (length demo_ip = 100%nat) as Hl by (by vm_compute). rewrite Hl. lia.
  - lia.
  - lia.
  - reflexivity.
  - split; reflexivity.
  - split; [apply Nat.ltb_lt|apply Nat.leb_le]; by vm_compute.
  - rewrite Htbl. intros x Hx Ha. apply elem_of_replicate in Hx as [-> _]. discriminate.
  - rewrite Htbl. exists entry_zero. split; [by apply list_elem_of_here|reflexivity].
  - eexists. split; [exact E|]. unfold delivered. cbn [trace set]. by rewrite busy_trace.
Defined.

(** ** The scheduler *)

Definition client_id : list byte := replicate 16 (z2b 7).

Lemma client_found cbr q :
  cbr = ch_Y \/ cbr = ch_N -> scan_id (Ok client_id) (sessions (busy_server cbr q)) = Ok (Some 0%nat).
Proof.
  intros Hc. change (sessions (busy_server cbr q)) with (client cbr q :: replicate 249 session_zero).
  cbn [scan_id]. rewrite (client_active cbr q Hc). destruct (client_keys cbr q Hc) as (_ & _ & -> & _).
  cbn [mbind outcome_bind]. by rewrite bool_decide_true.
Qed.

Lemma one_queued_full : Forall (fun x => length (pkt x) = 110%nat) (packets one_queued).
Proof. repeat constructor. Qed.

Lemma cbr_slot_uniform_witness :
  (exists r w' data, execute_send client_id (busy_server ch_Y one_queued) = Ok (r, w') /\
     trace w' = [UdpSend 0 peer data] /\ data = pkt full_packet) /\
  (exists r w' data, execute_send client_id (busy_server ch_Y aq_empty) = Ok (r, w') /\
     trace w' = [UdpSend 0 peer data] /\ length data = wire_size (client ch_Y aq_empty)).
Proof.
  split.
  - destruct (busy_ok ch_Y one_queued (or_introl eq_refl) one_queued_full) as [Hw _].
    destruct (client_keys ch_Y one_queued (or_introl eq_refl)) as (_ & _ & _ & _ & _ & Hc & Hq & _).
    destruct (cbr_slot_uniform client_id 0 (busy_server ch_Y one_queued) (client ch_Y one_queued) one_queued Hw
      (client_found ch_Y one_queued (or_introl eq_refl)) eq_refl Hc Hq eq_refl) as (r & w' & data & E & _ & Ht & _ & Hd).
    exists r, w', data. split; [exact E|]. rewrite Ht, busy_trace.
    destruct (client_peer ch_Y one_queued (or_introl eq_refl)) as [-> [-> _]]. split; [reflexivity|apply Hd].
  - destruct (busy_ok ch_Y aq_empty (or_introl eq_refl) (Forall_nil_2 _)) as [Hw _].
    destruct (client_keys ch_Y aq_empty (or_introl eq_refl)) as (_ & _ & _ & _ & _ & Hc & Hq & _).
    destruct (cbr_slot_uniform client_id 0 (busy_server ch_Y aq_empty) (client ch_Y aq_empty) aq_empty Hw
      (client_found ch_Y aq_empty (or_introl eq_refl)) eq_refl Hc Hq eq_refl) as (r & w' & data & E & _ & Ht & Hl & _).
    exists r, w', data. split; [exact E|]. rewrite Ht, busy_trace.
    destruct (client_peer ch_Y aq_empty (or_introl eq_refl)) as [-> [-> _]]. split; [reflexivity|exact Hl].
Defined.

(** A shard with the client's task, due at 2 seconds. *)
Definition client_task : scheduler_task_t :=
  {| next_run := {| tv_sec := 2; tv_nsec := 0 |}; TaskHeap.session_id := client_id |}.
Definition shard3 : priority_queue_t := {| nodes := [client_task]; TaskHeap.size := 1; TaskHeap.capacity := 1024 |}.
Definition with_shards (m : timespec) (sh : list (option priority_queue_t)) (w : world) : world :=
  w <| mono := m |> <| g_shards := sh |>.
Definition due_shards : list (option priority_queue_t) :=
  let idle := Some {| nodes := []; TaskHeap.size := 0; TaskHeap.capacity := 1024 |} in [idle; idle; idle; Some shard3].
Definition due_server : world := with_shards {| tv_sec := 3; tv_nsec := 0 |} due_shards (busy_server ch_Y aq_empty).

Lemma with_shards_ok m sh w :
  world_ok w -> length sh = 4%nat -> Forall (fun o => exists pq, o = Some pq /\ pq_wf pq) sh ->
  world_ok (with_shards m sh w).
Proof. intros [] Hl Hsh. by constructor. Qed.

Lemma shard3_wf : pq_wf shard3.
Proof.
  constructor; cbn; [lia|by vm_compute|by vm_compute|].
  intros [|j] x y Hj _ _ Hy; [lia|]. destruct j; discriminate.
Qed.

Lemma due_ok : world_ok due_server /\ shards_small due_server /\ queues_present due_server.
Proof.
  destruct (busy_ok ch_Y aq_empty (or_introl eq_refl) (Forall_nil_2 _)) as [Hw _].
  assert (Hidle : pq_wf {| nodes := []; TaskHeap.size := 0; TaskHeap.capacity := 1024 |}) by (by eapply (pq_create_wf 1024)).
  split; [apply with_shards_ok; [exact Hw|reflexivity|]|split].
  - repeat constructor; eexists; (split; [reflexivity|]); [exact Hidle..|exact shard3_wf].
  - repeat constructor; intros ? [= <-]; by vm_compute.
  - intros i s Hi Ha. apply (only_client ch_Y aq_empty) in Hi as ->; [|done].
    exists aq_empty. apply client_keys. by left.
Qed.

Lemma scheduler_turn_correct_witness :
  exists r w', scheduler_turn 3 due_server = Ok (r, w') /\ world_ok w'.
Proof.
  destruct due_ok as (Hw & Hsm & Hq).
  destruct (scheduler_turn_correct 3 due_server Hw Hsm Hq ltac:(lia)) as (r & w' & E & Hw' & _).
  exists r, w'. split; [exact E|exact Hw'].
Defined.

(** A handshake reaches the server just started, with every allocation failing. *)
Definition bad_day : env :=
  {| e_now := 105; e_mono := {| tv_sec := 5; tv_nsec := 0 |}; e_mallocs := replicate 10 false;
     e_sends := []; e_junk := zeros SESSION_ID_LEN |}.
Definition demo_input : input := Datagram server_eph server_eph 5 demo_msg1 peer server_key.

Lemma no_client_honest buf : honest_packet (enter bad_day fresh_server) buf.
Proof.
  intros i s plain Hi Ha. change (replicate MAX_CLIENTS session_zero !! i = Some s) in Hi.
  apply lookup_replicate in Hi as [-> _]. by rewrite session_zero_idle in Ha.
Qed.

Lemma server_safe_witness :
  exists w', serve demo_input (enter bad_day fresh_server) = Ok (tt, w') /\ step fresh_server w'.
Proof.
  destruct (server_safe 100 (replicate 64 (z2b 9)) (zeros SESSION_ID_LEN) fresh_server eq_refl (rtc_refl _ _)) as [_ Hs].
  apply (Hs bad_day demo_input).
  - split; [reflexivity|apply fresh_ok].
  - split; [right; apply Nat.leb_le; by vm_compute|apply no_client_honest].
Defined.

Lemma flush_sends_all_witness :
  exists w', execute_send client_id (busy_server ch_N one_queued) = Ok (true, w') /\
    trace w' = [UdpSend 0 peer (pkt full_packet)].
Proof.
  destruct (busy_ok ch_N one_queued (or_intror eq_refl) one_queued_full) as [Hw _].
  destruct (client_keys ch_N one_queued (or_intror eq_refl)) as (_ & _ & _ & _ & _ & Hc & Hq & _).
  destruct (flush_sends_all client_id 0 (busy_server ch_N one_queued) (client ch_N one_queued) one_queued Hw
    (client_found ch_N one_queued (or_intror eq_refl)) eq_refl Hc Hq ltac:(discriminate) eq_refl) as (w' & E & _ & Ht & _).
  exists w'. split; [exact E|]. rewrite Ht, busy_trace. unfold sends_of.
  destruct (client_peer ch_N one_queued (or_intror eq_refl)) as [-> [-> _]]. reflexivity.
Defined.

(** The client has been silent since time 0; the clock says 100. *)
Lemma expiry_exact_witness :
  exists w', cleanup_expired_sessions 5 (busy_server ch_N aq_empty) = Ok (tt, w') /\
    option_map active (sessions w' !! 0%nat) = Some false.
Proof.
  destruct (busy_ok ch_N aq_empty (or_intror eq_refl) (Forall_nil_2 _)) as [Hw _].
  destruct (expiry_exact 5 (busy_server ch_N aq_empty) Hw) as (w' & E & _ & Hall).
  exists w'. split; [exact E|].
  destruct (Forall2_lookup_l _ _ _ 0 (client ch_N aq_empty) Hall eq_refl) as (s' & -> & Hexp).
  unfold expired in Hexp. assert (idle (now (busy_server ch_N aq_empty)) (client ch_N aq_empty) = true) as Hid.
  { destruct (client_fields ch_N aq_empty (or_intror eq_refl)) as (p & d & -> & _). reflexivity. }
  rewrite Hid in Hexp. destruct Hexp as [Ha _]. cbn [option_map]. by rewrite Ha.
Defined.

(** ** Routing to workers and shutdown *)

Lemma packets_keep_worker_witness :
  (exists b, client_id !! 0%nat = Some b /\ dispatch (data_packet client_id 5 []) = Ok (Some (b2z b))) /\
  (forall r w', handle_outbound_tun (Some demo_ip) 5 (busy_server ch_N aq_empty) = Ok (r, w') ->
     match r.2 with None => True | Some (key, job) => key = u8 2 /\ job = JOB_TYPE_OUTBOUND_CRYPTO demo_ip 5 end).
Proof.
  destruct packets_keep_worker as [Hin Hout]. split.
  - apply Hin; [reflexivity|by split].
  - intros r w' E. destruct (client_keys ch_N aq_empty (or_intror eq_refl)) as (_ & _ & _ & _ & Hip & _).
    apply (Hout (busy_server ch_N aq_empty) 0%nat (client ch_N aq_empty) demo_ip 5 r w'); [reflexivity|exact Hip| |exact E].
    rewrite Hip. by vm_compute.
Defined.

Lemma idle_filter n : List.filter active (replicate n session_zero) = [].
Proof. induction n as [|n IH]; [done|]. cbn [replicate List.filter]. by rewrite session_zero_idle. Qed.

Lemma filter_active s l : active s = true -> List.filter active (s :: l) = s :: List.filter active l.
Proof. intros E. cbn [List.filter]. by rewrite E. Qed.

Lemma busy_filter : List.filter active (sessions (busy_server ch_N aq_empty)) = [client ch_N aq_empty].
Proof.
  change (sessions (busy_server ch_N aq_empty)) with (client ch_N aq_empty :: replicate 249 session_zero).
  rewrite filter_active by (apply client_active; by right). rewrite idle_filter. reflexivity.
Qed.

Lemma drain_notifies_all_witness :
  exists n g' w' evs, graceful_shutdown_drain_sessions 5 (graceful_shutdown_init 10) (busy_server ch_N aq_empty) = Ok ((n, g'), w') /\
    trace w' = evs /\ length evs = 1%nat /\ n = 1.
Proof.
  destruct (busy_ok ch_N aq_empty (or_intror eq_refl) (Forall_nil_2 _)) as [Hw _].
  destruct (drain_notifies_all 5 (graceful_shutdown_init 10) _ Hw eq_refl) as (n & g' & w' & evs & E & _ & Ht & Hf & Hn & _).
  pose proof busy_filter as Hlive.
  unfold live_count in Hn. rewrite Hlive in Hf, Hn. exists n, g', w', evs. split; [exact E|].
  rewrite Ht, busy_trace. split; [reflexivity|]. split; [by rewrite <- (Forall2_length _ _ _ Hf)|exact Hn].
Defined.

Lemma cleanup_closes_all_witness :
  exists g' w', graceful_shutdown_cleanup 5 6 (graceful_shutdown_init 10) (busy_server ch_N aq_empty) = Ok (([6; 5], g'), w') /\
    state g' = SHUTDOWN_COMPLETE /\ Forall (fun s => active s = false) (sessions w').
Proof.
  destruct (busy_ok ch_N aq_empty (or_intror eq_refl) (Forall_nil_2 _)) as [Hw _].
  destruct (cleanup_closes_all 5 6 (graceful_shutdown_init 10) _ Hw) as (g' & w' & E & _ & Hg & Hall); [done..|].
  exists g', w'. split; [exact E|]. split; [exact Hg|exact Hall].
Defined.
