(* ===== verification/ServerDemo.v ===== *)
(** A concrete launch of the server and a concrete end of it: the properties of the
    server's program, and of what it must not accept, are applied to them here. *)

From Stdlib Require Import Strings.String.
From stdpp Require Import list gmap relations.
From S2P Require Import Prelude State LinkedQueue OutQueue TaskHeap RateLimiter Metrics Crypto Wire Text Fragment.
From S2P Require Import Server Handshake PacketProcessor Scheduler ThreadPool EventLoop ServerLogic HandshakeProofs DataPath.
From S2P Require Import Refused SchedulerProofs Safety ServerMain ServerRun ServerStart Demo.
From S2P Require ServerKey Shutdown.
Local Open Scope Z_scope.

#[local] Existing Instance toy_sodium.
#[local] Existing Instance toy_laws.

(** ** The launch *)

Definition inet_aton_server (ip : list byte) : option Z :=
  if bool_decide (ip = bytes "192.168.1.1") then Some 3232235777 else None.
Definition server_argv : list (list byte) := [bytes "chamlon_server"; bytes "192.168.1.1"; bytes "13330"].

(** Every call succeeds, on a machine with four processors. *)
Definition good_replies : replies :=
  {| sodium_init := 0; limiter_alloc := true; mutex_init := true; default_route := Some (bytes "eth0" ++ [ch_newline]);
     tun_opened := Some 6; tun_named := Some (bytes "tun0"); key_pair := ServerKey.draw; socket := 5; reuse_addr := true;
     bind := true; cpus := 4; pool_allocs := (true, true, true); pool_threads := replicate 4 true; epoll_create := 7;
     add_udp := true; add_tun := true; shard_starts := replicate 4 (true, true, true);
     time_zone _ := bytes "1970-01-01 00:01:40" |}.
Definition first_host : host := {| keys := ServerKey.first_start; statuses := []; log := []; printed := [] |}.

Abbreviation launch := (server_main inet_aton_server server_argv good_replies 100 (zeros SESSION_ID_LEN) first_host).

Lemma launch_enters : exists p h, launch = Ok (inr p, h).
Proof.
  assert (H : match launch with Ok (inr _, _) => true | _ => false end = true) by (by vm_compute).
  destruct launch as [[[rc|p] h]|]; [done| |done]. by exists p, h.
Qed.

Definition calm : env :=
  {| e_now := 105; e_mono := {| tv_sec := 5; tv_nsec := 0 |}; e_mallocs := []; e_sends := []; e_junk := zeros SESSION_ID_LEN |}.

(** The first iteration: a datagram that is too short. *)
Definition first_wait : wait_result := Ready [{| fd := 5; datagrams := [(bytes "abc", peer)]; packets := [] |}].

Lemma program_safe_witness :
  exists p h p', launch = Ok (inr p, h) /\ program_ok p /\ act calm (Main first_wait) p = Ok (tt, p') /\ program_step p p'.
Proof.
  destruct launch_enters as (p & h & E). exists p, h.
  destruct (program_safe inet_aton_server server_argv good_replies 100 (zeros SESSION_ID_LEN) first_host p h p E
    eq_refl eq_refl (rtc_refl _ _)) as [Hok Hstep].
  destruct (start_runs inet_aton_server server_argv good_replies 100 (zeros SESSION_ID_LEN) first_host) as (res & h1 & E1 & Hres).
  rewrite E in E1. injection E1 as <- <-. destruct Hres as (_ & Hl & Hsm). destruct (st_loop _ _ _ _ _ _ Hl) as (Hph & _).
  destruct (Hstep calm (Main first_wait)) as (p' & Ea & Hs).
  - split; [reflexivity|]. by apply Hsm.
  - split; [by rewrite Hph|]. split; [|by rewrite Hph].
    apply Forall_singleton, Forall_singleton. left. apply Nat.ltb_lt. by vm_compute.
  - exists p'. split; [exact E|]. split; [exact Hok|]. split; [exact Ea|exact Hs].
Defined.

(** ** A datagram through the pipeline *)

(** A program over server [w], in phase [ph]. *)
Definition program_of (ph : phase_t) (w : world) (h : job_heap) (pool : thread_pool_t) (ex : list nat) : program :=
  {| server := w; job_nodes := h; g_thread_pool := Some pool; g_shutdown := Shutdown.graceful_shutdown_init 10;
     g_server_sk := server_key; bind_addr := peer; udp_sock := 5; tun_fd := 6; epoll_fd := 7; last_cleanup := 100;
     last_metric_report := 100; phase := ph; exited := ex;
     local_time _ := bytes "1970-01-01 00:01:40" |}.

Lemma program_of_pool ph w h pool qs lss :
  pool_rep h pool qs lss -> 0 < num_threads pool -> Forall (Forall job_ok) qs -> pool_ok (program_of ph w h pool []) pool qs.
Proof. intros Hrep Hn Hj. constructor; [done|by exists lss|done|done|]. intros k Hk. by apply elem_of_nil in Hk. Qed.

Lemma two_workers_rep : pool_rep ∅ two_workers [[]; []] [[]; []].
Proof. apply (create_rep 2 true true true [true; true] two_workers). reflexivity. Qed.

Lemma idle_jobs : Forall (Forall job_ok) [[]; []].
Proof. by repeat constructor. Qed.

Lemma demo_msg1_honest w : sessions w = replicate MAX_CLIENTS session_zero -> honest_packet w demo_msg1.
Proof.
  intros Hw i s plain Hi Ha. rewrite Hw in Hi. apply lookup_replicate in Hi as [-> _]. by rewrite session_zero_idle in Ha.
Qed.

Lemma pipeline_equivalent_witness :
  exists p1 p2 w', udp_burst MAX_BURST [(demo_msg1, peer)] (program_of Looping fresh_server ∅ two_workers []) = Ok (tt, p1) /\
    worker_step 0 server_eph server_eph p1 = Ok (tt, p2) /\
    handle_inbound_udp server_eph server_eph 5 demo_msg1 peer server_key fresh_server = Ok (tt, w') /\ server p2 = w'.
Proof.
  assert (Hd : take (Z.to_nat (BUFFER_SIZE - 1)) demo_msg1 = demo_msg1) by (apply take_ge, Nat.leb_le; by vm_compute).
  destruct (handle_inbound_runs server_eph server_eph 5 demo_msg1 peer server_key fresh_server) as ([] & w' & E & _).
  - apply fresh_ok.
  - apply fresh_ok.
  - right. apply Nat.leb_le. by vm_compute.
  - by apply demo_msg1_honest.
  - destruct (pipeline_equivalent (program_of Looping fresh_server ∅ two_workers []) two_workers [[]; []] demo_msg1 peer server_eph server_eph w')
      as (p1 & p2 & E1 & _ & E2 & Hs).
    + eapply program_of_pool; [exact two_workers_rep|reflexivity|exact idle_jobs].
    + by repeat constructor.
    + reflexivity.
    + reflexivity.
    + reflexivity.
    + rewrite Hd. exact E.
    + exists p1, p2, w'. split; [exact E1|]. split; [|split; [exact E|exact Hs]].
      rewrite Hd in E2. assert (worker_for two_workers demo_msg1 = 0%nat) as Hk by (by vm_compute).
      rewrite Hk in E2. exact E2.
Defined.

(** ** The end *)

(** A job pending for the second worker when main stops the pool. *)
Definition one_job : outcome (Z * job_heap * option thread_pool_t) :=
  thread_pool_submit_sharded true ∅ (Some two_workers) (Some (outbound 1)) 7.
Definition one_job_heap : job_heap := match one_job with Ok (_, h, _) => h | Err _ => ∅ end.
Definition one_job_pool : thread_pool_t :=
  match one_job with Ok (_, _, Some pool) => pool | _ => two_workers end <| shutdown := true |>.
Definition drained_pool : thread_pool_t := two_workers <| shutdown := true |>.

Lemma one_job_rep : exists lss, pool_rep one_job_heap one_job_pool [[]; [outbound 1]] lss.
Proof.
  destruct (submit_ok true ∅ two_workers _ _ (outbound 1) 7 two_workers_rep) as (xs & rc & h & pool & Hx & E & _ & Hres);
    [done..|]. assert (xs = []) as -> by (by injection Hx). destruct Hres as (_ & lss & Hrep). exists lss.
  unfold one_job_heap, one_job_pool, one_job. rewrite E. by apply (pool_rep_shutdown h pool [[]; [outbound 1]] lss true).
Qed.

Section ending.
Variable w : world.
Hypotheses (Hw : world_ok w) (Hsm : shards_small w).

Definition stopping : program := program_of Joining w one_job_heap one_job_pool [].
Definition left_by (ex : list nat) (w : world) : program := program_of Joining w ∅ drained_pool ex.

(** The second worker runs its job and leaves, then the first leaves. *)
Definition last_acts : list (env * action) :=
  [(calm, Worker 1 server_eph server_eph); (calm, Worker 1 server_eph server_eph); (calm, Worker 0 server_eph server_eph)].

Lemma worker_runs_job : act calm (Worker 1 server_eph server_eph) stopping = Ok (tt, left_by [] (enter calm w)).
Proof. by vm_compute. Qed.
Lemma worker_leaves v k ex w0 :
  (k < 2)%nat -> (k ∉ ex) -> act v (Worker k server_eph server_eph) (left_by ex w0) = Ok (tt, left_by (k :: ex) (enter v w0)).
Proof.
  intros Hk Hin. unfold act, worker_step, mbind, ST_bind, in_server, modify, state. cbn -[worker_take].
  rewrite bool_decide_false by done. by destruct k as [|[|k]]; [| |lia].
Qed.

(** A worker with nothing to take leaves. *)
Lemma run_leaves k ex w0 acts js p :
  (k < 2)%nat -> (k ∉ ex) -> shards_small w0 -> run acts js (left_by (k :: ex) (enter calm w0)) p ->
  run ((calm, Worker k server_eph server_eph) :: acts) js (left_by ex w0) p.
Proof.
  intros Hk Hin Hs Hr. assert (E : next_job (left_by ex w0) k = None) by (by destruct k as [|[|k]]; [vm_compute|vm_compute|lia]).
  assert (Ht : js = took (left_by ex w0) (Worker k server_eph server_eph) ++ js) by (cbn [took]; by rewrite E).
  rewrite Ht. econstructor; [by split| |by apply worker_leaves|exact Hr]. split; [done|]. split; [cbn; lia|]. by rewrite E.
Qed.

Lemma last_run : run last_acts [(1%nat, outbound 1)] stopping (left_by [0%nat; 1%nat] (enter calm (enter calm (enter calm w)))).
Proof.
  change [(1%nat, outbound 1)] with (took stopping (Worker 1 server_eph server_eph) ++ []).
  econstructor; [by split| |exact worker_runs_job|].
  - split; [done|]. split; [reflexivity|]. intros job Hj. assert (next_job stopping 1 = Some (outbound 1)) as E by (by vm_compute).
    rewrite E in Hj. by injection Hj as <-.
  - apply run_leaves; [lia|by intros ?%elem_of_nil|exact Hsm|].
    apply run_leaves; [lia|by intros ?%list_elem_of_singleton|exact Hsm|constructor].
Qed.

Lemma stopping_ok : program_ok stopping /\ pool_ok stopping one_job_pool [[]; [outbound 1]].
Proof.
  destruct one_job_rep as [lss Hrep].
  assert (Hp : pool_ok stopping one_job_pool [[]; [outbound 1]]).
  { eapply program_of_pool; [exact Hrep|by vm_compute|]. repeat constructor; apply Nat.leb_le; by vm_compute. }
  split; [|exact Hp]. constructor; [by intros _|]. cbn [phase stopping program_of]. rewrite bool_decide_false, bool_decide_true by done.
  exists one_job_pool, [[]; [outbound 1]]. by split.
Qed.

End ending.

(** With no client the program ends; with the client of slot 0 its end is undefined. *)
Lemma shutdown_completes_witness :
  (exists p p' p2, run last_acts [(1%nat, outbound 1)] p p' /\ phase p = Joining /\
     act calm (Main (WaitError EINTR)) p' = Ok (tt, p2) /\ ended (entered calm p') p2) /\
  (exists p p', run last_acts [(1%nat, outbound 1)] p p' /\ phase p = Joining /\
     act calm (Main (WaitError EINTR)) p' = Err DestroyedMutex).
Proof.
  assert (Hturns : forall k xs, [[]; [outbound 1]] !! k = Some xs -> (length xs < turns_of k last_acts)%nat).
  { intros [|[|k]] xs Hk; [injection Hk as <-|injection Hk as <-|discriminate Hk]; apply Nat.ltb_lt; by vm_compute. }
  split.
  - destruct fresh_ok as [Hw Hsm]. destruct (stopping_ok fresh_server Hw) as [Hok Hpool].
    pose proof (last_run fresh_server Hsm) as Hrun.
    destruct (shutdown_completes last_acts [(1%nat, outbound 1)] _ _ _ _ Hok eq_refl Hpool Hrun Hturns) as [_ Hend].
    destruct Hend as [(q & [_ _ _ _ [_ Hfin]])|[_ Hend]]; [discriminate Hfin|].
    destruct (Hend calm (WaitError EINTR)) as [Hidle _]; [by split|].
    destruct Hidle as (p2 & E & He); [apply Forall_replicate, session_zero_idle|].
    do 3 eexists. split; [exact Hrun|]. split; [reflexivity|]. split; [exact E|exact He].
  - destruct (busy_ok ch_N aq_empty (or_intror eq_refl) (Forall_nil_2 _)) as [Hw Hsm]. destruct (stopping_ok _ Hw) as [Hok Hpool].
    pose proof (last_run _ Hsm) as Hrun.
    destruct (shutdown_completes last_acts [(1%nat, outbound 1)] _ _ _ _ Hok eq_refl Hpool Hrun Hturns) as [_ Hend].
    destruct Hend as [(q & [_ _ _ _ [_ Hfin]])|[_ Hend]]; [discriminate Hfin|].
    destruct (Hend calm (WaitError EINTR)) as [_ Hbusy]; [by split|].
    do 2 eexists. split; [exact Hrun|]. split; [reflexivity|]. apply Hbusy. intros Hno.
    pose proof (proj1 (Forall_lookup _ _) Hno 0%nat (client ch_N aq_empty) eq_refl) as Ha. cbv beta in Ha.
    rewrite client_active in Ha by (by right). discriminate Ha.
Defined.

(** ** A forged packet *)

(** It names the client's session, but nobody sealed it. *)
Definition forged : list byte := data_packet client_id 9 (zeros 40).

Lemma refused_no_effect_witness :
  exists w', handle_inbound_udp server_eph server_eph 5 forged peer server_key (busy_server ch_N aq_empty) = Ok (tt, w') /\
    untouched forged (busy_server ch_N aq_empty) w'.
Proof.
  destruct (busy_ok ch_N aq_empty (or_intror eq_refl) (Forall_nil_2 _)) as [Hw _].
  destruct (refused_no_effect server_eph server_eph 5 forged peer server_key (busy_server ch_N aq_empty) Hw) as (w' & E & _ & Hu).
  - right. right. exists data_header. split; [by vm_compute|]. right. right. right. split; [discriminate|]. right.
    split; [apply Nat.leb_le; by vm_compute|]. intros i s Hi Ha _. right. apply (only_client ch_N aq_empty) in Hi as ->; [|exact Ha].
    destruct (client_keys ch_N aq_empty) as (-> & _ & -> & _); [by right|]. by vm_compute.
  - exists w'. split; [exact E|exact Hu].
Defined.
