(* ===== verification/NumbersDemo.v ===== *)
(** A concrete run of the server: it is launched, a client connects, a packet from the
    tunnel device goes out in three fragments, and a keepalive of the client arrives
    twice.  The properties of NumbersRun and Once are applied to it; whether a step is a
    careful one is decided by a program. *)

From stdpp Require Import list gmap relations.
From S2P Require Import Prelude State ReplayWindow LinkedQueue OutQueue TaskHeap RateLimiter Metrics Crypto Wire Text Fragment.
From S2P Require Import Server Handshake PacketProcessor Scheduler ThreadPool EventLoop ServerLogic HandshakeProofs DataPath.
From S2P Require Import Refused Safety ServerMain ServerRun ServerStart Numbers NumbersRun Once Demo ServerDemo.
From S2P Require ServerKey Shutdown.
Local Open Scope Z_scope.

#[local] Existing Instance toy_sodium.
#[local] Existing Instance toy_laws.

(** ** Deciding careful steps *)

Definition advance (v : env) (a : action) (p : program) : program :=
  match act v a p with Ok (_, p') => p' | Err _ => p end.

Definition small_shard (o : option priority_queue_t) : bool :=
  match o with Some pq => 2 * Z.of_nat (TaskHeap.size pq) <=? INT_MAX | None => true end.

Definition honest_plain (plain : list byte) : bool :=
  (sizeof_tunnel_header <=? length plain)%nat && match u16_at plain 4 with Ok total => total <=? MAX_PACKET_SIZE | Err _ => true end.

Definition opens_honest (buf : list byte) (s : session_t) : bool :=
  negb (active s) ||
  match aead_decrypt (k_recv s) (session_id s) (packet_seq buf) (drop DATA_HEADER_LEN buf) with
  | Some plain => honest_plain plain
  | None => true
  end.

(** Main has not returned and is not about to; the datagrams it reads are whole, and
    those a worker handles honest. *)
Definition permits (p : program) (a : action) : bool :=
  negb (bool_decide (phase p = Finished)) &&
  match a with
  | Main waited => negb (bool_decide (phase p = Joining))
  | _ => true
  end &&
  match a with
  | Main (Ready evs) => forallb (fun ev => forallb (fun d => (length d.1 <? sizeof_proto_header)%nat || (DATA_HEADER_LEN <=? length d.1)%nat)
      (datagrams ev)) evs
  | Main (WaitError _) => true
  | Worker k _ _ => (Z.of_nat k <? thread_pool_num_threads (g_thread_pool p)) &&
      match next_job p k with
      | Some (JOB_TYPE_INBOUND_CRYPTO buf _ _ _) => forallb (opens_honest buf) (sessions (server p))
      | _ => true
      end
  | Shard _ => false
  end.

Definition fresh_id (w : world) (f : list byte) : bool :=
  forallb (fun n => negb (bool_decide (n.1 = f))) (used w) &&
  forallb (fun s => negb (active s) || negb (bool_decide (session_id s = f))) (sessions w).

(** A permitted step that is defined; a careful one; one that does not draw [sid]. *)
Definition goes (v : env) (a : action) (p : program) : bool :=
  (length (e_junk v) =? SESSION_ID_LEN)%nat && forallb small_shard (g_shards (server p)) && permits p a &&
  match act v a p with Ok _ => true | Err _ => false end.
Definition careful (v : env) (a : action) (p : program) : bool :=
  goes v a p && forallb (fresh_id (server p)) (step_ids p a) &&
  forallb (fun s => negb (active s) || (send_seq s + step_numbers p a <? 2 ^ 64)) (sessions (server p)).
Definition avoids (sid : list byte) (v : env) (a : action) (p : program) : bool :=
  goes v a p && negb (bool_decide (sid ∈ step_ids p a)).

Lemma forallb_lookup {A} (f : A -> bool) l i x : forallb f l = true -> l !! i = Some x -> f x = true.
Proof. intros H Hi. rewrite forallb_forall in H. apply H, list_elem_of_In. by eapply list_elem_of_lookup_2. Qed.

Lemma fresh_id_ok w f : fresh_id w f = true -> unused w f.
Proof.
  intros [H1 H2]%andb_true_iff. split.
  - intros q Hq. rewrite forallb_forall in H1. apply list_elem_of_In in Hq. specialize (H1 _ Hq).
    cbn in H1. rewrite bool_decide_true in H1; done.
  - intros i s Hi Ha E. pose proof (forallb_lookup _ _ _ _ H2 Hi) as H. cbn in H. rewrite Ha in H. cbn in H.
    rewrite bool_decide_true in H; done.
Qed.

Lemma permits_ok p a : permits p a = true -> permitted p a.
Proof.
  intros [[Hf%negb_true_iff%bool_decide_eq_false Hj]%andb_true_iff H]%andb_true_iff. split; [done|]. revert Hj H.
  destruct a as [[e|evs]|k e e'|k]; cbn [permits]; [intros Hj%negb_true_iff%bool_decide_eq_false _; by split| | |done].
  - intros Hj%negb_true_iff%bool_decide_eq_false H. split; [|by intros ?]. apply Forall_forall. intros ev Hev. apply Forall_forall. intros d Hd.
    rewrite forallb_forall in H. apply list_elem_of_In in Hev. specialize (H _ Hev). cbn in H.
    rewrite forallb_forall in H. apply list_elem_of_In in Hd. specialize (H _ Hd).
    apply orb_true_iff in H as [H|H]; [left; by apply Nat.ltb_lt|right; by apply Nat.leb_le].
  - intros _ [Hk Hj]%andb_true_iff. split; [by apply Z.ltb_lt|]. intros job Hjob. rewrite Hjob in Hj.
    destruct job as [buf src sock sk| |]; [|done..]. intros i s plain Hi Ha Hd. pose proof (forallb_lookup _ _ _ _ Hj Hi) as H.
    unfold opens_honest in H. rewrite Ha, Hd in H. cbn [negb orb] in H. apply andb_true_iff in H as [Hl Ht].
    split; [by apply Nat.leb_le|]. intros total E. rewrite E in Ht. by apply Z.leb_le.
Qed.

Lemma goes_ok v a p :
  goes v a p = true -> env_ok v (server p) /\ permitted p a /\ act v a p = Ok (tt, advance v a p).
Proof.
  intros [[[Hj Hs]%andb_true_iff Hp]%andb_true_iff Ha]%andb_true_iff.
  unfold advance. destruct (act v a p) as [[[] p']|] eqn:E; [|done]. split; [split|split; [by apply permits_ok|done]].
  - by apply Nat.eqb_eq.
  - apply Forall_forall. intros o Ho pq ->. rewrite forallb_forall in Hs.
    apply list_elem_of_In in Ho. by apply Z.leb_le, (Hs (Some pq)).
Qed.

Lemma careful_ok v a p : careful v a p = true -> careful_step p (advance v a p).
Proof.
  intros [[(Hv & Hp & E)%goes_ok Hf]%andb_true_iff Hr]%andb_true_iff. apply (careful_act p _ v a); [done..| | |done].
  - apply Forall_forall. intros f Hin. apply fresh_id_ok. rewrite forallb_forall in Hf. by apply Hf, list_elem_of_In.
  - intros i s Hi Hact. pose proof (forallb_lookup _ _ _ _ Hr Hi) as H. cbn in H. rewrite Hact in H. by apply Z.ltb_lt.
Qed.

Lemma avoids_ok sid v a p : avoids sid v a p = true -> avoiding sid p (advance v a p).
Proof.
  intros [(Hv & Hp & E)%goes_ok Hs%negb_true_iff%bool_decide_eq_false]%andb_true_iff. by apply (avoiding_act sid p _ v a).
Qed.

(** ** The run *)

Definition connect : action := Main (Ready [{| fd := 5; datagrams := [(demo_msg1, peer)]; packets := [] |}]).
Definition tunnel_packet : action := Main (Ready [{| fd := 6; datagrams := []; packets := [demo_ip] |}]).
Definition worker (k : nat) : action := Worker k server_eph server_eph.

(** The client connects, then the packet arrives for it. *)
Definition demo_acts : list action := [connect; worker 0; tunnel_packet; worker 2].
Definition after (acts : list action) (p : program) : program := foldl (fun p a => advance calm a p) p acts.

(** Every step of a run is careful. *)
Fixpoint all_careful (acts : list action) (p : program) : bool :=
  match acts with [] => true | a :: acts => careful calm a p && all_careful acts (advance calm a p) end.

Lemma all_careful_ok acts : forall p, all_careful acts p = true -> rtc careful_step p (after acts p).
Proof.
  induction acts as [|a acts IH]; intros p; cbn [all_careful after foldl]; [constructor|].
  intros [Ha Hs]%andb_true_iff. econstructor; [by apply careful_ok|]. by apply IH.
Qed.

Lemma no_number_reuse_witness :
  exists p h p', launch = Ok (inr p, h) /\ rtc careful_step p p' /\ snd <$> sent (server p') = [0; 1; 2] /\ NoDup (used (server p')).
Proof.
  assert (H : match launch with
    | Ok (inr p, _) => all_careful demo_acts p && bool_decide (snd <$> sent (server (after demo_acts p)) = [0; 1; 2])
    | _ => false end = true) by (by vm_compute).
  destruct launch as [[[rc|p] h]|] eqn:E; [discriminate H| |discriminate H].
  apply andb_true_iff in H as [Hc Hn]. apply all_careful_ok in Hc. apply bool_decide_eq_true in Hn.
  exists p, h, (after demo_acts p). split; [reflexivity|]. split; [exact Hc|]. split; [exact Hn|].
  apply (no_number_reuse inet_aton_server server_argv good_replies 100 (zeros SESSION_ID_LEN) first_host p h (after demo_acts p) E
    eq_refl eq_refl Hc).
Defined.

(** ** A keepalive, twice *)

(** What the client of slot 0 sends first. *)
Definition first_keepalive (p : program) : list byte :=
  match sessions (server p) !! 0%nat with
  | Some s => data_packet (session_id s) 1 (default [] (aead_encrypt (k_recv s) (session_id s) 1 keepalive_plain))
  | None => []
  end.
Definition arrives (d : list byte) : action := Main (Ready [{| fd := 5; datagrams := [(d, peer)]; packets := [] |}]).

(** The client connects and its keepalive is submitted; the second worker runs it; then a
    copy of it arrives. *)
Definition before_keepalive (p : program) : program :=
  let p := after [connect; worker 0] p in after [arrives (first_keepalive p)] p.
Definition window_max (p : program) : option Z := (fun s => recv_max (rw s)) <$> sessions (server p) !! 0%nat.

Lemma untouched_window buf w w' i : untouched buf w w' -> rw <$> sessions w' !! i = rw <$> sessions w !! i.
Proof.
  intros (ss & m & r & -> & Hss). cbn [sessions set]. destruct Hss as [->|(j & s & Hj & _ & _ & ->)]; [done|].
  destruct (decide (j = i)) as [->|Hne]; [|by rewrite list_lookup_insert_ne].
  rewrite list_lookup_insert_eq by (by eapply lookup_lt_Some). by rewrite Hj.
Qed.

(** What the run is, checked by computation. *)
Definition keepalive_run (p : program) : bool :=
  let p1 := after [connect; worker 0] p in
  let d := first_keepalive p1 in
  let p2 := advance calm (arrives d) p1 in
  let p3 := advance calm (worker 1) p2 in
  all_careful [connect; worker 0] p && careful calm (arrives d) p1 && goes calm (worker 1) p2 &&
  match next_job p2 1 with
  | Some (JOB_TYPE_INBOUND_CRYPTO buf src sock sk) => bool_decide (buf = d)
  | _ => false
  end &&
  match read_proto d with Ok ph => negb (type ph =? PKT_TYPE_HANDSHAKE) | Err _ => false end &&
  (DATA_HEADER_LEN <=? length d)%nat && bool_decide (window_max p2 = Some 0) && bool_decide (window_max p3 = Some 1) &&
  avoids (packet_id d) calm (arrives d) p3 && negb (bool_decide (phase (advance calm (arrives d) p3) = Finished)).

Lemma takes_effect_once_witness :
  exists p h p2 p3 p4 d w', launch = Ok (inr p, h) /\ rtc careful_step p p2 /\ window_max p2 = Some 0 /\
    act calm (worker 1) p2 = Ok (tt, p3) /\ window_max p3 = Some 1 /\ avoiding (packet_id d) p3 p4 /\
    handle_inbound_udp server_eph server_eph 5 d peer server_key (server p4) = Ok (tt, w') /\ untouched d (server p4) w'.
Proof.
  assert (H : match launch with Ok (inr p, _) => keepalive_run p | _ => false end = true) by (by vm_compute).
  destruct launch as [[[rc|p] h]|] eqn:E; [discriminate H| |discriminate H]. unfold keepalive_run in H. cbv zeta in H.
  revert H. set (p1 := after [connect; worker 0] p). set (d := first_keepalive p1). set (p2 := advance calm (arrives d) p1).
  set (p3 := advance calm (worker 1) p2). set (p4 := advance calm (arrives d) p3). clearbody d.
  intros [[[[[[[[[Hc Hd]%andb_true_iff Hgo]%andb_true_iff Hjob]%andb_true_iff Hph]%andb_true_iff Hlen]%andb_true_iff
    Hb]%andb_true_iff Hf]%andb_true_iff Hav]%andb_true_iff Hend%negb_true_iff%bool_decide_eq_false]%andb_true_iff.
  assert (Hr : rtc careful_step p p2).
  { eapply rtc_r; [exact (all_careful_ok _ p Hc)|exact (careful_ok calm (arrives d) p1 Hd)]. }
  apply goes_ok in Hgo as (Hv & Hp & Ea). fold p3 in Ea. apply avoids_ok in Hav. fold p4 in Hav.
  apply bool_decide_eq_true in Hb, Hf. apply Nat.leb_le in Hlen.
  destruct (next_job p2 1) as [[buf src sock sk| |]|] eqn:Hj; [|discriminate Hjob..]. apply bool_decide_eq_true in Hjob as ->.
  destruct (read_proto d) as [ph|] eqn:Eph; [|discriminate Hph]. apply negb_true_iff, Z.eqb_neq in Hph.
  destruct (takes_effect_once inet_aton_server server_argv good_replies 100 (zeros SESSION_ID_LEN) first_host p h p2 p3 p4 calm 1
    server_eph server_eph d src sock sk ph E eq_refl eq_refl Hr Hv Hp Hj Ea Eph Hph Hlen) with server_eph server_eph 5 peer server_key
    as (w' & Ew & Hu).
  - intros Hu. apply (untouched_window _ _ _ 0) in Hu. unfold window_max in Hb, Hf.
    change (sessions (enter calm (server p2))) with (sessions (server p2)) in Hu.
    assert (Hm : recv_max <$> (rw <$> sessions (server p3) !! 0%nat) = recv_max <$> (rw <$> sessions (server p2) !! 0%nat)) by (by rewrite Hu).
    rewrite <- !option_fmap_compose in Hm. unfold compose in Hm. rewrite Hb, Hf in Hm. discriminate Hm.
  - by apply rtc_once.
  - exact Hend.
  - exists p, h, p2, p3, p4, d, w'. by repeat (split; [assumption || reflexivity|]).
Defined.
