(* ===== verification/EndToEndDemo.v ===== *)
(** The concrete server of Demo and the concrete client of ClientDemo together: the
    end-to-end properties applied to them. *)

From Stdlib Require Import Strings.String.
From stdpp Require Import list gmap relations.
From S2P Require Import Text ServerMain ServerStart ServerDemo.
From S2P Require ServerKey.
From S2P Require Import Prelude State ReplayWindow OutQueue TaskHeap RateLimiter Metrics Crypto Wire Fragment Clock.
From S2P Require Import Server Handshake PacketProcessor EventLoop ServerLogic HandshakeProofs DataPath Reassembly Demo.
From S2P Require Import Text ClientOptions Client ClientHandshake Sender ClientLoop ClientLogic ClientData.
From S2P Require Import ClientHandshakeProofs SenderProofs EndToEnd ClientDemo.
Local Open Scope Z_scope.

#[local] Existing Instance toy_sodium.
#[local] Existing Instance toy_laws.
#[local] Opaque demo demo_args Demo.client session_zero.

(** ** Finding the server *)

Lemma client_finds_server_witness :
  exists k p h, launch = Ok (inr p, h) /\
    parse_arguments inet_aton_server (bytes "chamlon" :: bytes "192.168.1.1" :: bytes "13330" ::
        concat (hex2 <$> ServerKey.sign_pk k) :: command_line) = Ok (Some (ServerKey.sign_pk k, bind_addr p, chosen)).
Proof.
  destruct launch_enters as (p & h & E).
  destruct (client_finds_server inet_aton_server (bytes "chamlon_server") (bytes "192.168.1.1") (bytes "13330") good_replies 100
    (zeros SESSION_ID_LEN) first_host p h (bytes "chamlon") command_line chosen ServerKey.draw_ok E command_line_ok)
    as (k & w & before & _ & _ & Hp).
  exists k, p, h. split; [exact E|exact Hp].
Defined.

(** ** The key exchange *)

(** Two turns of the wait that bring nothing: a data packet, and a spurious wake-up. *)
Definition noise : list poll :=
  [{| at_time := 101; selected := SelectReady (IoData (proto_bytes data_header)) |};
   {| at_time := 102; selected := SelectReady (IoError EAGAIN) |}].

Lemma noise_harmless : Forall (harmless 115) noise.
Proof.
  apply Forall_cons. split; [split; [done|exists data_header; by vm_compute]|].
  apply Forall_cons. split; [by split|apply Forall_nil_2].
Qed.

Lemma exchange_admissible :
  admissible server_eph 5 (msg1_of eph (initial sign_key server_at chosen 100 (zeros 1600))) peer (replicate 32 (z2b 9)) fresh_server.
Proof.
  split; [by eexists|]. split; [by vm_compute|]. split; [by vm_compute|]. split.
  { exists 0%nat, session_zero. split; [reflexivity|apply session_zero_idle]. }
  split; [by eexists; vm_compute|]. done.
Qed.

Lemma key_agreement_witness :
  exists w' i s hs, handle_msg1 server_eph 5 (msg1_of eph (initial sign_key server_at chosen 100 (zeros 1600))) peer
      (replicate 32 (z2b 9)) fresh_server = Ok (0, w') /\
    sessions w' !! i = Some s /\ agreed (initial sign_key server_at chosen 100 (zeros 1600)) hs i s.
Proof.
  destruct (key_agreement eph server_eph (replicate 32 (z2b 9)) (replicate 64 (z2b 9)) 5 4 peer true noise 103 fresh_server
    (initial sign_key server_at chosen 100 (zeros 1600)) (proj1 fresh_ok) (proj2 fresh_ok))
    as (w' & i & s & m2 & hs & c' & E & Hi & _ & _ & _ & _ & Hag).
  - reflexivity.
  - by vm_compute.
  - by vm_compute.
  - reflexivity.
  - constructor; cbn; [lia|lia|by left|by right].
  - apply exchange_admissible.
  - reflexivity.
  - unfold msg2_length. cbn [junk initial]. unfold zeros. rewrite length_replicate. apply Nat.leb_le. by vm_compute.
  - apply Nat.ltb_lt. by vm_compute.
  - exact noise_harmless.
  - reflexivity.
  - exists w', i, s, hs. split; [exact E|]. split; [exact Hi|exact Hag].
Defined.

(** The client of ClientDemo renews its keys with the server of Demo. *)
Lemma demo_signer : server_pk (srv demo) = replicate 32 (z2b 9) /\ ios demo = [].
Proof. by vm_compute. Qed.
Lemma demo_clock : now demo = 101.
Proof. by vm_compute. Qed.

Lemma rekey_agreement_witness :
  exists w' s s' m2 c',
    handle_rehandshake_msg1 server_eph server_eph 5 (msg1_of eph demo) peer (replicate 32 (z2b 9)) (busy_server ch_N aq_empty) = Ok (0, w') /\
    rehandshake_client_with_state eph 4 (noise ++ [{| at_time := 103; selected := SelectReady (IoData m2) |}]) demo = Ok (0, c') /\
    rekeyed_together true demo c' s s'.
Proof.
  destruct (busy_ok ch_N aq_empty (or_intror eq_refl) (Forall_nil_2 _)) as [Hw Hsm]. destruct demo_signer as [Hpk Hio].
  destruct (rekey_agreement eph server_eph server_eph (replicate 32 (z2b 9)) (replicate 64 (z2b 9)) 5 4 peer noise 103 0
    (busy_server ch_N aq_empty) demo (tick 7) (tick 8) (tick 7) Hw Hsm)
    as (w' & s & s' & m2 & c' & E & _ & _ & _ & Ec & _ & Hk & _).
  - reflexivity.
  - reflexivity.
  - exact known_peer.
  - rewrite Hpk. reflexivity.
  - by vm_compute.
  - reflexivity.
  - reflexivity.
  - by eexists; vm_compute.
  - exact demo_ok.
  - exact demo_attempts.
  - exact Hio.
  - apply Nat.ltb_lt. by vm_compute.
  - rewrite demo_clock. eapply Forall_impl; [exact noise_harmless|]. intros q [Ht Hq]. split; [lia|exact Hq].
  - rewrite demo_clock. lia.
  - exact demo_counts.
  - apply tick_normal.
  - apply tick_normal.
  - exists w', s, s', m2, c'. split; [exact E|]. split; [exact Ec|exact Hk].
Defined.

(** ** The tunnel *)

(** The client of ClientDemo, in a session with the server of Demo. *)
Definition connect (c : Client.client) : Client.client :=
  c <| srv ::= (fun s => s <| k_send := replicate 32 (z2b 3) |> <| k_recv := replicate 32 (z2b 3) |>
                           <| session_id := replicate 16 (z2b 7) |> <| send_seq := 1 |>) |>.

Lemma connect_ok c : client_ok c -> client_ok (connect c).
Proof. intros Hc. apply (client_ok_srv c); [done|]. destruct (ok_srv c Hc). by constructor. Qed.

Lemma connect_fields c :
  mallocs (connect c) = mallocs c /\ ios (connect c) = ios c /\ g_outq (connect c) = g_outq c /\
  sender (connect c) = sender c /\ rw (connect c) = rw c /\ g_next_packet_id (connect c) = g_next_packet_id c /\
  g_reassembly_table (connect c) = g_reassembly_table c /\ (counts_small c -> counts_small (connect c)) /\
  send_seq (srv (connect c)) = 1 /\ k_send (srv (connect c)) = replicate 32 (z2b 3) /\
  k_recv (srv (connect c)) = replicate 32 (z2b 3) /\ session_id (srv (connect c)) = replicate 16 (z2b 7).
Proof. done. Qed.

Definition connected : Client.client := connect demo.

Lemma connected_ok : client_ok connected.
Proof. apply connect_ok, demo_ok. Qed.

Lemma demo_idle :
  mallocs demo = [] /\ ios demo = [] /\ g_outq demo = aq_empty /\ rw demo = window_zero /\ g_next_packet_id demo = 1 /\
  g_reassembly_table demo = replicate MAX_REASSEMBLY_ENTRIES entry_zero.
Proof. by vm_compute. Qed.

Lemma connected_fields :
  mallocs connected = [] /\ ios connected = [] /\ g_outq connected = aq_empty /\ sender connected = Some demo_args /\
  counts_small connected /\ rw connected = window_zero /\
  g_reassembly_table connected = replicate MAX_REASSEMBLY_ENTRIES entry_zero /\ send_seq (srv connected) = 1 /\
  k_send (srv connected) = replicate 32 (z2b 3) /\ k_recv (srv connected) = replicate 32 (z2b 3) /\
  session_id (srv connected) = replicate 16 (z2b 7).
Proof.
  destruct demo_idle as (H1 & H2 & H3 & H4 & _ & H6).
  destruct (connect_fields demo) as (E1 & E2 & E3 & E4 & E5 & _ & E7 & Hc & E8 & E9 & E10 & E11).
  unfold connected. rewrite E1, E2, E3, E4, E5, E7, E8, E9, E10, E11, H1, H2, H3, H4, H6, demo_sender.
  split_and!; try reflexivity. apply Hc, demo_counts.
Qed.
#[local] Opaque connected.

(** A 1500-byte packet. *)
Definition big_ip : list byte := replicate 16 (z2b 0x45) ++ ip_of 0 ++ replicate 1480 (z2b 0x11).
Lemma length_big_ip : length big_ip = 1500%nat.
Proof. unfold big_ip. rewrite !length_app, !length_replicate. done. Qed.

Lemma upload_witness :
  exists c1 next' c2 ds rest l' w',
    handle_tun_packet (IoData big_ip) connected = Ok (tt, c1) /\
    sender_turn (tick 7) (tick 8) (tick 7) c1 = Ok (Some next', c2) /\
    trace c2 = trace connected ++ (UdpSend (sa_udp_sock demo_args) (sa_server_addr demo_args) <$> ds) ++ rest /\
    lets_through (length (fragments connected (g_next_packet_id connected) big_ip)) 100 (sin_addr peer) (rl fresh_server) = Some l' /\
    run_all (fun buf => handle_inbound_udp server_eph server_eph 5 buf peer server_key) ds
      (busy_server ch_N aq_empty) = Ok (tt, w') /\
    Server.trace w' = [TunWrite big_ip].
Proof.
  destruct connected_fields as (Hm & Hio & Hq & Hsd & Hcnt & _ & _ & Hseq & Hks & _ & Hsid).
  destruct (Demo.client_keys ch_N aq_empty) as (_ & _ & _ & Hrw & _ & _ & _ & Htbl); [by right|].
  destruct (lets_through (length (fragments connected (g_next_packet_id connected) big_ip)) 100 (sin_addr peer) (rl fresh_server))
    as [l'|] eqn:Hlim; [|exfalso; revert Hlim; by vm_compute].
  destruct (upload big_ip connected demo_args (tick 7) (tick 8) (tick 7) server_eph server_eph 5 peer server_key 0
    (busy_server ch_N aq_empty) (Demo.client ch_N aq_empty) ∅ l' connected_ok Hm Hio Hq Hsd Hcnt (tick_normal 7) (tick_normal 8))
    as (c1 & next' & c2 & ds & rest & tbl & r & E1 & E2 & Et & _ & Er).
  - rewrite length_big_ip. lia.
  - rewrite Hks, Hsid. exact client_linked.
  - rewrite Hrw. apply window_zero_rep.
  - rewrite Hrw, Hseq. reflexivity.
  - rewrite length_big_ip, Hseq. lia.
  - intros x Hx. rewrite Htbl in Hx. apply elem_of_replicate in Hx as [-> _]. intros Ha. discriminate Ha.
  - exists entry_zero. rewrite Htbl. split; [|reflexivity]. apply elem_of_replicate. split; [reflexivity|discriminate].
  - reflexivity.
  - exact Hlim.
  - exists c1, next', c2, ds, rest, l'. eexists. split; [exact E1|]. split; [exact E2|]. split; [exact Et|]. split; [reflexivity|].
    split; [exact Er|]. unfold delivered. cbn [Server.trace set]. by rewrite busy_trace.
Defined.

Lemma download_witness :
  exists w' ds c' tbl r,
    handle_outbound_tun_buf big_ip (busy_server ch_N aq_empty) = Ok (tt, w') /\
    run_all deliver ds connected = Ok (tt, c') /\
    c' = connected <| g_reassembly_table := tbl |> <| rw := r |> <| trace := trace connected ++ [TunWrite big_ip] |>.
Proof.
  destruct connected_fields as (_ & Hio & _ & _ & _ & Hrw & Htbl & _ & _ & Hkc & Hic).
  destruct (busy_ok ch_N aq_empty (or_intror eq_refl) (Forall_nil_2 _)) as [Hw _].
  destruct (Demo.client_keys ch_N aq_empty) as (_ & Hks & Hsid & _ & _ & Hcbr & _); [by right|].
  destruct (client_peer ch_N aq_empty (or_intror eq_refl)) as (_ & _ & Hseq).
  destruct (download big_ip 0 (busy_server ch_N aq_empty) (Demo.client ch_N aq_empty) connected ∅ Hw)
    as (w' & ds & c' & tbl & r & E1 & _ & E2 & Ec').
  - reflexivity.
  - apply client_active. by right.
  - exact Hcbr.
  - reflexivity.
  - reflexivity.
  - rewrite length_big_ip. lia.
  - by vm_compute.
  - exact connected_ok.
  - exact Hio.
  - rewrite Hkc, Hks. reflexivity.
  - rewrite Hic, Hsid. reflexivity.
  - rewrite Hrw. apply window_zero_rep.
  - rewrite Hrw, Hseq. reflexivity.
  - rewrite length_big_ip, Hseq. lia.
  - rewrite Htbl. discriminate.
  - rewrite Htbl. apply Forall_replicate. reflexivity.
  - exists w', ds, c', tbl, r. split; [exact E1|]. split; [exact E2|exact Ec'].
Defined.
