(* ===== verification/Findings.v ===== *)
(** Behaviours of the code that its comments or its purpose do not suggest, each
    shown on the concrete server of [Demo] or in general. *)

From stdpp Require Import list gmap relations.
From S2P Require Import Prelude State ReplayWindow OutQueue TaskHeap RateLimiter Metrics Crypto Wire Fragment Server Handshake.
From S2P Require Import PacketProcessor Scheduler EventLoop Pacing ServerLogic HandshakeProofs DataPath Numbers Demo.
From S2P Require Import ServerMain ServerRun NumbersRun ServerDemo NumbersDemo.
From S2P Require ServerKey.
Local Open Scope Z_scope.

#[local] Existing Instance toy_sodium.

Definition failed {A} (o : outcome A) (u : ub) : bool :=
  match o, u with
  | Err OutOfBounds, OutOfBounds | Err NullDeref, NullDeref => true
  | _, _ => false
  end.
Definition trace_of {A} (o : outcome (A * world)) : option (list event) :=
  match o with Ok (_, w) => Some (trace w) | Err _ => None end.
Definition first_active {A} (o : outcome (A * world)) : option bool :=
  match o with Ok (_, w) => active <$> sessions w !! 0%nat | Err _ => None end.

(** A tunnel header for the session in slot 0. *)
Definition header (id off total fl : Z) : list byte :=
  tunnel_bytes {| packet_id := id; fragment_offset := off; total_ip_len := total; flags := fl;
                  th_session_id := zeros SESSION_ID_LEN |}.
Definition demo_server : world := busy_server ch_N aq_empty.

Fixpoint run_plain (plains : list (list byte)) : M unit :=
  match plains with [] => mret tt | p :: ps => _ ← handle_plain 0 p; run_plain ps end.

(** Sequence number 0, with which every session starts, is always rejected: the
    first packet of a session is lost. *)
Theorem first_packet_rejected r : check_replay 0 r = Ok true.
Proof. reflexivity. Qed.

(** An authenticated packet with fewer than 24 bytes of plaintext makes the length
    of the copy wrap around: with an offset that brings the sum back into range,
    [memcpy] is called with a length near [2^64]. *)
Theorem short_plaintext_wild_copy :
  failed (handle_plain 0 (take 8 (header 1 100 50 0)) demo_server) OutOfBounds = true.
Proof. by vm_compute. Qed.

(** A packet of 6 to 21 bytes that is not a handshake is looked up by a session id
    past its end. *)
Theorem truncated_packet_over_read :
  failed (handle_inbound_udp server_eph server_eph 5 (proto_bytes data_header ++ zeros 4) peer server_key demo_server) OutOfBounds = true.
Proof. by vm_compute. Qed.

(** A packet whose last fragment overtakes the others is never delivered, though
    every byte has arrived. *)
Theorem last_fragment_first_lost :
  trace_of (run_plain [header 1 40 80 0 ++ zeros 40; header 1 0 80 0x8000 ++ zeros 40] demo_server) = Some [] /\
  trace_of (run_plain [header 1 0 80 0x8000 ++ zeros 40; header 1 40 80 0 ++ zeros 40] demo_server) = Some [TunWrite (zeros 80)].
Proof. split; by vm_compute. Qed.

(** The total length in a fragment is not compared with the reassembly buffer: once
    enough bytes have been counted, the packet is written from past its end. *)
Theorem total_length_over_read :
  failed (run_plain [header 1 0 4000 0x8000 ++ zeros 1400; header 1 0 4000 0x8000 ++ zeros 1400;
                     header 1 0 4000 0 ++ zeros 1400] demo_server) OutOfBounds = true.
Proof. by vm_compute. Qed.

(** The idle timeout is 60 seconds, but the keepalive the server itself sends counts
    as activity: a client that never answers is kept. *)
Fixpoint maintain (ts : list Z) : M unit :=
  match ts with
  | [] => mret tt
  | t :: ts => _ ← modify (fun w => w <| now := t |>); _ ← perform_maintenance 5; maintain ts
  end.
Theorem silent_client_kept : first_active (maintain [30; 60; 90; 120; 150; 180; 210] demo_server) = Some true.
Proof. by vm_compute. Qed.

(** When the allocation of the queue fails in a key rotation, the rotation goes on,
    and the next slot of the session dereferences a null queue. *)
Theorem rotation_without_queue :
  failed ((_ ← modify (fun w => w <| mallocs := [false] |>);
           _ ← handle_rehandshake_msg1 server_eph server_eph 5 demo_msg1 peer server_key;
           ss ← get sessions;
           execute_send (default [] (session_id <$> ss !! 0%nat))) demo_server) NullDeref = true.
Proof. by vm_compute. Qed.

(** Sequence numbers are given out when packets are queued, and HIGH packets leave
    first: a NORMAL packet overtaken by 64 of them is taken for a replay. *)
Theorem overtaken_packet_rejected :
  forall w, recv_max w = 65 -> check_replay 1 w = Ok true.
Proof. intros w H. unfold check_replay. rewrite H. by vm_compute. Qed.

(** ** The wake-up a worker can miss

    [thread_pool_destroy] sets [shutdown] and broadcasts without the lock that the worker
    holds from its test of [shutdown] to its [pthread_cond_wait]. *)

(** A worker with an empty queue: about to test, having tested, asleep, or gone. *)
Inductive waiting_worker := Testing | Tested | Asleep | Gone.

(** Main in [thread_pool_destroy]: before the flag, before the broadcast, or joining. *)
Inductive destroying_main := BeforeFlag | BeforeBroadcast | InJoin.

(** The steps of the two threads; a broadcast wakes a worker that sleeps. *)
Inductive wait_step : waiting_worker * destroying_main -> waiting_worker * destroying_main -> Prop :=
  | worker_tests : wait_step (Testing, BeforeFlag) (Tested, BeforeFlag)
  | worker_sees_flag m : m <> BeforeFlag -> wait_step (Testing, m) (Gone, m)
  | worker_sleeps m : wait_step (Tested, m) (Asleep, m)
  | main_flags t : wait_step (t, BeforeFlag) (t, BeforeBroadcast)
  | main_wakes : wait_step (Asleep, BeforeBroadcast) (Testing, InJoin)
  | main_wakes_nobody t : t <> Asleep -> wait_step (t, BeforeBroadcast) (t, InJoin).

(** The worker can fall asleep after the broadcast; then neither thread has a step, and
    the join never returns. *)
Theorem wakeup_lost :
  rtc wait_step (Testing, BeforeFlag) (Asleep, InJoin) /\ forall s, ~ wait_step (Asleep, InJoin) s.
Proof.
  split.
  - eapply rtc_l; [apply worker_tests|]. eapply rtc_l; [apply main_flags|].
    eapply rtc_l; [by apply main_wakes_nobody|]. eapply rtc_l; [apply worker_sleeps|apply rtc_refl].
  - intros s H. inversion H.
Qed.

(** [send_outbound_packet] from the number it has drawn on. *)
Definition seal_outbound (seq : Z) (i : nat) (buf2 : list byte) (real_data_len : Z) (ip : list byte) : M unit :=
  s ← session i;
  p ← lift (if bool_decide (argv_CBR s = ch_Y) && (real_data_len <? frag_size s) then
              b ← packet_padding buf2 real_data_len (argv_FRAG s); Ok (b, frag_size s)
            else Ok (buf2, real_data_len));
  pt ← lift (buf_read p.1 0 (Z.to_nat p.2));
  ct ← lift (encrypt (k_send s) (session_id s) seq pt);
  match ct with
  | None => mret tt
  | Some out =>
    ok ← malloc;
    if negb ok then mret tt
    else
      let pkt := data_packet (session_id s) seq out in
      if bool_decide (argv_CBR s = ch_Y) then queue_push i pkt seq ip
      else _ ← sendto (s_udp_sock s) pkt (client_addr s); mret tt
  end.

Lemma send_outbound_split i buf2 n ip :
  send_outbound_packet i buf2 n ip = (seq ← next_seq i; seal_outbound seq i buf2 n ip).
Proof. reflexivity. Qed.

(** The worker that sends does not hold the lock of the sessions: another worker can
    rotate the keys between the two.  The packet then carries its old number under the
    new key, and when the new session reaches that number it is used again; the steps of
    NumbersRun, whole handlers, exclude it. *)
Definition rotation_between : M unit :=
  seq ← next_seq 0;
  _ ← handle_rehandshake_msg1 server_eph server_eph 5 demo_msg1 peer server_key;
  _ ← seal_outbound seq 0 (zeros 64) 64 demo_ip;
  _ ← send_outbound_packet 0 (zeros 64) 64 demo_ip;
  send_outbound_packet 0 (zeros 64) 64 demo_ip.

Theorem rotation_reuses_number :
  match rotation_between demo_server with
  | Ok (_, w) => exists sid, sent w = [(sid, 1); (sid, 0); (sid, 1)]
  | Err _ => False
  end.
Proof. vm_compute. by eexists. Qed.

(** MSG1 carries nothing that authenticates the client: whoever sends one from the
    address of a session, a recorded one included, rotates the session's keys, and the
    real client is cut off. *)
Theorem forged_msg1_rotates :
  match handle_inbound_udp server_eph server_eph 5 demo_msg1 peer server_key demo_server with
  | Ok (_, w) =>
      active <$> sessions w !! 0%nat = Some true /\
      bool_decide (k_recv <$> sessions w !! 0%nat = k_recv <$> sessions demo_server !! 0%nat) = false
  | Err _ => False
  end.
Proof. by vm_compute. Qed.

(** [main] destroys the metrics' mutex before [graceful_shutdown_cleanup] closes the
    sessions in use, which locks it: a client connects while the wait fails, no session is
    in use yet, so main stops the pool; a worker still runs the handshake; and the rest of
    main is undefined. *)
Definition last_handshake : list action :=
  [connect; Main (WaitError 9); worker 0; worker 0; worker 1; worker 2; worker 3].

Definition destroyed {A} (o : outcome A) : bool := match o with Err DestroyedMutex => true | _ => false end.

Lemma joining_undefined v waited q :
  phase q = Joining -> all_left q = true -> destroyed (finish (entered v q)) = true -> act v (Main waited) q = Err DestroyedMutex.
Proof.
  intros Hph Hal Hf. change (act v (Main waited) q) with (main_step waited (entered v q)). rewrite joining_main by done.
  by destruct (finish _) as [|[]].
Qed.

Theorem teardown_undefined :
  exists p h p', launch = Ok (inr p, h) /\ rtc careful_step p p' /\ phase p' = Joining /\ all_left p' = true /\
    forall waited, act ServerDemo.calm (Main waited) p' = Err DestroyedMutex.
Proof.
  assert (H : match launch with
    | Ok (inr p, _) => all_careful last_handshake p &&
        (bool_decide (phase (after last_handshake p) = Joining) && all_left (after last_handshake p) &&
         destroyed (finish (entered ServerDemo.calm (after last_handshake p))))
    | _ => false end = true) by (by vm_compute).
  destruct launch as [[[rc|p] h]|] eqn:E; [discriminate H| |discriminate H].
  apply andb_true_iff in H as [Hc H]. apply andb_true_iff in H as [H Hf]. apply andb_true_iff in H as [Hph Hal].
  apply bool_decide_eq_true in Hph. apply all_careful_ok in Hc.
  exists p, h, (after last_handshake p). split; [reflexivity|]. split; [exact Hc|]. split; [exact Hph|]. split; [exact Hal|]. intros waited.
  by apply joining_undefined.
Qed.

(** The disk takes only the first 100 bytes of the key file, which shows at [fclose]:
    the server runs with a key that the next start does not find. *)
Definition other_pk : list byte := z2b 3 :: replicate 31 (z2b 4).

Theorem identity_lost :
  exists k w1 k' w2, ServerKey.load_or_create_server_key ServerKey.draw (ServerKey.first_start <| ServerKey.saves := Some 100%nat |>) = Ok (Some k, w1) /\
    ServerKey.load_or_create_server_key (Some (other_pk ++ replicate 32 (z2b 0), other_pk)) w1 = Ok (Some k', w2) /\
    ServerKey.sign_pk k' <> ServerKey.sign_pk k.
Proof. do 4 eexists. split; [vm_compute; reflexivity|]. split; [vm_compute; reflexivity|]. by vm_compute. Qed.
