(* ===== verification/ClientFindings.v ===== *)
(** Behaviours of the client that its comments or its purpose do not suggest. *)

From stdpp Require Import list gmap.
From S2P Require Import Prelude State ReplayWindow OutQueue TaskHeap Crypto Wire Fragment Clock.
From S2P Require Import Client ClientHandshake Sender ClientLoop ClientLogic ClientHandshakeProofs SenderProofs.
Local Open Scope Z_scope.

Section findings.
Context `{Sod : Sodium}.

(** Successful calls leave [errno] as it was: once it has been [EAGAIN] and nothing
    has failed since, the loop that drains the socket stops after one packet. *)
Lemma burst_of_one n r rs c c' :
  handle_udp_packet r c = Ok (Continue, c') -> errno c' = EAGAIN -> udp_burst (S n) (r :: rs) c = Ok (Continue, c').
Proof. intros E En. cbn [udp_burst]. change (default (IoError EAGAIN) (hd_error (r :: rs))) with r. unfold mbind, ST_bind. rewrite E. unfold get. by rewrite En. Qed.

(** A disconnect from the server ends the process at once: no route is restored and no
    descriptor closed. *)
Lemma disconnect_leaves_routes plain c :
  (sizeof_tunnel_header <= length plain)%nat -> u16_at plain 6 = Ok PKT_CTRL_DISCONNECT ->
  handle_plain plain c = Ok (Exit, c).
Proof.
  intros Hl Hf. unfold handle_plain, mbind, ST_bind, get, lift. rewrite decide_False by lia. by rewrite Hf.
Qed.

(** The sender thread drains its queue in one burst whatever the pacing mode: only the
    dummy that follows waits for the deadline. *)
Lemma queue_not_paced fuel next c d A a :
  aq_pop (g_outq c) = Some (d, A) -> sender c = Some a -> ios c = [] -> data_REAL c < INT_MAX -> 0 <= data_REAL c ->
  drain_queue (S fuel) next c =
    drain_queue fuel (if bool_decide (argv_CBR c = ch_Y) then timespec_add next (interval a) else next)
      (c <| g_outq := A |> <| data_REAL := data_REAL c + 1 |>
         <| trace := trace c ++ [UdpSend (sa_udp_sock a) (sa_server_addr a) (pkt d)] |>).
Proof.
  intros Hpop Ha Hio Hm H0. cbn [drain_queue]. unfold queue_pop, sender_args, count_real, output, mbind, ST_bind, get, modify, lift.
  rewrite Hpop. destruct c. cbn in *. subst. cbn. rewrite int_of_Ok by (unfold in_int, INT_MIN, INT_MAX in *; lia). done.
Qed.

(** The flush before a rehandshake empties the socket only if nothing in it is an error
    or an empty datagram: after the first of these, whatever is behind it stays and is read
    in place of the answer. *)
Definition carries_data (r : io_result) : Prop := exists b d, r = IoData (b :: d).

Lemma flush_takes_data rs rest :
  Forall carries_data rs -> flush_socket_buffer (rs ++ rest) = prod_map (Nat.add (length rs)) id (flush_socket_buffer rest).
Proof.
  induction 1 as [|r rs (b & d & ->) _ IH]; cbn; [by destruct (flush_socket_buffer rest)|].
  rewrite IH. by destruct (flush_socket_buffer rest).
Qed.

Lemma flush_empties rs : Forall carries_data rs -> flush_socket_buffer rs = (length rs, []).
Proof. intros H. rewrite <- (app_nil_r rs) at 1. rewrite flush_takes_data by done. cbn. by rewrite Nat.add_0_r. Qed.

Lemma flush_stops_early rs rest :
  Forall carries_data rs -> flush_socket_buffer (rs ++ IoData [] :: rest) = (length rs, rest).
Proof. intros H. rewrite flush_takes_data by done. cbn. by rewrite Nat.add_0_r. Qed.

(** A rehandshake restarts the counter the sender thread draws its numbers from before
    that thread has taken over the new key.  When it ends between the thread's check for
    new keys and its dummy packet, the dummy is sealed under the old key with number 0,
    which the first packet of the old session had: the nonce is used twice. *)
Lemma old_key_numbered_again `{!SodiumLaws Sod} e sock script a c c' :
  client_ok c -> rehandshake_attempts (srv c) <= 4 -> sender c = Some a -> data_DUMMY c + 1 <= INT_MAX ->
  rehandshake_client_with_state e sock script c = Ok (0, c') -> ios c' = [] ->
  exists c'', send_one_dummy c' = Ok (true, c'') /\
    trace c'' = trace c' ++ [UdpSend (sa_udp_sock a) (sa_server_addr a) (seal (sa_k_send a) (sa_session_id a) (dummy_plain c') 0)].
Proof.
  intros Hc Hat Ha Hd E Hio. destruct (rehandshake_runs e sock script c Hc Hat) as (r & c1 & E1 & Hc1 & _ & _ & Hres).
  rewrite E in E1. injection E1 as <- <-. destruct Hres as [[Hr _]|(_ & _ & _ & x & _ & _ & _ & [_ [Hq _] _ _ Hs Hsame])]; [done|].
  destruct Hs as (a0 & a' & Ha0 & Ha' & Hks & Hid & Hsock & Hadr). assert (a0 = a) as -> by congruence.
  rewrite <- Hks, <- Hid, <- Hsock, <- Hadr.
  destruct Hsame as (_ & _ & _ & _ & _ & Hdd). assert (Hd' : data_DUMMY c' + 1 <= INT_MAX) by lia.
  destruct (send_one_dummy_ok a' c' (fun b c'' => b = true /\ trace c'' = trace c' ++
    [UdpSend (sa_udp_sock a') (sa_server_addr a') (seal (sa_k_send a') (sa_session_id a') (dummy_plain c') 0)]) Hc1 Ha' Hd')
    as (b & c'' & E2 & -> & Ht).
  - intros c2 _ _ _ Ht. split; [done|]. by rewrite (Ht Hio), Hq.
  - by exists c''.
Qed.

End findings.
